(* ===== verification/_CoqProject ===== *)
-Q . S2P
Prelude.v
JsString.v
Utf8.v
Dates.v
JsMap.v
Json.v
JsNumber.v
Records.v
Timer.v
Wfc.v
Perplexity.v
Regex.v
Substitution.v
IntentTables.v
Intent.v
EvidenceData.v
EvidenceSource.v
Evidence.v
Opinion.v
Recording.v
Study.v
Timeline.v
Proactive.v
Room.v
Vad.v
Memory.v
Diagram.v
Stats.v
Audio.v
Async.v
Pool.v
Bot.v
Handlers.v
Respond.v
Pipeline.v
Attention.v
Events.v
Flowchart.v
Boards.v
AgentRouter.v
RagClient.v
RagInvariant.v
RagDelivery.v
RagReconnect.v
Stt.v
Calendar.v
Search.v
LlmPrompts.v
Llm.v
ToolPrompts.v
DiagramTools.v
JsonLines.v
McpClient.v
McpRequests.v
Mcp.v
RecordingApi.v
LiveKit.v
Vision.v
Tts.v
Maps.v
Upload.v
Translate.v
Lifecycle.v
Endpoints.v
