(* ===== verification/Prelude.v ===== *)
(** * AURA LiveKit backend: verification library

    The program ([src/], a NestJS server in TypeScript) puts a voice assistant into
    video meetings.  A bot joins each LiveKit room as a participant.  It cuts the
    audio of the others into utterances, has them transcribed, decides whether it
    was addressed, and answers by voice, by messages on the data channel, or by
    running a tool: a timer, a search, a diagram, an entry of a calendar.  Around
    the bot there are services that keep their own state: recordings and their
    chapters, a study mode with quizzes, an engine for cognitive states of
    learners, a repository of verified facts from which the bot volunteers
    opinions, proactive insights, a timeline with corrected captions, and a client
    of a retrieval server that remembers meetings.

    ** How the program is modelled

    The program runs on the event loop of JavaScript: a piece of code between two
    [await]s is not interrupted, and other handlers run at each [await].
    - Synchronous code is a function on the state of the component.
    - Asynchronous code is modelled in one of three ways.  Where a function only
      waits and then returns, it takes the answer (or the exception) as an argument
      or is split at its waits ([Study], [Timeline], [Recording]).  The handlers of
      the bot and the services that call the language model are programs of
      [Async], a small language with exceptions, [try], [finally] and awaited
      effects; theorems about them hold for every execution in which the other
      handlers change the state, at each wait, as a hypothesis [Rely] allows.
      Components whose behaviour lies in their timeouts and callbacks are
      transition systems over the event loop ([Timer], [RagClient], [McpClient],
      [Lifecycle], the batches of [Translate]),
      with the timeouts, sockets, processes and promises in the state.  [Pool]
      runs programs of [Async] that overlap on one state, as [Llm] and [LiveKit] do.
    - Objects that several callers hold (contexts of the study mode, buffers of the
      timeline) live in a heap with addresses.
    - [Map]s are association lists in insertion order ([JsMap]); strings are lists
      of UTF-16 code units ([JsString]); JSON values are an inductive type
      ([Json]); numbers are rationals with the infinities and [NaN] where the code
      can meet them ([JsNumber]), so rounding of doubles is left out; regular
      expressions are written as in the source and run by a model of ECMAScript's
      matcher that is proved sound and complete for a relational meaning ([Regex]).
    - A call that reads the clock several times is given one time per piece of
      synchronous code.
    - Packages and services that are not part of the repository (LiveKit, the
      language model, speech services, HTTP, S3, the locale's formats, random
      draws, digests, roots and logarithms) are arguments, effects or events; what
      the code relies on is stated in an interface ([EvidenceSource], [ObjectStore]
      in [Recording]) or as a hypothesis.
    - Exceptions are the constructor [Throw] of [outcome]; messages of exceptions
      that the runtime raises are arguments or a fixed text.

    Fuel.  Every function that is not structurally recursive takes fuel that is
    computed from its input and proved or seen to be enough: the loop of a star in
    [Regex] the remaining input plus one (an iteration that consumes nothing is
    refused); [Json.parse] twice the length plus two; global replacement the length
    plus one; frames of audio and chunks of an utterance the length of the audio;
    the breadth-first search of [Flowchart] the number of edges plus one.  The polling
    loop of [Llm.wait_turn] takes its number of rounds as an argument, and theorems
    hold for every number.

    ** Files

    Shared: [Prelude] (this file: tactics, the hint database [aura], exceptions,
    sorting), [JsString], [JsMap], [Json], [JsNumber], [Records] (update of record
    fields), [Regex], [Substitution] (what global replacement does to the words of
    a text), [Dates] (the calendar of ECMAScript), [Async], [Pool] (calls that
    overlap), [JsonLines] (values that are sent as lines), [Utf8] (texts as bytes).

    Services with their own state (under [src/]):
    - [Timer]: [mcp/tools/timer.tool.ts].
    - [Wfc], [Perplexity]: [perplexity/*.ts].
    - [IntentTables], [Intent]: [intent/intent-classifier.service.ts].
    - [EvidenceData], [EvidenceSource], [Evidence], [Opinion]: [agent/evidence/*.ts].
    - [Recording]: [recording/recording.service.ts].
    - [Study]: [study/study-mode.service.ts].
    - [Timeline]: [livekit/timeline.service.ts].
    - [Proactive]: [agent/proactive/*.ts].
    - [AgentRouter]: [agent/agent-router.service.ts].
    - [RagClient], [RagInvariant], [RagDelivery], [RagReconnect]:
      [rag/rag-client.service.ts].
    - [Stt]: [stt/*.ts].
    - [Calendar]: [calendar/calendar.service.ts] and the requests for the calendar
      in [llm/llm.service.ts].
    - [Search]: [llm/search.service.ts].
    - [LlmPrompts], [Llm]: [llm/llm.service.ts].
    - [ToolPrompts], [DiagramTools]: [mcp/tools/*.tool.ts].
    - [McpClient], [McpRequests]: [mcp/client/*.ts].
    - [Mcp]: [mcp/mcp.service.ts], [mcp/mcp.controller.ts].
    - [RecordingApi]: [recording/recording.controller.ts].
    - [LiveKit]: [livekit/livekit.service.ts], [livekit/livekit.controller.ts] and
      the guards of [auth/].
    - [Vision]: [vision/vision.service.ts].
    - [Tts]: [tts/tts.service.ts].
    - [Upload]: [upload/*.ts].
    - [Maps]: [llm/map.service.ts].
    - [Translate]: [translate/*.ts].
    - [Endpoints]: the endpoints of the controllers that read the state of other services.

    The voice bot ([livekit/voice-bot.service.ts]): [Room] (the context of a room),
    [Vad] (turn detection), [Memory], [Diagram], [Stats], [Audio], [Bot] (the
    actions that handlers share), [Handlers], [Respond] (the spoken pipeline),
    [Pipeline] and [Attention] (properties of the handlers), [Events] (events of a
    room and messages of clients), [Flowchart], [Boards], [Lifecycle] (starts, intervals
    and ends of bots).

    ** What is proved

    - Refinement: the two maps and the intervals of the timer implement one small
      machine per room ([Timer.step_refines]); texts assembled for the language
      model are those of a declarative description ([Diagram], [Timeline]).
    - Equivalence: the layout of diagrams gives each node its distance from the
      start ([Flowchart]); the filter of insights ([Proactive]) and the matcher of
      evidence ([Evidence]) are those of their specification.
    - Invariants and safety: no interval leaks and every timer ends ([Timer]);
      sessions of [Perplexity], recordings, study contexts and the client of the
      retrieval server stay well formed; interventions and opinions keep their
      distance; a bot that responds only records other utterances and hands them to the
      Perplexity mode, one that was muted before is silent, and one that is engaged with
      somebody does not answer others ([Pipeline], [Attention]); rooms are closed only when abandoned and switches of a meeting
      need a host ([Events]); answers of the retrieval server reach the question
      they belong to ([RagDelivery]); a token for a room is given out only after the
      access to it was confirmed, for a room that the same request created, or to a bot
      ([LiveKit]); cached results are fresh and of the
      kind asked for ([Search], [Mcp]).
    - Termination and liveness: every response gives the room free again
      ([Pipeline]), requests to the retrieval server and to tool servers are settled
      and reconnections bounded ([RagInvariant], [RagReconnect], [McpRequests]),
      requests to the language model are bounded and its mark is reset ([Llm]),
      requests of boards and of the agent are answered ([Boards], [AgentRouter]).
    - Ordering: bots of a room that start and end in any order leave no active room
      without its intervals ([Lifecycle]); texts that are translated together come back
      in their order whatever the order of the answers ([Translate]).
    - Bounds and round trips: buffers, histories and confidences; JSON texts,
      chapters of recordings, metadata of rooms, audio frames and chunks; the output
      of tool servers in any pieces ([McpClient]); ranges of dates ([Calendar]); names
      and addresses of uploaded files ([Upload]), parameters of addresses ([Maps]) and
      words in the markup of speech ([Tts]).
    - Behaviour that differs from what the code or its comments intend is proved as
      it is; such theorems are named in the findings of the manifest.

    ** Not modelled

    - Generated RPC code ([grpc/generated]): generated, and not used by the program.
    - Audio tracks and connections of the LiveKit library: they are events of
      [Lifecycle], and the frames they deliver the input of [Vad].
    - Modules, wiring and type declarations: no behaviour of their own.
    - The texts of log lines (a log line that can throw is modelled), and the
      construction of clients of libraries. *)

From stdpp Require Import base list gmap sorting.
From Stdlib Require Import ZArith QArith Qminmax Lia.

(* ------------------------------------------------------------------ *)
(** ** Scopes, tactics, hint databases *)

Declare Scope aura_scope.
Delimit Scope aura_scope with aura.
#[global] Open Scope Z_scope.

Create HintDb aura discriminated.

(** Case analysis on the boolean tests that occur in the goal or the
    hypotheses, turning integer comparisons into propositions. *)
Ltac bool_cases :=
  repeat match goal with
  | H : andb _ _ = true |- _ => apply andb_true_iff in H; destruct H
  | H : orb _ _ = false |- _ => apply orb_false_iff in H; destruct H
  | H : negb _ = true |- _ => apply negb_true_iff in H
  | H : negb _ = false |- _ => apply negb_false_iff in H
  | H : Z.ltb _ _ = true |- _ => apply Z.ltb_lt in H
  | H : Z.ltb _ _ = false |- _ => apply Z.ltb_ge in H
  | H : Z.leb _ _ = true |- _ => apply Z.leb_le in H
  | H : Z.leb _ _ = false |- _ => apply Z.leb_gt in H
  | H : Z.eqb _ _ = true |- _ => apply Z.eqb_eq in H
  | H : Z.eqb _ _ = false |- _ => apply Z.eqb_neq in H
  | H : Nat.ltb _ _ = true |- _ => apply Nat.ltb_lt in H
  | H : Nat.ltb _ _ = false |- _ => apply Nat.ltb_ge in H
  | H : Nat.leb _ _ = true |- _ => apply Nat.leb_le in H
  | H : Nat.leb _ _ = false |- _ => apply Nat.leb_gt in H
  | H : Nat.eqb _ _ = true |- _ => apply Nat.eqb_eq in H
  | H : Nat.eqb _ _ = false |- _ => apply Nat.eqb_neq in H
  | H : bool_decide _ = true |- _ => apply bool_decide_eq_true in H
  | H : bool_decide _ = false |- _ => apply bool_decide_eq_false in H
  end.

(** Decide the integer comparisons of the goal that follow from the context. *)
Ltac z_decide :=
  repeat match goal with
  | |- context [Z.ltb ?a ?b] =>
    first [ replace (Z.ltb a b) with true by lia | replace (Z.ltb a b) with false by lia ]
  | |- context [Z.leb ?a ?b] =>
    first [ replace (Z.leb a b) with true by lia | replace (Z.leb a b) with false by lia ]
  | |- context [Z.eqb ?a ?b] =>
    first [ replace (Z.eqb a b) with true by lia | replace (Z.eqb a b) with false by lia ]
  end.

(** Split every conditional and match of the goal, keeping the equations. *)
Ltac split_matches :=
  repeat (case_match; simplify_eq/=); bool_cases.

(* ------------------------------------------------------------------ *)
(** ** Outcomes: a call that returns a value or throws an [Error] *)

Inductive outcome (E A : Type) : Type :=
| Return (a : A)
| Throw (e : E).
Arguments Return {E A} a.
Arguments Throw {E A} e.

Definition outcome_bind {E A B} (m : outcome E A) (f : A -> outcome E B) : outcome E B :=
  match m with Return a => f a | Throw e => Throw e end.

(** [try { m } catch (e) { h e }] *)
Definition catch {E A} (m : outcome E A) (h : E -> A) : A :=
  match m with Return a => a | Throw e => h e end.

Notation "x <-- m ;; f" := (outcome_bind m (fun x => f))
  (at level 100, m at next level, right associativity) : aura_scope.

Lemma outcome_bind_Return {E A} (m : outcome E A) : outcome_bind m Return = m.
Proof. by destruct m. Qed.

(* ------------------------------------------------------------------ *)
(** ** Lists *)

Section Lists.
Context {A : Type}.

(** [l.slice(-n)] for a positive [n]: the last [n] elements. *)
Definition slice_last (n : nat) (l : list A) : list A := drop (length l - n) l.

Lemma length_slice_last n l : (length (slice_last n l) <= n)%nat.
Proof. unfold slice_last. rewrite length_drop. lia. Qed.

Lemma slice_last_all n l : (length l <= n)%nat -> slice_last n l = l.
Proof. intros H. unfold slice_last. by replace (length l - n)%nat with 0%nat by lia. Qed.

Lemma slice_last_suffix n l : slice_last n l `suffix_of` l.
Proof. exists (take (length l - n) l). unfold slice_last. by rewrite take_drop. Qed.

(** [Array.prototype.find] *)
Fixpoint find_first (p : A -> bool) (l : list A) : option A :=
  match l with
  | [] => None
  | x :: l' => if p x then Some x else find_first p l'
  end.

Lemma find_first_Some p l x :
  find_first p l = Some x -> x ∈ l /\ p x = true.
Proof.
  induction l as [|y l IH]; simpl; [done|].
  case_match; intros; simplify_eq; set_solver.
Qed.

Lemma find_first_None p l :
  find_first p l = None <-> Forall (fun x => p x = false) l.
Proof.
  induction l as [|y l IH]; simpl; [done|].
  rewrite Forall_cons. destruct (p y); naive_solver.
Qed.

Lemma find_first_split p l x :
  find_first p l = Some x ->
  exists l1 l2, l = l1 ++ x :: l2 /\ p x = true /\ Forall (fun y => p y = false) l1.
Proof.
  induction l as [|y l IH]; simpl; [done|].
  destruct (p y) eqn:E; intros H; simplify_eq.
  - exists [], l. naive_solver.
  - destruct (IH H) as (l1 & l2 & -> & ? & ?). exists (y :: l1), l2.
    rewrite Forall_cons. naive_solver.
Qed.

(** The first result of a loop that returns from its body *)
Fixpoint first_some {B} (f : A -> option B) (l : list A) : option B :=
  match l with
  | [] => None
  | x :: l' => match f x with Some y => Some y | None => first_some f l' end
  end.

Lemma first_some_Some {B} (f : A -> option B) l y :
  first_some f l = Some y -> exists x, x ∈ l /\ f x = Some y.
Proof.
  induction l as [|x l IH]; simpl; [done|].
  case_match; intros; simplify_eq; [set_solver|].
  destruct (IH ltac:(done)) as (x' & ? & ?). set_solver.
Qed.

Lemma existsb_elem_of (p : A -> bool) l :
  existsb p l = true <-> exists x, x ∈ l /\ p x = true.
Proof. rewrite existsb_exists. by setoid_rewrite list_elem_of_In. Qed.

Lemma forallb_Forall (p : A -> bool) l :
  forallb p l = true <-> Forall (fun x => p x = true) l.
Proof. rewrite forallb_forall, List.Forall_forall. done. Qed.

(** boolean filter, as [Array.prototype.filter] *)
Lemma elem_of_bfilter (p : A -> bool) l x :
  x ∈ List.filter p l <-> x ∈ l /\ p x = true.
Proof. rewrite !list_elem_of_In. apply filter_In. Qed.

Lemma bfilter_sublist (p : A -> bool) l : List.filter p l `sublist_of` l.
Proof. induction l; simpl; [done|]. case_match; by constructor. Qed.

Lemma Forall_sublist (P : A -> Prop) l1 l2 :
  l1 `sublist_of` l2 -> Forall P l2 -> Forall P l1.
Proof. induction 1; rewrite ?Forall_cons; naive_solver. Qed.

Lemma StronglySorted_lookup (R : A -> A -> Prop) l i j x y :
  StronglySorted R l -> (i < j)%nat -> l !! i = Some x -> l !! j = Some y -> R x y.
Proof.
  revert i j. induction l as [|z l IH]; intros i j Hl Hij Hi Hj; [done|].
  apply StronglySorted_inv in Hl as [Hl Hall].
  destruct i as [|i], j as [|j]; simpl in *; [lia| |lia|].
  - simplify_eq. rewrite Forall_forall in Hall. apply Hall. by eapply list_elem_of_lookup_2.
  - eapply (IH i j); eauto; lia.
Qed.

Lemma bfilter_all (p : A -> bool) l :
  Forall (fun x => p x = true) l -> List.filter p l = l.
Proof. induction 1 as [|x l Hx _ IH]; simpl; [done|]. by rewrite Hx, IH. Qed.

Lemma length_bfilter (p : A -> bool) l : (length (List.filter p l) <= length l)%nat.
Proof. apply sublist_length, bfilter_sublist. Qed.

Lemma length_omap_le {B} (f : A -> option B) l : (length (omap f l) <= length l)%nat.
Proof. induction l as [|x l IH]; csimpl; [done|]. destruct (f x); csimpl; lia. Qed.

Lemma StronglySorted_weaken (R R' : A -> A -> Prop) l :
  (forall x y, R x y -> R' x y) -> StronglySorted R l -> StronglySorted R' l.
Proof.
  intros H. induction 1 as [|x l _ IH Hall]; constructor; [done|].
  eapply Forall_impl; [exact Hall|]. auto.
Qed.
End Lists.

#[export] Hint Resolve length_slice_last slice_last_suffix bfilter_sublist : aura.

(* ------------------------------------------------------------------ *)
(** ** Stable sorting

    [Array.prototype.sort] is required to be stable (ECMAScript 2019), so
    with a comparator that is a total preorder its result is determined:
    the sorted permutation in which equivalent elements keep their order.
    [ssort] computes it by insertion. *)
Section StableSort.
Context {A : Type} (leb : A -> A -> bool).

Fixpoint sinsert (x : A) (l : list A) : list A :=
  match l with
  | [] => [x]
  | y :: l' => if leb x y then x :: l else y :: sinsert x l'
  end.

Fixpoint ssort (l : list A) : list A :=
  match l with
  | [] => []
  | x :: l' => sinsert x (ssort l')
  end.

Lemma sinsert_perm x l : sinsert x l ≡ₚ x :: l.
Proof.
  induction l as [|y l IH]; simpl; [done|].
  case_match; [done|]. rewrite IH. constructor.
Qed.

Lemma ssort_perm l : ssort l ≡ₚ l.
Proof. induction l as [|x l IH]; simpl; [done|]. by rewrite sinsert_perm, IH. Qed.

Hypothesis leb_total : forall x y, leb x y = true \/ leb y x = true.
Hypothesis leb_trans : forall x y z, leb x y = true -> leb y z = true -> leb x z = true.

Let R (x y : A) : Prop := leb x y = true.

Lemma sinsert_sorted x l : StronglySorted R l -> StronglySorted R (sinsert x l).
Proof.
  induction 1 as [|y l Hs IH Hall]; simpl.
  - repeat constructor.
  - destruct (leb x y) eqn:E.
    + constructor; [by constructor|]. constructor; [done|].
      eapply Forall_impl; [exact Hall|]. intros z Hz. by eapply leb_trans.
    + constructor; [done|]. rewrite sinsert_perm. constructor; [|done].
      unfold R. destruct (leb_total x y); congruence.
Qed.

Lemma ssort_sorted l : StronglySorted R (ssort l).
Proof. induction l; simpl; [constructor|by apply sinsert_sorted]. Qed.

(** Stability: the elements of any one equivalence class keep their order. *)
Lemma sinsert_filter x (p : A -> bool) l :
  (forall y, p x = true -> p y = true -> leb x y = true) ->
  List.filter p (sinsert x l) = List.filter p (x :: l).
Proof.
  intros Hp. induction l as [|y l IH]; simpl; [done|].
  destruct (leb x y) eqn:E; [done|]. simpl in *. rewrite IH.
  destruct (p x) eqn:Ex, (p y) eqn:Ey; try done.
  rewrite Hp in E; done.
Qed.

Lemma ssort_stable (p : A -> bool) l :
  (forall x y, p x = true -> p y = true -> leb x y = true) ->
  List.filter p (ssort l) = List.filter p l.
Proof.
  intros Hp. induction l as [|x l IH]; simpl; [done|].
  rewrite sinsert_filter by eauto. simpl. by rewrite IH.
Qed.

Lemma ssort_id l : StronglySorted R l -> ssort l = l.
Proof.
  induction 1 as [|x l _ IH Hall]; simpl; [done|]. rewrite IH.
  destruct l as [|y l]; simpl; [done|]. apply Forall_cons in Hall as [Hxy _].
  by rewrite Hxy.
Qed.

(** The head of the result is a greatest element. *)
Lemma ssort_head x l y : head (ssort l) = Some x -> y ∈ l -> leb x y = true.
Proof.
  intros Hh Hy. pose proof (ssort_sorted l) as Hs.
  rewrite <- ssort_perm in Hy. destruct (ssort l) as [|z l']; simpl in *; [done|].
  simplify_eq. apply StronglySorted_inv in Hs as [_ Hall].
  apply elem_of_cons in Hy as [->|Hy].
  - destruct (leb_total x x); done.
  - rewrite Forall_forall in Hall. by apply Hall.
Qed.
End StableSort.

(* ------------------------------------------------------------------ *)
(** ** Rationals

    The numbers of the program that are not integers (confidences,
    entropies, ratios) are IEEE doubles; they are modelled as exact
    rationals. *)

Definition Qlt_bool (x y : Q) : bool := negb (Qle_bool y x).

Lemma Qlt_bool_iff x y : Qlt_bool x y = true <-> (x < y)%Q.
Proof.
  unfold Qlt_bool. rewrite negb_true_iff. split.
  - intros H. apply Qnot_le_lt. intros Hle. apply Qle_bool_iff in Hle. congruence.
  - intros H. destruct (Qle_bool y x) eqn:E; [|done].
    apply Qle_bool_iff in E. exfalso. by apply (Qlt_not_le _ _ H).
Qed.

Lemma Qlt_bool_false x y : Qlt_bool x y = false <-> (y <= x)%Q.
Proof. unfold Qlt_bool. rewrite negb_false_iff. apply Qle_bool_iff. Qed.

Lemma Qle_bool_false x y : Qle_bool x y = false <-> (y < x)%Q.
Proof.
  rewrite <- Qlt_bool_iff. unfold Qlt_bool. by rewrite negb_true_iff.
Qed.

(** [Math.floor] and [Math.round] (round half up) *)
Definition math_floor (x : Q) : Z := (Qnum x / Zpos (Qden x))%Z.
Definition math_round (x : Q) : Z := math_floor (x + (1 # 2))%Q.

Lemma math_floor_le (x : Q) (n : Z) : (inject_Z n <= x)%Q -> (n <= math_floor x)%Z.
Proof.
  unfold math_floor, Qle, inject_Z. simpl. intros H. apply Z.div_le_lower_bound; lia.
Qed.

Lemma math_floor_lt (x : Q) (n : Z) : (x < inject_Z n)%Q -> (math_floor x < n)%Z.
Proof.
  unfold math_floor, Qlt, inject_Z. simpl. intros H. apply Z.div_lt_upper_bound; lia.
Qed.

Definition Qsum (l : list Q) : Q := fold_right Qplus 0%Q l.

Lemma Qsum_bounds (l : list Q) (lo hi : Q) :
  Forall (fun x => lo <= x /\ x <= hi)%Q l ->
  (inject_Z (Z.of_nat (length l)) * lo <= Qsum l /\
   Qsum l <= inject_Z (Z.of_nat (length l)) * hi)%Q.
Proof.
  induction 1 as [|x l [Hlo Hhi] _ [IH1 IH2]].
  - split; simpl; ring_simplify; apply Qle_refl.
  - change (length (x :: l)) with (S (length l)).
    rewrite Nat2Z.inj_succ, <- Z.add_1_l, inject_Z_plus. simpl.
    split; rewrite Qmult_plus_distr_l, Qmult_1_l; by apply Qplus_le_compat.
Qed.

(** An average of values in an interval is in the interval. *)
Lemma Qaverage_bounds (l : list Q) (lo hi : Q) :
  l <> [] ->
  Forall (fun x => lo <= x /\ x <= hi)%Q l ->
  (lo <= Qsum l / inject_Z (Z.of_nat (length l)) /\
   Qsum l / inject_Z (Z.of_nat (length l)) <= hi)%Q.
Proof.
  intros Hne H. apply Qsum_bounds in H as [H1 H2].
  assert (0 < inject_Z (Z.of_nat (length l)))%Q.
  { change 0%Q with (inject_Z 0). rewrite <- Zlt_Qlt. destruct l; simpl in *; [done|lia]. }
  split.
  - apply Qle_shift_div_l; [done|]. by rewrite Qmult_comm.
  - apply Qle_shift_div_r; [done|]. by rewrite Qmult_comm.
Qed.

(** Boolean tests on rationals. *)
Ltac q_cases :=
  repeat match goal with
  | H : Qle_bool _ _ = true |- _ => apply Qle_bool_iff in H
  | H : Qle_bool _ _ = false |- _ => apply Qle_bool_false in H
  | H : Qlt_bool _ _ = true |- _ => apply Qlt_bool_iff in H
  | H : Qlt_bool _ _ = false |- _ => apply Qlt_bool_false in H
  end.
