(* ===== verification/JsString.v ===== *)
(** * JavaScript strings

    A JavaScript string is a sequence of UTF-16 code units; [length],
    [slice], [indexOf] and the regular expressions of the program (none has
    the [u] flag) count code units, which matters for Korean text and for
    surrogate pairs.  A string is therefore a list of integers, and the
    literals of the source are written as Rocq strings (UTF-8 bytes) and
    decoded by [js].

    [toLowerCase] is modelled on the ASCII and Latin-1 letters; Hangul and
    CJK have no case.  The other bicameral scripts are left unchanged. *)

From stdpp Require Import base list strings sets.
From Stdlib Require Import ZArith Lia DecimalString.
From S2P Require Import Prelude.

Abbreviation jsstr := (list Z).

(* ------------------------------------------------------------------ *)
(** ** Literals: UTF-8 bytes to UTF-16 code units *)

Fixpoint bytes_of_string (s : string) : list Z :=
  match s with
  | EmptyString => []
  | String c s' => Z.of_N (Ascii.N_of_ascii c) :: bytes_of_string s'
  end.

Fixpoint utf8_decode (bs : list Z) : list Z :=
  match bs with
  | [] => []
  | b0 :: r0 =>
    if b0 <? 128 then b0 :: utf8_decode r0
    else match r0 with
    | [] => []
    | b1 :: r1 =>
      if b0 <? 224 then ((b0 - 192) * 64 + (b1 - 128)) :: utf8_decode r1
      else match r1 with
      | [] => []
      | b2 :: r2 =>
        if b0 <? 240
        then ((b0 - 224) * 4096 + (b1 - 128) * 64 + (b2 - 128)) :: utf8_decode r2
        else match r2 with
        | [] => []
        | b3 :: r3 =>
          ((b0 - 240) * 262144 + (b1 - 128) * 4096 + (b2 - 128) * 64 + (b3 - 128))
            :: utf8_decode r3
        end
      end
    end
  end.

Definition utf16_of_cp (c : Z) : jsstr :=
  if c <? 65536 then [c]
  else [55296 + (c - 65536) / 1024; 56320 + (c - 65536) mod 1024].

Definition js (s : string) : jsstr := utf8_decode (bytes_of_string s) ≫= utf16_of_cp.

Example js_length_counts_code_units : length (js "아우라") = 3%nat /\ length (js "😀") = 2%nat.
Proof. done. Qed.

(* ------------------------------------------------------------------ *)
(** ** Substrings *)

Fixpoint starts_with (s p : jsstr) {struct p} : bool :=
  match p, s with
  | [], _ => true
  | _ :: _, [] => false
  | c :: p', d :: s' => (c =? d) && starts_with s' p'
  end.

(** [s.indexOf(p)], [None] for -1 *)
Fixpoint index_of (s p : jsstr) : option nat :=
  if starts_with s p then Some 0%nat
  else match s with
       | [] => None
       | _ :: s' => S <$> index_of s' p
       end.

Definition includes (s p : jsstr) : bool :=
  match index_of s p with Some _ => true | None => false end.

Lemma starts_with_spec s p : starts_with s p = true <-> p `prefix_of` s.
Proof.
  revert s. induction p as [|c p IH]; intros s; simpl.
  - split; [intros _; apply prefix_nil|done].
  - destruct s as [|d s].
    { split; [done|]. intros H. by apply prefix_nil_inv in H. }
    rewrite andb_true_iff, Z.eqb_eq, IH. split.
    + intros [-> H]. by apply prefix_cons.
    + intros H. split; [by eapply prefix_cons_inv_1|by eapply prefix_cons_inv_2].
Qed.

Lemma index_of_Some s p i :
  index_of s p = Some i ->
  exists l r, s = l ++ p ++ r /\ length l = i.
Proof.
  revert i. induction s as [|d s IH]; intros i; simpl.
  - destruct (starts_with [] p) eqn:E; [|done]. apply starts_with_spec in E as [r Hr].
    intros [= <-]. by exists [], r.
  - destruct (starts_with (d :: s) p) eqn:E.
    + apply starts_with_spec in E as [r Hr]. intros [= <-].
      by exists [], r.
    + destruct (index_of s p) as [j|]; simpl; intros ?; simplify_eq.
      destruct (IH j eq_refl) as (l & r & -> & <-). by exists (d :: l), r.
Qed.

Lemma index_of_None s p : index_of s p = None <-> ~ exists l r, s = l ++ p ++ r.
Proof.
  split.
  - induction s as [|d s IH]; simpl; intros H (l & r & Hs).
    + destruct (starts_with [] p) eqn:E; [done|].
      assert (p = []) as -> by (destruct l, p; by simplify_list_eq).
      by rewrite (proj2 (starts_with_spec [] []) (prefix_nil _)) in E.
    + destruct (starts_with (d :: s) p) eqn:E; [done|].
      destruct (index_of s p); [done|].
      destruct l as [|d' l]; simpl in Hs.
      * rewrite Hs, (proj2 (starts_with_spec _ _)) in E; [done|by exists r].
      * simplify_eq. naive_solver.
  - intros H. destruct (index_of s p) eqn:E; [|done].
    apply index_of_Some in E as (l & r & -> & _). exfalso; eauto.
Qed.

Lemma includes_spec s p : includes s p = true <-> exists l r, s = l ++ p ++ r.
Proof.
  unfold includes. destruct (index_of s p) eqn:E.
  - apply index_of_Some in E as (l & r & -> & _). split; eauto.
  - split; [done|]. intros H. by apply index_of_None in E.
Qed.



(* ------------------------------------------------------------------ *)
(** ** White space, case *)

(** [WhiteSpace] and [LineTerminator] of the ECMAScript grammar, the class [\s] *)
Definition is_space (c : Z) : bool :=
  ((9 <=? c) && (c <=? 13)) || (c =? 32) || (c =? 160) || (c =? 5760)
  || ((8192 <=? c) && (c <=? 8202)) || (c =? 8232) || (c =? 8233)
  || (c =? 8239) || (c =? 8287) || (c =? 12288) || (c =? 65279).

Fixpoint trim_start (s : jsstr) : jsstr :=
  match s with
  | [] => []
  | c :: s' => if is_space c then trim_start s' else s
  end.

Definition trim (s : jsstr) : jsstr := reverse (trim_start (reverse (trim_start s))).

Definition lower_unit (c : Z) : Z :=
  if ((65 <=? c) && (c <=? 90)) || ((192 <=? c) && (c <=? 222) && negb (c =? 215))
  then c + 32 else c.

Definition to_lower (s : jsstr) : jsstr := lower_unit <$> s.

Lemma lower_unit_idem c : lower_unit (lower_unit c) = lower_unit c.
Proof. unfold lower_unit. split_matches; try done; bool_cases; lia. Qed.

Lemma to_lower_idem s : to_lower (to_lower s) = to_lower s.
Proof.
  unfold to_lower. rewrite <- list_fmap_compose. apply list_fmap_ext.
  intros i c _. apply lower_unit_idem.
Qed.

Lemma length_to_lower s : length (to_lower s) = length s.
Proof. apply length_fmap. Qed.

Lemma trim_start_suffix s : trim_start s `suffix_of` s.
Proof.
  induction s as [|c s IH]; simpl; [done|]. case_match; [|done].
  by apply suffix_cons_r.
Qed.

Lemma length_trim_start s : (length (trim_start s) <= length s)%nat.
Proof. apply suffix_length, trim_start_suffix. Qed.

Lemma length_trim s : (length (trim s) <= length s)%nat.
Proof.
  unfold trim. rewrite length_reverse.
  etrans; [apply length_trim_start|]. rewrite length_reverse. apply length_trim_start.
Qed.

Lemma trim_start_idem s : trim_start (trim_start s) = trim_start s.
Proof.
  induction s as [|c s IH]; simpl; [done|]. destruct (is_space c) eqn:E; [done|].
  simpl. by rewrite E.
Qed.

(** [s.substring(0, n)] / [s.slice(0, n)] *)
Definition slice_to (n : nat) (s : jsstr) : jsstr := take n s.

(* ------------------------------------------------------------------ *)
(** ** Splitting and joining *)

(** [s.split(c)] for a one-unit separator; never empty *)
Fixpoint split_on (p : Z -> bool) (s : jsstr) : list jsstr :=
  match s with
  | [] => [[]]
  | c :: s' =>
    if p c then [] :: split_on p s'
    else match split_on p s' with
         | w :: ws => (c :: w) :: ws
         | [] => [[c]]
         end
  end.

Definition split_char (c : Z) (s : jsstr) : list jsstr := split_on (Z.eqb c) s.

(** [s.split(/\s+/)]: a maximal run of white space separates two fields *)
Fixpoint split_ws_aux (prev : bool) (s : jsstr) : list jsstr :=
  match s with
  | [] => [[]]
  | c :: s' =>
    if is_space c then
      if prev then split_ws_aux true s' else [] :: split_ws_aux true s'
    else match split_ws_aux false s' with
         | w :: ws => (c :: w) :: ws
         | [] => [[c]]
         end
  end.

Definition split_ws (s : jsstr) : list jsstr := split_ws_aux false s.

Fixpoint join (sep : jsstr) (l : list jsstr) : jsstr :=
  match l with
  | [] => []
  | [w] => w
  | w :: l' => w ++ sep ++ join sep l'
  end.

(** A line break and a double quote inside a literal, and a text of lines *)
Definition nl : jsstr := [10].
Definition dq : jsstr := [34].
Definition lines (l : list jsstr) : jsstr := join nl l.

(** A literal in which a back quote stands for a double quote *)
Definition jq (s : string) : jsstr := (fun c => if c =? 96 then 34 else c) <$> js s.

Lemma split_on_not_nil p s : split_on p s <> [].
Proof. induction s as [|c s IH]; simpl; [done|]. split_matches; done. Qed.

Lemma split_ws_not_nil b s : split_ws_aux b s <> [].
Proof. revert b. induction s as [|c s IH]; intros b; simpl; [done|]. split_matches; try done. Qed.

(** Round trip: joining the fields gives the string back. *)
Lemma join_split_char c s : join [c] (split_char c s) = s.
Proof.
  unfold split_char. induction s as [|d s IH]; simpl; [done|].
  pose proof (split_on_not_nil (Z.eqb c) s) as Hne.
  destruct (Z.eqb_spec c d) as [->|].
  - destruct (split_on (Z.eqb d) s) as [|w ws]; [done|]. simpl in *. by rewrite IH.
  - destruct (split_on (Z.eqb c) s) as [|w ws]; [done|]. simpl in *.
    destruct ws; simpl in *; by rewrite <- IH.
Qed.

Example split_ws_ex : split_ws (js "a  b c") = [js "a"; js "b"; js "c"].
Proof. done. Qed.
Example split_ws_lead : split_ws (js " a ") = [[]; js "a"; []].
Proof. done. Qed.

(* ------------------------------------------------------------------ *)
(** ** Numbers in templates *)

(** [String(n)] for an integer *)
Definition js_of_Z (n : Z) : jsstr := js (NilZero.string_of_int (Z.to_int n)).

Example js_of_Z_ex : js_of_Z (-120) = js "-120" /\ js_of_Z 0 = js "0".
Proof. done. Qed.

(** A key [`${a}:${b}`] determines its parts when [a] holds no separator. *)
Lemma key_inj (c : Z) (a a' b b' : jsstr) :
  c ∉ a -> c ∉ a' -> a ++ c :: b = a' ++ c :: b' -> a = a' /\ b = b'.
Proof.
  revert a'. induction a as [|x a IH]; intros [|y a'] Ha Ha' Heq; simpl in *; simplify_eq.
  - done.
  - exfalso. set_solver.
  - exfalso. set_solver.
  - destruct (IH a') as [-> ->]; set_solver.
Qed.

(** The prefix of such a key is its first part and the separator. *)
Lemma key_prefix (c : Z) (a a' b : jsstr) :
  c ∉ a -> c ∉ a' -> (a ++ [c]) `prefix_of` (a' ++ c :: b) -> a = a'.
Proof.
  intros Ha Ha' [k Hk]. rewrite <- (assoc_L (++)) in Hk. symmetry in Hk.
  by apply (key_inj c a a' k b) in Hk as [-> _].
Qed.
