(* ===== verification/Utf8.v ===== *)
(** * UTF-8

    Text of bytes as [Buffer] of the runtime reads it: bytes that are no character
    become replacement characters.  Text that is written is read back. *)

From Stdlib Require Import ZArith Lia.
From stdpp Require Import base strings option list.
From S2P Require Import Prelude JsString.

#[local] Open Scope Z_scope.

(** ** Reading *)

(** A character of which [need] bytes are missing, the next between the bounds *)
Record Partial := mkPartial { need : nat; code : Z; lower : Z; upper : Z }.

Definition replacement : Z := 65533.

(** The first byte of a character *)
Definition lead (b : Z) : list Z * option Partial :=
  if b <? 128 then ([b], None)
  else if (194 <=? b) && (b <=? 223) then ([], Some (mkPartial 1 (b - 192) 128 191))
  else if (224 <=? b) && (b <=? 239) then
    ([], Some (mkPartial 2 (b - 224) (if b =? 224 then 160 else 128) (if b =? 237 then 159 else 191)))
  else if (240 <=? b) && (b <=? 244) then
    ([], Some (mkPartial 3 (b - 240) (if b =? 240 then 144 else 128) (if b =? 244 then 143 else 191)))
  else ([replacement], None).

Fixpoint decode (partial : option Partial) (bytes : list Z) : list Z :=
  match bytes with
  | [] => match partial with Some _ => [replacement] | None => [] end
  | b :: bytes' =>
    let '(out, partial') :=
      match partial with
      | None => lead b
      | Some c =>
        if (lower c <=? b) && (b <=? upper c) then
          let code := code c * 64 + (b - 128) in
          if (need c =? 1)%nat then ([code], None) else ([], Some (mkPartial (need c - 1) code 128 191))
        else let '(out, p) := lead b in (replacement :: out, p)
      end in
    out ++ decode partial' bytes'
  end.

(** [data.toString()] *)
Definition toString (data : list Z) : jsstr := decode None data ≫= utf16_of_cp.

(* ------------------------------------------------------------------ *)
(** ** Writing *)

(** The bytes of a code point *)
Definition encode (c : Z) : list Z :=
  if c <? 128 then [c]
  else if c <? 2048 then [192 + c / 64; 128 + c mod 64]
  else if c <? 65536 then [224 + c / 4096; 128 + c / 64 mod 64; 128 + c mod 64]
  else [240 + c / 262144; 128 + c / 4096 mod 64; 128 + c / 64 mod 64; 128 + c mod 64].

(** Code points other than surrogates *)
Definition scalar (c : Z) : Prop := 0 <= c < 55296 \/ 57344 <= c < 1114112.

#[local] Ltac Zify.zify_post_hook ::= Z.to_euclidean_division_equations.

Lemma decode_first b bs out p : lead b = (out, p) -> decode None (b :: bs) = out ++ decode p bs.
Proof. intros E. cbn [decode]. by rewrite E. Qed.

(** A byte that continues a character *)
Lemma decode_more c b bs :
  lower c <= b <= upper c ->
  decode (Some c) (b :: bs) =
  if (need c =? 1)%nat then (code c * 64 + (b - 128)) :: decode None bs else decode (Some (mkPartial (need c - 1) (code c * 64 + (b - 128)) 128 191)) bs.
Proof.
  intros H. cbn [decode]. destruct (Z.leb_spec (lower c) b); [|lia]. destruct (Z.leb_spec b (upper c)); [|lia]. cbn [andb]. by destruct (need c =? 1)%nat.
Qed.

Lemma decode_encode c bs : scalar c -> decode None (encode c ++ bs) = c :: decode None bs.
Proof.
  intros H. unfold encode, scalar in *. destruct (Z.ltb_spec c 128) as [H1|H1]; [|destruct (Z.ltb_spec c 2048) as [H2|H2]; [|destruct (Z.ltb_spec c 65536) as [H3|H3]]]; cbn [app].
  - cbn [decode]. unfold lead. by rewrite (proj2 (Z.ltb_lt c 128)).
  - assert (lead (192 + c / 64) = ([], Some (mkPartial 1 (c / 64) 128 191))) as E.
    { unfold lead. repeat match goal with |- context [if ?b then _ else _] => destruct b eqn:?; try lia end. do 3 f_equal. lia. }
    rewrite (decode_first _ _ _ _ E). cbn [app]. rewrite decode_more by (cbn [lower upper]; lia). cbn [need code Nat.eqb]. f_equal. lia.
  - assert (exists lo hi, lead (224 + c / 4096) = ([], Some (mkPartial 2 (c / 4096) lo hi)) /\ lo <= 128 + c / 64 mod 64 <= hi) as (lo & hi & E & Hb).
    { unfold lead. destruct (Z.ltb_spec (224 + c / 4096) 128); [lia|]. destruct ((194 <=? 224 + c / 4096) && (224 + c / 4096 <=? 223)) eqn:?; [lia|].
      destruct ((224 <=? 224 + c / 4096) && (224 + c / 4096 <=? 239)) eqn:?; [|lia]. eexists _, _. split; [do 3 f_equal; lia|].
      destruct (Z.eqb_spec (224 + c / 4096) 224), (Z.eqb_spec (224 + c / 4096) 237); lia. }
    rewrite (decode_first _ _ _ _ E). cbn [app]. rewrite decode_more by (cbn [lower upper]; lia). cbn [need code Nat.eqb Nat.sub].
    rewrite decode_more by (cbn [lower upper]; lia). cbn [need code Nat.eqb]. f_equal. lia.
  - assert (exists lo hi, lead (240 + c / 262144) = ([], Some (mkPartial 3 (c / 262144) lo hi)) /\ lo <= 128 + c / 4096 mod 64 <= hi) as (lo & hi & E & Hb).
    { unfold lead. destruct (Z.ltb_spec (240 + c / 262144) 128); [lia|]. destruct ((194 <=? 240 + c / 262144) && (240 + c / 262144 <=? 223)) eqn:?; [lia|].
      destruct ((224 <=? 240 + c / 262144) && (240 + c / 262144 <=? 239)) eqn:?; [lia|]. destruct ((240 <=? 240 + c / 262144) && (240 + c / 262144 <=? 244)) eqn:?; [|lia].
      eexists _, _. split; [do 3 f_equal; lia|]. destruct (Z.eqb_spec (240 + c / 262144) 240), (Z.eqb_spec (240 + c / 262144) 244); lia. }
    rewrite (decode_first _ _ _ _ E). cbn [app]. rewrite decode_more by (cbn [lower upper]; lia). cbn [need code Nat.eqb Nat.sub].
    rewrite decode_more by (cbn [lower upper]; lia). cbn [need code Nat.eqb Nat.sub]. rewrite decode_more by (cbn [lower upper]; lia). cbn [need code Nat.eqb]. f_equal. lia.
Qed.

Lemma toString_encode cps : Forall scalar cps -> toString (cps ≫= encode) = cps ≫= utf16_of_cp.
Proof.
  intros H. unfold toString. f_equal. induction H as [|c cps Hc _ IH]; [done|]. cbn [mbind list_bind]. rewrite decode_encode by done. by f_equal.
Qed.

Lemma encode_bytes c : scalar c -> Forall (fun b => 0 <= b < 256) (encode c).
Proof.
  intros H. unfold encode, scalar in *. destruct (Z.ltb_spec c 128) as [H1|H1]; [|destruct (Z.ltb_spec c 2048) as [H2|H2]; [|destruct (Z.ltb_spec c 65536) as [H3|H3]]];
    repeat (apply Forall_cons_2; [lia|]); constructor.
Qed.
