(* ===== verification/Dates.v ===== *)
(** * Dates

    The dates of ECMAScript: milliseconds from 1970-01-01 UTC, the proleptic
    Gregorian calendar, local time, and the texts the services make of dates.  Local
    time is at an offset from UTC that is the same at all times, as it is in Korea
    and on servers that run in UTC.

    [civil] and [days_from_civil] are inverse to each other ([days_civil]), which
    is what [setDate] and [getDate] rely on. *)

From Stdlib Require Import ZArith Lia.
From stdpp Require Import base strings option list.
From S2P Require Import Prelude JsString.

#[local] Open Scope Z_scope.

(* ------------------------------------------------------------------ *)
(** ** Days and months *)

Definition MS_PER_DAY : Z := 24 * 60 * 60 * 1000.

(** Days from 1970-01-01 of the first day of a month *)
Definition days_from_month (y m : Z) : Z :=
  let y' := if m <=? 2 then y - 1 else y in
  let era := y' / 400 in
  let yoe := y' - era * 400 in
  let doy := (153 * (if 2 <? m then m - 3 else m + 9) + 2) / 5 in
  era * 146097 + (yoe * 365 + yoe / 4 - yoe / 100 + doy) - 719468.

(** [12 * year + month] of a day *)
Definition month_index (days : Z) : Z :=
  let z := days + 719468 in
  let era := z / 146097 in
  let doe := z - era * 146097 in
  let yoe := (doe - doe / 1460 + doe / 36524 - doe / 146096) / 365 in
  let doy := doe - (365 * yoe + yoe / 4 - yoe / 100) in
  let mp := (5 * doy + 2) / 153 in
  let m := if mp <? 10 then mp + 3 else mp - 9 in
  12 * (yoe + era * 400 + (if m <=? 2 then 1 else 0)) + (m - 1).

(** Year, month from 1, day of the month *)
Definition civil (days : Z) : Z * Z * Z :=
  let i := month_index days in
  let y := i / 12 in
  let m := i mod 12 + 1 in
  (y, m, days - days_from_month y m + 1).

(** [MakeDay] with the month from 0, which may lie outside of the year *)
Definition make_day (y month date : Z) : Z := days_from_month (y + month / 12) (month mod 12 + 1) + date - 1.

Definition leap (y : Z) : bool := (y mod 4 =? 0) && (negb (y mod 100 =? 0) || (y mod 400 =? 0)).

Definition days_in_month (y m : Z) : Z :=
  if m =? 2 then (if leap y then 29 else 28) else if (m =? 4) || (m =? 6) || (m =? 9) || (m =? 11) then 30 else 31.

(** [getDay]: Sunday is 0 *)
Definition week_day (days : Z) : Z := (days + 4) mod 7.

#[local] Ltac Zify.zify_post_hook ::= Z.to_euclidean_division_equations.

(** A day by the 400-year era, the year of the era from March, the month from March *)
Lemma day_parts days :
  exists era yoe mp,
    0 <= yoe <= 399 /\ 0 <= mp <= 11 /\
    month_index days = 12 * (yoe + era * 400 + (if mp <? 10 then 0 else 1)) + (if mp <? 10 then mp + 2 else mp - 10) /\
    0 <= days - (era * 146097 + (yoe * 365 + yoe / 4 - yoe / 100 + (153 * mp + 2) / 5) - 719468) < 31.
Proof.
  unfold month_index. cbv zeta. remember (days + 719468) as z eqn:Hz.
  remember (z / 146097) as era eqn:Hera. remember (z - era * 146097) as doe eqn:Hdoe. assert (0 <= doe < 146097) as Hd by lia. clear Hera.
  remember ((doe - doe / 1460 + doe / 36524 - doe / 146096) / 365) as yoe eqn:Hyoe.
  remember (doe - (365 * yoe + yoe / 4 - yoe / 100)) as doy eqn:Hdoy.
  assert (0 <= yoe <= 399 /\ 0 <= doy <= 365) as [Hy Hy'] by lia. clear Hyoe.
  remember ((5 * doy + 2) / 153) as mp eqn:Hmp. exists era, yoe, mp. split_and!; try lia.
  clear -Hmp Hy'. destruct (Z.ltb_spec mp 10); [destruct (Z.leb_spec (mp + 3) 2)|destruct (Z.leb_spec (mp - 9) 2)]; lia.
Qed.

Lemma days_from_month_parts era yoe mp :
  0 <= yoe <= 399 -> 0 <= mp <= 11 ->
  days_from_month (yoe + era * 400 + (if mp <? 10 then 0 else 1)) ((if mp <? 10 then mp + 2 else mp - 10) + 1)
  = era * 146097 + (yoe * 365 + yoe / 4 - yoe / 100 + (153 * mp + 2) / 5) - 719468.
Proof.
  intros Hy Hm. unfold days_from_month. cbv zeta.
  assert (forall a b : Z, a = yoe + era * 400 -> b = (153 * mp + 2) / 5 ->
    a / 400 * 146097 + ((a - a / 400 * 400) * 365 + (a - a / 400 * 400) / 4 - (a - a / 400 * 400) / 100 + b) - 719468
    = era * 146097 + (yoe * 365 + yoe / 4 - yoe / 100 + (153 * mp + 2) / 5) - 719468) as H.
  { intros a b -> ->. assert ((yoe + era * 400) / 400 = era) as -> by lia. replace (yoe + era * 400 - era * 400) with yoe by lia. done. }
  destruct (Z.ltb_spec mp 10).
  - destruct (Z.leb_spec (mp + 2 + 1) 2); [lia|]. destruct (Z.ltb_spec 2 (mp + 2 + 1)); [|lia]. apply H; [lia|f_equal; lia].
  - destruct (Z.leb_spec (mp - 10 + 1) 2); [|lia]. destruct (Z.ltb_spec 2 (mp - 10 + 1)); [lia|]. apply H; [lia|f_equal; lia].
Qed.

(** The month of a day begins at most 30 days before it *)
Lemma month_index_spec days :
  0 <= days - days_from_month (month_index days / 12) (month_index days mod 12 + 1) < 31.
Proof.
  destruct (day_parts days) as (era & yoe & mp & Hy & Hm & -> & Hd). rewrite <- (days_from_month_parts era yoe mp Hy Hm) in Hd.
  assert (forall y k : Z, 0 <= k <= 11 -> (12 * y + k) / 12 = y /\ (12 * y + k) mod 12 = k) as K by (intros; split; lia).
  destruct (K (yoe + era * 400 + (if mp <? 10 then 0 else 1)) (if mp <? 10 then mp + 2 else mp - 10)) as [-> ->]; [|exact Hd].
  destruct (Z.ltb_spec mp 10); lia.
Qed.

(** A year begins with its first month and ends 31 days after the start of its last *)
Lemma year_bounds y m : 1 <= m <= 12 -> days_from_month y 1 <= days_from_month y m <= days_from_month (y + 1) 1 - 31.
Proof.
  intros Hm. assert (m = 1 \/ m = 2 \/ m = 3 \/ m = 4 \/ m = 5 \/ m = 6 \/ m = 7 \/ m = 8 \/ m = 9 \/ m = 10 \/ m = 11 \/ m = 12) as H by lia.
  unfold days_from_month. cbn [Z.leb Z.ltb Z.compare Pos.compare Pos.compare_cont].
  repeat destruct H as [->|H]; try subst m; cbn [Z.leb Z.ltb Z.compare Pos.compare Pos.compare_cont]; lia.
Qed.

(** [getDate] after [setDate], and back *)
Lemma days_civil days : let '(y, m, d) := civil days in make_day y (m - 1) d = days /\ 1 <= m <= 12 /\ 1 <= d <= 31.
Proof.
  unfold civil, make_day. cbv zeta. pose proof (month_index_spec days) as H. remember (month_index days) as i eqn:Hi. clear Hi.
  replace (i mod 12 + 1 - 1) with (i mod 12) by lia. assert (i mod 12 / 12 = 0) as -> by lia. assert (i mod 12 mod 12 = i mod 12) as -> by lia.
  rewrite Z.add_0_r. split_and!; [lia|lia|lia|lia|lia].
Qed.

(* ------------------------------------------------------------------ *)
(** ** Texts of dates *)

(** [s.padStart(n, '0')] *)
Definition pad_start (n : nat) (s : jsstr) : jsstr := replicate (n - length s) 48 ++ s.
Definition padded (n : nat) (k : Z) : jsstr := pad_start n (js_of_Z k).

(** [YYYY-MM-DD] as the services put it together *)
Definition date_text (y m d : Z) : jsstr := js_of_Z y ++ js "-" ++ padded 2 m ++ js "-" ++ padded 2 d.

(** The year of [toISOString]: six digits and a sign outside of 0 to 9999 *)
Definition iso_year (y : Z) : jsstr :=
  if (0 <=? y) && (y <=? 9999) then padded 4 y else (if y <? 0 then js "-" else js "+") ++ padded 6 (Z.abs y).

Definition iso_date (days : Z) : jsstr :=
  let '(y, m, d) := civil days in iso_year y ++ js "-" ++ padded 2 m ++ js "-" ++ padded 2 d.

Definition iso_time (ms : Z) : jsstr :=
  padded 2 (ms / 3600000) ++ js ":" ++ padded 2 (ms / 60000 mod 60) ++ js ":" ++ padded 2 (ms / 1000 mod 60) ++ js "." ++ padded 3 (ms mod 1000).

Definition toISOString (t : Z) : jsstr := iso_date (t / MS_PER_DAY) ++ js "T" ++ iso_time (t mod MS_PER_DAY) ++ js "Z".

(* ------------------------------------------------------------------ *)
(** ** Local time *)

Section Local.
(** The offset of local time from UTC *)
Context (tz : Z).

Definition local_day (t : Z) : Z := (t + tz) / MS_PER_DAY.
Definition time_in_day (t : Z) : Z := (t + tz) mod MS_PER_DAY.

Definition getFullYear (t : Z) : Z := (civil (local_day t)).1.1.
(** The month from 1; [getMonth] is one less *)
Definition month_of (t : Z) : Z := (civil (local_day t)).1.2.
Definition getDate (t : Z) : Z := (civil (local_day t)).2.
Definition getDay (t : Z) : Z := week_day (local_day t).
Definition getHours (t : Z) : Z := time_in_day t / 3600000.
Definition getMinutes (t : Z) : Z := time_in_day t / 60000 mod 60.

(** The instant of a local day and a time in it *)
Definition instant (day ms : Z) : Z := day * MS_PER_DAY + ms - tz.

(** [new Date(y, month, date)], with the month from 0 *)
Definition new_Date (y month date : Z) : Z := instant (make_day y month date) 0.

Definition setDate (t date : Z) : Z := instant (make_day (getFullYear t) (month_of t - 1) date) (time_in_day t).

Definition setHours (t h m s ms : Z) : Z := instant (local_day t) (h * 3600000 + m * 60000 + s * 1000 + ms).

Definition setMinutes (t m : Z) : Z := instant (local_day t) (getHours t * 3600000 + m * 60000 + time_in_day t mod 60000).

(** [formatDate] of the services *)
Definition formatDate (t : Z) : jsstr := date_text (getFullYear t) (month_of t) (getDate t).

Lemma local_day_instant day ms : local_day (instant day ms) = day + ms / MS_PER_DAY.
Proof.
  unfold local_day, instant, MS_PER_DAY. replace (day * (24 * 60 * 60 * 1000) + ms - tz + tz) with (ms + day * (24 * 60 * 60 * 1000)) by lia.
  rewrite Z.div_add by lia. lia.
Qed.

Lemma time_in_day_range t : 0 <= time_in_day t < MS_PER_DAY.
Proof. unfold time_in_day, MS_PER_DAY. lia. Qed.

Lemma instant_local t : instant (local_day t) (time_in_day t) = t.
Proof. unfold instant, local_day, time_in_day, MS_PER_DAY. lia. Qed.

Lemma make_day_add days n : let '(y, m, d) := civil days in make_day y (m - 1) (d + n) = days + n.
Proof. pose proof (days_civil days) as H. destruct (civil days) as [[y m] d]. destruct H as [H _]. unfold make_day in *. lia. Qed.

(** Adding to the day of the month adds days, over the ends of months and years *)
Lemma setDate_add t n : setDate t (getDate t + n) = t + n * MS_PER_DAY.
Proof.
  unfold setDate, getFullYear, month_of, getDate. pose proof (make_day_add (local_day t) n) as H.
  destruct (civil (local_day t)) as [[y m] d]. cbn [fst snd]. rewrite H. rewrite <- (instant_local t) at 3. unfold instant. lia.
Qed.

Lemma local_day_setHours t h m s ms :
  0 <= h * 3600000 + m * 60000 + s * 1000 + ms < MS_PER_DAY -> local_day (setHours t h m s ms) = local_day t.
Proof. intros H. unfold setHours. rewrite local_day_instant, Z.div_small by done. lia. Qed.

Lemma local_day_add t n : local_day (t + n * MS_PER_DAY) = local_day t + n.
Proof. unfold local_day. replace (t + n * MS_PER_DAY + tz) with (t + tz + n * MS_PER_DAY) by lia. apply Z.div_add. done. Qed.
End Local.

Example dates :
  toISOString 1767657845123 = js "2026-01-06T00:04:05.123Z" /\ formatDate 32400000 1767657845123 = js "2026-01-06" /\
  getDay 32400000 1767657845123 = 2 /\ setDate 0 1767657845123 33 = 1769990645123.
Proof. vm_compute. done. Qed.
