(* ===== verification/JsMap.v ===== *)
(** * JavaScript [Map]

    A [Map] iterates its entries in insertion order: [set] on a present key
    replaces the value in place, on an absent key appends the entry, and
    [delete] removes it.  The services iterate their maps
    ([Array.from(m.values())], [for (const k of m.keys())]), so the order is
    part of the model: a map is an association list whose keys are distinct
    ([map_wf]).  [abs] forgets the order: it is the finite map that the
    look-ups see, and every operation refines the corresponding one of
    [gmap]. *)

From stdpp Require Import base list gmap.
From S2P Require Import Prelude.

Abbreviation jsmap K V := (list (K * V)).

Section JsMap.
Context {K V : Type} `{Countable K}.
Implicit Types (m : jsmap K V) (k : K) (v : V).

Fixpoint map_get m k : option V :=
  match m with
  | [] => None
  | (k', v) :: m' => if decide (k = k') then Some v else map_get m' k
  end.

Definition map_has m k : bool :=
  match map_get m k with Some _ => true | None => false end.

Fixpoint map_set m k v : jsmap K V :=
  match m with
  | [] => [(k, v)]
  | (k', v') :: m' =>
    if decide (k = k') then (k', v) :: m' else (k', v') :: map_set m' k v
  end.

Definition map_delete m k : jsmap K V := filter (fun e => e.1 <> k) m.

Definition map_keys m : list K := m.*1.
Definition map_values m : list V := m.*2.

Definition map_wf m : Prop := NoDup (map_keys m).

Definition abs m : gmap K V := list_to_map m.

(** *** Refinement of the finite-map operations *)

Lemma abs_get m k : abs m !! k = map_get m k.
Proof.
  induction m as [|[k' v] m IH]; simpl; [apply lookup_empty|].
  unfold abs in *. simpl. rewrite lookup_insert. case_decide; case_decide; congruence.
Qed.

Lemma abs_set m k v : abs (map_set m k v) = <[k:=v]> (abs m).
Proof.
  induction m as [|[k' v'] m IH]; simpl; [done|].
  unfold abs in *. case_decide as E; simpl.
  - subst. by rewrite insert_insert_eq.
  - rewrite IH. by rewrite insert_insert_ne.
Qed.

Lemma abs_delete m k : abs (map_delete m k) = delete k (abs m).
Proof.
  unfold abs, map_delete. induction m as [|[k' v'] m IH]; simpl; [by rewrite delete_empty|].
  rewrite filter_cons. case_decide as E; simpl in *.
  - rewrite IH, delete_insert_ne by done. done.
  - assert (k' = k) as -> by (destruct (decide (k' = k)); tauto).
    rewrite IH. by rewrite delete_insert_eq.
Qed.

(** *** Look-up laws *)

Lemma map_get_set m k v k' :
  map_get (map_set m k v) k' = if decide (k = k') then Some v else map_get m k'.
Proof. rewrite <- !abs_get, abs_set. apply lookup_insert. Qed.

Lemma map_get_set_eq m k v : map_get (map_set m k v) k = Some v.
Proof. rewrite map_get_set. by rewrite decide_True. Qed.

Lemma map_get_set_ne m k v k' : k <> k' -> map_get (map_set m k v) k' = map_get m k'.
Proof. intros. rewrite map_get_set. by rewrite decide_False. Qed.

Lemma map_get_delete_eq m k : map_get (map_delete m k) k = None.
Proof. rewrite <- abs_get, abs_delete. apply lookup_delete_eq. Qed.

Lemma map_get_delete_ne m k k' : k <> k' -> map_get (map_delete m k) k' = map_get m k'.
Proof. intros. rewrite <- !abs_get, abs_delete. by apply lookup_delete_ne. Qed.

Lemma map_get_delete_Some m k k' v : map_get (map_delete m k) k' = Some v -> k <> k' /\ map_get m k' = Some v.
Proof. destruct (decide (k = k')) as [->|n]; [by rewrite map_get_delete_eq|]. by rewrite map_get_delete_ne. Qed.

Lemma map_get_set_Some m k v k' v' :
  map_get (map_set m k v) k' = Some v' -> (k = k' /\ v = v') \/ (k <> k' /\ map_get m k' = Some v').
Proof.
  destruct (decide (k = k')) as [->|n]; [rewrite map_get_set_eq; intros [= ->]; by left|].
  rewrite map_get_set_ne by done. by right.
Qed.

Lemma elem_of_map_set m k v k' v' : (k', v') ∈ map_set m k v -> (k' = k /\ v' = v) \/ (k', v') ∈ m.
Proof.
  induction m as [|[k0 v0] m IH]; simpl; [intros ?%list_elem_of_singleton; left; naive_solver|].
  destruct (decide (k = k0)) as [->|]; rewrite !elem_of_cons; naive_solver.
Qed.

Lemma elem_of_map_delete m k k' v' : (k', v') ∈ map_delete m k -> k' <> k /\ (k', v') ∈ m.
Proof. by intros [? ?]%list_elem_of_filter. Qed.

Lemma map_has_true m k : map_has m k = true <-> is_Some (map_get m k).
Proof. unfold map_has. destruct (map_get m k) as [v|]; split; try done. Qed.

Lemma map_get_elem m k v : map_get m k = Some v -> (k, v) ∈ m.
Proof.
  induction m as [|[k' v'] m IH]; simpl; [done|].
  case_decide; intros; simplify_eq; set_solver.
Qed.

Lemma map_elem_get m k v : map_wf m -> (k, v) ∈ m -> map_get m k = Some v.
Proof.
  intros Hwf Hin. rewrite <- abs_get. by apply elem_of_list_to_map_1.
Qed.

Lemma map_get_value m k v : map_get m k = Some v -> v ∈ map_values m.
Proof. intros Hg%map_get_elem. apply list_elem_of_fmap. by exists (k, v). Qed.

Lemma map_keys_get m k : k ∈ map_keys m <-> is_Some (map_get m k).
Proof.
  induction m as [|[k' v'] m IH]; simpl.
  - split; [intros Hin; by apply not_elem_of_nil in Hin|by intros [? ?]].
  - change (k ∈ k' :: map_keys m <-> is_Some (if decide (k = k') then Some v' else map_get m k)).
    rewrite elem_of_cons, IH. case_decide; naive_solver.
Qed.

(** *** Key distinctness and order *)

Lemma map_keys_set_present m k v :
  is_Some (map_get m k) -> map_keys (map_set m k v) = map_keys m.
Proof.
  unfold map_keys. induction m as [|[k' v'] m IH]; simpl; [by intros [? ?]|].
  case_decide; simpl; [done|]. intros. f_equal. by apply IH.
Qed.

Lemma map_set_absent m k v : map_get m k = None -> map_set m k v = m ++ [(k, v)].
Proof.
  induction m as [|[k' v'] m IH]; simpl; [done|].
  case_decide; [done|]. intros. by rewrite IH.
Qed.

Lemma map_wf_nil : map_wf [].
Proof. constructor. Qed.

Lemma map_wf_set m k v : map_wf m -> map_wf (map_set m k v).
Proof.
  intros Hwf. unfold map_wf. destruct (map_get m k) eqn:E.
  - rewrite map_keys_set_present by eauto. done.
  - rewrite map_set_absent by done. unfold map_keys. rewrite fmap_app. simpl.
    apply NoDup_app. split; [done|]. split; [|apply NoDup_singleton].
    intros x Hx ->%list_elem_of_singleton.
    apply map_keys_get in Hx as [? ?]. congruence.
Qed.

Lemma map_delete_sublist m k : map_delete m k `sublist_of` m.
Proof.
  unfold map_delete. induction m as [|e m IH]; [done|].
  rewrite filter_cons. case_decide; by constructor.
Qed.

Lemma map_wf_delete m k : map_wf m -> map_wf (map_delete m k).
Proof.
  unfold map_wf, map_keys. intros. eapply sublist_NoDup; [done|].
  apply fmap_sublist, map_delete_sublist.
Qed.

Lemma map_delete_absent m k : map_get m k = None -> map_delete m k = m.
Proof.
  unfold map_delete. induction m as [|[k' v'] m IH]; simpl; [done|].
  rewrite filter_cons. case_decide; [done|]. intros.
  rewrite decide_True by (simpl; congruence). by rewrite IH.
Qed.

(** A property of all values is kept by [set] and [delete]. *)
Lemma map_set_values_Forall (P : V -> Prop) m k v :
  Forall P (map_values m) -> P v -> Forall P (map_values (map_set m k v)).
Proof.
  unfold map_values. induction m as [|[k' v'] m IH]; simpl; intros Hm Hv.
  - by constructor.
  - apply Forall_cons in Hm as [? ?]. case_decide; simpl; constructor; auto.
Qed.

Lemma map_delete_values_Forall (P : V -> Prop) m k :
  Forall P (map_values m) -> Forall P (map_values (map_delete m k)).
Proof.
  unfold map_values. intros. eapply Forall_sublist; [|done].
  apply fmap_sublist, map_delete_sublist.
Qed.

Lemma map_get_Forall (P : V -> Prop) m k v :
  Forall P (map_values m) -> map_get m k = Some v -> P v.
Proof. intros Hm Hg%map_get_value. rewrite Forall_forall in Hm. by apply Hm. Qed.
End JsMap.

#[export] Hint Resolve map_wf_nil map_wf_set map_wf_delete
  map_set_values_Forall map_delete_values_Forall : aura.

(** Look-up after an update, by cases on the keys. *)
Ltac map_simpl :=
  repeat first
    [ rewrite map_get_set_eq | rewrite map_get_delete_eq
    | rewrite map_get_set_ne by congruence
    | rewrite map_get_delete_ne by congruence ].
