(* ===== verification/Json.v ===== *)
(** * JSON

    [JSON.parse] and [JSON.stringify] of the standard library, as the
    services use them: replies of the language model are parsed without
    validation, and metadata is stored as JSON text.  Numbers are exact
    rationals; [stringify] is modelled for integers.  A parsed object keeps
    its keys in order of first occurrence, the last value of a repeated key
    wins.  [parse_stringify] is the round trip.

    The fuel of [parse] is twice the length of the text: every two nested
    calls read a character. *)

From Stdlib Require Import ZArith QArith Lia DecimalString DecimalPos.
From stdpp Require Import base strings option list.
From S2P Require Import Prelude JsString JsMap.

#[local] Open Scope Z_scope.

#[warnings="-register-all"]
Inductive json :=
| JNull
| JBool (b : bool)
| JNum (n : Q)
| JStr (s : jsstr)
| JArr (l : list json)
| JObj (fields : list (jsstr * json)).

(** Induction over the elements and fields *)
Section Induction.
Context (P : json -> Prop).
Hypothesis Hnull : P JNull.
Hypothesis Hbool : forall b, P (JBool b).
Hypothesis Hnum : forall n, P (JNum n).
Hypothesis Hstr : forall s, P (JStr s).
Hypothesis Harr : forall l, Forall P l -> P (JArr l).
Hypothesis Hobj : forall fs, Forall (fun f => P f.2) fs -> P (JObj fs).

Fixpoint json_induction (v : json) : P v :=
  match v with
  | JNull => Hnull
  | JBool b => Hbool b
  | JNum n => Hnum n
  | JStr s => Hstr s
  | JArr l => Harr l ((fix go l : Forall P l :=
      match l with [] => Forall_nil_2 P | x :: l' => Forall_cons_2 P x l' (json_induction x) (go l') end) l)
  | JObj fs => Hobj fs ((fix go fs : Forall (fun f => P f.2) fs :=
      match fs with
      | [] => Forall_nil_2 _
      | f :: fs' => Forall_cons_2 (fun f => P f.2) f fs' (json_induction f.2) (go fs')
      end) fs)
  end.
End Induction.

(** [v.key]; [None] is [undefined] *)
Definition prop (v : json) (key : jsstr) : option json :=
  match v with JObj fs => map_get fs key | _ => None end.

(** Truthiness of a value or of [undefined] *)
Definition json_truthy (v : option json) : bool :=
  match v with
  | None | Some JNull => false
  | Some (JBool b) => b
  | Some (JNum n) => negb (Qeq_bool n 0)
  | Some (JStr s) => match s with [] => false | _ => true end
  | Some (JArr _) | Some (JObj _) => true
  end.

(** [String(v)], as in a template; the text of numbers is an argument *)
Fixpoint json_text (number_text : Q -> jsstr) (v : json) : jsstr :=
  match v with
  | JNull => js "null"
  | JBool b => js (if b then "true" else "false")
  | JNum n => number_text n
  | JStr s => s
  | JArr l => join (js ",") ((fun x => match x with JNull => [] | _ => json_text number_text x end) <$> l)
  | JObj _ => js "[object Object]"
  end.

Definition to_text (number_text : Q -> jsstr) (v : option json) : jsstr :=
  match v with Some v => json_text number_text v | None => js "undefined" end.

(** A field that is left out of the text when it is [undefined] *)
Definition opt_field (key : string) (v : option json) : list (jsstr * json) :=
  match v with Some v => [(js key, v)] | None => [] end.

(* ------------------------------------------------------------------ *)
(** ** Parsing *)

Definition is_json_ws (c : Z) : bool := (c =? 32) || (c =? 9) || (c =? 10) || (c =? 13).

Fixpoint skip_ws (s : jsstr) : jsstr :=
  match s with
  | c :: s' => if is_json_ws c then skip_ws s' else s
  | [] => []
  end.

Definition is_dec (c : Z) : bool := (48 <=? c) && (c <=? 57).

Definition hex_value (c : Z) : option Z :=
  if is_dec c then Some (c - 48)
  else if (97 <=? c) && (c <=? 102) then Some (c - 87)
  else if (65 <=? c) && (c <=? 70) then Some (c - 55)
  else None.

(** The unit an escape letter stands for *)
Definition escape_unit (c : Z) : option Z :=
  if (c =? 34) || (c =? 92) || (c =? 47) then Some c
  else if c =? 98 then Some 8
  else if c =? 102 then Some 12
  else if c =? 110 then Some 10
  else if c =? 114 then Some 13
  else if c =? 116 then Some 9
  else None.

Definition hex4 (a b c d : Z) : option Z :=
  a ← hex_value a; b ← hex_value b; c ← hex_value c; d ← hex_value d;
  Some (4096 * a + 256 * b + 16 * c + d).

(** The characters of a string literal after the opening quote *)
Fixpoint parse_string (s : jsstr) : option (jsstr * jsstr) :=
  match s with
  | [] => None
  | c :: s1 =>
    if c =? 34 then Some ([], s1)
    else if c =? 92 then
      match s1 with
      | [] => None
      | e :: s2 =>
        if e =? 117 then
          match s2 with
          | a :: b :: c' :: d :: s3 =>
            u ← hex4 a b c' d; '(w, rest) ← parse_string s3; Some (u :: w, rest)
          | _ => None
          end
        else u ← escape_unit e; '(w, rest) ← parse_string s2; Some (u :: w, rest)
      end
    else if c <? 32 then None
    else '(w, rest) ← parse_string s1; Some (c :: w, rest)
  end.

(** Leading decimal digits: their value and number, and the rest *)
Fixpoint take_digits (s : jsstr) (acc : Z) (n : nat) : Z * nat * jsstr :=
  match s with
  | c :: s' => if is_dec c then take_digits s' (10 * acc + (c - 48)) (S n) else (acc, n, s)
  | [] => (acc, n, [])
  end.

Definition parse_frac (s : jsstr) : option (Z * nat * jsstr) :=
  match s with
  | c :: s' =>
    if c =? 46 then match take_digits s' 0 0 with (_, O, _) => None | r => Some r end
    else Some (0, O, s)
  | [] => Some (0, O, [])
  end.

Definition parse_exp (s : jsstr) : option (Z * jsstr) :=
  match s with
  | c :: s' =>
    if (c =? 101) || (c =? 69) then
      let '(sign, s'') := match s' with
        | 43 :: r => (1, r)
        | 45 :: r => (-1, r)
        | _ => (1, s')
        end in
      match take_digits s'' 0 0 with
      | (_, O, _) => None
      | (e, _, rest) => Some (sign * e, rest)
      end
    else Some (0, s)
  | [] => Some (0, [])
  end.

Definition Qpow10 (e : Z) : Q := Qpower (inject_Z 10) e.

Definition parse_unsigned (s : jsstr) : option (Q * jsstr) :=
  match take_digits s 0 0 with
  | (_, O, _) => None
  | (int, n, rest) =>
    if negb (Nat.eqb n 1) && bool_decide (head s = Some 48) then None
    else
      '(frac, k, rest) ← parse_frac rest;
      '(e, rest) ← parse_exp rest;
      Some (if Nat.eqb k 0 && (e =? 0) then inject_Z int
            else ((inject_Z int + inject_Z frac * Qpow10 (- Z.of_nat k)) * Qpow10 e)%Q, rest)
  end.

Definition parse_number (s : jsstr) : option (Q * jsstr) :=
  match s with
  | c :: s' =>
    if c =? 45 then '(n, rest) ← parse_unsigned s'; Some (Qopp n, rest) else parse_unsigned s
  | [] => None
  end.

Fixpoint strip_prefix (p s : jsstr) : option jsstr :=
  match p, s with
  | [], _ => Some s
  | c :: p', d :: s' => if c =? d then strip_prefix p' s' else None
  | _ :: _, [] => None
  end.

(** A value that is not an array or an object *)
Definition parse_scalar (s : jsstr) : option (json * jsstr) :=
  match strip_prefix (js "true") s, strip_prefix (js "false") s, strip_prefix (js "null") s with
  | Some r, _, _ => Some (JBool true, r)
  | None, Some r, _ => Some (JBool false, r)
  | None, None, Some r => Some (JNull, r)
  | None, None, None => '(n, r) ← parse_number s; Some (JNum n, r)
  end.

Fixpoint parse_value (fuel : nat) (s : jsstr) : option (json * jsstr) :=
  match fuel with
  | O => None
  | S f =>
    match skip_ws s with
    | [] => None
    | c :: s1 =>
      if c =? 123 then
        match skip_ws s1 with
        | c' :: r => if c' =? 125 then Some (JObj [], r) else parse_members f s1 []
        | [] => None
        end
      else if c =? 91 then
        match skip_ws s1 with
        | c' :: r => if c' =? 93 then Some (JArr [], r) else parse_elements f s1 []
        | [] => None
        end
      else if c =? 34 then '(w, r) ← parse_string s1; Some (JStr w, r)
      else parse_scalar (c :: s1)
    end
  end
with parse_elements (fuel : nat) (s : jsstr) (acc : list json) : option (json * jsstr) :=
  match fuel with
  | O => None
  | S f =>
    '(v, r) ← parse_value f s;
    match skip_ws r with
    | c :: r' =>
      if c =? 44 then parse_elements f r' (v :: acc)
      else if c =? 93 then Some (JArr (reverse (v :: acc)), r')
      else None
    | [] => None
    end
  end
with parse_members (fuel : nat) (s : jsstr) (acc : list (jsstr * json)) : option (json * jsstr) :=
  match fuel with
  | O => None
  | S f =>
    match skip_ws s with
    | c :: s1 =>
      if c =? 34 then
        '(k, r) ← parse_string s1;
        match skip_ws r with
        | c' :: r1 =>
          if c' =? 58 then
            '(v, r2) ← parse_value f r1;
            match skip_ws r2 with
            | d :: r3 =>
              if d =? 44 then parse_members f r3 (map_set acc k v)
              else if d =? 125 then Some (JObj (map_set acc k v), r3)
              else None
            | [] => None
            end
          else None
        | [] => None
        end
      else None
    | [] => None
    end
  end.

(** [JSON.parse]; [None] is a [SyntaxError] *)
Definition parse (s : jsstr) : option json :=
  '(v, rest) ← parse_value (2 * length s + 2) s;
  match skip_ws rest with [] => Some v | _ => None end.

Example parse_ex :
  parse (jq "{`a`: [1, -2.50, true], `b\u0041\n`: null, `a`: `x`} ") =
    Some (JObj [(js "a", JStr (js "x")); (js "bA" ++ nl, JNull)]) /\
  parse (jq "{`a` 1}") = None /\ parse (js "01") = None /\ parse (js "[1,]") = None.
Proof. vm_compute. auto. Qed.

(* ------------------------------------------------------------------ *)
(** ** Printing *)

Definition hex_digit (n : Z) : Z := if n <? 10 then 48 + n else 87 + n.

Definition unicode_escape (c : Z) : jsstr :=
  [92; 117; hex_digit (c / 4096 mod 16); hex_digit (c / 256 mod 16); hex_digit (c / 16 mod 16); hex_digit (c mod 16)].

Definition is_surrogate_high (c : Z) : bool := (55296 <=? c) && (c <=? 56319).
Definition is_surrogate_low (c : Z) : bool := (56320 <=? c) && (c <=? 57343).

(** One unit that is not part of a surrogate pair *)
Definition escape_one (c : Z) : jsstr :=
  if c =? 34 then [92; 34]
  else if c =? 92 then [92; 92]
  else if c =? 8 then [92; 98]
  else if c =? 12 then [92; 102]
  else if c =? 10 then [92; 110]
  else if c =? 13 then [92; 114]
  else if c =? 9 then [92; 116]
  else if (c <? 32) || is_surrogate_high c || is_surrogate_low c then unicode_escape c
  else [c].

Fixpoint escape (s : jsstr) : jsstr :=
  match s with
  | [] => []
  | c :: s1 =>
    match s1 with
    | d :: s2 => if is_surrogate_high c && is_surrogate_low d then c :: d :: escape s2
                 else escape_one c ++ escape s1
    | [] => escape_one c
    end
  end.

Definition quote (s : jsstr) : jsstr := 34 :: escape s ++ [34].

(** A line break with its indentation, when there is a gap *)
Definition break (gap indent : jsstr) : jsstr := match gap with [] => [] | _ => 10 :: indent end.
Definition colon (gap : jsstr) : jsstr := match gap with [] => [58] | _ => [58; 32] end.

(** Items separated by commas *)
Definition items_text (sep : jsstr) (items : list jsstr) : jsstr := join (44 :: sep) items.

(** An array or object of printed items between brackets *)
Definition bracketed (gap indent : jsstr) (l r : Z) (items : list jsstr) : jsstr :=
  match items with
  | [] => [l; r]
  | _ => l :: break gap (indent ++ gap) ++ items_text (break gap (indent ++ gap)) items ++ break gap indent ++ [r]
  end.

(** [JSON.stringify(v, null, gap)], at an indentation *)
Fixpoint print (gap indent : jsstr) (v : json) : jsstr :=
  match v with
  | JNull => js "null"
  | JBool b => js (if b then "true" else "false")
  | JNum n => js_of_Z (Qnum n)
  | JStr s => quote s
  | JArr l => bracketed gap indent 91 93 (print gap (indent ++ gap) <$> l)
  | JObj fs => bracketed gap indent 123 125
                 ((fun f => quote f.1 ++ colon gap ++ print gap (indent ++ gap) f.2) <$> fs)
  end.

Definition stringify (v : json) : jsstr := print [] [] v.
Definition stringify2 (v : json) : jsstr := print [32; 32] [] v.

Example stringify_ex :
  stringify (JObj [(js "a", JArr [JNum (inject_Z (-12)); JNull]); (js "b", JStr (nl ++ js "가"))])
  = jq "{`a`:[-12,null],`b`:`\n가`}".
Proof. vm_compute. reflexivity. Qed.

Example stringify2_ex :
  stringify2 (JObj [(js "a", JArr [JNull; JArr []])])
  = lines [js "{"; jq "  `a`: ["; js "    null,"; js "    []"; js "  ]"; js "}"].
Proof. vm_compute. reflexivity. Qed.

(* ------------------------------------------------------------------ *)
(** ** Round trip *)

Definition unit16 (c : Z) : Prop := 0 <= c < 65536.
#[export] Instance unit16_dec c : Decision (unit16 c).
Proof. unfold unit16. apply _. Defined.

(** The units of a closed literal *)
Ltac literal_units := apply (bool_decide_unpack _); vm_compute; exact I.

(** *** Strings *)

Lemma hex_value_digit n : 0 <= n < 16 -> hex_value (hex_digit n) = Some n.
Proof.
  intros H. unfold hex_digit, hex_value, is_dec. destruct (Z.ltb_spec n 10).
  - z_decide. simpl. f_equal. lia.
  - replace (87 + n <=? 57) with false by lia. rewrite andb_false_r. z_decide. simpl. f_equal. lia.
Qed.

Lemma unicode_escape_parse c t :
  unit16 c -> parse_string (unicode_escape c ++ t) = '(w, rest) ← parse_string t; Some (c :: w, rest).
Proof.
  unfold unit16. intros Hc. unfold unicode_escape. simpl. unfold hex4.
  rewrite !hex_value_digit by (apply Z.mod_pos_bound; lia). simpl.
  replace (4096 * (c / 4096 mod 16) + 256 * (c / 256 mod 16) + 16 * (c / 16 mod 16) + c mod 16) with c; [done|].
  Z.to_euclidean_division_equations. lia.
Qed.

Lemma escape_one_parse c t :
  unit16 c -> parse_string (escape_one c ++ t) = '(w, rest) ← parse_string t; Some (c :: w, rest).
Proof.
  intros Hc. unfold escape_one.
  repeat (case_match; [bool_cases; subst; reflexivity|]).
  case_match; [by apply unicode_escape_parse|]. bool_cases. simpl.
  by z_decide.
Qed.

Lemma escape_cons2 c d s :
  escape (c :: d :: s) =
    if is_surrogate_high c && is_surrogate_low d then c :: d :: escape s else escape_one c ++ escape (d :: s).
Proof. reflexivity. Qed.

Lemma escape_parse s rest :
  Forall unit16 s -> parse_string (escape s ++ 34 :: rest) = Some (s, rest).
Proof.
  remember (length s) as n eqn:Hn. revert s Hn. induction (lt_wf n) as [n _ IH]. intros s -> Hs.
  destruct Hs as [|c s Hc Hs]; [done|]. destruct Hs as [|d s Hd Hs].
  - simpl. rewrite escape_one_parse by done. done.
  - rewrite escape_cons2. destruct (is_surrogate_high c && is_surrogate_low d) eqn:E.
    + unfold is_surrogate_high, is_surrogate_low in E. bool_cases.
      rewrite <- !app_comm_cons. cbn [parse_string]. z_decide.
      rewrite (IH (length s) ltac:(simpl; lia) s eq_refl Hs). done.
    + rewrite <- app_assoc, escape_one_parse by done.
      rewrite (IH (length (d :: s)) ltac:(simpl; lia) (d :: s) eq_refl ltac:(by constructor)). done.
Qed.

(** *** Numbers *)

Fixpoint units (u : Decimal.uint) : jsstr :=
  match u with
  | Decimal.Nil => []
  | Decimal.D0 u => 48 :: units u | Decimal.D1 u => 49 :: units u | Decimal.D2 u => 50 :: units u
  | Decimal.D3 u => 51 :: units u | Decimal.D4 u => 52 :: units u | Decimal.D5 u => 53 :: units u
  | Decimal.D6 u => 54 :: units u | Decimal.D7 u => 55 :: units u | Decimal.D8 u => 56 :: units u
  | Decimal.D9 u => 57 :: units u
  end.

Definition horner (l : jsstr) (acc : Z) : Z := foldl (fun a c => 10 * a + (c - 48)) acc l.

Lemma js_ascii c s :
  (Z.of_N (Ascii.N_of_ascii c) <? 128) = true -> js (String c s) = Z.of_N (Ascii.N_of_ascii c) :: js s.
Proof.
  intros H. unfold js. cbn [bytes_of_string utf8_decode]. rewrite H, bind_cons. apply Z.ltb_lt in H.
  unfold utf16_of_cp at 1. rewrite (proj2 (Z.ltb_lt _ 65536)) by lia. reflexivity.
Qed.

Lemma js_units u : js (NilEmpty.string_of_uint u) = units u.
Proof. induction u; cbn [NilEmpty.string_of_uint units]; [done|..]; rewrite js_ascii by done; by rewrite IHu. Qed.

Lemma units_dec u : Forall (fun c => is_dec c = true) (units u).
Proof. induction u; simpl; constructor; done. Qed.

Lemma horner_acc u p : horner (units u) (Zpos p) = Zpos (Pos.of_uint_acc u p).
Proof.
  unfold horner. revert p. induction u as [|u IH|u IH|u IH|u IH|u IH|u IH|u IH|u IH|u IH|u IH]; intros p;
    [done|..]; simpl; rewrite <- IH; f_equal; lia.
Qed.

Lemma horner_uint u : horner (units u) 0 = Z.of_N (Pos.of_uint u).
Proof.
  induction u as [|u IH|u IH|u IH|u IH|u IH|u IH|u IH|u IH|u IH|u IH]; [done|exact IH|..];
    simpl; rewrite <- horner_acc; done.
Qed.

(** What may follow a number *)
Definition ends_number (rest : jsstr) : Prop :=
  match rest with [] => True | c :: _ => is_dec c = false /\ c <> 46 /\ c <> 101 /\ c <> 69 end.

Lemma take_digits_units l rest acc n :
  Forall (fun c => is_dec c = true) l -> ends_number rest ->
  take_digits (l ++ rest) acc n = (horner l acc, (n + length l)%nat, rest).
Proof.
  intros Hl Hr. revert acc n. induction Hl as [|c l Hc _ IH]; intros acc n; simpl.
  - rewrite Nat.add_0_r. destruct rest as [|c rest]; [done|]. destruct Hr as [Hd _]. simpl. by rewrite Hd.
  - rewrite Hc, IH. simpl. by rewrite Nat.add_succ_r.
Qed.

Lemma parse_unsigned_digits l rest :
  Forall (fun c => is_dec c = true) l -> l <> [] -> (head l = Some 48 -> l = [48]) -> ends_number rest ->
  parse_unsigned (l ++ rest) = Some (inject_Z (horner l 0), rest).
Proof.
  intros Hl Hne H0 Hr. unfold parse_unsigned. rewrite take_digits_units by done.
  destruct (length l) as [|n] eqn:En; [by destruct l|]. simpl Nat.add. cbv iota beta.
  assert (negb (Nat.eqb (S n) 1) && bool_decide (head (l ++ rest) = Some 48) = false) as ->.
  { destruct l as [|c l]; [done|]. simpl. case_bool_decide as E; [|by rewrite andb_false_r].
    rewrite (H0 E) in En. simpl in En. injection En as <-. done. }
  assert (parse_frac rest = Some (0, O, rest) /\ parse_exp rest = Some (0, rest)) as [-> Hx].
  { destruct rest as [|c rest]; [done|]. destruct Hr as (Hd & H46 & H101 & H69). unfold parse_frac, parse_exp.
    rewrite (proj2 (Z.eqb_neq c 46)), (proj2 (Z.eqb_neq c 101)), (proj2 (Z.eqb_neq c 69)) by done. done. }
  simpl. rewrite Hx. done.
Qed.

Lemma nzhead_no_zero u u' : Decimal.nzhead u <> Decimal.D0 u'.
Proof. induction u; simpl; try done. Qed.

(** The digits of a positive number start with no zero. *)
Lemma units_pos_head p : head (units (Pos.to_uint p)) <> Some 48.
Proof.
  destruct (Pos.to_uint p) as [|u| | | | | | | | |] eqn:E; simpl; try done. intros _.
  pose proof (DecimalPos.Unsigned.to_of (Pos.to_uint p)) as Hto.
  rewrite DecimalPos.Unsigned.of_to in Hto. simpl in Hto. rewrite E in Hto. unfold Decimal.unorm in Hto. cbn [Decimal.nzhead] in Hto.
  pose proof (DecimalPos.Unsigned.of_to p) as Hof. rewrite E in Hof.
  destruct (Decimal.nzhead u) as [|u'| | | | | | | | |] eqn:En; try done.
  - injection Hto as ->. done.
  - by apply (nzhead_no_zero u u').
Qed.

Lemma parse_number_digits l rest :
  Forall (fun c => is_dec c = true) l -> l <> [] ->
  parse_number (l ++ rest) = parse_unsigned (l ++ rest).
Proof.
  intros Hl Hne. destruct Hl as [|c l Hc _]; [done|]. simpl. unfold is_dec in Hc. bool_cases. by z_decide.
Qed.

Definition pos_units (p : positive) : jsstr := units (Pos.to_uint p).

Lemma pos_units_spec p rest :
  ends_number rest -> parse_unsigned (pos_units p ++ rest) = Some (inject_Z (Zpos p), rest) /\ pos_units p <> [].
Proof.
  intros Hr. assert (pos_units p <> []) as Hne.
  { unfold pos_units. pose proof (DecimalPos.Unsigned.to_uint_nonnil p). by destruct (Pos.to_uint p). }
  split; [|done]. rewrite parse_unsigned_digits; [|apply units_dec|done| |done].
  - unfold pos_units. rewrite horner_uint, DecimalPos.Unsigned.of_to. done.
  - intros H. by apply units_pos_head in H.
Qed.

Lemma js_of_Z_pos p : js_of_Z (Zpos p) = pos_units p.
Proof.
  unfold js_of_Z, pos_units. simpl. rewrite <- js_units. f_equal.
  pose proof (DecimalPos.Unsigned.to_uint_nonnil p). by destruct (Pos.to_uint p).
Qed.

Lemma js_of_Z_neg p : js_of_Z (Zneg p) = 45 :: pos_units p.
Proof.
  rewrite <- js_of_Z_pos. unfold js_of_Z. simpl. reflexivity.
Qed.

Lemma js_of_Z_parse n rest :
  ends_number rest -> parse_number (js_of_Z n ++ rest) = Some (inject_Z n, rest).
Proof.
  intros Hr. destruct n as [|p|p].
  - change (js_of_Z 0) with [48]. rewrite parse_number_digits, parse_unsigned_digits; try done; repeat constructor.
  - rewrite js_of_Z_pos. destruct (pos_units_spec p rest Hr) as [Hp Hne].
    rewrite parse_number_digits; [done|apply units_dec|done].
  - rewrite js_of_Z_neg. destruct (pos_units_spec p rest Hr) as [Hp Hne].
    rewrite <- app_comm_cons. unfold parse_number. simpl Z.eqb. cbv iota. rewrite Hp. done.
Qed.

(** *** Values *)

(** The values whose text is modelled: integers, 16-bit units, distinct keys *)
Fixpoint printable (v : json) : Prop :=
  match v with
  | JNull | JBool _ => True
  | JNum n => Qden n = 1%positive
  | JStr s => Forall unit16 s
  | JArr l => (fix go l := match l with [] => True | x :: l' => printable x /\ go l' end) l
  | JObj fs => map_wf fs /\ (fix go fs := match fs with
      | [] => True | f :: fs' => (Forall unit16 f.1 /\ printable f.2) /\ go fs' end) fs
  end.

Lemma printable_arr l : printable (JArr l) <-> Forall printable l.
Proof.
  simpl. induction l as [|x l IH]; [split; [constructor|done]|]. rewrite Forall_cons. by apply and_iff_compat_l.
Qed.

Lemma printable_obj fs :
  printable (JObj fs) <-> map_wf fs /\ Forall (fun f => Forall unit16 f.1 /\ printable f.2) fs.
Proof.
  simpl. apply and_iff_compat_l. induction fs as [|f fs IH]; [split; [constructor|done]|].
  rewrite Forall_cons. by apply and_iff_compat_l.
Qed.

Lemma printable_set fs k v :
  printable (JObj fs) -> Forall unit16 k -> printable v -> printable (JObj (map_set fs k v)).
Proof.
  rewrite !printable_obj. intros [Hwf Hf] Hk Hv. split; [auto with aura|].
  clear Hwf. induction Hf as [|[k' v'] fs [Hk' Hv'] Hf IH]; simpl; [by repeat constructor|].
  case_decide; constructor; auto.
Qed.

(** Fuel *)
Fixpoint need (v : json) : nat :=
  match v with
  | JArr l => S ((fix go l := match l with [] => O | x :: l' => S (need x + go l') end) l)
  | JObj fs => S ((fix go fs := match fs with [] => O | f :: fs' => S (need f.2 + go fs') end) fs)
  | _ => 1
  end.

Fixpoint need_list {A} (f : A -> nat) (l : list A) : nat :=
  match l with [] => O | x :: l' => S (f x + need_list f l') end.

Lemma need_arr l : need (JArr l) = S (need_list need l).
Proof. simpl. f_equal. induction l as [|x l IH]; simpl; [done|]. by rewrite IH. Qed.
Lemma need_obj fs : need (JObj fs) = S (need_list (fun f => need f.2) fs).
Proof. simpl. f_equal. induction fs as [|x l IH]; simpl; [done|]. by rewrite IH. Qed.

(** The first character of a printed value *)
Definition starts_value (c : Z) : Prop :=
  is_json_ws c = false /\ c <> 93 /\ c <> 125.

Lemma units_starts u c t : units u = c :: t -> starts_value c /\ 48 <= c <= 57.
Proof. destruct u; intros [= <- <-]; unfold starts_value; split; done. Qed.

Lemma js_of_Z_starts n : exists c t, js_of_Z n = c :: t /\ (c = 45 \/ 48 <= c <= 57).
Proof.
  destruct n as [|p|p].
  - exists 48, []. split; [done|lia].
  - rewrite js_of_Z_pos. destruct (pos_units_spec p [] I) as [_ Hne]. unfold pos_units in *.
    destruct (units (Pos.to_uint p)) as [|c t] eqn:E; [done|]. apply units_starts in E as [_ E]. eauto.
  - rewrite js_of_Z_neg. eauto.
Qed.

Lemma print_starts gap indent v : exists c t, print gap indent v = c :: t /\ starts_value c.
Proof.
  assert (forall l r items, exists t, bracketed gap indent l r items = l :: t) as Hb.
  { intros l r [|x items]; by eexists. }
  destruct v as [|[]|n|s|l|fs]; try (by eexists _, _; split; [reflexivity|done]).
  - destruct (js_of_Z_starts (Qnum n)) as (c & t & E & Hc). exists c, t. split; [done|].
    unfold starts_value, is_json_ws. split; lia.
  - cbn [print]. edestruct Hb as [t ->]. by eexists _, _.
  - cbn [print]. edestruct Hb as [t ->]. by eexists _, _.
Qed.

Lemma skip_ws_starts c t : is_json_ws c = false -> skip_ws (c :: t) = c :: t.
Proof. simpl. by intros ->. Qed.

Lemma scalar_number n rest :
  ends_number rest -> parse_scalar (js_of_Z n ++ rest) = Some (JNum (inject_Z n), rest).
Proof.
  intros Hr. unfold parse_scalar. pose proof (js_of_Z_parse n rest Hr) as Hp.
  destruct (js_of_Z_starts n) as (c & t & E & Hc). rewrite E in *. rewrite <- app_comm_cons in *.
  assert (forall p q, p <> c -> strip_prefix (p :: q) (c :: t ++ rest) = None) as Hs.
  { intros p q Hne. simpl. by rewrite (proj2 (Z.eqb_neq p c)). }
  change (js "true") with (116 :: js "rue"). change (js "false") with (102 :: js "alse").
  change (js "null") with (110 :: js "ull"). rewrite !Hs by lia. rewrite Hp. done.
Qed.

(** White space, as printed, and what may come after a value *)
Definition blank (w : jsstr) : Prop := Forall (fun c => is_json_ws c = true) w.

Definition ends_value (rest : jsstr) : Prop :=
  match rest with [] => True | c :: _ => c = 44 \/ c = 93 \/ c = 125 \/ is_json_ws c = true end.

Lemma ends_value_number rest : ends_value rest -> ends_number rest.
Proof. destruct rest; [done|]. simpl. unfold is_dec, is_json_ws. lia. Qed.

Lemma skip_blank w s : blank w -> skip_ws (w ++ s) = skip_ws s.
Proof. induction 1 as [|c w Hc _ IH]; [done|]. simpl. by rewrite Hc. Qed.

Lemma ends_blank w c rest : blank w -> c = 44 \/ c = 93 \/ c = 125 -> ends_value (w ++ c :: rest).
Proof. intros Hw Hc. destruct Hw as [|d w Hd _]; simpl; tauto. Qed.

Section Gap.
Context (gap : jsstr) (Hgap : blank gap).

Lemma break_blank indent : blank indent -> blank (break gap indent).
Proof. intros H. unfold break. destruct gap; constructor; done. Qed.

Lemma indent_blank indent : blank indent -> blank (indent ++ gap).
Proof. intros H. by apply Forall_app. Qed.

Definition value_parses (indent : jsstr) (v : json) : Prop :=
  forall fuel w rest, blank w -> (need v <= fuel)%nat -> ends_value rest ->
  parse_value fuel (w ++ print gap indent v ++ rest) = Some (v, rest).

Lemma items_text_cons sep x y items :
  items_text sep (x :: y :: items) = x ++ 44 :: sep ++ items_text sep (y :: items).
Proof. reflexivity. Qed.

Lemma elements_parse indent sep w1 w2 l acc fuel rest :
  blank sep -> blank w1 -> blank w2 -> l <> [] -> Forall (value_parses indent) l -> (need_list need l <= fuel)%nat ->
  parse_elements fuel (w1 ++ items_text sep (print gap indent <$> l) ++ w2 ++ 93 :: rest) acc =
    Some (JArr (reverse acc ++ l), rest).
Proof.
  intros Hsep Hw1 Hw2. revert acc fuel w1 Hw1. induction l as [|v l IH]; intros acc fuel w1 Hw1 Hne Hl Hf; [done|].
  apply Forall_cons in Hl as [Hv Hl]. simpl in Hf. destruct fuel as [|f]; [lia|].
  cbn [parse_elements]. destruct l as [|v' l].
  - change (items_text sep (print gap indent <$> [v])) with (print gap indent v).
    rewrite Hv; [|done|lia|by apply ends_blank; auto]. cbn [mbind option_bind]. rewrite skip_blank by done.
    cbn [skip_ws is_json_ws Z.eqb Pos.eqb orb]. by rewrite reverse_cons.
  - rewrite !fmap_cons, items_text_cons, <- app_assoc, <- app_comm_cons, <- app_assoc, Hv; [|done|lia|simpl; auto].
    cbn [mbind option_bind skip_ws is_json_ws Z.eqb Pos.eqb orb].
    rewrite <- fmap_cons, IH; [|done|done|done|lia]. by rewrite reverse_cons, <- app_assoc.
Qed.

Definition member_text (indent : jsstr) (f : jsstr * json) : jsstr := quote f.1 ++ colon gap ++ print gap indent f.2.

(** One member is read up to its end. *)
Lemma member_parse indent k v f w rest acc :
  blank w -> Forall unit16 k -> value_parses indent v -> (need v <= f)%nat -> ends_value rest ->
  parse_members (S f) (w ++ member_text indent (k, v) ++ rest) acc =
    match skip_ws rest with
    | d :: r3 =>
      if d =? 44 then parse_members f r3 (map_set acc k v)
      else if d =? 125 then Some (JObj (map_set acc k v), r3)
      else None
    | [] => None
    end.
Proof.
  intros Hw Hk Hv Hf Hr. unfold member_text, quote. cbn [fst snd parse_members]. rewrite skip_blank by done.
  rewrite <- !app_assoc. cbn [app skip_ws is_json_ws Z.eqb Pos.eqb orb].
  rewrite <- !app_assoc. cbn [app]. rewrite escape_parse by done. cbn [mbind option_bind].
  assert (exists w', colon gap = 58 :: w' /\ blank w') as (w' & -> & Hw').
  { unfold colon. destruct gap; eexists; (split; [reflexivity|]); repeat constructor. }
  cbn [app skip_ws is_json_ws Z.eqb Pos.eqb orb]. rewrite Hv by done. reflexivity.
Qed.

Lemma members_parse indent sep w1 w2 fs acc fuel rest :
  blank sep -> blank w1 -> blank w2 ->
  fs <> [] -> Forall (fun f => Forall unit16 f.1 /\ value_parses indent f.2) fs -> map_wf (acc ++ fs) ->
  (need_list (fun f => need f.2) fs <= fuel)%nat ->
  parse_members fuel (w1 ++ items_text sep (member_text indent <$> fs) ++ w2 ++ 125 :: rest) acc =
    Some (JObj (acc ++ fs), rest).
Proof.
  intros Hsep Hw1 Hw2. revert acc fuel w1 Hw1.
  induction fs as [|[k v] fs IH]; intros acc fuel w1 Hw1 Hne Hl Hwf Hf; [done|].
  apply Forall_cons in Hl as [[Hk Hv] Hl]. simpl in Hk, Hv, Hf. destruct fuel as [|f]; [lia|].
  assert (map_set acc k v = acc ++ [(k, v)]) as Hset.
  { apply map_set_absent. destruct (map_get acc k) eqn:E; [exfalso|done].
    unfold map_wf, map_keys in Hwf. rewrite fmap_app, NoDup_app in Hwf. destruct Hwf as (_ & Hd & _).
    apply (Hd k); [|by left]. apply map_keys_get. by rewrite E. }
  destruct fs as [|f' fs].
  - change (items_text sep (member_text indent <$> [(k, v)])) with (member_text indent (k, v)).
    rewrite member_parse; [|done|done|done|lia|by apply ends_blank; auto].
    rewrite skip_blank by done. cbn [skip_ws is_json_ws Z.eqb Pos.eqb orb]. by rewrite Hset.
  - rewrite !fmap_cons, items_text_cons, <- app_assoc, <- app_comm_cons, <- app_assoc, member_parse;
      [|done|done|done|lia|simpl; auto].
    cbn [skip_ws is_json_ws Z.eqb Pos.eqb orb]. rewrite Hset, <- fmap_cons.
    rewrite IH; [|done|done|done| |lia]; rewrite <- app_assoc; done.
Qed.

(** The text of a non-empty list of items starts with its first item. *)
Lemma items_starts sep x t items rest (c : Z) : x = c :: t -> exists t', items_text sep (x :: items) ++ rest = c :: t'.
Proof.
  intros ->. destruct items as [|y items].
  - by eexists.
  - rewrite items_text_cons, <- app_assoc. by eexists.
Qed.

Lemma value_roundtrip v : printable v -> forall indent, blank indent -> value_parses indent v.
Proof.
  induction v as [|b|n|s|l IH|fs IH] using json_induction; intros Hp indent Hi [|f] w rest Hw Hf Hr;
    try (simpl in Hf; lia); cbn [parse_value]; rewrite skip_blank by done.
  - reflexivity.
  - destruct b; reflexivity.
  - simpl in Hp. change (print gap indent (JNum n)) with (js_of_Z (Qnum n)).
    pose proof (scalar_number (Qnum n) rest (ends_value_number _ Hr)) as Hs.
    destruct (js_of_Z_starts (Qnum n)) as (c & t & E & Hc). rewrite E in *. rewrite <- app_comm_cons in *.
    rewrite skip_ws_starts by (unfold is_json_ws; lia).
    rewrite (proj2 (Z.eqb_neq c 123)), (proj2 (Z.eqb_neq c 91)), (proj2 (Z.eqb_neq c 34)) by lia.
    rewrite Hs. destruct n as [num den]. simpl in *. by subst.
  - simpl in Hp. change (print gap indent (JStr s)) with (34 :: escape s ++ [34]).
    rewrite <- app_comm_cons, <- app_assoc. cbn [app skip_ws is_json_ws Z.eqb Pos.eqb orb].
    by rewrite escape_parse.
  - apply printable_arr in Hp. rewrite need_arr in Hf. cbn [print]. destruct l as [|v l]; [reflexivity|].
    unfold bracketed. rewrite fmap_cons. cbv iota. rewrite <- fmap_cons.
    rewrite <- app_comm_cons, <- !app_assoc. cbn [skip_ws is_json_ws Z.eqb Pos.eqb orb app].
    pose proof (break_blank _ (indent_blank _ Hi)) as Hb. pose proof (break_blank _ Hi) as Hb'.
    rewrite (elements_parse (indent ++ gap)); [|done|done|done|done| |lia].
    2: { rewrite Forall_forall in *. intros x Hx. apply IH; auto using indent_blank. }
    rewrite skip_blank by done.
    destruct (print_starts gap (indent ++ gap) v) as (c & t & E & Hc). rewrite fmap_cons.
    destruct (items_starts (break gap (indent ++ gap)) _ t (print gap (indent ++ gap) <$> l)
      (break gap indent ++ 93 :: rest) c E) as [t' ->].
    rewrite skip_ws_starts by apply Hc. by rewrite (proj2 (Z.eqb_neq c 93)) by apply Hc.
  - apply printable_obj in Hp as [Hwf Hp]. rewrite need_obj in Hf. cbn [print]. destruct fs as [|[k v] fs]; [reflexivity|].
    unfold bracketed. fold (member_text (indent ++ gap)). rewrite fmap_cons. cbv iota. rewrite <- fmap_cons.
   
    rewrite <- app_comm_cons, <- !app_assoc. cbn [skip_ws is_json_ws Z.eqb Pos.eqb orb app].
    pose proof (break_blank _ (indent_blank _ Hi)) as Hb. pose proof (break_blank _ Hi) as Hb'.
    rewrite (members_parse (indent ++ gap)); [|done|done|done|done| |done|lia].
    2: { rewrite Forall_forall in *. intros x Hx. split; [by apply Hp|]. apply IH; [done|by apply Hp|by apply indent_blank]. }
    rewrite skip_blank by done. rewrite fmap_cons.
    destruct (items_starts (break gap (indent ++ gap)) (member_text (indent ++ gap) (k, v))
      ((escape k ++ [34]) ++ colon gap ++ print gap (indent ++ gap) v) (member_text (indent ++ gap) <$> fs)
      (break gap indent ++ 125 :: rest) 34 eq_refl) as [t' ->].
    reflexivity.
Qed.

(** *** Fuel is enough *)

Lemma need_list_length {A} (f : A -> nat) (text : A -> jsstr) sep l :
  Forall (fun x => f x <= 2 * length (text x) + 1)%nat l ->
  (need_list f l <= 2 * length (items_text sep (text <$> l)) + 2)%nat.
Proof.
  induction 1 as [|x l Hx _ IH]; [simpl; lia|]. destruct l as [|y l].
  - change (items_text sep (text <$> [x])) with (text x). cbn [need_list]. lia.
  - rewrite !fmap_cons, items_text_cons, length_app. cbn [length need_list]. rewrite length_app, <- fmap_cons.
    cbn [need_list] in IH. lia.
Qed.

Lemma need_length v : forall indent, (need v <= 2 * length (print gap indent v) + 1)%nat.
Proof.
  induction v as [|b|n|s|l IH|fs IH] using json_induction; intros indent; try (simpl; lia).
  - rewrite need_arr. cbn [print]. destruct l as [|v l]; [simpl; lia|].
    assert (Forall (fun x => need x <= 2 * length (print gap (indent ++ gap) x) + 1)%nat (v :: l)) as Hl.
    { eapply Forall_impl; [exact IH|]. auto. }
    apply (need_list_length need (print gap (indent ++ gap)) (break gap (indent ++ gap))) in Hl.
    unfold bracketed, items_text in *. rewrite fmap_cons in *. cbn [length]. rewrite !length_app. simpl length at 4. lia.
  - rewrite need_obj. cbn [print]. fold (member_text (indent ++ gap)). destruct fs as [|f fs]; [simpl; lia|].
    assert (Forall (fun f => need f.2 <= 2 * length (member_text (indent ++ gap) f) + 1)%nat (f :: fs)) as Hl.
    { eapply Forall_impl; [exact IH|]. intros [k v] Hv. unfold member_text. rewrite !length_app. specialize (Hv (indent ++ gap)).
      simpl in *. lia. }
    apply (need_list_length (fun f => need f.2) (member_text (indent ++ gap)) (break gap (indent ++ gap))) in Hl.
    unfold bracketed, items_text in *. rewrite fmap_cons in *. cbn [length]. rewrite !length_app. simpl length at 4. lia.
Qed.

Lemma parse_print v : printable v -> parse (print gap [] v) = Some v.
Proof.
  intros Hp. unfold parse. pose proof (need_length v []).
  rewrite <- (app_nil_r (print gap [] v)) at 2.
  rewrite <- (app_nil_l (print gap [] v ++ [])).
  rewrite (value_roundtrip v Hp []); [done|constructor|constructor|lia|done].
Qed.
End Gap.

(** [JSON.parse(JSON.stringify(v))] is [v], with and without indentation. *)
Lemma parse_stringify v : printable v -> parse (stringify v) = Some v.
Proof. apply parse_print. constructor. Qed.

Lemma parse_stringify2 v : printable v -> parse (stringify2 v) = Some v.
Proof. apply parse_print. repeat constructor. Qed.
