(* ===== verification/JsNumber.v ===== *)
(** * Numbers

    The values of JavaScript's number type: rationals, the two infinities and
    [NaN].  Finite doubles are modelled as rationals without rounding; there is
    one zero.  [Math.sqrt], [Math.log10] and [Math.pow] are approximations
    that the language leaves to the implementation; where they are used on
    finite arguments they are arguments of the model. *)

From Stdlib Require Import ZArith QArith Qminmax Qabs Lia Lqa.
From stdpp Require Import base strings option list.
From S2P Require Import Prelude JsString JsMap Json.

#[local] Open Scope Z_scope.

Inductive number := Finite (q : Q) | Infinite (negative : bool) | NotANumber.

Definition of_Z (z : Z) : number := Finite (inject_Z z).

Definition nopp (n : number) : number :=
  match n with Finite q => Finite (- q) | Infinite b => Infinite (negb b) | NotANumber => NotANumber end.

Definition nadd (x y : number) : number :=
  match x, y with
  | Finite p, Finite q => Finite (p + q)
  | NotANumber, _ | _, NotANumber => NotANumber
  | Infinite a, Infinite b => if Bool.eqb a b then Infinite a else NotANumber
  | Infinite a, Finite _ | Finite _, Infinite a => Infinite a
  end.

Definition nsub (x y : number) : number := nadd x (nopp y).

(** The sign of a finite number; [None] for zero *)
Definition sign (q : Q) : option bool :=
  if Qlt_bool q 0 then Some true else if Qlt_bool 0 q then Some false else None.

Definition nmul (x y : number) : number :=
  match x, y with
  | Finite p, Finite q => Finite (p * q)
  | NotANumber, _ | _, NotANumber => NotANumber
  | Infinite a, Infinite b => Infinite (xorb a b)
  | Infinite a, Finite q | Finite q, Infinite a =>
    match sign q with Some b => Infinite (xorb a b) | None => NotANumber end
  end.

Definition ndiv (x y : number) : number :=
  match x, y with
  | NotANumber, _ | _, NotANumber => NotANumber
  | Finite p, Finite q =>
    if Qeq_bool q 0 then match sign p with Some b => Infinite b | None => NotANumber end else Finite (p / q)
  | Infinite _, Infinite _ => NotANumber
  | Finite _, Infinite _ => Finite 0
  | Infinite a, Finite q => Infinite (xorb a (Qlt_bool q 0))
  end.

(** [x < y]; every comparison with [NaN] is false *)
Definition nlt (x y : number) : bool :=
  match x, y with
  | Finite p, Finite q => Qlt_bool p q
  | NotANumber, _ | _, NotANumber => false
  | Infinite a, Infinite b => a && negb b
  | Infinite a, Finite _ => a
  | Finite _, Infinite b => negb b
  end.

Definition ngt (x y : number) : bool := nlt y x.

Definition nabs (x : number) : number :=
  match x with Finite q => Finite (Qabs q) | Infinite _ => Infinite false | NotANumber => NotANumber end.

(** [Math.min] and [Math.max] of two arguments *)
Definition nmin (x y : number) : number :=
  match x, y with
  | NotANumber, _ | _, NotANumber => NotANumber
  | _, _ => if nlt x y then x else y
  end.

Definition nmax (x y : number) : number :=
  match x, y with
  | NotANumber, _ | _, NotANumber => NotANumber
  | _, _ => if nlt x y then y else x
  end.

Definition nsum (l : list number) : number := foldl nadd (Finite 0) l.

Definition is_finite (x : number) : Prop := match x with Finite _ => True | _ => False end.

(** [Math.sqrt], [Math.log10] and [Math.pow(10, x)], from approximations on
    finite arguments *)
Definition math_sqrt (sqrt : Q -> Q) (x : number) : number :=
  match x with
  | Finite q => if Qlt_bool q 0 then NotANumber else Finite (sqrt q)
  | Infinite false => Infinite false
  | _ => NotANumber
  end.

Definition math_log10 (log10 : Q -> Q) (x : number) : number :=
  match x with
  | Finite q => if Qlt_bool 0 q then Finite (log10 q) else if Qlt_bool q 0 then NotANumber else Infinite true
  | Infinite false => Infinite false
  | _ => NotANumber
  end.

Definition math_pow10 (pow10 : Q -> Q) (x : number) : number :=
  match x with
  | Finite q => Finite (pow10 q)
  | Infinite true => Finite 0
  | Infinite false => Infinite false
  | NotANumber => NotANumber
  end.

(* ------------------------------------------------------------------ *)
(** ** Conversions *)

(** Digits in a base, all of the text *)
Fixpoint digits_in (base : Z) (s : jsstr) (acc : Z) : number :=
  match s with
  | [] => Finite (inject_Z acc)
  | c :: s' =>
    match hex_value c with
    | Some d => if d <? base then digits_in base s' (base * acc + d) else NotANumber
    | None => NotANumber
    end
  end.

Definition prefixed (base : Z) (s : jsstr) : number := match s with [] => NotANumber | _ => digits_in base s 0 end.

(** A decimal numeral without sign, all of the text *)
Definition decimal (s : jsstr) : number :=
  let '(int, n, rest) := take_digits s 0 0 in
  let '(frac, k, rest) := match rest with c :: r => if c =? 46 then take_digits r 0 0 else (0, O, rest) | [] => (0, O, []) end in
  if (n + k =? 0)%nat then NotANumber
  else match parse_exp rest with
       | Some (e, []) => Finite ((inject_Z int + inject_Z frac * Qpow10 (- Z.of_nat k)) * Qpow10 e)%Q
       | _ => NotANumber
       end.

Definition unsigned (s : jsstr) : number := if decide (s = js "Infinity") then Infinite false else decimal s.

(** [Number(s)] for a string *)
Definition string_to_number (s : jsstr) : number :=
  match trim s with
  | [] => Finite 0
  | c :: r =>
    if c =? 45 then nopp (unsigned r)
    else if c =? 43 then unsigned r
    else match c =? 48, r with
         | true, x :: r' =>
           if (x =? 120) || (x =? 88) then prefixed 16 r'
           else if (x =? 111) || (x =? 79) then prefixed 8 r'
           else if (x =? 98) || (x =? 66) then prefixed 2 r'
           else unsigned (c :: r)
         | _, _ => unsigned (c :: r)
         end
  end.

Example string_to_number_ex :
  nlt (string_to_number (js " 6.95e1 ")) (Finite 70) = true /\ nlt (string_to_number (js "70.")) (Finite 70) = false /\ string_to_number (js "0x1F") = Finite 31 /\
  string_to_number (js "-Infinity") = Infinite true /\ string_to_number (js "80%") = NotANumber /\
  string_to_number (js ".") = NotANumber /\ string_to_number [] = Finite 0.
Proof. vm_compute. repeat split. Qed.

(** [Number(v)], as a comparison takes it *)
Definition to_number (number_text : Q -> jsstr) (v : option json) : number :=
  match v with
  | None | Some (JObj _) => NotANumber
  | Some JNull => Finite 0
  | Some (JBool b) => Finite (if b then 1 else 0)
  | Some (JNum q) => Finite q
  | Some (JStr s) => string_to_number s
  | Some (JArr l) => string_to_number (json_text number_text (JArr l))
  end.

