(* ===== verification/Records.v ===== *)
(** * Functional update of records

    [r <| field := v |>] is the record [r] with [field] replaced.  A record
    type declares how it is rebuilt from its fields (an instance of [Eta]); the
    setter of a field is found from it by abstracting the projection. *)

From stdpp Require Import base.

(** The identity, written as the constructor applied to the projections *)
Class Eta (R : Type) := eta : R -> R.

Class Setter {R T : Type} (field : R -> T) := set_field : (T -> T) -> R -> R.
#[global] Arguments set_field {R T} field {_} / _ _.

Ltac find_setter R field :=
  let e := eval cbv beta delta [eta] in (@eta R _) in
  let e := (match e with ?i => eval unfold i in i | ?e' => e' end) in
  match eval pattern field in e with
  | ?build _ => exact (fun f r => build (fun r' => f (field r')) r)
  end.

#[global] Hint Extern 1 (Setter ?field) =>
  match type of field with ?R -> _ => find_setter R field end : typeclass_instances.

Notation "r <| field := v |>" := (set_field field (fun _ => v) r)
  (at level 1, left associativity, format "r  <| field  :=  v |>").

(** A small record, to see that setters compute *)
Module Sample.
Record pair := mk { fst : nat; snd : bool }.
#[local] Instance eta_pair : Eta pair := fun r => mk (fst r) (snd r).
Example set_ex (r : pair) : fst (r <| fst := 3 |> <| snd := true |>) = 3 /\ snd (r <| fst := 3 |>) = snd r.
Proof. split; reflexivity. Qed.
End Sample.
