(* ===== verification/Timer.v ===== *)
(** * Meeting timer ([src/src/mcp/tools/timer.tool.ts])

    The timer tool keeps two module-level maps, [timerStore] (room to timer)
    and [timerIntervals] (room to interval handle), and relies on the event
    loop to run each live [setInterval] callback once a second.  [World] holds
    the two maps, the callbacks the event loop still has ([activeTimers], by
    handle, with the room the closure captured) and the calls made to
    [notifyCallback].

    The three [setInterval] callbacks of the source ([startTimer],
    [resumeTimer], [extendTimer]) have the same body, [interval_callback].
    Minutes are integers; [now] is the reading of [Date.now()] of the call.

    [Spec] is the timer a room should have, one small machine per room with
    no handles; [step_refines] shows that the maps and the event loop
    implement it. *)

From stdpp Require Import base list gmap strings.
From Stdlib Require Import ZArith Lia.
From S2P Require Import Prelude JsString.

(* ------------------------------------------------------------------ *)
(** ** Data *)

Inductive TimerState := idle | running | paused | warning | ended.
#[export] Instance TimerState_eq_dec : EqDecision TimerState.
Proof. solve_decision. Defined.

Record TimerData := mkTimerData {
  td_roomId : jsstr;
  targetMinutes : Z;
  warningMinutes : Z;
  remainingSeconds : Z;
  timerState : TimerState;
  startedAt : option Z;
  endTime : option Z;
}.

Inductive TimerEvent := ev_warning | ev_ended.
#[export] Instance TimerEvent_eq_dec : EqDecision TimerEvent.
Proof. solve_decision. Defined.

Record World := mkWorld {
  timerStore : gmap jsstr TimerData;
  timerIntervals : gmap jsstr nat;
  activeTimers : gmap nat jsstr;
  nextHandle : nat;
  callbackSet : bool;
  notified : list (jsstr * TimerEvent * TimerData);
}.

Definition initial : World := mkWorld ∅ ∅ ∅ 0 false [].

Definition set_state (s : TimerState) (t : TimerData) : TimerData :=
  mkTimerData (td_roomId t) (targetMinutes t) (warningMinutes t) (remainingSeconds t)
    s (startedAt t) (endTime t).

Definition set_remaining (n : Z) (t : TimerData) : TimerData :=
  mkTimerData (td_roomId t) (targetMinutes t) (warningMinutes t) n
    (timerState t) (startedAt t) (endTime t).

Definition set_endTime (e : Z) (t : TimerData) : TimerData :=
  mkTimerData (td_roomId t) (targetMinutes t) (warningMinutes t) (remainingSeconds t)
    (timerState t) (startedAt t) (Some e).

Definition set_target (n : Z) (t : TimerData) : TimerData :=
  mkTimerData (td_roomId t) n (warningMinutes t) (remainingSeconds t)
    (timerState t) (startedAt t) (endTime t).

Definition store_set (r : jsstr) (t : TimerData) (w : World) : World :=
  mkWorld (<[r := t]> (timerStore w)) (timerIntervals w) (activeTimers w)
    (nextHandle w) (callbackSet w) (notified w).

Definition store_delete (r : jsstr) (w : World) : World :=
  mkWorld (delete r (timerStore w)) (timerIntervals w) (activeTimers w)
    (nextHandle w) (callbackSet w) (notified w).

(** [notifyCallback?.(roomId, event, { ...timer })] *)
Definition notify (r : jsstr) (e : TimerEvent) (t : TimerData) (w : World) : World :=
  if callbackSet w then
    mkWorld (timerStore w) (timerIntervals w) (activeTimers w) (nextHandle w)
      (callbackSet w) (notified w ++ [(r, e, t)])
  else w.

Definition setTimerNotifyCallback (w : World) : World :=
  mkWorld (timerStore w) (timerIntervals w) (activeTimers w) (nextHandle w) true (notified w).

(* ------------------------------------------------------------------ *)
(** ** Operations *)

(** [timerIntervals.set(roomId, setInterval(...))] *)
Definition start_interval (r : jsstr) (w : World) : World :=
  mkWorld (timerStore w) (<[r := nextHandle w]> (timerIntervals w))
    (<[nextHandle w := r]> (activeTimers w)) (S (nextHandle w)) (callbackSet w) (notified w).

Definition stopTimerInterval (r : jsstr) (w : World) : World :=
  match timerIntervals w !! r with
  | Some h =>
    mkWorld (timerStore w) (delete r (timerIntervals w)) (delete h (activeTimers w))
      (nextHandle w) (callbackSet w) (notified w)
  | None => w
  end.

Definition counting (s : TimerState) : bool :=
  match s with running | warning => true | _ => false end.

(** The body of the interval callback of room [r]. *)
Definition interval_callback (r : jsstr) (w : World) : World :=
  match timerStore w !! r with
  | None => stopTimerInterval r w
  | Some timer =>
    if negb (counting (timerState timer)) then stopTimerInterval r w
    else
      let t1 := set_remaining (remainingSeconds timer - 1) timer in
      let '(t2, w2) :=
        if (remainingSeconds t1 =? warningMinutes t1 * 60) &&
           bool_decide (timerState t1 = running)
        then let t := set_state warning t1 in (t, notify r ev_warning t w)
        else (t1, w) in
      let '(t3, w3) :=
        if remainingSeconds t2 <=? 0
        then let t := set_state ended (set_remaining 0 t2) in
             (t, notify r ev_ended t (stopTimerInterval r w2))
        else (t2, w2) in
      store_set r t3 w3
  end.

(** One turn of the event loop: the callback with handle [h] runs. *)
Definition fire (h : nat) (w : World) : World :=
  match activeTimers w !! h with
  | Some r => interval_callback r w
  | None => w
  end.

Definition fresh_timer (r : jsstr) (target warn now : Z) : TimerData :=
  mkTimerData r target warn (target * 60) running (Some now) (Some (now + target * 60 * 1000)).

Definition startTimer (r : jsstr) (target warn now : Z) (w : World) : TimerData * World :=
  let w1 := stopTimerInterval r w in
  let timerData := fresh_timer r target warn now in
  (timerData, start_interval r (store_set r timerData w1)).

Definition pauseTimer (r : jsstr) (w : World) : option TimerData * World :=
  match timerStore w !! r with
  | None => (None, w)
  | Some timer =>
    let t := set_state paused timer in
    (Some t, store_set r t (stopTimerInterval r w))
  end.

Definition resumeTimer (r : jsstr) (now : Z) (w : World) : option TimerData * World :=
  match timerStore w !! r with
  | None => (None, w)
  | Some timer =>
    if negb (bool_decide (timerState timer = paused)) then (None, w)
    else
      let t := set_endTime (now + remainingSeconds timer * 1000) (set_state running timer) in
      (Some t, start_interval r (store_set r t w))
  end.

Definition extendTimer (r : jsstr) (minutes now : Z) (w : World) : option TimerData * World :=
  match timerStore w !! r with
  | None => (None, w)
  | Some timer =>
    let t1 := set_target (targetMinutes timer + minutes)
                (set_remaining (remainingSeconds timer + minutes * 60) timer) in
    if bool_decide (timerState t1 = ended) || bool_decide (timerState t1 = warning) then
      let t2 := set_endTime (now + remainingSeconds t1 * 1000) (set_state running t1) in
      let w1 := match timerIntervals w !! r with
                | Some _ => w
                | None => start_interval r w
                end in
      (Some t2, store_set r t2 w1)
    else (Some t1, store_set r t1 w)
  end.

Definition stopTimer (r : jsstr) (w : World) : option TimerData * World :=
  (timerStore w !! r, store_delete r (stopTimerInterval r w)).

Definition getTimerStatus (r : jsstr) (w : World) : option TimerData := timerStore w !! r.

(* ------------------------------------------------------------------ *)
(** ** The MCP tool *)

Record ToolOptions := mkToolOptions {
  opt_action : option jsstr;
  opt_targetMinutes : option Z;
  opt_warningMinutes : option Z;
  opt_minutes : option Z;
}.

Record ToolOutput := mkToolOutput {
  out_type : jsstr;
  out_data : option TimerData;
  out_markdown : jsstr;
  out_generatedAt : Z;
  out_toolName : jsstr;
  out_editable : bool;
}.

(** [x || d] on an optional number: [undefined] and [0] are falsy *)
Definition or_default (x : option Z) (d : Z) : Z :=
  match x with Some n => if n =? 0 then d else n | None => d end.

Definition state_name (s : TimerState) : jsstr :=
  match s with
  | idle => js "idle" | running => js "running" | paused => js "paused"
  | warning => js "warning" | ended => js "ended"
  end.

Definition tool_output (now : Z) (data : option TimerData) (message : jsstr) : ToolOutput :=
  mkToolOutput (js "timer") data message now (js "timer") false.

Definition when_some {A} (o : option A) (yes no : jsstr) : jsstr :=
  match o with Some _ => yes | None => no end.

Definition execute_action (r : jsstr) (o : ToolOptions) (action : jsstr) (now : Z) (w : World)
  : outcome jsstr (option TimerData * jsstr * World) :=
  if decide (action = js "start") then
    let target := or_default (opt_targetMinutes o) 30 in
    let warn := or_default (opt_warningMinutes o) 5 in
    let '(t, w') := startTimer r target warn now w in
    Return (Some t, js_of_Z target ++ js "분 타이머가 시작되었습니다. " ++ js_of_Z warn ++
                    js "분 전에 알림을 드릴게요.", w')
  else if decide (action = js "pause") then
    let '(t, w') := pauseTimer r w in
    Return (t, when_some t (js "타이머가 일시정지되었습니다.") (js "실행 중인 타이머가 없습니다."), w')
  else if decide (action = js "resume") then
    let '(t, w') := resumeTimer r now w in
    Return (t, when_some t (js "타이머가 재개되었습니다.") (js "일시정지된 타이머가 없습니다."), w')
  else if decide (action = js "extend") then
    let minutes := or_default (opt_minutes o) 10 in
    let '(t, w') := extendTimer r minutes now w in
    Return (t, when_some t (js_of_Z minutes ++ js "분 연장되었습니다.") (js "타이머가 없습니다."), w')
  else if decide (action = js "stop") then
    let '(t, w') := stopTimer r w in
    Return (t, when_some t (js "타이머가 중지되었습니다.") (js "타이머가 없습니다."), w')
  else if decide (action = js "status") then
    let t := getTimerStatus r w in
    Return (t, match t with
               | Some d =>
                 js "현재 " ++ js_of_Z (remainingSeconds d / 60) ++ js "분 " ++
                 js_of_Z (Z.rem (remainingSeconds d) 60) ++ js "초 남았습니다. 상태: " ++
                 state_name (timerState d)
               | None => js "설정된 타이머가 없습니다."
               end, w)
  else Throw (js "알 수 없는 액션: " ++ action).

Definition execute (roomId : option jsstr) (o : ToolOptions) (now : Z) (w : World)
  : outcome jsstr (ToolOutput * World) :=
  match roomId with
  | None | Some [] => Throw (js "roomId가 필요합니다")
  | Some r =>
    match execute_action r o (default (js "undefined") (opt_action o)) now w with
    | Return (t, message, w') => Return (tool_output now t message, w')
    | Throw e => Throw e
    end
  end.

(* ------------------------------------------------------------------ *)
(** ** Executions *)

(** What can happen to the module: a call from outside, or a turn of the
    event loop for a callback that is still live. *)
Inductive step (w : World) : World -> Prop :=
| step_callback : step w (setTimerNotifyCallback w)
| step_start r target warn now : step w (startTimer r target warn now w).2
| step_pause r : step w (pauseTimer r w).2
| step_resume r now : step w (resumeTimer r now w).2
| step_extend r minutes now : step w (extendTimer r minutes now w).2
| step_stop r : step w (stopTimer r w).2
| step_fire h r : activeTimers w !! h = Some r -> step w (fire h w).

Inductive reachable : World -> Prop :=
| reachable_initial : reachable initial
| reachable_step w w' : reachable w -> step w w' -> reachable w'.

(** Well-formedness: handles and rooms are in bijection, a room has a live
    callback exactly when its timer counts down, and handles are fresh. *)
Record wf (w : World) : Prop := {
  wf_bij r h : timerIntervals w !! r = Some h <-> activeTimers w !! h = Some r;
  wf_live r : is_Some (timerIntervals w !! r) <->
              exists t, timerStore w !! r = Some t /\ counting (timerState t) = true;
  wf_fresh h : is_Some (activeTimers w !! h) -> (h < nextHandle w)%nat;
}.

(** *** The interval helpers *)

Lemma fresh_handle w : wf w -> activeTimers w !! nextHandle w = None.
Proof.
  intros Hwf. destruct (activeTimers w !! nextHandle w) eqn:E; [|done].
  assert (nextHandle w < nextHandle w)%nat; [|lia]. apply (wf_fresh w Hwf). eauto.
Qed.

Lemma stop_store r w : timerStore (stopTimerInterval r w) = timerStore w.
Proof. unfold stopTimerInterval. by case_match. Qed.

Lemma stop_notified r w : notified (stopTimerInterval r w) = notified w.
Proof. unfold stopTimerInterval. by case_match. Qed.

Lemma stop_callback r w : callbackSet (stopTimerInterval r w) = callbackSet w.
Proof. unfold stopTimerInterval. by case_match. Qed.

Lemma stop_next r w : nextHandle (stopTimerInterval r w) = nextHandle w.
Proof. unfold stopTimerInterval. by case_match. Qed.

Lemma stop_intervals r w : timerIntervals (stopTimerInterval r w) = delete r (timerIntervals w).
Proof. unfold stopTimerInterval. case_match; [done|]. by rewrite delete_id. Qed.

Lemma stop_active r w h :
  wf w -> activeTimers (stopTimerInterval r w) !! h =
          if decide (activeTimers w !! h = Some r) then None else activeTimers w !! h.
Proof.
  intros Hwf. unfold stopTimerInterval. destruct (timerIntervals w !! r) as [h'|] eqn:E; simpl.
  - rewrite lookup_delete. apply (wf_bij w Hwf) in E.
    repeat case_decide; try congruence.
    exfalso. match goal with H : activeTimers w !! h = Some r |- _ =>
      apply (wf_bij w Hwf) in H end.
    apply (wf_bij w Hwf) in E. congruence.
  - case_decide as Hd; [|done]. apply (wf_bij w Hwf) in Hd. congruence.
Qed.

(** The maps of a world whose timer of room [r] became [t], the callback of
    [r] being dropped when [t] does not count down. *)
Lemma notify_store r e t w : timerStore (notify r e t w) = timerStore w.
Proof. unfold notify. by case_match. Qed.
Lemma notify_intervals r e t w : timerIntervals (notify r e t w) = timerIntervals w.
Proof. unfold notify. by case_match. Qed.
Lemma notify_active r e t w : activeTimers (notify r e t w) = activeTimers w.
Proof. unfold notify. by case_match. Qed.
Lemma notify_next r e t w : nextHandle (notify r e t w) = nextHandle w.
Proof. unfold notify. by case_match. Qed.
Lemma notify_callback r e t w : callbackSet (notify r e t w) = callbackSet w.
Proof. unfold notify. by case_match. Qed.
Lemma notify_notified r e t w :
  notified (notify r e t w) = notified w ++ (if callbackSet w then [(r, e, t)] else []).
Proof. unfold notify. case_match; simpl; [done|]. by rewrite app_nil_r. Qed.

Create Rewrite HintDb timer.
#[export] Hint Rewrite stop_store stop_notified stop_callback stop_next stop_intervals
  notify_store notify_intervals notify_active notify_next notify_callback notify_notified : timer.

(** *** One second of a timer, without the maps *)

Definition tick_data (r : jsstr) (timer : TimerData)
  : TimerData * list (jsstr * TimerEvent * TimerData) :=
  let t1 := set_remaining (remainingSeconds timer - 1) timer in
  let '(t2, e2) :=
    if (remainingSeconds t1 =? warningMinutes t1 * 60) && bool_decide (timerState t1 = running)
    then let t := set_state warning t1 in (t, [(r, ev_warning, t)])
    else (t1, []) in
  if remainingSeconds t2 <=? 0
  then let t := set_state ended (set_remaining 0 t2) in (t, e2 ++ [(r, ev_ended, t)])
  else (t2, e2).

Definition log (w : World) (es : list (jsstr * TimerEvent * TimerData)) :=
  notified w ++ (if callbackSet w then es else []).

Lemma interval_callback_counting r w t :
  timerStore w !! r = Some t -> counting (timerState t) = true ->
  let w' := interval_callback r w in
  let w0 := if remainingSeconds t - 1 <=? 0 then stopTimerInterval r w else w in
  timerStore w' = <[r := (tick_data r t).1]> (timerStore w) /\
  timerIntervals w' = timerIntervals w0 /\ activeTimers w' = activeTimers w0 /\
  nextHandle w' = nextHandle w /\ callbackSet w' = callbackSet w /\
  notified w' = log w (tick_data r t).2.
Proof.
  intros Ht Hc. unfold interval_callback, tick_data, log. rewrite Ht, Hc. simpl.
  destruct ((remainingSeconds t - 1 =? warningMinutes t * 60) &&
            bool_decide (timerState t = running)); simpl;
  destruct (remainingSeconds t - 1 <=? 0); simpl; autorewrite with timer; simpl;
    (split_and!; try done); try (unfold stopTimerInterval; autorewrite with timer;
      destruct (timerIntervals w !! r); simpl; by autorewrite with timer);
    destruct (callbackSet w); by rewrite ?app_nil_r, <- ?(assoc_L (++)).
Qed.

Lemma tick_counting r t :
  counting (timerState t) = true ->
  counting (timerState (tick_data r t).1) = negb (remainingSeconds t - 1 <=? 0).
Proof.
  intros Hc. unfold tick_data. simpl.
  destruct ((_ =? _) && _); simpl; destruct (_ <=? 0); done.
Qed.

(** *** Preservation of well-formedness *)

Lemma wf_ext w w' :
  timerStore w = timerStore w' -> timerIntervals w = timerIntervals w' ->
  activeTimers w = activeTimers w' -> nextHandle w = nextHandle w' -> wf w -> wf w'.
Proof.
  intros E1 E2 E3 E4 [H1 H2 H3].
  split; intros; rewrite <- ?E1, <- ?E2, <- ?E3, <- ?E4; eauto.
  apply H3. by rewrite E3.
Qed.

Lemma wf_keep w r t t0 :
  wf w -> timerStore w !! r = Some t0 -> counting (timerState t) = counting (timerState t0) ->
  wf (store_set r t w).
Proof.
  intros [H1 H2 H3] Ht Hc. split; simpl; auto. intros r'. rewrite H2, lookup_insert.
  case_decide; [subst|done]. split; intros (t' & ? & ?); simplify_eq;
    eexists; (split; [done|congruence]).
Qed.

Lemma wf_stop (w : World) (r : jsstr) (st : gmap jsstr TimerData) :
  wf w ->
  (forall r', r' <> r -> st !! r' = timerStore w !! r') ->
  (forall t, st !! r = Some t -> counting (timerState t) = false) ->
  wf (mkWorld st (timerIntervals (stopTimerInterval r w)) (activeTimers (stopTimerInterval r w))
        (nextHandle w) (callbackSet w) (notified w)).
Proof.
  intros Hwf Hst Hr. split; simpl.
  - intros r' h. rewrite stop_intervals, stop_active, lookup_delete by done.
    pose proof (wf_bij w Hwf r' h). repeat case_decide; naive_solver.
  - intros r'. rewrite stop_intervals, lookup_delete. case_decide as E.
    + subst. split; [by intros [? ?]|]. intros (t & Ht & Hc). apply Hr in Ht. congruence.
    + rewrite Hst by done. apply (wf_live w Hwf).
  - intros h. rewrite stop_active by done. case_decide; [by intros [? ?]|].
    apply (wf_fresh w Hwf).
Qed.

Lemma wf_start w r t :
  wf w -> timerIntervals w !! r = None -> counting (timerState t) = true ->
  wf (start_interval r (store_set r t w)).
Proof.
  intros Hwf Hr Hc. pose proof (fresh_handle w Hwf) as Hf. split; simpl.
  - intros r' h. rewrite !lookup_insert. pose proof (wf_bij w Hwf r' h).
    repeat case_decide; naive_solver.
  - intros r'. rewrite !lookup_insert. case_decide; [naive_solver|]. apply (wf_live w Hwf).
  - intros h. rewrite lookup_insert. case_decide; [lia|].
    intros ?%(wf_fresh w Hwf). lia.
Qed.

Lemma wf_no_interval w r t :
  wf w -> timerStore w !! r = Some t -> counting (timerState t) = false ->
  timerIntervals w !! r = None.
Proof.
  intros Hwf Ht Hc. apply eq_None_not_Some. rewrite (wf_live w Hwf).
  intros (t' & ? & ?). congruence.
Qed.

Lemma wf_stopped w r : wf w -> timerStore w !! r = None -> stopTimerInterval r w = w.
Proof.
  intros Hwf Hr. unfold stopTimerInterval. destruct (timerIntervals w !! r) eqn:E; [|done].
  destruct (proj1 (wf_live w Hwf r)) as (t & ? & _); [eauto|congruence].
Qed.

Lemma wf_initial : wf initial.
Proof.
  split; simpl; intros; rewrite ?lookup_empty; try done.
  - split; [by intros [? ?]|]. by intros (t & Ht & _).
  - match goal with H : is_Some _ |- _ => by destruct H end.
Qed.

Lemma wf_startTimer r target warn now w : wf w -> wf (startTimer r target warn now w).2.
Proof.
  intros Hwf. unfold startTimer. simpl.
  eapply wf_ext; [..|apply (wf_start (mkWorld (delete r (timerStore w))
    (timerIntervals (stopTimerInterval r w)) (activeTimers (stopTimerInterval r w))
    (nextHandle w) (callbackSet w) (notified w)) r (fresh_timer r target warn now))];
    simpl; autorewrite with timer; try done.
  - by rewrite insert_delete_eq.
  - rewrite <- stop_intervals. apply wf_stop; [done|..].
    + intros. by rewrite lookup_delete_ne.
    + intros t. by rewrite lookup_delete_eq.
  - apply lookup_delete_eq.
Qed.

Lemma wf_pauseTimer r w : wf w -> wf (pauseTimer r w).2.
Proof.
  intros Hwf. unfold pauseTimer. case_match; [|done]. simpl.
  eapply wf_ext; [..|apply (wf_stop w r (<[r:=set_state paused t]> (timerStore w)))];
    simpl; autorewrite with timer; try done.
  - intros. by rewrite lookup_insert_ne.
  - intros t'. rewrite lookup_insert_eq. by intros [= <-].
Qed.

Lemma wf_resumeTimer r now w : wf w -> wf (resumeTimer r now w).2.
Proof.
  intros Hwf. unfold resumeTimer. case_match eqn:Ht; [|done].
  destruct (bool_decide (timerState t = paused)) eqn:Hp; [simpl|done].
  apply bool_decide_eq_true in Hp. apply wf_start; [done| |done].
  eapply wf_no_interval; [done..|]. by rewrite Hp.
Qed.

Lemma wf_extendTimer r minutes now w : wf w -> wf (extendTimer r minutes now w).2.
Proof.
  intros Hwf. unfold extendTimer. destruct (timerStore w !! r) as [t|] eqn:Ht; [|done]. simpl.
  destruct (bool_decide (timerState t = ended)) eqn:E1; bool_cases; simpl.
  - assert (timerIntervals w !! r = None) as Hn
      by (eapply wf_no_interval; [done..|by rewrite E1]).
    rewrite Hn. simpl. by apply (wf_start w r).
  - destruct (bool_decide (timerState t = warning)) eqn:E2; bool_cases; simpl.
    + assert (is_Some (timerIntervals w !! r)) as [h Hh].
      { apply (wf_live w Hwf). exists t. by rewrite E2. }
      rewrite Hh. simpl. eapply wf_keep; [done..|]. by rewrite E2.
    + eapply wf_keep; [done..|]. done.
Qed.

Lemma wf_stopTimer r w : wf w -> wf (stopTimer r w).2.
Proof.
  intros Hwf. unfold stopTimer. simpl.
  eapply wf_ext; [..|apply (wf_stop w r (delete r (timerStore w)))];
    simpl; autorewrite with timer; try done.
  - intros. by rewrite lookup_delete_ne.
  - intros t'. by rewrite lookup_delete_eq.
Qed.

Lemma wf_interval_callback r w t :
  wf w -> timerStore w !! r = Some t -> counting (timerState t) = true ->
  wf (interval_callback r w).
Proof.
  intros Hwf Ht Hc.
  destruct (interval_callback_counting r w t Ht Hc) as (E1 & E2 & E3 & E4 & _).
  pose proof (tick_counting r t Hc) as Htc.
  destruct (remainingSeconds t - 1 <=? 0) eqn:E; simpl in Htc.
  - eapply wf_ext; [..|apply (wf_stop w r (<[r:=(tick_data r t).1]> (timerStore w)))];
      simpl; try done.
    + intros. by rewrite lookup_insert_ne.
    + intros t'. rewrite lookup_insert_eq. by intros [= <-].
  - eapply wf_ext; [..|apply (wf_keep w r (tick_data r t).1 t)]; simpl; try done. congruence.
Qed.

(** A live callback belongs to a timer that counts down. *)
Lemma live_counting w h r :
  wf w -> activeTimers w !! h = Some r ->
  exists t, timerStore w !! r = Some t /\ counting (timerState t) = true.
Proof.
  intros Hwf Hh. apply (wf_bij w Hwf) in Hh. apply (wf_live w Hwf). eauto.
Qed.

Lemma wf_fire h w : wf w -> wf (fire h w).
Proof.
  intros Hwf. unfold fire. case_match; [|done].
  edestruct live_counting as (t & ? & ?); [done..|]. by eapply wf_interval_callback.
Qed.

#[export] Hint Resolve wf_initial wf_startTimer wf_pauseTimer wf_resumeTimer wf_extendTimer
  wf_stopTimer wf_fire : aura.

Lemma wf_step w w' : wf w -> step w w' -> wf w'.
Proof.
  intros Hwf []; eauto with aura. by eapply wf_ext; [..|exact Hwf].
Qed.

Lemma reachable_wf w : reachable w -> wf w.
Proof. induction 1; eauto using wf_step with aura. Qed.

(* ------------------------------------------------------------------ *)
(** ** The timer of one room, abstractly *)

Module Spec.
Definition extend_data (t : TimerData) (minutes now : Z) : TimerData :=
  let t1 := set_target (targetMinutes t + minutes)
              (set_remaining (remainingSeconds t + minutes * 60) t) in
  match timerState t with
  | ended | warning => set_endTime (now + remainingSeconds t1 * 1000) (set_state running t1)
  | _ => t1
  end.

Inductive astep (r : jsstr) :
  option TimerData -> list (jsstr * TimerEvent * TimerData) -> option TimerData -> Prop :=
| a_none o : astep r o [] o
| a_start o target warn now : astep r o [] (Some (fresh_timer r target warn now))
| a_pause t : astep r (Some t) [] (Some (set_state paused t))
| a_resume t now :
    timerState t = paused ->
    astep r (Some t) []
      (Some (set_endTime (now + remainingSeconds t * 1000) (set_state running t)))
| a_extend t minutes now : astep r (Some t) [] (Some (extend_data t minutes now))
| a_stop o : astep r o [] None
| a_tick t :
    counting (timerState t) = true ->
    astep r (Some t) (tick_data r t).2 (Some (tick_data r t).1).
End Spec.

(** A step of the module changes the timer of at most one room. *)
Definition room_step (r : jsstr) (w w' : World) : Prop :=
  exists es, Spec.astep r (timerStore w !! r) es (timerStore w' !! r) /\
    (forall r', r' <> r -> timerStore w' !! r' = timerStore w !! r') /\
    notified w' = log w es.

Lemma room_step_intro (r : jsstr) (w w' : World) es (o : option TimerData) :
  Spec.astep r (timerStore w !! r) es o ->
  timerStore w' = partial_alter (fun _ => o) r (timerStore w) ->
  notified w' = log w es -> room_step r w w'.
Proof.
  intros Ha Hs Hn. exists es. rewrite Hs, lookup_partial_alter_eq.
  split_and!; [done| |done]. intros r' Hr. by rewrite lookup_partial_alter_ne.
Qed.

Lemma log_nil w : notified w = log w [].
Proof. unfold log. by case_match; rewrite app_nil_r. Qed.

Lemma room_step_none r w : room_step r w w.
Proof. exists []. split_and!; [constructor|done|apply log_nil]. Qed.

Lemma room_step_startTimer r target warn now w :
  room_step r w (startTimer r target warn now w).2.
Proof.
  eapply room_step_intro; [apply Spec.a_start|..];
    unfold startTimer; simpl; autorewrite with timer; [done|apply log_nil].
Qed.

Lemma room_step_pauseTimer r w : room_step r w (pauseTimer r w).2.
Proof.
  unfold pauseTimer. destruct (timerStore w !! r) eqn:E; [|apply room_step_none].
  eapply room_step_intro; [rewrite E; apply Spec.a_pause|..];
    simpl; autorewrite with timer; [done|apply log_nil].
Qed.

Lemma room_step_resumeTimer r now w : room_step r w (resumeTimer r now w).2.
Proof.
  unfold resumeTimer. destruct (timerStore w !! r) eqn:E; [|apply room_step_none].
  case_bool_decide as Hp; simpl; [|apply room_step_none].
  eapply room_step_intro; [rewrite E; by apply Spec.a_resume|..]; [done|exact (log_nil w)].
Qed.

Lemma extendTimer_data r minutes now w t :
  timerStore w !! r = Some t ->
  (extendTimer r minutes now w).1 = Some (Spec.extend_data t minutes now) /\
  timerStore (extendTimer r minutes now w).2 =
    <[r := Spec.extend_data t minutes now]> (timerStore w) /\
  notified (extendTimer r minutes now w).2 = notified w.
Proof.
  intros Ht. unfold extendTimer, Spec.extend_data. rewrite Ht. simpl.
  destruct (timerState t); simpl; try done; by destruct (timerIntervals w !! r).
Qed.

Lemma room_step_extendTimer r minutes now w : room_step r w (extendTimer r minutes now w).2.
Proof.
  destruct (timerStore w !! r) as [t|] eqn:E.
  - destruct (extendTimer_data r minutes now w t E) as (_ & Hs & Hn).
    eapply room_step_intro; [rewrite E; apply Spec.a_extend|exact Hs|].
    rewrite Hn. apply log_nil.
  - unfold extendTimer. rewrite E. apply room_step_none.
Qed.

Lemma room_step_stopTimer r w : room_step r w (stopTimer r w).2.
Proof.
  eapply room_step_intro; [apply Spec.a_stop|..];
    unfold stopTimer; simpl; autorewrite with timer; [done|apply log_nil].
Qed.

Lemma room_step_tick r w t :
  timerStore w !! r = Some t -> counting (timerState t) = true ->
  room_step r w (interval_callback r w).
Proof.
  intros Ht Hc. destruct (interval_callback_counting r w t Ht Hc) as (E1 & _ & _ & _ & _ & E6).
  eapply room_step_intro; [rewrite Ht; by apply Spec.a_tick|exact E1|exact E6].
Qed.

#[export] Hint Resolve room_step_none room_step_startTimer room_step_pauseTimer
  room_step_resumeTimer room_step_extendTimer room_step_stopTimer : aura.

Lemma step_room_step w w' : wf w -> step w w' -> exists r, room_step r w w'.
Proof.
  intros Hwf Hs. destruct Hs as [| | | | | |h r Hh]; eauto with aura.
  - exists []. by destruct (room_step_none [] w) as (es & ? & ? & ?); exists es.
  - unfold fire. rewrite Hh. destruct (live_counting w h r Hwf Hh) as (t & ? & ?).
    exists r. by eapply room_step_tick.
Qed.

(** C1: every execution of the timer module implements one abstract timer
    per room.  A call or a turn of the event loop performs one transition of
    one room's machine, sends exactly the notifications of that transition
    and leaves the timers of all other rooms alone; and a room's abstract
    timer counts down exactly when the event loop holds a callback that will
    perform its tick. *)
Theorem step_refines (w w' : World) :
  reachable w -> step w w' ->
  (exists r, room_step r w w') /\
  (forall r t, timerStore w' !! r = Some t ->
     (counting (timerState t) = true <->
      exists h, activeTimers w' !! h = Some r /\ step w' (fire h w') /\
                timerStore (fire h w') !! r = Some (tick_data r t).1)).
Proof.
  intros Hr Hs. assert (wf w) as Hwf by by apply reachable_wf.
  assert (wf w') as Hwf' by by eapply wf_step. split.
  - by apply step_room_step.
  - intros r t Ht. split.
    + intros Hc. destruct (proj2 (wf_live w' Hwf' r)) as [h Hh]; [eauto|].
      apply (wf_bij w' Hwf') in Hh as Ha. exists h. split_and!; [done|by eapply step_fire|].
      unfold fire. rewrite Ha.
      destruct (interval_callback_counting r w' t Ht Hc) as (-> & _). apply lookup_insert_eq.
    + intros (h & Hh & _). destruct (live_counting w' h r Hwf' Hh) as (t' & ? & ?). congruence.
Qed.

(** C7: no interval leaks.  In every reachable state a room has at most one
    live callback, it has one exactly when its timer is running or in the
    warning phase, and that callback is the one [timerIntervals] records. *)
Theorem intervals_do_not_leak (w : World) :
  reachable w ->
  (forall h h' r, activeTimers w !! h = Some r -> activeTimers w !! h' = Some r -> h = h') /\
  (forall r, (exists h, activeTimers w !! h = Some r) <->
             (exists t, timerStore w !! r = Some t /\
                        (timerState t = running \/ timerState t = warning))) /\
  (forall r h, timerIntervals w !! r = Some h <-> activeTimers w !! h = Some r).
Proof.
  intros Hwf%reachable_wf. split_and!.
  - intros h h' r H1 H2. apply (wf_bij w Hwf) in H1, H2. congruence.
  - intros r. split.
    + intros [h Hh]. destruct (live_counting w h r Hwf Hh) as (t & Ht & Hc).
      exists t. split; [done|]. destruct (timerState t); naive_solver.
    + intros (t & Ht & Hc). destruct (proj2 (wf_live w Hwf r)) as [h Hh].
      * exists t. split; [done|]. by destruct Hc as [-> | ->].
      * exists h. by apply (wf_bij w Hwf).
  - apply (wf_bij w Hwf).
Qed.

Lemma step_refines_witness :
  exists r, room_step r initial (startTimer (js "room-1") 30 5 0 initial).2.
Proof.
  exact (proj1 (step_refines initial _ reachable_initial
    (step_start initial (js "room-1") 30 5 0))).
Defined.

Lemma intervals_do_not_leak_witness :
  reachable (startTimer (js "room-1") 30 5 0 initial).2 /\
  (forall h h', activeTimers (startTimer (js "room-1") 30 5 0 initial).2 !! h = Some (js "room-1") ->
     activeTimers (startTimer (js "room-1") 30 5 0 initial).2 !! h' = Some (js "room-1") -> h = h').
Proof.
  assert (reachable (startTimer (js "room-1") 30 5 0 initial).2) as Hr
    by (eapply reachable_step; [apply reachable_initial|apply step_start]).
  split; [exact Hr|].
  intros h h'. exact (proj1 (intervals_do_not_leak _ Hr) h h' (js "room-1")).
Defined.

(* ------------------------------------------------------------------ *)
(** ** Counting down *)

(** The second passes for room [r]: its callback, if any, runs once. *)
Definition tick_room (r : jsstr) (w : World) : World :=
  match timerIntervals w !! r with Some h => fire h w | None => w end.

Fixpoint ticks (n : nat) (r : jsstr) (w : World) : World :=
  match n with O => w | S n' => tick_room r (ticks n' r w) end.

Lemma tick_room_counting r w t :
  wf w -> timerStore w !! r = Some t -> counting (timerState t) = true ->
  tick_room r w = interval_callback r w.
Proof.
  intros Hwf Ht Hc. unfold tick_room. destruct (proj2 (wf_live w Hwf r)) as [h Hh]; [eauto|].
  rewrite Hh. unfold fire. apply (wf_bij w Hwf) in Hh. by rewrite Hh.
Qed.

Lemma tick_room_stopped r w t :
  wf w -> timerStore w !! r = Some t -> counting (timerState t) = false -> tick_room r w = w.
Proof. intros. unfold tick_room. by erewrite wf_no_interval. Qed.

Lemma wf_tick_room r w : wf w -> wf (tick_room r w).
Proof. intros. unfold tick_room. case_match; auto with aura. Qed.

Lemma wf_ticks n r w : wf w -> wf (ticks n r w).
Proof. intros. induction n; simpl; auto using wf_tick_room. Qed.

(** The timer of a room after [n] seconds, and what was notified. *)
Fixpoint tick_run (n : nat) (r : jsstr) (t : TimerData)
  : TimerData * list (jsstr * TimerEvent * TimerData) :=
  match n with
  | O => (t, [])
  | S n' =>
    let '(t', es) := tick_run n' r t in
    if counting (timerState t') then ((tick_data r t').1, es ++ (tick_data r t').2)
    else (t', es)
  end.

Lemma ticks_run n r w t :
  wf w -> timerStore w !! r = Some t ->
  timerStore (ticks n r w) !! r = Some (tick_run n r t).1 /\
  notified (ticks n r w) = log w (tick_run n r t).2 /\
  callbackSet (ticks n r w) = callbackSet w.
Proof.
  intros Hwf Ht. induction n as [|n (IH1 & IH2 & IH3)]; simpl.
  - split_and!; [done|apply log_nil|done].
  - pose proof (wf_ticks n r w Hwf) as Hwfn.
    destruct (tick_run n r t) as [t' es] eqn:E; simpl in *.
    destruct (counting (timerState t')) eqn:Hc.
    + rewrite (tick_room_counting r _ t') by done.
      destruct (interval_callback_counting r _ t' IH1 Hc) as (-> & _ & _ & _ & -> & ->).
      split_and!; [apply lookup_insert_eq| |done].
      unfold log. rewrite IH2, IH3. unfold log.
      destruct (callbackSet w); simpl; by rewrite <- ?(assoc_L (++)).
    + by rewrite (tick_room_stopped r _ t').
Qed.

(** One tick away from both thresholds only counts. *)
Lemma tick_data_plain r t :
  1 < remainingSeconds t ->
  timerState t = warning \/ remainingSeconds t - 1 <> warningMinutes t * 60 ->
  tick_data r t = (set_remaining (remainingSeconds t - 1) t, []).
Proof.
  intros H1 H2. unfold tick_data. simpl.
  destruct (Z.eqb_spec (remainingSeconds t - 1) (warningMinutes t * 60)),
    (bool_decide_reflect (timerState t = running)); simpl;
    try (destruct (Z.leb_spec (remainingSeconds t - 1) 0); [lia|done]).
  destruct H2; congruence.
Qed.

Lemma tick_data_warning r t :
  timerState t = running -> 1 < remainingSeconds t ->
  remainingSeconds t - 1 = warningMinutes t * 60 ->
  let t' := set_state warning (set_remaining (remainingSeconds t - 1) t) in
  tick_data r t = (t', [(r, ev_warning, t')]).
Proof.
  intros H1 H2 H3. unfold tick_data. simpl. rewrite H3, Z.eqb_refl, bool_decide_true by done.
  simpl. rewrite <- H3. destruct (Z.leb_spec (remainingSeconds t - 1) 0); [lia|done].
Qed.

Lemma tick_data_ended r t :
  remainingSeconds t = 1 -> 0 < warningMinutes t ->
  let t' := set_state ended (set_remaining 0 t) in
  tick_data r t = (t', [(r, ev_ended, t')]).
Proof.
  intros H1 H2. unfold tick_data. simpl. rewrite H1.
  destruct (Z.eqb_spec (1 - 1) (warningMinutes t * 60)); [lia|]. done.
Qed.

(** The state of a timer of [target] minutes [n] seconds after its start. *)
Definition expected_state (target warn n : Z) : TimerState :=
  if n <? (target - warn) * 60 then running
  else if n <? target * 60 then warning else ended.

Definition expected_timer (r : jsstr) (target warn now n : Z) : TimerData :=
  set_state (expected_state target warn n)
    (set_remaining (target * 60 - n) (fresh_timer r target warn now)).

Definition expected_events (r : jsstr) (target warn now n : Z)
  : list (jsstr * TimerEvent * TimerData) :=
  let w := (target - warn) * 60 in
  (if w <=? n then [(r, ev_warning, expected_timer r target warn now w)] else []) ++
  (if target * 60 <=? n then [(r, ev_ended, expected_timer r target warn now (target * 60))] else []).

(** One second of the expected run: in the running phase, at its end, in the
    warning phase, at the end. *)
Lemma tick_expected r target warn now k :
  0 < warn < target -> 0 <= k < target * 60 ->
  counting (timerState (expected_timer r target warn now k)) = true /\
  (tick_data r (expected_timer r target warn now k)).1 =
    expected_timer r target warn now ((k + 1)) /\
  expected_events r target warn now k ++ (tick_data r (expected_timer r target warn now k)).2 =
    expected_events r target warn now ((k + 1)).
Proof.
  intros Hw Hk. unfold expected_events, expected_timer, expected_state.
  assert ((k + 1) < (target - warn) * 60 \/ (k + 1) = (target - warn) * 60 \/
    ((target - warn) * 60 <= k /\ (k + 1) < target * 60) \/ (k + 1) = target * 60)
    as [H|[H|[H|H]]] by lia; z_decide; (split; [done|]).
  - rewrite tick_data_plain by (simpl; first [done|lia]). simpl.
    by replace (target * 60 - k - 1) with (target * 60 - (k + 1)) by lia.
  - rewrite tick_data_warning by (simpl; first [done|lia]). simpl. rewrite <- H.
    by replace (target * 60 - k - 1) with (target * 60 - (k + 1)) by lia.
  - rewrite tick_data_plain by (simpl; first [by left|lia]). simpl.
    by replace (target * 60 - k - 1) with (target * 60 - (k + 1)) by lia.
  - rewrite tick_data_ended by (simpl; first [done|lia]). simpl. rewrite <- H.
    by replace ((k + 1) - (k + 1)) with 0 by lia.
Qed.

Lemma tick_run_expected r target warn now n :
  0 < warn < target -> Z.of_nat n <= target * 60 ->
  tick_run n r (fresh_timer r target warn now) =
  (expected_timer r target warn now (Z.of_nat n), expected_events r target warn now (Z.of_nat n)).
Proof.
  intros Hw. induction n as [|n IH]; intros Hn.
  - change (Z.of_nat 0) with 0. unfold expected_timer, expected_events, expected_state.
    z_decide. unfold fresh_timer, set_state, set_remaining. simpl. by rewrite Z.sub_0_r.
  - cbn [tick_run]. rewrite IH by lia. rewrite Nat2Z.inj_succ, <- Z.add_1_r.
    destruct (tick_expected r target warn now (Z.of_nat n) Hw) as (-> & -> & ->); [lia|done].
Qed.

(** a timer of [target] minutes started with a warning [warn] minutes
    before the end, [0 < warn < target], shows [target * 60 - n] seconds after
    [n] seconds; it is [running], then from second [(target - warn) * 60]
    [warning], then [ended] at second [target * 60]; the warning and the end
    are each notified exactly once, at those seconds, in that order. *)
Theorem timer_countdown (w : World) (r : jsstr) (target warn now : Z) (n : nat) :
  reachable w -> callbackSet w = true -> 0 < warn < target -> Z.of_nat n <= target * 60 ->
  let wn := ticks n r (startTimer r target warn now w).2 in
  timerStore wn !! r = Some (expected_timer r target warn now (Z.of_nat n)) /\
  notified wn = notified w ++ expected_events r target warn now (Z.of_nat n).
Proof.
  intros Hr Hcb Hw Hn wn. assert (wf (startTimer r target warn now w).2) as Hwf.
  { apply wf_startTimer. by apply reachable_wf. }
  destruct (ticks_run n r _ (fresh_timer r target warn now) Hwf) as (H1 & H2 & _).
  { unfold startTimer. simpl. apply lookup_insert_eq. }
  rewrite tick_run_expected in H1, H2 by done. split; [exact H1|].
  unfold wn. rewrite H2. unfold log, startTimer. simpl. autorewrite with timer. by rewrite Hcb.
Qed.

Lemma timer_countdown_witness :
  let w := setTimerNotifyCallback initial in
  let wn := ticks 120 (js "r") (startTimer (js "r") 2 1 0 w).2 in
  timerStore wn !! js "r" = Some (expected_timer (js "r") 2 1 0 120) /\
  notified wn = expected_events (js "r") 2 1 0 120 /\
  length (expected_events (js "r") 2 1 0 120) = 2%nat.
Proof.
  assert (reachable (setTimerNotifyCallback initial)) as Hr
    by (eapply reachable_step; [apply reachable_initial|apply step_callback]).
  destruct (timer_countdown (setTimerNotifyCallback initial) (js "r") 2 1 0 120 Hr)
    as [H1 H2]; [reflexivity|lia|lia|].
  split; [exact H1|]. split; [exact H2|reflexivity].
Defined.

(* ------------------------------------------------------------------ *)
(** ** Termination of every count-down *)

Lemma tick_remaining r t :
  (tick_data r t).1.(remainingSeconds) = Z.max 0 (remainingSeconds t - 1).
Proof.
  unfold tick_data. simpl. destruct ((_ =? _) && _); simpl;
    destruct (Z.leb_spec (remainingSeconds t - 1) 0); simpl; lia.
Qed.

Lemma tick_ended r t :
  remainingSeconds t <= 1 -> timerState (tick_data r t).1 = ended.
Proof.
  intros H. unfold tick_data. simpl. destruct ((_ =? _) && _); simpl; z_decide; done.
Qed.

Lemma tick_run_counting r t n :
  counting (timerState t) = true -> Z.of_nat n < Z.max 1 (remainingSeconds t) ->
  counting (timerState (tick_run n r t).1) = true /\
  Z.max 1 (remainingSeconds (tick_run n r t).1) = Z.max 1 (remainingSeconds t) - Z.of_nat n.
Proof.
  intros Hc. induction n as [|n IH]; intros Hn; simpl; [split; [done|lia]|].
  destruct (IH ltac:(lia)) as [H1 H2]. destruct (tick_run n r t) as [t' es]; simpl in *.
  rewrite H1. simpl. rewrite tick_counting, tick_remaining by done.
  split; [z_decide; done|lia].
Qed.

(** C14: every count-down ends.  From any reachable state in which the timer
    of a room counts down, whatever pauses, resumptions and extensions led
    there, exactly [max 1 remainingSeconds] seconds later it is [ended] with
    no second left and no callback live, and at no earlier second. *)
Theorem timer_ends (w : World) (r : jsstr) (t : TimerData) :
  reachable w -> timerStore w !! r = Some t -> counting (timerState t) = true ->
  let n := Z.to_nat (Z.max 1 (remainingSeconds t)) in
  (exists t', timerStore (ticks n r w) !! r = Some t' /\ timerState t' = ended /\
     remainingSeconds t' = 0 /\ timerIntervals (ticks n r w) !! r = None) /\
  (forall m, (m < n)%nat -> exists t', timerStore (ticks m r w) !! r = Some t' /\
     counting (timerState t') = true).
Proof.
  intros Hr Ht Hc n. assert (wf w) as Hwf by by apply reachable_wf. split.
  - destruct n as [|n'] eqn:En; [lia|].
    destruct (tick_run_counting r t n' Hc) as [H1 H2]; [lia|].
    destruct (ticks_run (S n') r w t Hwf Ht) as (H3 & _ & _). simpl in H3.
    destruct (tick_run n' r t) as [t' es]; simpl in *. rewrite H1 in H3. simpl in H3.
    assert (timerState (tick_data r t').1 = ended) as He by (apply tick_ended; lia).
    eexists. split_and!; [exact H3|done|rewrite tick_remaining; lia|].
    eapply wf_no_interval; [apply (wf_ticks (S n')), Hwf|exact H3|by rewrite He].
  - intros m Hm. destruct (ticks_run m r w t Hwf Ht) as (H3 & _ & _).
    eexists. split; [exact H3|]. apply tick_run_counting; [done|lia].
Qed.

Lemma timer_ends_witness :
  let w := (startTimer (js "r") 1 5 0 initial).2 in
  exists t', timerStore (ticks 60 (js "r") w) !! js "r" = Some t' /\ timerState t' = ended /\
    remainingSeconds t' = 0 /\ timerIntervals (ticks 60 (js "r") w) !! js "r" = None.
Proof.
  exact (proj1 (timer_ends (startTimer (js "r") 1 5 0 initial).2 (js "r")
    (fresh_timer (js "r") 1 5 0)
    (reachable_step _ _ reachable_initial (step_start initial (js "r") 1 5 0))
    eq_refl eq_refl)).
Defined.

(* ------------------------------------------------------------------ *)
(** ** Pausing and extending *)

(** A timer is in the warning phase only after it passed its threshold. *)
Definition warned (t : TimerData) : Prop :=
  timerState t = warning -> remainingSeconds t <= warningMinutes t * 60.

Lemma tick_warned r t : warned t -> warned (tick_data r t).1.
Proof.
  unfold warned, tick_data. simpl. intros Hw.
  destruct (Z.eqb_spec (remainingSeconds t - 1) (warningMinutes t * 60)),
    (bool_decide_reflect (timerState t = running)); simpl;
    destruct (remainingSeconds t - 1 <=? 0); simpl; try done;
    intros Hs; try specialize (Hw Hs); lia.
Qed.

Lemma astep_warned r o es o' :
  Spec.astep r o es o' -> (forall t, o = Some t -> warned t) -> forall t, o' = Some t -> warned t.
Proof.
  destruct 1 as [| |t|t now Hp|t minutes now| |t Hc]; intros H' t' Ht'; simplify_eq; auto; try done.
  - unfold warned, Spec.extend_data. destruct (timerState t) eqn:E; simpl; congruence.
  - apply tick_warned. auto.
Qed.

Lemma reachable_warned w : reachable w -> forall r t, timerStore w !! r = Some t -> warned t.
Proof.
  induction 1 as [|w w' Hr IH Hs]; intros r t Ht; [done|].
  destruct (step_room_step w w' (reachable_wf w Hr) Hs) as (r0 & es & Ha & Hf & _).
  destruct (decide (r = r0)) as [->|Hne].
  - eapply astep_warned; [exact Ha|apply IH|exact Ht].
  - rewrite Hf in Ht by done. eauto.
Qed.

Lemma tick_past_warning r t :
  remainingSeconds t <= warningMinutes t * 60 ->
  Forall (fun e => e.1.2 = ev_ended) (tick_data r t).2 /\
  (remainingSeconds (tick_data r t).1 <= warningMinutes (tick_data r t).1 * 60 \/
   timerState (tick_data r t).1 = ended).
Proof.
  intros H. unfold tick_data. simpl. z_decide. simpl.
  destruct (remainingSeconds t - 1 <=? 0); simpl;
    (split; [repeat constructor|first [by right|left; lia]]).
Qed.

Lemma tick_run_past_warning r t n :
  remainingSeconds t <= warningMinutes t * 60 ->
  Forall (fun e => e.1.2 = ev_ended) (tick_run n r t).2.
Proof.
  intros H.
  cut (Forall (fun e => e.1.2 = ev_ended) (tick_run n r t).2 /\
    (remainingSeconds (tick_run n r t).1 <= warningMinutes (tick_run n r t).1 * 60 \/
     timerState (tick_run n r t).1 = ended)); [by intros []|].
  induction n as [|n [IH1 IH2]]; simpl; [by split; [constructor|left]|].
  destruct (tick_run n r t) as [t' es]; simpl in *.
  destruct IH2 as [IH2|IH2]; [|by rewrite IH2; auto].
  destruct (tick_past_warning r t' IH2) as [H1 H2].
  destruct (counting (timerState t')); simpl; [|auto]. by rewrite Forall_app.
Qed.

(** pausing keeps the time.  While a timer is paused no second elapses,
    and resuming it gives a running timer with the same remaining seconds and
    an end time that many seconds away; a timer that had already given its
    warning does not give it again, however long it then runs. *)
Theorem pause_resume_keeps_time (w : World) (r : jsstr) (t : TimerData) (now : Z) (n m : nat) :
  reachable w -> timerStore w !! r = Some t -> counting (timerState t) = true ->
  let w1 := (pauseTimer r w).2 in
  let t2 := set_endTime (now + remainingSeconds t * 1000) (set_state running t) in
  let w3 := (resumeTimer r now (ticks n r w1)).2 in
  ticks n r w1 = w1 /\
  (resumeTimer r now (ticks n r w1)).1 = Some t2 /\
  timerStore w3 !! r = Some t2 /\
  (timerState t = warning ->
   exists es, notified (ticks m r w3) = notified w ++ es /\
              Forall (fun e => e.1.2 = ev_ended) es).
Proof.
  intros Hr Ht Hc w1 t2 w3. assert (wf w1) as Hwf1 by (apply wf_pauseTimer; by apply reachable_wf).
  assert (timerStore w1 !! r = Some (set_state paused t)) as Ht1.
  { unfold w1, pauseTimer. rewrite Ht. simpl. apply lookup_insert_eq. }
  assert (ticks n r w1 = w1) as Hn.
  { clear w3. induction n as [|n IH]; simpl; [done|]. rewrite IH.
    by eapply tick_room_stopped. }
  assert (resumeTimer r now w1 = (Some t2, start_interval r (store_set r t2 w1))) as Hres.
  { unfold resumeTimer. by rewrite Ht1. }
  assert (timerStore w3 !! r = Some t2) as Ht3.
  { unfold w3. rewrite Hn, Hres. simpl. apply lookup_insert_eq. }
  split_and!; [done|by rewrite Hn, Hres|done|].
  intros Hwarn. pose proof (reachable_warned w Hr r t Ht Hwarn) as Hle.
  assert (wf w3) as Hwf3 by (unfold w3; rewrite Hn; by apply wf_resumeTimer).
  destruct (ticks_run m r w3 t2 Hwf3 Ht3) as (_ & -> & _).
  exists (if callbackSet w3 then (tick_run m r t2).2 else []). unfold log. split.
  - f_equal. unfold w3. rewrite Hn, Hres. simpl. unfold w1, pauseTimer. rewrite Ht. simpl.
    by autorewrite with timer.
  - case_match; [|constructor]. by apply tick_run_past_warning.
Qed.

Lemma pause_resume_keeps_time_witness :
  let w := ticks 70 (js "r") (startTimer (js "r") 2 1 0 initial).2 in
  exists t, timerStore w !! js "r" = Some t /\ timerState t = warning /\
    ticks 1000 (js "r") (pauseTimer (js "r") w).2 = (pauseTimer (js "r") w).2.
Proof.
  assert (forall n w, reachable w -> reachable (ticks n (js "r") w)) as Ht.
  { intros n w Hw. induction n as [|n IH]; simpl; [done|]. unfold tick_room.
    case_match eqn:E; [|done]. eapply reachable_step; [exact IH|].
    eapply step_fire. by apply (wf_bij _ (reachable_wf _ IH)). }
  eexists. split; [vm_compute; reflexivity|]. split; [reflexivity|].
  refine (proj1 (pause_resume_keeps_time _ (js "r") _ 0 1000 0 (Ht 70%nat _ _) _ _));
    [|vm_compute; reflexivity|reflexivity].
  exact (reachable_step _ _ reachable_initial (step_start initial (js "r") 2 1 0)).
Defined.

(** extending a timer adds exactly the minutes asked for, to the time
    left and to the target; an ended or warned timer counts down again, with
    a live callback and an end time that matches; a paused timer stays paused. *)
Theorem extend_adds_time (w : World) (r : jsstr) (t : TimerData) (minutes now : Z) :
  reachable w -> timerStore w !! r = Some t ->
  exists t', (extendTimer r minutes now w).1 = Some t' /\
    timerStore (extendTimer r minutes now w).2 !! r = Some t' /\
    remainingSeconds t' = remainingSeconds t + minutes * 60 /\
    targetMinutes t' = targetMinutes t + minutes /\
    (timerState t = ended \/ timerState t = warning ->
     timerState t' = running /\ endTime t' = Some (now + remainingSeconds t' * 1000) /\
     is_Some (timerIntervals (extendTimer r minutes now w).2 !! r)) /\
    (timerState t = paused -> timerState t' = paused /\
     timerIntervals (extendTimer r minutes now w).2 !! r = None).
Proof.
  intros Hr Ht. destruct (extendTimer_data r minutes now w t Ht) as (H1 & H2 & _).
  assert (wf (extendTimer r minutes now w).2) as Hwf
    by (apply wf_extendTimer; by apply reachable_wf).
  assert (timerStore (extendTimer r minutes now w).2 !! r =
          Some (Spec.extend_data t minutes now)) as H3 by (rewrite H2; apply lookup_insert_eq).
  eexists. split_and!; [exact H1|exact H3|..].
  1-2: by unfold Spec.extend_data; destruct (timerState t).
  - intros Hs. split_and!; [unfold Spec.extend_data; by destruct Hs as [-> | ->]..|].
    apply (wf_live _ Hwf). eexists. split; [exact H3|].
    unfold Spec.extend_data. by destruct Hs as [-> | ->].
  - intros Hs. split; [unfold Spec.extend_data; by rewrite Hs|].
    eapply wf_no_interval; [done|exact H3|]. unfold Spec.extend_data. rewrite Hs. simpl. by rewrite Hs.
Qed.

Lemma extend_adds_time_witness :
  let w := ticks 60 (js "r") (startTimer (js "r") 1 5 0 initial).2 in
  exists t', (extendTimer (js "r") 10 0 w).1 = Some t' /\ remainingSeconds t' = 600.
Proof.
  assert (forall n w, reachable w -> reachable (ticks n (js "r") w)) as Ht.
  { intros n w Hw. induction n as [|n IH]; simpl; [done|]. unfold tick_room.
    case_match eqn:E; [|done]. eapply reachable_step; [exact IH|].
    eapply step_fire. by apply (wf_bij _ (reachable_wf _ IH)). }
  destruct (extend_adds_time (ticks 60 (js "r") (startTimer (js "r") 1 5 0 initial).2)
    (js "r") (set_state ended (set_remaining 0 (fresh_timer (js "r") 1 5 0))) 10 0)
    as (t' & H1 & _ & H2 & _).
  - apply Ht. exact (reachable_step _ _ reachable_initial (step_start initial (js "r") 1 5 0)).
  - vm_compute. reflexivity.
  - exists t'. split; [exact H1|exact H2].
Defined.

(** extending a running timer leaves its [endTime] where it was: the
    field no longer agrees with the remaining seconds, which the extension of
    an ended or warned timer and the resumption of a paused one maintain. *)
Theorem extend_running_leaves_endTime (w : World) (r : jsstr) (t : TimerData) (minutes now : Z) :
  timerStore w !! r = Some t -> timerState t = running -> minutes <> 0 ->
  endTime t = Some (now + remainingSeconds t * 1000) ->
  exists t', (extendTimer r minutes now w).1 = Some t' /\ endTime t' = endTime t /\
    endTime t' <> Some (now + remainingSeconds t' * 1000).
Proof.
  intros Ht Hs Hm He. destruct (extendTimer_data r minutes now w t Ht) as (H1 & _).
  eexists. split_and!; [exact H1|..]; unfold Spec.extend_data; rewrite Hs; simpl; [done|].
  rewrite He. intros [= H]. lia.
Qed.

Lemma extend_running_leaves_endTime_witness :
  exists t', (extendTimer (js "r") 10 0 (startTimer (js "r") 30 5 0 initial).2).1 = Some t' /\
    endTime t' = Some 1800000 /\ endTime t' <> Some (0 + remainingSeconds t' * 1000).
Proof.
  exact (extend_running_leaves_endTime (startTimer (js "r") 30 5 0 initial).2 (js "r")
    (fresh_timer (js "r") 30 5 0) 10 0 eq_refl eq_refl ltac:(lia) eq_refl).
Defined.

(* ------------------------------------------------------------------ *)
(** ** The tool *)

Definition known_actions : list jsstr :=
  [js "start"; js "pause"; js "resume"; js "extend"; js "stop"; js "status"].

(** The timer an operation returns is the one in the store. *)
Lemma startTimer_stored r target warn now w :
  timerStore (startTimer r target warn now w).2 !! r = Some (startTimer r target warn now w).1.
Proof. apply lookup_insert_eq. Qed.

Lemma pauseTimer_stored r w : timerStore (pauseTimer r w).2 !! r = (pauseTimer r w).1.
Proof. unfold pauseTimer. case_match; simpl; [apply lookup_insert_eq|done]. Qed.

Lemma resumeTimer_stored r now w :
  (resumeTimer r now w).1 = None \/
  timerStore (resumeTimer r now w).2 !! r = (resumeTimer r now w).1.
Proof.
  unfold resumeTimer. case_match; [|by left].
  case_match; [by left|]. right. apply lookup_insert_eq.
Qed.

Lemma extendTimer_stored r minutes now w :
  timerStore (extendTimer r minutes now w).2 !! r = (extendTimer r minutes now w).1.
Proof.
  destruct (timerStore w !! r) as [t|] eqn:E.
  - destruct (extendTimer_data r minutes now w t E) as (-> & -> & _). apply lookup_insert_eq.
  - unfold extendTimer. by rewrite E.
Qed.

Lemma execute_action_known r o action now w :
  (exists v, execute_action r o action now w = Return v) <-> action ∈ known_actions.
Proof.
  unfold execute_action, known_actions. rewrite !elem_of_cons.
  repeat (case_decide; [split; [tauto|intros _; repeat case_match; eauto]|]).
  split; [by intros [? ?]|]. rewrite elem_of_nil. tauto.
Qed.

Lemma execute_action_data r o action now w t m w' :
  execute_action r o action now w = Return (t, m, w') ->
  if decide (action = js "stop") then t = timerStore w !! r /\ timerStore w' !! r = None
  else t = None \/ t = timerStore w' !! r.
Proof.
  unfold execute_action.
  pose proof (startTimer_stored r (or_default (opt_targetMinutes o) 30)
    (or_default (opt_warningMinutes o) 5) now w).
  pose proof (pauseTimer_stored r w). pose proof (resumeTimer_stored r now w).
  pose proof (extendTimer_stored r (or_default (opt_minutes o) 10) now w).
  intros E. repeat (case_decide; [subst action; rewrite ?decide_True, ?decide_False by done;
    repeat case_match; simplify_eq/=; try naive_solver|]); [|done].
  unfold stopTimer in *. simplify_eq. split; [done|apply lookup_delete_eq].
Qed.

(** the tool fails exactly when the call names no room or an unknown
    action, and on success its answer is the timer the store then holds (the
    one it removed, for [stop]; nothing, when there is none to act on). *)
Theorem execute_outcome (roomId : option jsstr) (o : ToolOptions) (now : Z) (w : World) :
  let action := default (js "undefined") (opt_action o) in
  ((exists e, execute roomId o now w = Throw e) <->
   roomId = None \/ roomId = Some [] \/ action ∉ known_actions) /\
  (forall r out w', roomId = Some r -> execute roomId o now w = Return (out, w') ->
     if decide (action = js "stop")
     then out_data out = timerStore w !! r /\ timerStore w' !! r = None
     else out_data out = None \/ out_data out = timerStore w' !! r).
Proof.
  intros action. unfold execute. fold action. split.
  - pose proof (execute_action_known (default [] roomId) o action now w) as Hk.
    destruct roomId as [[|c r]|]; simpl in Hk; [split; eauto| |split; eauto].
    destruct (execute_action (c :: r) o action now w) as [[[t m] w']|e].
    + split; [by intros [? ?]|]. intros [?|[?|Hn]]; [done..|]. exfalso. apply Hn, Hk. eauto.
    + split; [|eauto]. intros _. right; right. intros Hin. apply Hk in Hin as [v ?]. done.
  - intros [|c r] out w' -> Hex; [done|].
    destruct (execute_action (c :: r) o action now w) as [[[t m] w1]|e] eqn:E; simplify_eq/=.
    by eapply execute_action_data.
Qed.

Lemma execute_outcome_witness :
  exists out w', execute (Some (js "r")) (mkToolOptions (Some (js "start")) None None None) 0 initial
    = Return (out, w') /\
  (out_data out = None \/ out_data out = timerStore w' !! js "r").
Proof.
  eexists _, _. split; [vm_compute; reflexivity|].
  exact (proj2 (execute_outcome (Some (js "r"))
    (mkToolOptions (Some (js "start")) None None None) 0 initial) (js "r") _ _ eq_refl eq_refl).
Defined.
