(* ===== verification/Wfc.v ===== *)
(** * The wave-function-collapse engine
      ([src/src/perplexity/wfc-engine.service.ts], [perplexity.types.ts])

    The engine keeps, per participant of a study session, the cognitive
    states the participant may be in, narrows them on each observation
    ([collapseState]) and evaluates a fixed list of prioritised rules with
    cool-downs ([propagate]).  The rules are one array of the (singleton)
    service: their [lastTriggered] fields are the engine's only state.

    Confidences and entropies are rationals.  [now] is the reading of
    [Date.now()], constant within one synchronous call. *)

From stdpp Require Import base list strings sets sorting.
From Stdlib Require Import ZArith QArith Lia Lqa.
From S2P Require Import Prelude JsString JsMap.

#[local] Open Scope Z_scope.

(* ------------------------------------------------------------------ *)
(** ** Types *)

Inductive CognitiveState :=
| confused | absorbing | thinking | contributing | understood | disengaged.
#[export] Instance CognitiveState_eq_dec : EqDecision CognitiveState.
Proof. solve_decision. Defined.

Inductive TopicState := introduced | discussing | clarifying | mastered | skipped.
#[export] Instance TopicState_eq_dec : EqDecision TopicState.
Proof. solve_decision. Defined.

Inductive EntropyLevel := low | medium | high.
#[export] Instance EntropyLevel_eq_dec : EqDecision EntropyLevel.
Proof. solve_decision. Defined.

Record ParticipantCell := mkCell {
  participantId : jsstr;
  participantName : jsstr;
  possibleStates : list CognitiveState;
  observedState : option CognitiveState;
  entropy : Q;
  confidence : Q;
  lastUpdate : Z;
  speakingRatio : Q;
  questionCount : Z;
  confusionCount : Z;
  textInferredAt : Z;
}.

Record TopicCell := mkTopic {
  topicId : jsstr;
  topicName : jsstr;
  topic_state : TopicState;
  participantUnderstanding : jsmap jsstr Q;
  mentionCount : Z;
  lastMention : Z;
}.

Inductive PerplexityAction :=
| AI_INTERVENTION (reason : jsstr) (targetParticipants : list jsstr)
    (suggestedResponse : option jsstr)
| FOLLOW_UP_QUESTION (question context : jsstr) (targetParticipants : option (list jsstr))
| TOPIC_TRANSITION (fromTopic toTopic reason : jsstr)
| PEER_TEACHING (teacher : jsstr) (learners : list jsstr) (topic : jsstr)
| SUMMARY_REQUEST (topics : list jsstr) (reason : jsstr)
| ENGAGEMENT_BOOST (targetParticipants : list jsstr) (suggestion : jsstr).

Record Transcript := mkTranscript {
  tr_participantId : jsstr;
  tr_text : jsstr;
  tr_timestamp : Z;
}.

Record PerplexitySession := mkSession {
  s_roomId : jsstr;
  isActive : bool;
  startTime : Z;
  participants : jsmap jsstr ParticipantCell;
  topics : jsmap jsstr TopicCell;
  currentTopic : option jsstr;
  sessionEntropy : Q;
  entropyLevel : EntropyLevel;
  actionHistory : list (PerplexityAction * Z);
  lastPropagation : Z;
  recentTranscripts : list Transcript;
}.

Record PropagationResult := mkResult {
  triggeredConstraints : list jsstr;
  actions : list PerplexityAction;
  entropyChange : Q;
  affectedParticipants : list jsstr;
}.

Record WFCConstraint := mkConstraint {
  c_id : jsstr;
  c_name : jsstr;
  c_description : jsstr;
  condition : Z -> PerplexitySession -> bool;
  c_action : PerplexityAction;
  priority : Z;
  cooldownMs : Z;
  lastTriggered : option Z;
}.

(* ------------------------------------------------------------------ *)
(** ** The rules *)

Definition cells (s : PerplexitySession) : list ParticipantCell := map_values (participants s).

Definition observes (st : CognitiveState) (p : ParticipantCell) : bool :=
  bool_decide (observedState p = Some st).

Definition count_if {A} (p : A -> bool) (l : list A) : Z := Z.of_nat (length (List.filter p l)).

Definition ratio (a b : Z) : Q := inject_Z a / inject_Z b.

Definition knows (p : ParticipantCell) : bool := observes understood p || observes contributing p.

Definition DEFAULT_CONSTRAINTS : list WFCConstraint := [
  mkConstraint (js "confusion_intervention") (js "혼란 감지 개입")
    (js "참여자의 40% 이상이 혼란 상태일 때 AI 개입")
    (fun _ session =>
       let ps := cells session in
       if bool_decide (ps = []) then false
       else Qle_bool (2 # 5) (ratio (count_if (observes confused) ps) (Z.of_nat (length ps))))
    (AI_INTERVENTION (js "많은 분들이 어려워하시는 것 같습니다. 제가 설명해드릴까요?") [] None)
    100 60000 None;
  mkConstraint (js "single_confusion_assist") (js "개인 혼란 지원")
    (js "한 참여자가 연속 3회 혼란 상태일 때 개인 지원")
    (fun _ session => existsb (fun p => 3 <=? confusionCount p) (cells session))
    (AI_INTERVENTION (js "혹시 이해가 안 되는 부분이 있으신가요?") [] None)
    80 45000 None;
  mkConstraint (js "peer_teaching_opportunity") (js "Peer Teaching 기회")
    (js "한 명이 이해하고 다른 이들이 혼란일 때 Peer Teaching 제안")
    (fun _ session =>
       let ps := cells session in
       if (Z.of_nat (length ps) <? 2) then false
       else (1 <=? count_if knows ps) && (1 <=? count_if (observes confused) ps))
    (PEER_TEACHING [] [] [])
    70 120000 None;
  mkConstraint (js "high_entropy_summary") (js "고엔트로피 요약")
    (js "세션 엔트로피가 높을 때 요약 요청")
    (fun _ session => bool_decide (entropyLevel session = high) &&
                      Qlt_bool (7 # 10) (sessionEntropy session))
    (SUMMARY_REQUEST [] (js "다양한 의견이 오가고 있네요. 지금까지 내용을 정리해볼까요?"))
    60 180000 None;
  mkConstraint (js "disengagement_boost") (js "이탈 참여자 독려")
    (js "참여자가 이탈 상태일 때 참여 유도")
    (fun now session =>
       existsb (fun p => observes disengaged p && (30000 <? now - lastUpdate p)) (cells session))
    (ENGAGEMENT_BOOST [] (js "님은 어떻게 생각하세요?"))
    50 90000 None;
  mkConstraint (js "all_understood_advance") (js "전원 이해 시 진행")
    (js "모든 참여자가 이해했을 때 다음 토픽으로 전환")
    (fun _ session =>
       let ps := cells session in
       if bool_decide (ps = []) then false
       else count_if (observes understood) ps =? Z.of_nat (length ps))
    (FOLLOW_UP_QUESTION (js "모두 이해하신 것 같네요! 더 깊이 들어가볼까요?")
       (js "topic_mastered") None)
    40 60000 None
].

(* ------------------------------------------------------------------ *)
(** ** Entropy *)

Definition totalStates : Z := 6.

Definition calculateCellEntropy (cell : ParticipantCell) : Q :=
  ratio (Z.of_nat (length (possibleStates cell))) totalStates.

Definition calculateSessionEntropy (session : PerplexitySession) : Q :=
  match cells session with
  | [] => 0
  | ps => Qsum (entropy <$> ps) / inject_Z (Z.of_nat (length ps))
  end.

Definition getEntropyLevel (e : Q) : EntropyLevel :=
  if Qlt_bool e (33 # 100) then low
  else if Qlt_bool e (66 # 100) then medium
  else high.

(* ------------------------------------------------------------------ *)
(** ** Collapse *)

Definition compatibilityMap (st : CognitiveState) : list CognitiveState :=
  match st with
  | confused => [thinking; absorbing]
  | absorbing => [thinking; confused; understood]
  | thinking => [confused; absorbing; contributing; understood]
  | contributing => [thinking; understood]
  | understood => [absorbing; contributing]
  | disengaged => [confused; absorbing]
  end.

Definition isCompatibleState (state1 state2 : CognitiveState) : bool :=
  bool_decide (state2 ∈ compatibilityMap state1).

(** The possibilities, the observed state and the entropy after an
    observation of [o] with confidence [conf]. *)
Definition narrow (cell : ParticipantCell) (o : CognitiveState) (conf : Q)
  : list CognitiveState * option CognitiveState * Q :=
  if Qle_bool (7 # 10) conf then ([o], Some o, 0%Q)
  else if Qle_bool (5 # 10) conf then
    let ps := List.filter (fun s => bool_decide (s = o) || isCompatibleState s o)
                (possibleStates cell) in
    match ps with
    | [s] => (ps, Some s, 0%Q)
    | _ => (ps, observedState cell, ratio (Z.of_nat (length ps)) 6)
    end
  else
    let ps := if bool_decide (o ∈ possibleStates cell) then possibleStates cell
              else possibleStates cell ++ [o] in
    (ps, observedState cell, ratio (Z.of_nat (length ps)) 6).

Definition update_confusion (o : CognitiveState) (n : Z) : Z :=
  match o with
  | confused => n + 1
  | understood | contributing => Z.max 0 (n - 1)
  | _ => n
  end.

Definition collapseState (now : Z) (cell : ParticipantCell) (o : CognitiveState) (conf : Q)
  : ParticipantCell :=
  let '(ps, obs, e) := narrow cell o conf in
  mkCell (participantId cell) (participantName cell) ps obs e conf now
    (speakingRatio cell) (questionCount cell) (update_confusion o (confusionCount cell))
    (textInferredAt cell).

(* ------------------------------------------------------------------ *)
(** ** Propagation *)

Definition or_str (s : option jsstr) (d : jsstr) : jsstr :=
  match s with Some (c :: r) => c :: r | _ => d end.

Definition buildAction (c : WFCConstraint) (session : PerplexitySession) : PerplexityAction :=
  let ps := cells session in
  match c_action c with
  | AI_INTERVENTION reason _ resp =>
    AI_INTERVENTION reason (participantId <$> List.filter (observes confused) ps) resp
  | PEER_TEACHING _ _ _ =>
    PEER_TEACHING (or_str (participantName <$> find_first knows ps) [])
      (participantName <$> List.filter (observes confused) ps)
      (or_str (currentTopic session) (js "현재 주제"))
  | ENGAGEMENT_BOOST _ suggestion =>
    let dis := List.filter (observes disengaged) ps in
    ENGAGEMENT_BOOST (participantId <$> dis)
      (default (js "undefined") (participantName <$> head dis) ++ suggestion)
  | SUMMARY_REQUEST _ reason =>
    let ts := topicName <$> List.filter
      (fun t => bool_decide (topic_state t = discussing) || bool_decide (topic_state t = clarifying))
      (map_values (topics session)) in
    SUMMARY_REQUEST (match ts with [] => [js "현재 논의 내용"] | _ => ts end) reason
  | a => a
  end.

Definition getAffectedParticipants (a : PerplexityAction) (session : PerplexitySession)
  : list jsstr :=
  match a with
  | AI_INTERVENTION _ targets _ | ENGAGEMENT_BOOST targets _ => targets
  | PEER_TEACHING teacher learners _ => teacher :: learners
  | FOLLOW_UP_QUESTION _ _ targets => default (map_keys (participants session)) targets
  | _ => map_keys (participants session)
  end.

(** [constraint.lastTriggered && now - constraint.lastTriggered < cooldownMs] *)
Definition on_cooldown (now : Z) (c : WFCConstraint) : bool :=
  match lastTriggered c with
  | Some t => negb (t =? 0) && (now - t <? cooldownMs c)
  | None => false
  end.

Definition trigger (now : Z) (id : jsstr) (c : WFCConstraint) : WFCConstraint :=
  if bool_decide (c_id c = id) then
    mkConstraint (c_id c) (c_name c) (c_description c) (condition c) (c_action c)
      (priority c) (cooldownMs c) (Some now)
  else c.

Definition by_priority (a b : WFCConstraint) : bool := priority b <=? priority a.

Definition eligible (now : Z) (session : PerplexitySession) (c : WFCConstraint) : bool :=
  negb (on_cooldown now c) && condition c now session.

(** The loop over the sorted rules stops at the first eligible one. *)
Definition propagate (now : Z) (session : PerplexitySession) (rules : list WFCConstraint)
  : PropagationResult * list WFCConstraint :=
  let change := (calculateSessionEntropy session - sessionEntropy session)%Q in
  match find_first (eligible now session) (ssort by_priority rules) with
  | Some c =>
    let action := buildAction c session in
    (mkResult [c_id c] [action] change (getAffectedParticipants action session),
     trigger now (c_id c) <$> rules)
  | None => (mkResult [] [] change [], rules)
  end.

(* ------------------------------------------------------------------ *)
(** ** Utilities *)

Definition createParticipantCell (now : Z) (pid name : jsstr) : ParticipantCell :=
  mkCell pid name [absorbing; thinking; confused; contributing; understood; disengaged]
    None 1 0 now 0 0 0 0.

Definition updateSessionEntropy (s : PerplexitySession) : PerplexitySession :=
  let e := calculateSessionEntropy s in
  mkSession (s_roomId s) (isActive s) (startTime s) (participants s) (topics s)
    (currentTopic s) e (getEntropyLevel e) (actionHistory s) (lastPropagation s)
    (recentTranscripts s).

(* ------------------------------------------------------------------ *)
(** ** Well-formed cells *)

Definition all_states : list CognitiveState :=
  [confused; absorbing; thinking; contributing; understood; disengaged].

Lemma all_states_complete s : s ∈ all_states.
Proof. destruct s; set_solver. Qed.

Lemma possible_at_most_six (l : list CognitiveState) : NoDup l -> (length l <= 6)%nat.
Proof.
  intros Hnd. change 6%nat with (length all_states).
  apply submseteq_length, NoDup_submseteq; [done|]. intros s _. apply all_states_complete.
Qed.

(** The possibilities are distinct, the entropy is their share of the six
    states or zero on a collapsed cell, and the confusion count is a count. *)
Record cell_wf (c : ParticipantCell) : Prop := {
  wf_possible : NoDup (possibleStates c);
  wf_entropy : (entropy c == calculateCellEntropy c)%Q \/
               ((entropy c == 0)%Q /\ (length (possibleStates c) <= 1)%nat);
  wf_confusion : 0 <= confusionCount c;
}.

Lemma ratio_bounds a b : 0 <= a <= b -> 0 < b -> (0 <= ratio a b /\ ratio a b <= 1)%Q.
Proof.
  intros Ha Hb. unfold ratio. assert (0 < inject_Z b)%Q.
  { change 0%Q with (inject_Z 0). by rewrite <- Zlt_Qlt. }
  split.
  - apply Qle_shift_div_l; [done|]. rewrite Qmult_0_l. change 0%Q with (inject_Z 0).
    rewrite <- Zle_Qle. lia.
  - apply Qle_shift_div_r; [done|]. rewrite Qmult_1_l. rewrite <- Zle_Qle. lia.
Qed.

Lemma cell_entropy_bounds c : cell_wf c -> (0 <= entropy c /\ entropy c <= 1)%Q.
Proof.
  intros [Hnd He _]. destruct He as [-> | [-> _]].
  - apply ratio_bounds; [|unfold totalStates; lia].
    pose proof (possible_at_most_six _ Hnd). unfold totalStates. lia.
  - split; lra.
Qed.

Lemma createParticipantCell_wf now pid name : cell_wf (createParticipantCell now pid name).
Proof.
  split; simpl; [|by left|done].
  apply (bool_decide_unpack _). vm_compute. exact I.
Qed.

Lemma narrow_NoDup c o conf :
  NoDup (possibleStates c) -> NoDup (narrow c o conf).1.1.
Proof.
  intros Hnd. unfold narrow. destruct (Qle_bool (7 # 10) conf); [apply NoDup_singleton|].
  destruct (Qle_bool (5 # 10) conf).
  - assert (NoDup (List.filter (fun s => bool_decide (s = o) || isCompatibleState s o)
      (possibleStates c))) as H.
    { eapply sublist_NoDup; [exact Hnd|]. apply bfilter_sublist. }
    by destruct (List.filter _ _) as [|? [|? ?]].
  - simpl. case_bool_decide; [done|]. apply NoDup_app. split_and!; [done| |apply NoDup_singleton].
    intros x Hx ->%list_elem_of_singleton. done.
Qed.

Lemma narrow_entropy c o conf :
  let '(ps, _, e) := narrow c o conf in
  (e == ratio (Z.of_nat (length ps)) 6)%Q \/ ((e == 0)%Q /\ (length ps <= 1)%nat).
Proof.
  unfold narrow. destruct (Qle_bool (7 # 10) conf); [by right|].
  destruct (Qle_bool (5 # 10) conf); [|by left].
  destruct (List.filter _ _) as [|s [|? ?]]; simpl; [by left|by right|by left].
Qed.

Lemma collapseState_wf now c o conf : cell_wf c -> cell_wf (collapseState now c o conf).
Proof.
  intros [Hnd _ Hc]. unfold collapseState.
  pose proof (narrow_NoDup c o conf Hnd). pose proof (narrow_entropy c o conf).
  destruct (narrow c o conf) as [[ps obs] e]; simpl in *.
  split; simpl; [done|done|]. destruct o; simpl; lia.
Qed.

#[export] Hint Resolve createParticipantCell_wf collapseState_wf : aura.

Lemma session_entropy_bounds s :
  Forall cell_wf (cells s) ->
  (0 <= calculateSessionEntropy s /\ calculateSessionEntropy s <= 1)%Q.
Proof.
  intros Hwf. unfold calculateSessionEntropy. destruct (cells s) as [|p ps] eqn:E; [split; lra|].
  rewrite <- E in *. rewrite <- (length_fmap entropy). apply Qaverage_bounds.
  - by rewrite E.
  - rewrite Forall_fmap. eapply Forall_impl; [exact Hwf|]. apply cell_entropy_bounds.
Qed.

(* ------------------------------------------------------------------ *)
(** ** What an observation does to a cell *)

(** C28: every branch of [collapseState].  A confident observation (at least
    0.7) collapses the cell on it; a fair one (0.5 to 0.7) only removes
    possibilities, exactly those that are neither the observed state nor
    compatible with it, and fixes the state when one remains; a weak one only
    adds the observed state.  The cell stays well-formed: distinct
    possibilities, entropy between 0 and 1; confusion is counted up by a
    confused observation and down, not below zero, by an understanding one. *)
Theorem collapse_narrows (now : Z) (c : ParticipantCell) (o : CognitiveState) (conf : Q) :
  cell_wf c ->
  let c' := collapseState now c o conf in
  cell_wf c' /\ (0 <= entropy c' /\ entropy c' <= 1)%Q /\
  (o = confused -> confusionCount c' = confusionCount c + 1) /\
  (o = understood \/ o = contributing -> confusionCount c' = Z.max 0 (confusionCount c - 1)) /\
  ((7 # 10 <= conf)%Q ->
     possibleStates c' = [o] /\ observedState c' = Some o /\ (entropy c' == 0)%Q) /\
  ((5 # 10 <= conf /\ conf < 7 # 10)%Q ->
     possibleStates c' `sublist_of` possibleStates c /\
     (forall s, s ∈ possibleStates c' <->
        s ∈ possibleStates c /\ (s = o \/ o ∈ compatibilityMap s)) /\
     (forall s, possibleStates c' = [s] -> observedState c' = Some s /\ (entropy c' == 0)%Q)) /\
  ((conf < 5 # 10)%Q ->
     observedState c' = observedState c /\
     (forall s, s ∈ possibleStates c' <-> s ∈ possibleStates c \/ s = o)).
Proof.
  intros Hwf c'. assert (cell_wf c') as Hwf' by by apply collapseState_wf.
  assert (confusionCount c' = update_confusion o (confusionCount c)) as Hcc.
  { unfold c', collapseState. by destruct (narrow c o conf) as [[? ?] ?]. }
  split_and!; [done|apply cell_entropy_bounds, Hwf'..| | | | |].
  { intros ->. exact Hcc. }
  { intros [->| ->]; exact Hcc. }
  - intros H%Qle_bool_iff. unfold c', collapseState, narrow. by rewrite H.
  - intros [H1%Qle_bool_iff H2%Qle_bool_false]. unfold c', collapseState, narrow.
    rewrite H2, H1. set (ps := List.filter _ _).
    assert (possibleStates (let '(ps, obs, e) :=
      match ps with [s] => (ps, Some s, 0%Q)
      | _ => (ps, observedState c, ratio (Z.of_nat (length ps)) 6) end in
      mkCell (participantId c) (participantName c) ps obs e conf now (speakingRatio c)
        (questionCount c) (update_confusion o (confusionCount c)) (textInferredAt c)) = ps) as ->.
    { by destruct ps as [|? [|? ?]]. }
    split_and!.
    + apply bfilter_sublist.
    + intros s. unfold ps. rewrite elem_of_bfilter, orb_true_iff. unfold isCompatibleState.
      by rewrite !bool_decide_eq_true.
    + intros s ->. done.
  - intros H%Qlt_bool_iff. unfold c', collapseState, narrow.
    assert (Qle_bool (7 # 10) conf = false) as ->.
    { apply Qle_bool_false. apply Qlt_bool_iff in H. lra. }
    assert (Qle_bool (5 # 10) conf = false) as -> by (by apply Qle_bool_false, Qlt_bool_iff).
    simpl. split; [done|]. intros s. case_bool_decide; set_solver.
Qed.

Lemma collapse_narrows_witness :
  let c := createParticipantCell 0 (js "p1") (js "Kim") in
  possibleStates (collapseState 5 c confused (6 # 10)) `sublist_of` possibleStates c.
Proof.
  apply (collapse_narrows 5 (createParticipantCell 0 (js "p1") (js "Kim")) confused (6 # 10)
    (createParticipantCell_wf 0 (js "p1") (js "Kim"))). split; vm_compute; congruence.
Defined.

(** contradiction.  A fair observation that is incompatible with the
    state a cell has collapsed on removes the last possibility: the cell has
    no possible state, reports entropy zero like a collapsed one and keeps
    the old observed state; further fair observations leave it so. *)
Theorem collapse_contradiction (now now' : Z) (c : ParticipantCell) (s o o' : CognitiveState)
    (conf conf' : Q) :
  possibleStates c = [s] -> observedState c = Some s -> s <> o -> o ∉ compatibilityMap s ->
  (5 # 10 <= conf /\ conf < 7 # 10)%Q -> (5 # 10 <= conf' /\ conf' < 7 # 10)%Q ->
  let c1 := collapseState now c o conf in
  let c2 := collapseState now' c1 o' conf' in
  possibleStates c1 = [] /\ (entropy c1 == 0)%Q /\ observedState c1 = Some s /\
  possibleStates c2 = [] /\ (entropy c2 == 0)%Q /\ observedState c2 = Some s.
Proof.
  intros Hp Ho Hne Hnc [H1%Qle_bool_iff H2%Qle_bool_false] [H3%Qle_bool_iff H4%Qle_bool_false].
  assert (narrow c o conf = ([], Some s, ratio 0 6)) as E.
  { unfold narrow. rewrite H2, H1, Hp. simpl. unfold isCompatibleState.
    rewrite !bool_decide_false by done. by rewrite Ho. }
  intros c1. assert (c1 = mkCell (participantId c) (participantName c) [] (Some s) (ratio 0 6)
    conf now (speakingRatio c) (questionCount c) (update_confusion o (confusionCount c))
    (textInferredAt c)) as -> by (unfold c1, collapseState; by rewrite E).
  unfold collapseState, narrow. simpl. by rewrite H4, H3.
Qed.

Lemma collapse_contradiction_witness :
  let c := collapseState 0 (createParticipantCell 0 (js "p1") (js "Kim")) understood (9 # 10) in
  possibleStates (collapseState 1 c confused (6 # 10)) = [].
Proof.
  refine (proj1 (collapse_contradiction 1 2
    (collapseState 0 (createParticipantCell 0 (js "p1") (js "Kim")) understood (9 # 10))
    understood confused thinking (6 # 10) (6 # 10) eq_refl eq_refl _ _ _ _)).
  - discriminate.
  - apply (bool_decide_unpack _). vm_compute. exact I.
  - split; vm_compute; congruence.
  - split; vm_compute; congruence.
Defined.

(* ------------------------------------------------------------------ *)
(** ** The rule that fires *)

Lemma by_priority_total a b : by_priority a b = true \/ by_priority b a = true.
Proof. unfold by_priority. rewrite !Z.leb_le. lia. Qed.

Lemma by_priority_trans a b c :
  by_priority a b = true -> by_priority b c = true -> by_priority a c = true.
Proof. unfold by_priority. rewrite !Z.leb_le. lia. Qed.

(** The first eligible rule of the sorted list has the highest priority. *)
Lemma first_eligible_highest (p : WFCConstraint -> bool) rules c c' :
  find_first p (ssort by_priority rules) = Some c ->
  c' ∈ rules -> p c' = true -> priority c' <= priority c.
Proof.
  intros Hf Hin Hp. apply find_first_split in Hf as (l1 & l2 & Hs & Hc & Hl1).
  pose proof (ssort_sorted by_priority by_priority_total by_priority_trans rules) as Hst.
  rewrite <- (ssort_perm by_priority) in Hin. rewrite Hs in Hin, Hst.
  apply elem_of_app in Hin as [Hin|Hin].
  - rewrite Forall_forall in Hl1. rewrite Hl1 in Hp by done. done.
  - apply elem_of_cons in Hin as [->|Hin]; [lia|].
    apply StronglySorted_app_1_r, StronglySorted_inv in Hst as [_ Hall].
    rewrite Forall_forall in Hall. apply Hall in Hin. unfold by_priority in Hin. lia.
Qed.

(** one propagation performs at most one rule.  The rule is not cooling
    down, its condition holds in the session, and no eligible rule has a
    higher priority; only its time stamp changes.  When no rule is eligible
    nothing happens. *)
Theorem propagate_fires_highest (now : Z) (session : PerplexitySession) (rules : list WFCConstraint) :
  let '(res, rules') := propagate now session rules in
  (entropyChange res == calculateSessionEntropy session - sessionEntropy session)%Q /\
  ((triggeredConstraints res = [] /\ actions res = [] /\ affectedParticipants res = [] /\
    rules' = rules /\ Forall (fun c => eligible now session c = false) rules) \/
   (exists c, c ∈ rules /\ on_cooldown now c = false /\ condition c now session = true /\
      (forall c', c' ∈ rules -> eligible now session c' = true -> priority c' <= priority c) /\
      triggeredConstraints res = [c_id c] /\ actions res = [buildAction c session] /\
      affectedParticipants res = getAffectedParticipants (buildAction c session) session /\
      rules' = trigger now (c_id c) <$> rules)).
Proof.
  unfold propagate. destruct (find_first _ _) as [c|] eqn:E; simpl; (split; [reflexivity|]).
  - right. exists c. pose proof (find_first_Some _ _ _ E) as [Hin He].
    rewrite ssort_perm in Hin. unfold eligible in He. bool_cases.
    split_and!; try done. intros c' Hin' He'. by eapply first_eligible_highest.
  - left. split_and!; try done. apply find_first_None in E. by rewrite ssort_perm in E.
Qed.

(** *** Cool-down *)

Definition rule_ids (rules : list WFCConstraint) : list jsstr := c_id <$> rules.

Lemma trigger_ids now id (rules : list WFCConstraint) : rule_ids (trigger now id <$> rules) = rule_ids rules.
Proof.
  unfold rule_ids. rewrite <- list_fmap_compose. apply list_fmap_ext.
  intros i c _. unfold trigger. simpl. by case_bool_decide.
Qed.

Lemma trigger_cooling now id (rules : list WFCConstraint) c :
  c ∈ trigger now id <$> rules -> c_id c = id -> lastTriggered c = Some now.
Proof.
  intros (c0 & -> & _)%list_elem_of_fmap. unfold trigger. by case_bool_decide.
Qed.

(** the cool-down holds between any two sessions.  When a propagation
    at time [t1] fires a rule, no propagation that follows it fires the rule
    again before its cool-down has passed, also for the session of another
    room, because all rooms share the rules of the one engine. *)
Theorem cooldown_is_global (t1 t2 : Z) (room1 room2 : PerplexitySession)
    (rules rules' : list WFCConstraint) (res res' : PropagationResult) (id : jsstr) (ms : Z) :
  0 < t1 -> t1 <= t2 -> t2 - t1 < ms ->
  Forall (fun c => c_id c = id -> cooldownMs c = ms) rules ->
  propagate t1 room1 rules = (res, rules') -> triggeredConstraints res = [id] ->
  (propagate t2 room2 rules').1 = res' -> id ∉ triggeredConstraints res'.
Proof.
  intros Ht1 Ht Hms Hcd H1 Hid H2 Hin. unfold propagate in H1, H2.
  destruct (find_first (eligible t1 room1) _) as [c1|]; simplify_eq/=.
  destruct (find_first (eligible t2 room2) _) as [c2|] eqn:E2; simpl in Hin;
    [|by apply not_elem_of_nil in Hin].
  apply list_elem_of_singleton in Hin.
  apply find_first_Some in E2 as [Hin2 He]. rewrite ssort_perm in Hin2.
  unfold eligible in He. bool_cases.
  match goal with H : on_cooldown _ _ = false |- _ => revert H end.
  unfold on_cooldown. rewrite (trigger_cooling _ _ _ _ Hin2 (eq_sym Hin)).
  assert (cooldownMs c2 = ms) as ->.
  { apply list_elem_of_fmap in Hin2 as (c0 & -> & Hin0). rewrite Forall_forall in Hcd.
    rewrite <- (Hcd c0 Hin0); unfold trigger in *; by case_bool_decide. }
  z_decide. done.
Qed.

Definition sample_session (room : jsstr) : PerplexitySession :=
  mkSession room true 0
    [(js "p1", collapseState 1 (createParticipantCell 0 (js "p1") (js "Kim")) confused 1)]
    [] None 1 high [] 0 [].

Lemma cooldown_is_global_witness :
  exists rules' res, propagate 1000 (sample_session (js "room-a")) DEFAULT_CONSTRAINTS
    = (res, rules') /\
  js "confusion_intervention" ∉
    triggeredConstraints (propagate 60999 (sample_session (js "room-b")) rules').1.
Proof.
  eexists _, _. split; [reflexivity|].
  refine (cooldown_is_global 1000 60999 (sample_session (js "room-a")) (sample_session (js "room-b"))
    DEFAULT_CONSTRAINTS _ _ _ (js "confusion_intervention") 60000 _ _ _ _ eq_refl _ eq_refl);
    [lia..| |vm_compute; reflexivity].
  repeat constructor; vm_compute; intros; congruence.
Defined.
