(* ===== verification/Perplexity.v ===== *)
(** * The perplexity service ([src/src/perplexity/perplexity.service.ts])

    Study sessions by room: participants join and leave, observations of
    their cognitive state arrive from the front end (one at a time or in
    batches) and from the transcripts, and the engine of [Wfc] proposes an
    intervention.  [Service] holds the session map and the engine's rules.

    The language model is the parameter [sendMessagePure]: it answers or
    throws.  [generateInterventionResponse] awaits it, and touches no state
    after the await, so a handler's effect on the state is that of its
    synchronous part.  Every operation takes the reading of [Date.now()]. *)

From stdpp Require Import base list gmap strings sets sorting.
From Stdlib Require Import ZArith QArith Lia Lqa.
From S2P Require Import Prelude JsString JsMap Wfc.

#[local] Open Scope Z_scope.

(* ------------------------------------------------------------------ *)
(** ** State *)

Record Service := mkService {
  sessions : gmap jsstr PerplexitySession;
  rules : list WFCConstraint;
}.

Definition init_service : Service := mkService ∅ DEFAULT_CONSTRAINTS.

Definition MIN_PROPAGATION_INTERVAL_MS : Z := 500.
Definition MAX_TRANSCRIPTS : nat := 50.
Definition TEXT_STATE_PROTECTION_MS : Z := 5000.

Definition set_session (r : jsstr) (s : PerplexitySession) (sv : Service) : Service :=
  mkService (<[r := s]> (sessions sv)) (rules sv).

Definition set_participants (ps : jsmap jsstr ParticipantCell) (s : PerplexitySession)
  : PerplexitySession :=
  mkSession (s_roomId s) (isActive s) (startTime s) ps (topics s) (currentTopic s)
    (sessionEntropy s) (entropyLevel s) (actionHistory s) (lastPropagation s)
    (recentTranscripts s).

Definition set_transcripts (ts : list Transcript) (s : PerplexitySession) : PerplexitySession :=
  mkSession (s_roomId s) (isActive s) (startTime s) (participants s) (topics s)
    (currentTopic s) (sessionEntropy s) (entropyLevel s) (actionHistory s)
    (lastPropagation s) ts.

Definition set_active (b : bool) (s : PerplexitySession) : PerplexitySession :=
  mkSession (s_roomId s) b (startTime s) (participants s) (topics s) (currentTopic s)
    (sessionEntropy s) (entropyLevel s) (actionHistory s) (lastPropagation s)
    (recentTranscripts s).

Definition set_propagated (now : Z) (h : list (PerplexityAction * Z)) (s : PerplexitySession)
  : PerplexitySession :=
  mkSession (s_roomId s) (isActive s) (startTime s) (participants s) (topics s)
    (currentTopic s) (sessionEntropy s) (entropyLevel s) h now (recentTranscripts s).

(* ------------------------------------------------------------------ *)
(** ** Sessions and participants *)

Definition new_session (now : Z) (r : jsstr) : PerplexitySession :=
  mkSession r true now [] [] None 1 high [] 0 [].

Definition startSession (now : Z) (r : jsstr) (sv : Service) : PerplexitySession * Service :=
  let s := new_session now r in (s, set_session r s sv).

Definition endSession (r : jsstr) (sv : Service) : option PerplexitySession * Service :=
  match sessions sv !! r with
  | None => (None, sv)
  | Some s => (Some (set_active false s), mkService (delete r (sessions sv)) (rules sv))
  end.

Definition getSession (r : jsstr) (sv : Service) : option PerplexitySession := sessions sv !! r.

Definition isSessionActive (r : jsstr) (sv : Service) : bool :=
  match sessions sv !! r with Some s => isActive s | None => false end.

Definition addParticipant (now : Z) (r pid name : jsstr) (sv : Service) : Service :=
  match sessions sv !! r with
  | None => sv
  | Some s =>
    if map_has (participants s) pid then sv
    else set_session r (set_participants
           (map_set (participants s) pid (createParticipantCell now pid name)) s) sv
  end.

Definition removeParticipant (r pid : jsstr) (sv : Service) : Service :=
  match sessions sv !! r with
  | None => sv
  | Some s => set_session r (set_participants (map_delete (participants s) pid) s) sv
  end.

(* ------------------------------------------------------------------ *)
(** ** Propagation with the minimum interval *)

Definition tryPropagate (now : Z) (s : PerplexitySession) (rs : list WFCConstraint)
  : option PropagationResult * PerplexitySession * list WFCConstraint :=
  if now - lastPropagation s <? MIN_PROPAGATION_INTERVAL_MS then (None, s, rs)
  else
    let '(res, rs') := propagate now (set_propagated now (actionHistory s) s) rs in
    (Some res,
     set_propagated now (actionHistory s ++ ((fun a => (a, now)) <$> actions res)) s, rs').

(* ------------------------------------------------------------------ *)
(** ** State updates *)

(** The fields have their declared types, which the code does not check *)
Record StateUpdatePayload := mkUpdate {
  u_participantId : jsstr;
  u_state : option CognitiveState;
  u_entropy : Q;
  u_confidence : Q;
}.

Definition handleStateUpdate (now : Z) (r : jsstr) (p : StateUpdatePayload) (sv : Service)
  : option PropagationResult * Service :=
  match sessions sv !! r with
  | None => (None, sv)
  | Some s =>
    if negb (isActive s) then (None, sv)
    else match map_get (participants s) (u_participantId p) with
    | None => (None, sv)
    | Some cell =>
      let s1 := match u_state p with
        | Some st => set_participants
            (map_set (participants s) (u_participantId p)
               (collapseState now cell st (u_confidence p))) s
        | None => s
        end in
      let '(res, s2, rs) := tryPropagate now s1 (rules sv) in
      (res, mkService (<[r := s2]> (sessions sv)) rs)
    end
  end.

(** One entry of an entropy report; [confidence] may be absent. *)
Record ReportEntry := mkEntry {
  e_participantId : jsstr;
  e_state : option CognitiveState;
  e_confidence : option Q;
}.

Definition text_protected (now : Z) (cell : ParticipantCell) : bool :=
  (0 <? textInferredAt cell) && (now - textInferredAt cell <? TEXT_STATE_PROTECTION_MS).

Definition report_entry (now : Z) (ps : jsmap jsstr ParticipantCell) (u : ReportEntry)
  : jsmap jsstr ParticipantCell :=
  match map_get ps (e_participantId u), e_state u with
  | Some cell, Some st =>
    if text_protected now cell then ps
    else map_set ps (e_participantId u)
           (collapseState now cell st (default (7 # 10) (e_confidence u)))
  | _, _ => ps
  end.

Definition handleEntropyReport (now : Z) (r : jsstr) (payload : list ReportEntry) (sv : Service)
  : option PropagationResult * Service :=
  match sessions sv !! r with
  | None => (None, sv)
  | Some s =>
    if negb (isActive s) then (None, sv)
    else
      let s1 := set_participants (foldl (report_entry now) (participants s) payload) s in
      let '(res, s2, rs) := tryPropagate now (updateSessionEntropy s1) (rules sv) in
      (res, mkService (<[r := s2]> (sessions sv)) rs)
  end.

(* ------------------------------------------------------------------ *)
(** ** Transcripts *)

Definition confused_words : list jsstr := js <$>
  ["모르겠"; "헷갈"; "이해가 안"; "뭐지"; "어려"; "복잡"; "무슨 말"; "쉽지 않"; "안 되"; "힘들"]%string.
Definition understood_words : list jsstr := js <$>
  ["그렇지"; "맞아"; "알겠"; "알았"; "이해했"; "이해됐"; "아하"; "오케이"; "넵"; "그렇구나";
   "그런 거"; "그거구나"]%string.
Definition thinking_words : list jsstr := js <$>
  ["음"; "흠"; "잠깐"; "그러니까"; "생각해보면"; "근데"; "그게"]%string.
Definition contributing_words : list jsstr := js <$>
  ["?"; "제 생각에는"; "왜냐하면"; "예를 들어"; "설명하자면"]%string.

Definition mentions (words : list jsstr) (text : jsstr) : bool := existsb (includes text) words.

Definition inferStateFromTranscript (text : jsstr) : option CognitiveState :=
  let lower := to_lower text in
  if mentions confused_words lower then Some confused
  else if mentions understood_words lower then Some understood
  else if mentions thinking_words lower then Some thinking
  else if mentions contributing_words lower then Some contributing
  else None.

Definition set_textInferredAt (now : Z) (c : ParticipantCell) : ParticipantCell :=
  mkCell (participantId c) (participantName c) (possibleStates c) (observedState c) (entropy c)
    (confidence c) (lastUpdate c) (speakingRatio c) (questionCount c) (confusionCount c) now.

(** push, then [shift] when there are more than [MAX_TRANSCRIPTS] *)
Definition push_transcript (ts : list Transcript) (t : Transcript) : list Transcript :=
  let ts' := ts ++ [t] in
  if (MAX_TRANSCRIPTS <? length ts')%nat then drop 1 ts' else ts'.

Definition addTranscript (now : Z) (r pid text : jsstr) (sv : Service)
  : option CognitiveState * Service :=
  match sessions sv !! r with
  | None => (None, sv)
  | Some s =>
    if negb (isActive s) then (None, sv)
    else
      let s1 := set_transcripts
        (push_transcript (recentTranscripts s) (mkTranscript pid text now)) s in
      let inferred := inferStateFromTranscript text in
      let s2 := match inferred, map_get (participants s1) pid with
        | Some st, Some cell => set_participants
            (map_set (participants s1) pid
               (set_textInferredAt now (collapseState now cell st (9 # 10)))) s1
        | _, _ => s1
        end in
      (inferred, set_session r s2 sv)
  end.

(* ------------------------------------------------------------------ *)
(** ** Intervention texts and messages *)



Definition state_label (o : option CognitiveState) : jsstr :=
  match o with
  | None => js "파악중"
  | Some confused => js "confused" | Some absorbing => js "absorbing"
  | Some thinking => js "thinking" | Some contributing => js "contributing"
  | Some understood => js "understood" | Some disengaged => js "disengaged"
  end.

(** one line of the conversation, ["${name}: \"${t.text}\""] *)
Definition transcript_line (s : PerplexitySession) (t : Transcript) : jsstr :=
  or_str (participantName <$> map_get (participants s) (tr_participantId t)) (tr_participantId t)
    ++ js ": " ++ dq ++ tr_text t ++ dq.

Definition conversationContext (s : PerplexitySession) : jsstr :=
  match slice_last 8 (recentTranscripts s) with
  | [] => js "(아직 대화 없음)"
  | ts => join nl (transcript_line s <$> ts)
  end.

Definition participantStates (s : PerplexitySession) : jsstr :=
  join (js ", ") ((fun p => participantName p ++ js ": " ++ state_label (observedState p))
                    <$> cells s).

Definition instruction (s : PerplexitySession) : jsstr :=
  trim (lines
    [ []; js "당신은 스터디 세션의 진행자입니다.";
      js "아래 대화 문맥과 참여자 상태를 보고, 상황에 맞는 자연스러운 한 문장만 출력하세요.";
      js "설명이나 이유 없이 말할 문장만 출력하세요."; [];
      js "[최근 대화]"; conversationContext s; [];
      js "[참여자 상태]"; participantStates s; [] ]).

(** [action.suggestion?.split('님')[0] || '참여자'] *)
Definition disengaged_name (suggestion : jsstr) : jsstr :=
  or_str (head (split_char 45784 suggestion)) (js "참여자").

Definition intervention_prompt (s : PerplexitySession) (a : PerplexityAction) : option jsstr :=
  let tail :=
    match a with
    | AI_INTERVENTION _ _ _ => Some
        [js "[상황] 일부 참여자가 어려워하고 있습니다. 대화 내용을 보고 어떤 부분이 어려운지 파악해서 도움을 제안하세요.";
         js "예시 형식: " ++ dq ++ js "혹시 [구체적 주제] 부분이 헷갈리시나요? 제가 다시 설명해드릴까요?" ++ dq]
    | FOLLOW_UP_QUESTION _ _ _ => Some
        [js "[상황] 모두가 현재 주제를 이해한 것 같습니다. 대화 내용을 보고 더 깊이 탐구할 수 있는 심화 질문을 하세요.";
         js "예시 형식: " ++ dq ++ js "그럼 [관련 개념]은 어떻게 될까요?" ++ dq ++ js " 또는 " ++ dq
           ++ js "실제로 적용하면 어떤 점이 달라질까요?" ++ dq]
    | PEER_TEACHING teacher _ _ => Some
        [js "[상황] " ++ teacher ++ js "님이 이해하고 있고, 다른 분들이 어려워합니다. " ++ teacher
           ++ js "님께 설명을 부탁하세요.";
         js "예시 형식: " ++ dq ++ teacher ++ js "님, 혹시 [해당 주제]에 대해 설명해주실 수 있을까요?" ++ dq]
    | SUMMARY_REQUEST _ _ => Some
        [js "[상황] 다양한 의견이 오가고 있습니다. 지금까지 논의된 내용을 정리하자고 제안하세요.";
         js "예시 형식: " ++ dq ++ js "잠깐, [주제]에 대해 정리하고 넘어갈까요?" ++ dq]
    | ENGAGEMENT_BOOST _ suggestion =>
        let name := disengaged_name suggestion in Some
        [js "[상황] " ++ name ++ js "님이 잠시 집중이 흐트러진 것 같습니다. 자연스럽게 참여를 유도하세요.";
         js "예시 형식: " ++ dq ++ name ++ js "님은 어떻게 생각하세요?" ++ dq ++ js " 또는 " ++ dq
           ++ name ++ js "님도 비슷한 경험 있으신가요?" ++ dq]
    | TOPIC_TRANSITION _ _ _ => None
    end in
  (fun t => lines (instruction s :: [] :: t)) <$> tail.

Definition is_quote (c : Z) : bool := (c =? 34) || (c =? 39).

(** [s.replace(/^["']|["']$/g, '')]: a quote at the start and one at the end *)
Definition strip_leading_quote (s : jsstr) : jsstr :=
  match s with c :: s' => if is_quote c then s' else s | [] => [] end.
Definition strip_quotes (s : jsstr) : jsstr :=
  reverse (strip_leading_quote (reverse (strip_leading_quote s))).

Definition clean_response (response : jsstr) : jsstr :=
  default [] (head (split_char 10 (strip_quotes (trim response)))).

Inductive PerplexityMessage :=
| PERPLEXITY_START
| PERPLEXITY_END
| STATE_UPDATE (p : StateUpdatePayload)
| ENTROPY_REPORT (p : list ReportEntry)
| TRANSCRIPT (pid text : jsstr)
| OTHER_MESSAGE. (** [OBSERVATION], [PROPAGATION], [ACTION]: ignored *)

Section WithLlm.
(** [LlmService.sendMessagePure(prompt, maxTokens)] *)
Variable sendMessagePure : jsstr -> Z -> outcome jsstr jsstr.

Definition generateInterventionResponse (r : jsstr) (a : PerplexityAction) (sv : Service)
  : option jsstr :=
  match sessions sv !! r with
  | None => None
  | Some s =>
    match intervention_prompt s a with
    | None => None
    | Some prompt =>
      catch (outcome_bind (sendMessagePure prompt 100)
               (fun response => Return (Some (clean_response response))))
            (fun _ => None)
    end
  end.

(** [{ action, response: response || undefined }] for the first action *)
Definition reply (r : jsstr) (res : option PropagationResult) (sv : Service)
  : option (PerplexityAction * option jsstr) :=
  match res with
  | Some x =>
    match actions x with
    | [] => None
    | a :: _ =>
      Some (a, match generateInterventionResponse r a sv with
               | Some (c :: t) => Some (c :: t)
               | _ => None
               end)
    end
  | None => None
  end.

Definition handleMessage (now : Z) (r : jsstr) (m : PerplexityMessage) (sv : Service)
  : option (PerplexityAction * option jsstr) * Service :=
  match m with
  | PERPLEXITY_START => (None, (startSession now r sv).2)
  | PERPLEXITY_END => (None, (endSession r sv).2)
  | STATE_UPDATE p =>
    let '(res, sv') := handleStateUpdate now r p sv in (reply r res sv', sv')
  | ENTROPY_REPORT p =>
    let '(res, sv') := handleEntropyReport now r p sv in (reply r res sv', sv')
  | TRANSCRIPT pid text =>
    let '(inferred, sv1) := addTranscript now r pid text sv in
    match inferred, sessions sv1 !! r with
    | Some _, Some s =>
      let '(res, s2, rs) := tryPropagate now (updateSessionEntropy s) (rules sv1) in
      let sv2 := mkService (<[r := s2]> (sessions sv1)) rs in
      (reply r res sv2, sv2)
    | _, _ => (None, sv1)
    end
  | OTHER_MESSAGE => (None, sv)
  end.
End WithLlm.

Record SessionSummary := mkSummary {
  sum_isActive : bool;
  participantCount : Z;
  sum_entropy : Q;
  sum_entropyLevel : EntropyLevel;
  actionCount : Z;
  duration : Z;
}.

Definition getSessionSummary (now : Z) (r : jsstr) (sv : Service) : option SessionSummary :=
  (fun s => mkSummary (isActive s) (Z.of_nat (length (participants s))) (sessionEntropy s)
              (entropyLevel s) (Z.of_nat (length (actionHistory s))) (now - startTime s))
  <$> sessions sv !! r.

(* ------------------------------------------------------------------ *)
(** ** Invariant of a session *)

Definition spaced (e1 e2 : PerplexityAction * Z) : Prop :=
  e1.2 + MIN_PROPAGATION_INTERVAL_MS <= e2.2.

Record session_wf (r : jsstr) (s : PerplexitySession) : Prop := {
  sw_room : s_roomId s = r;
  sw_active : isActive s = true;
  sw_keys : map_wf (participants s);
  sw_ids : Forall (fun e => participantId e.2 = e.1) (participants s);
  sw_cells : Forall cell_wf (cells s);
  sw_transcripts : (length (recentTranscripts s) <= MAX_TRANSCRIPTS)%nat;
  sw_entropy : (0 <= sessionEntropy s /\ sessionEntropy s <= 1)%Q;
  sw_level : entropyLevel s = getEntropyLevel (sessionEntropy s);
  sw_history : StronglySorted spaced (actionHistory s) /\
               Forall (fun e => e.2 <= lastPropagation s) (actionHistory s);
}.

Definition service_wf (sv : Service) : Prop :=
  forall r s, sessions sv !! r = Some s -> session_wf r s.

Lemma service_wf_insert r s sv rs :
  service_wf sv -> session_wf r s -> service_wf (mkService (<[r := s]> (sessions sv)) rs).
Proof.
  intros Hsv Hs r' s'. simpl. rewrite lookup_insert. case_decide; [naive_solver|apply Hsv].
Qed.

(** *** Updates of the participants *)

Lemma ids_set (ps : jsmap jsstr ParticipantCell) pid c :
  Forall (fun e => participantId e.2 = e.1) ps -> participantId c = pid ->
  Forall (fun e => participantId e.2 = e.1) (map_set ps pid c).
Proof.
  intros H Hc. induction H as [|[k v] ps Hkv Hps IH]; simpl; [by repeat constructor|].
  case_decide; [subst; by constructor|by constructor].
Qed.

Definition cells_wf (ps : jsmap jsstr ParticipantCell) : Prop :=
  map_wf ps /\ Forall (fun e => participantId e.2 = e.1) ps /\ Forall cell_wf (map_values ps).

Lemma cells_wf_set ps pid c :
  cells_wf ps -> participantId c = pid -> cell_wf c -> cells_wf (map_set ps pid c).
Proof.
  intros (H1 & H2 & H3) Hid Hc. split_and!; [by apply map_wf_set|by apply ids_set|].
  by apply map_set_values_Forall.
Qed.

Lemma cells_wf_delete ps pid : cells_wf ps -> cells_wf (map_delete ps pid).
Proof.
  intros (H1 & H2 & H3). split_and!; [by apply map_wf_delete| |by apply map_delete_values_Forall].
  eapply Forall_sublist; [apply map_delete_sublist|done].
Qed.

Lemma cells_wf_get ps pid c :
  cells_wf ps -> map_get ps pid = Some c -> participantId c = pid /\ cell_wf c.
Proof.
  intros (_ & H2 & H3) Hg. split; [|by eapply map_get_Forall].
  apply map_get_elem in Hg. rewrite Forall_forall in H2. by apply (H2 (pid, c)).
Qed.

Lemma cells_wf_collapse now ps pid c st conf :
  cells_wf ps -> map_get ps pid = Some c ->
  cells_wf (map_set ps pid (collapseState now c st conf)).
Proof.
  intros Hps Hg. destruct (cells_wf_get _ _ _ Hps Hg) as [Hid Hc].
  apply cells_wf_set; [done| |by apply collapseState_wf].
  unfold collapseState. by destruct (narrow c st conf) as [[? ?] ?].
Qed.

Lemma cells_wf_report now ps l : cells_wf ps -> cells_wf (foldl (report_entry now) ps l).
Proof.
  revert ps. induction l as [|u l IH]; intros ps Hps; simpl; [done|]. apply IH.
  unfold report_entry. destruct (map_get ps (e_participantId u)) as [c|] eqn:E; [|done].
  destruct (e_state u); [|done]. case_match; [done|]. by apply cells_wf_collapse.
Qed.

Lemma set_participants_wf r s ps :
  session_wf r s -> cells_wf ps -> session_wf r (set_participants ps s).
Proof. intros [] (? & ? & ?). by split. Qed.

Lemma session_cells_wf r s : session_wf r s -> cells_wf (participants s).
Proof. intros []. by split_and!. Qed.

Lemma updateSessionEntropy_wf r s : session_wf r s -> session_wf r (updateSessionEntropy s).
Proof.
  intros []. split; try done. by apply session_entropy_bounds.
Qed.

Lemma new_session_wf now r : session_wf r (new_session now r).
Proof.
  split; simpl; try done; try constructor; try lra; try constructor; lia.
Qed.

Lemma propagate_at_most_one now s rs :
  (length (actions (propagate now s rs).1) <= 1)%nat.
Proof. unfold propagate. case_match; simpl; lia. Qed.

Lemma tryPropagate_wf r now s rs :
  session_wf r s -> session_wf r (tryPropagate now s rs).1.2.
Proof.
  intros Hs. unfold tryPropagate.
  destruct (Z.ltb_spec (now - lastPropagation s) MIN_PROPAGATION_INTERVAL_MS) as [|Hge]; [done|].
  pose proof (propagate_at_most_one now (set_propagated now (actionHistory s) s) rs) as Hone.
  destruct (propagate _ _ rs) as [res rs']. simpl in *.
  destruct Hs as [? ? ? ? ? ? ? ? [Hh Hl]]. split; try done. simpl.
  unfold MIN_PROPAGATION_INTERVAL_MS in Hge.
  assert (Forall (fun e => e.2 <= now) (actionHistory s)) as Hl'
    by (eapply Forall_impl; [exact Hl|]; simpl; lia).
  destruct (actions res) as [|a [|? ?]]; simpl in *; [by rewrite app_nil_r| |lia].
  split; [|apply Forall_app; split; [done|by constructor]].
  apply StronglySorted_app_2; [|done|repeat constructor].
  rewrite Forall_forall in Hl. intros x1 x2 Hx1 ->%list_elem_of_singleton.
  apply Hl in Hx1. unfold spaced, MIN_PROPAGATION_INTERVAL_MS. simpl. lia.
Qed.

#[export] Hint Resolve set_participants_wf session_cells_wf updateSessionEntropy_wf
  new_session_wf tryPropagate_wf cells_wf_collapse cells_wf_report service_wf_insert : aura.

(** *** Preservation by every operation *)

Lemma length_push_transcript ts t :
  (length ts <= MAX_TRANSCRIPTS)%nat -> (length (push_transcript ts t) <= MAX_TRANSCRIPTS)%nat.
Proof.
  intros H. unfold push_transcript. rewrite length_app. simpl.
  case_match; bool_cases; [rewrite length_drop|]; rewrite ?length_app; simpl; lia.
Qed.

Lemma propagate_step_wf r s sv rs now :
  service_wf sv -> session_wf r s ->
  service_wf (mkService (<[r := (tryPropagate now s rs).1.2]> (sessions sv))
                (tryPropagate now s rs).2).
Proof. eauto with aura. Qed.

Lemma endSession_wf r sv : service_wf sv -> service_wf (endSession r sv).2.
Proof.
  intros Hsv. unfold endSession. case_match; [|done].
  intros r' s'. simpl. rewrite lookup_delete. case_decide; [done|apply Hsv].
Qed.

Lemma addParticipant_wf now r pid name sv :
  service_wf sv -> service_wf (addParticipant now r pid name sv).
Proof.
  intros Hsv. unfold addParticipant. destruct (sessions sv !! r) as [s|] eqn:E; [|done].
  destruct (map_has (participants s) pid); [done|]. apply Hsv in E.
  apply service_wf_insert; [done|]. apply set_participants_wf; [done|].
  apply cells_wf_set; eauto with aura.
Qed.

Lemma removeParticipant_wf r pid sv : service_wf sv -> service_wf (removeParticipant r pid sv).
Proof.
  intros Hsv. unfold removeParticipant. destruct (sessions sv !! r) as [s|] eqn:E; [|done].
  apply Hsv in E. apply service_wf_insert; [done|]. apply set_participants_wf; [done|].
  apply cells_wf_delete. eauto with aura.
Qed.

Lemma handleStateUpdate_wf now r p sv :
  service_wf sv -> service_wf (handleStateUpdate now r p sv).2.
Proof.
  intros Hsv. unfold handleStateUpdate. destruct (sessions sv !! r) as [s|] eqn:E; [|done].
  destruct (negb (isActive s)); [done|]. apply Hsv in E.
  destruct (map_get (participants s) (u_participantId p)) as [c|] eqn:Ec; [|done].
  set (s1 := match u_state p with Some st => _ | None => s end).
  assert (session_wf r s1) as Hs1 by (unfold s1; case_match; eauto with aura).
  pose proof (propagate_step_wf r s1 sv (rules sv) now Hsv Hs1).
  by destruct (tryPropagate now s1 (rules sv)) as [[res s2] rs].
Qed.

Lemma handleEntropyReport_wf now r p sv :
  service_wf sv -> service_wf (handleEntropyReport now r p sv).2.
Proof.
  intros Hsv. unfold handleEntropyReport. destruct (sessions sv !! r) as [s|] eqn:E; [|done].
  destruct (negb (isActive s)); [done|]. apply Hsv in E.
  set (s1 := updateSessionEntropy _).
  assert (session_wf r s1) as Hs1 by (unfold s1; eauto with aura).
  pose proof (propagate_step_wf r s1 sv (rules sv) now Hsv Hs1).
  by destruct (tryPropagate now s1 (rules sv)) as [[res s2] rs].
Qed.

Lemma addTranscript_wf now r pid text sv :
  service_wf sv -> service_wf (addTranscript now r pid text sv).2.
Proof.
  intros Hsv. unfold addTranscript. destruct (sessions sv !! r) as [s|] eqn:E; [|done].
  destruct (negb (isActive s)); [done|]. apply Hsv in E. simpl.
  set (s1 := set_transcripts _ s).
  assert (session_wf r s1) as Hs1.
  { destruct E. split; try done. by apply length_push_transcript. }
  apply service_wf_insert; [done|].
  destruct (inferStateFromTranscript text) as [st|]; [|done].
  destruct (map_get (participants s) pid) as [c|] eqn:Ec; [|done].
  destruct (cells_wf_get _ _ _ (session_cells_wf _ _ Hs1) Ec) as [Hid Hc].
  pose proof (collapseState_wf now c st (9 # 10) Hc) as [? ? ?].
  apply set_participants_wf; [done|]. apply cells_wf_set; [eauto with aura| |by split].
  unfold collapseState. by destruct (narrow c st (9 # 10)) as [[? ?] ?].
Qed.

Section Executions.
Context (llm : jsstr -> Z -> outcome jsstr jsstr).

Lemma handleMessage_wf now r m sv :
  service_wf sv -> service_wf (handleMessage llm now r m sv).2.
Proof.
  intros Hsv. destruct m as [| |p|p|pid text|]; simpl.
  - apply service_wf_insert; eauto with aura.
  - by apply endSession_wf.
  - pose proof (handleStateUpdate_wf now r p sv Hsv). by destruct (handleStateUpdate now r p sv).
  - pose proof (handleEntropyReport_wf now r p sv Hsv).
    by destruct (handleEntropyReport now r p sv).
  - pose proof (addTranscript_wf now r pid text sv Hsv) as H.
    destruct (addTranscript now r pid text sv) as [[st|] sv1]; simpl in *; [|done].
    destruct (sessions sv1 !! r) as [s|] eqn:E; [|done]. apply H in E.
    pose proof (propagate_step_wf r (updateSessionEntropy s) sv1 (rules sv1) now H) as Hp.
    destruct (tryPropagate now (updateSessionEntropy s) (rules sv1)) as [[res s2] rs].
    eauto with aura.
  - done.
Qed.

(** The calls the voice bot makes, in any order. *)
Inductive sstep (sv : Service) : Service -> Prop :=
| ss_join now r pid name : sstep sv (addParticipant now r pid name sv)
| ss_leave r pid : sstep sv (removeParticipant r pid sv)
| ss_message now r m : sstep sv (handleMessage llm now r m sv).2.

Inductive sreachable : Service -> Prop :=
| sr_init : sreachable init_service
| sr_step sv sv' : sreachable sv -> sstep sv sv' -> sreachable sv'.

Lemma sreachable_wf sv : sreachable sv -> service_wf sv.
Proof.
  induction 1 as [|sv sv' _ IH Hs]; [by intros r s|].
  destruct Hs; [by apply addParticipant_wf|by apply removeParticipant_wf|].
  by apply handleMessage_wf.
Qed.
End Executions.

(** C29: the invariant of the session store.  Whatever calls and messages
    arrive and whatever the language model answers, every stored session is
    active and filed under its own room, its cells are well-formed and filed
    under their own participants, it keeps at most 50 transcripts, its
    entropy is between 0 and 1 and its level is the one of that entropy. *)
Theorem sessions_invariant (llm : jsstr -> Z -> outcome jsstr jsstr) (sv : Service)
    (r : jsstr) (s : PerplexitySession) :
  sreachable llm sv -> sessions sv !! r = Some s ->
  isSessionActive r sv = true /\ s_roomId s = r /\
  (forall pid c, map_get (participants s) pid = Some c -> participantId c = pid /\ cell_wf c) /\
  (length (recentTranscripts s) <= 50)%nat /\
  (0 <= sessionEntropy s /\ sessionEntropy s <= 1)%Q /\
  entropyLevel s = getEntropyLevel (sessionEntropy s).
Proof.
  intros Hr Hs. pose proof (sreachable_wf llm sv Hr r s Hs) as Hwf.
  unfold isSessionActive. rewrite Hs. split_and!; try apply Hwf.
  intros pid c Hg. by eapply cells_wf_get; [eapply session_cells_wf|].
Qed.

Lemma sessions_invariant_witness :
  let sv := (startSession 7 (js "r") init_service).2 in
  exists s, sessions sv !! js "r" = Some s /\ (length (recentTranscripts s) <= 50)%nat.
Proof.
  eexists. split; [reflexivity|].
  exact (proj1 (proj2 (proj2 (proj2 (sessions_invariant (fun _ _ => Throw []) _ (js "r") _
    (sr_step _ _ _ (sr_init _) (ss_message _ init_service 7 (js "r") PERPLEXITY_START))
    eq_refl))))).
Defined.

(** interventions of a session are at least half a second apart, in any
    execution and with no assumption on the clock. *)
Theorem interventions_are_spaced (llm : jsstr -> Z -> outcome jsstr jsstr) (sv : Service)
    (r : jsstr) (s : PerplexitySession) (i j : nat) (a b : PerplexityAction) (t u : Z) :
  sreachable llm sv -> sessions sv !! r = Some s -> (i < j)%nat ->
  actionHistory s !! i = Some (a, t) -> actionHistory s !! j = Some (b, u) -> t + 500 <= u.
Proof.
  intros Hr Hs Hij Hi Hj. destruct (sw_history _ _ (sreachable_wf llm sv Hr r s Hs)) as [Hh _].
  exact (StronglySorted_lookup spaced _ i j _ _ Hh Hij Hi Hj).
Qed.

Definition silent_llm : jsstr -> Z -> outcome jsstr jsstr := fun _ _ => Throw (js "offline").

(** A session in which one participant is confused twice, a second apart. *)
Definition sample_run : Service :=
  let say t := STATE_UPDATE (mkUpdate (js "p1") (Some t) 0 1) in
  let sv1 := (handleMessage silent_llm 0 (js "r") PERPLEXITY_START init_service).2 in
  let sv2 := addParticipant 0 (js "r") (js "p1") (js "Kim") sv1 in
  let sv3 := (handleMessage silent_llm 1000 (js "r") (say confused) sv2).2 in
  (handleMessage silent_llm 2000 (js "r") (say confused) sv3).2.

Lemma sample_run_reachable : sreachable silent_llm sample_run.
Proof.
  eapply sr_step; [|apply ss_message]. eapply sr_step; [|apply ss_message].
  eapply sr_step; [|apply ss_join]. eapply sr_step; [|apply ss_message]. apply sr_init.
Qed.

Lemma interventions_are_spaced_witness :
  exists s a b, sessions sample_run !! js "r" = Some s /\
    actionHistory s !! 0%nat = Some (a, 1000) /\ actionHistory s !! 1%nat = Some (b, 2000) /\
    1000 + 500 <= 2000.
Proof.
  eexists _, _, _. split; [vm_compute; reflexivity|].
  split; [vm_compute; reflexivity|]. split; [vm_compute; reflexivity|].
  refine (interventions_are_spaced silent_llm sample_run (js "r") _ 0 1 _ _ 1000 2000
    sample_run_reachable _ _ _ _); [vm_compute; reflexivity|lia|reflexivity|reflexivity].
Defined.

(* ------------------------------------------------------------------ *)
(** ** Text-based states are protected *)

Lemma report_protected now ps l pid c :
  map_get ps pid = Some c -> text_protected now c = true ->
  map_get (foldl (report_entry now) ps l) pid = Some c.
Proof.
  revert ps. induction l as [|u l IH]; intros ps Hg Hp; simpl; [done|]. apply IH; [|done].
  unfold report_entry. destruct (map_get ps (e_participantId u)) as [c'|] eqn:E; [|done].
  destruct (e_state u); [|done]. destruct (decide (e_participantId u = pid)) as [<-|Hne].
  - rewrite E in Hg. simplify_eq. by rewrite Hp.
  - case_match; [done|]. by rewrite map_get_set_ne.
Qed.

Lemma tryPropagate_participants now s rs :
  participants (tryPropagate now s rs).1.2 = participants s.
Proof. unfold tryPropagate. case_match; [done|]. by destruct (propagate _ _ _). Qed.

(** a state inferred from what a participant said wins over the audio
    reports of the next five seconds.  Processing a transcript whose words
    imply a state collapses the speaker's cell on it, and any entropy report
    that arrives less than 5000 ms later leaves that cell as it is, whatever
    the report says. *)
Theorem text_state_protected (now now' : Z) (r pid text : jsstr) (st : CognitiveState)
    (s : PerplexitySession) (c : ParticipantCell) (sv : Service) (report : list ReportEntry) :
  sessions sv !! r = Some s -> isActive s = true -> map_get (participants s) pid = Some c ->
  inferStateFromTranscript text = Some st -> 0 < now -> now' - now < 5000 ->
  let sv1 := (addTranscript now r pid text sv).2 in
  let sv2 := (handleEntropyReport now' r report sv1).2 in
  exists s2 c2, sessions sv2 !! r = Some s2 /\ map_get (participants s2) pid = Some c2 /\
    observedState c2 = Some st /\ possibleStates c2 = [st] /\ textInferredAt c2 = now.
Proof.
  intros Hs Ha Hc Hi Hnow Hnow' sv1 sv2.
  set (c1 := set_textInferredAt now (collapseState now c st (9 # 10))).
  set (s1 := set_participants (map_set (participants s) pid c1)
    (set_transcripts (push_transcript (recentTranscripts s) (mkTranscript pid text now)) s)).
  assert (sessions sv1 !! r = Some s1) as Hs1.
  { unfold sv1, addTranscript. rewrite Hs, Ha. simpl. rewrite Hi, Hc. apply lookup_insert_eq. }
  assert (map_get (foldl (report_entry now') (participants s1) report) pid = Some c1) as Hc1.
  { apply report_protected; [apply map_get_set_eq|]. unfold text_protected. simpl.
    unfold TEXT_STATE_PROTECTION_MS. by z_decide. }
  unfold sv2, handleEntropyReport. rewrite Hs1. simpl. rewrite Ha. simpl.
  set (s2 := updateSessionEntropy _).
  pose proof (tryPropagate_participants now' s2 (rules sv1)) as Hp.
  destruct (tryPropagate now' s2 (rules sv1)) as [[res s3] rs]. simpl in *.
  exists s3, c1. split_and!; [apply lookup_insert_eq|by rewrite Hp|done..].
Qed.

Lemma text_state_protected_witness :
  exists s c, sessions sample_run !! js "r" = Some s /\ map_get (participants s) (js "p1") = Some c /\
  let sv1 := (addTranscript 3000 (js "r") (js "p1") (js "아하 알겠어요") sample_run).2 in
  let sv2 := (handleEntropyReport 7999 (js "r") [mkEntry (js "p1") (Some confused) (Some 1%Q)] sv1).2 in
  exists s2 c2, sessions sv2 !! js "r" = Some s2 /\ map_get (participants s2) (js "p1") = Some c2 /\
    observedState c2 = Some understood /\ possibleStates c2 = [understood] /\
    textInferredAt c2 = 3000.
Proof.
  eexists _, _. split; [vm_compute; reflexivity|]. split; [vm_compute; reflexivity|].
  refine (text_state_protected 3000 7999 (js "r") (js "p1") (js "아하 알겠어요") understood
    _ _ sample_run [mkEntry (js "p1") (Some confused) (Some 1%Q)] _ _ _ _ _ _);
    [vm_compute; reflexivity|reflexivity|reflexivity|vm_compute; reflexivity|lia|lia].
Defined.
