(* ===== verification/Regex.v ===== *)
(** * ECMAScript regular expressions

    The services classify Korean text with regular expressions.  This file
    models the part of ECMAScript's regular expressions they use: the syntax
    ([parse], so that the tables of the program can be written as in the
    source), the backtracking matcher of the standard ([run], in
    continuation-passing style, with captures, greedy and lazy
    quantifiers), and [test], [exec] and global [replace].

    [Matches] is the relational meaning of a pattern, without the search
    order.  The matcher is sound and complete for it ([test_iff]): a pattern
    tests true exactly on the strings that have a matching substring.  The
    loop of a star is bounded by the length of the remaining input plus one,
    which is enough because an iteration that consumes nothing is refused, as
    in the standard. *)

From stdpp Require Import base list strings.
From Stdlib Require Import ZArith Lia.
From S2P Require Import Prelude JsString.

(* ------------------------------------------------------------------ *)
(** ** Abstract syntax *)

Inductive regex :=
| RFail
| REps
| RClass (p : Z -> bool)
| RSeq (r1 r2 : regex)
| RAlt (r1 r2 : regex)
| RStar (greedy : bool) (r : regex)
| RGroup (n : nat) (r : regex)
| RBol
| REol
| RWordB.

Definition is_digit (c : Z) : bool := (48 <=? c) && (c <=? 57).

Definition is_word (c : Z) : bool :=
  is_digit c || ((65 <=? c) && (c <=? 90)) || ((97 <=? c) && (c <=? 122)) || (c =? 95).

Definition is_line_end (c : Z) : bool := (c =? 10) || (c =? 13) || (c =? 8232) || (c =? 8233).

(* ------------------------------------------------------------------ *)
(** ** The matcher *)

(** The input before the current position (reversed), the input after it,
    and the groups captured so far. *)
Record mstate := mkState {
  before : jsstr;
  after : jsstr;
  captures : list (nat * jsstr);
}.

Definition pos (st : mstate) : jsstr * jsstr := (before st, after st).

Definition head_is (p : Z -> bool) (l : jsstr) : bool :=
  match l with c :: _ => p c | [] => false end.

Definition at_boundary (z : jsstr * jsstr) : bool :=
  negb (Bool.eqb (head_is is_word z.1) (head_is is_word z.2)).

Section Matcher.
Context {X : Type}.

(** Repetition: [mr] matches one iteration; an empty iteration is refused. *)
Fixpoint star_loop (mr : mstate -> (mstate -> option X) -> option X) (greedy : bool)
    (fuel : nat) (st : mstate) (k : mstate -> option X) : option X :=
  match fuel with
  | O => k st
  | S f =>
    let again := mr st (fun st' =>
      if (length (after st') <? length (after st))%nat
      then star_loop mr greedy f st' k else None) in
    if greedy then match again with Some x => Some x | None => k st end
    else match k st with Some x => Some x | None => again end
  end.

Fixpoint run (r : regex) (st : mstate) (k : mstate -> option X) : option X :=
  match r with
  | RFail => None
  | REps => k st
  | RClass p =>
    match after st with
    | c :: rest => if p c then k (mkState (c :: before st) rest (captures st)) else None
    | [] => None
    end
  | RSeq r1 r2 => run r1 st (fun st' => run r2 st' k)
  | RAlt r1 r2 => match run r1 st k with Some x => Some x | None => run r2 st k end
  | RStar greedy r' => star_loop (run r') greedy (S (length (after st))) st k
  | RGroup n r' =>
    run r' st (fun st' =>
      let text := reverse (take (length (before st') - length (before st)) (before st')) in
      k (mkState (before st') (after st') ((n, text) :: captures st')))
  | RBol => match before st with [] => k st | _ => None end
  | REol => match after st with [] => k st | _ => None end
  | RWordB => if at_boundary (pos st) then k st else None
  end.
End Matcher.

(** The first match at or after a position; the search moves one unit at a
    time. *)
Fixpoint search (r : regex) (pre rest : jsstr) : option (mstate * mstate) :=
  let st := mkState pre rest [] in
  match run r st Some with
  | Some st' => Some (st, st')
  | None => match rest with c :: rest' => search r (c :: pre) rest' | [] => None end
  end.

Definition test (r : regex) (s : jsstr) : bool :=
  match search r [] s with Some _ => true | None => false end.

(** [pattern.exec(s)]: capture [n] of the match, [None] for [undefined] *)
Definition exec (r : regex) (s : jsstr) : option (nat -> option jsstr) :=
  (fun '(_, st) n => snd <$> find_first (fun e => Nat.eqb e.1 n) (captures st)) <$> search r [] s.

(** [s.match(/r/)[0]], also the first element of [s.match(/r/g)] *)
Definition match_text (r : regex) (s : jsstr) : option jsstr :=
  (fun '(st, st') => take (length (after st) - length (after st')) (after st)) <$> search r [] s.

(** [s.replace(/r/g, repl)] for patterns that match no empty string: after an
    empty match the scan copies one unit and goes on, as in the standard. *)
Fixpoint replace_from (fuel : nat) (r : regex) (repl pre rest : jsstr) : jsstr :=
  match fuel with
  | O => rest
  | S f =>
    match search r pre rest with
    | None => rest
    | Some (st, st') =>
      let skipped := take (length rest - length (after st)) rest in
      if (length (after st') <? length (after st))%nat
      then skipped ++ repl ++ replace_from f r repl (before st') (after st')
      else match after st with
           | c :: t => skipped ++ repl ++ c :: replace_from f r repl (c :: before st) t
           | [] => skipped ++ repl
           end
    end
  end.

Definition replace_all (r : regex) (repl s : jsstr) : jsstr :=
  replace_from (S (length s)) r repl [] s.

(* ------------------------------------------------------------------ *)
(** ** Concrete syntax *)

Definition seqs (l : list regex) : regex := foldr RSeq REps l.

Fixpoint upto (n : nat) (greedy : bool) (r : regex) : regex :=
  match n with
  | O => REps
  | S n' => let more := RSeq r (upto n' greedy r) in
            if greedy then RAlt more REps else RAlt REps more
  end.

Fixpoint times (n : nat) (r : regex) : regex :=
  match n with O => REps | S n' => RSeq r (times n' r) end.

Definition counted (lo : nat) (hi : option nat) (greedy : bool) (r : regex) : regex :=
  RSeq (times lo r)
    match hi with Some h => upto (h - lo) greedy r | None => RStar greedy r end.

(** [i] flag: ASCII letters compare without case *)
Definition lit_class (icase : bool) (c : Z) (d : Z) : bool :=
  if icase then lower_unit d =? lower_unit c else d =? c.

Definition escape_class (c : Z) : option (Z -> bool) :=
  if c =? 115 (* s *) then Some is_space
  else if c =? 83 (* S *) then Some (fun d => negb (is_space d))
  else if c =? 100 (* d *) then Some is_digit
  else if c =? 119 (* w *) then Some is_word
  else if c =? 110 (* n *) then Some (Z.eqb 10)
  else None.

(** The items of a bracketed class up to the closing bracket. *)
Fixpoint parse_class (fuel : nat) (icase : bool) (s : jsstr) (acc : Z -> bool)
  : option ((Z -> bool) * jsstr) :=
  match fuel with
  | O => None
  | S f =>
    match s with
    | [] => None
    | 93 :: s' => Some (acc, s')
    | 92 :: c :: s' =>
      match escape_class c with
      | Some p => parse_class f icase s' (fun d => acc d || p d)
      | None => parse_class f icase s' (fun d => acc d || lit_class icase c d)
      end
    | c :: 45 :: e :: s' =>
      if e =? 93 then parse_class f icase (45 :: e :: s') (fun d => acc d || lit_class icase c d)
      else parse_class f icase s' (fun d => acc d || ((c <=? d) && (d <=? e)))
    | c :: s' => parse_class f icase s' (fun d => acc d || lit_class icase c d)
    end
  end.

Fixpoint parse_nat (fuel : nat) (s : jsstr) (acc : option nat) : option nat * jsstr :=
  match fuel, s with
  | S f, c :: s' =>
    if is_digit c then parse_nat f s' (Some (10 * default 0%nat acc + Z.to_nat (c - 48))%nat)
    else (acc, s)
  | _, _ => (acc, s)
  end.

(** A quantifier after an atom, if there is one: minimum, maximum, rest. *)
Definition parse_bounds (s : jsstr) : option (nat * option nat * jsstr) :=
  match s with
  | 42 :: s' => Some (0%nat, None, s')
  | 43 :: s' => Some (1%nat, None, s')
  | 63 :: s' => Some (0%nat, Some 1%nat, s')
  | 123 :: s' =>
    match parse_nat (length s') s' None with
    | (Some lo, 125 :: s1) => Some (lo, Some lo, s1)
    | (Some lo, 44 :: s1) =>
      match parse_nat (length s1) s1 None with
      | (hi, 125 :: s2) => Some (lo, hi, s2)
      | _ => None
      end
    | _ => None
    end
  | _ => None
  end.

Definition parse_quant (r : regex) (s : jsstr) : regex * jsstr :=
  match parse_bounds s with
  | None => (r, s)
  | Some (lo, hi, 63 :: s') => (counted lo hi false r, s')
  | Some (lo, hi, s') => (counted lo hi true r, s')
  end.

(** One recursive descent over alternatives, sequences and atoms.  [cur] is
    the sequence read so far, [alts] the alternatives before it; the next
    capture number is threaded through. *)
Fixpoint parse_alt (fuel : nat) (icase : bool) (n : nat) (s : jsstr)
    (alts : list regex) (cur : list regex) : option (regex * nat * jsstr) :=
  match fuel with
  | O => None
  | S f =>
    let finish := foldl (fun acc r => RAlt r acc) (seqs (reverse cur)) alts in
    let item := fun n' r s' =>
      let '(r', s'') := parse_quant r s' in parse_alt f icase n' s'' alts (r' :: cur) in
    match s with
    | [] => Some (finish, n, [])
    | 41 :: _ => Some (finish, n, s)
    | 124 :: s' => parse_alt f icase n s' (seqs (reverse cur) :: alts) []
    | 40 :: 63 :: 58 :: s' =>
      match parse_alt f icase n s' [] [] with
      | Some (r, n', 41 :: s'') => item n' r s''
      | _ => None
      end
    | 40 :: s' =>
      match parse_alt f icase (S n) s' [] [] with
      | Some (r, n', 41 :: s'') => item n' (RGroup n r) s''
      | _ => None
      end
    | 91 :: 94 :: s' =>
      match parse_class f icase s' (fun _ => false) with
      | Some (p, s'') => item n (RClass (fun d => negb (p d))) s''
      | None => None
      end
    | 91 :: s' =>
      match parse_class f icase s' (fun _ => false) with
      | Some (p, s'') => item n (RClass p) s''
      | None => None
      end
    | 92 :: 98 :: s' => item n RWordB s'
    | 92 :: c :: s' =>
      match escape_class c with
      | Some p => item n (RClass p) s'
      | None => item n (RClass (lit_class icase c)) s'
      end
    | 94 :: s' => item n RBol s'
    | 36 :: s' => item n REol s'
    | 46 :: s' => item n (RClass (fun d => negb (is_line_end d))) s'
    | c :: s' => item n (RClass (lit_class icase c)) s'
    end
  end.

Definition parse (icase : bool) (s : jsstr) : option regex :=
  match parse_alt (2 * length s + 2) icase 1 s [] [] with
  | Some (r, _, []) => Some r
  | _ => None
  end.

(** A literal [/src/] or [/src/i] of the source. *)
Definition re (src : jsstr) : regex := default RFail (parse false src).
Definition re_i (src : jsstr) : regex := default RFail (parse true src).

Example test_ex1 : test (re (js "타이머\s*(\d+)\s*분\s*(시작|켜|설정)?")) (js "아우라 타이머 10분 시작") = true.
Proof. vm_compute. reflexivity. Qed.
Example exec_ex1 :
  (fun g => (g 1%nat, g 2%nat, g 3%nat)) <$>
    exec (re (js "타이머\s*(\d+)\s*분\s*(시작|켜|설정)?")) (js "타이머 10분!") = Some (Some (js "10"), None, None).
Proof. vm_compute. reflexivity. Qed.
Example replace_ex1 : replace_all (re_i (js "aura")) (js "아우라") (js "Hey AURA, aura") = js "Hey 아우라, 아우라".
Proof. vm_compute. reflexivity. Qed.
Example test_ex2 : test (re (js "^a.{0,3}?[^b-d]+$")) (js "axyze") = true /\ test (re (js "\baura\b")) (js "an aura!") = true
  /\ test (re (js "\baura\b")) (js "auras") = false.
Proof. vm_compute. auto. Qed.

(* ------------------------------------------------------------------ *)
(** ** The meaning of a pattern *)

(** [Matches r z z']: [r] can match from position [z] to position [z']; a
    position is the input before it, reversed, and the input after it. *)
Inductive Matches : regex -> jsstr * jsstr -> jsstr * jsstr -> Prop :=
| MEps z : Matches REps z z
| MClass p b c a : p c = true -> Matches (RClass p) (b, c :: a) (c :: b, a)
| MSeq r1 r2 z1 z2 z3 : Matches r1 z1 z2 -> Matches r2 z2 z3 -> Matches (RSeq r1 r2) z1 z3
| MAltL r1 r2 z z' : Matches r1 z z' -> Matches (RAlt r1 r2) z z'
| MAltR r1 r2 z z' : Matches r2 z z' -> Matches (RAlt r1 r2) z z'
| MStarNil g r z : Matches (RStar g r) z z
| MStarStep g r z1 z2 z3 : Matches r z1 z2 -> Matches (RStar g r) z2 z3 -> Matches (RStar g r) z1 z3
| MGroup n r z z' : Matches r z z' -> Matches (RGroup n r) z z'
| MBol a : Matches RBol ([], a) ([], a)
| MEol b : Matches REol (b, []) (b, [])
| MWordB z : at_boundary z = true -> Matches RWordB z z.

#[export] Hint Constructors Matches : aura.

(** A match moves forward over a piece of the input. *)
Lemma Matches_consumes r z z' :
  Matches r z z' -> exists w : jsstr, z.2 = w ++ z'.2 /\ z'.1 = reverse w ++ z.1.
Proof.
  induction 1 as [z|p b c a Hp|r1 r2 z1 z2 z3 _ (u & Hu & Hu') _ (v & Hv & Hv')|r1 r2 z z' _ IH|r1 r2 z z' _ IH
    |g r z|g r z1 z2 z3 _ (u & Hu & Hu') _ (v & Hv & Hv')|n r z z' _ IH|a|b|z Hb];
    try exact IH; try (exists []; done).
  - by exists [c].
  - exists (u ++ v). rewrite Hu, Hv, Hv', Hu', reverse_app, <- !app_assoc. done.
  - exists (u ++ v). rewrite Hu, Hv, Hv', Hu', reverse_app, <- !app_assoc. done.
Qed.

Lemma Matches_length r z z' : Matches r z z' -> (length z'.2 <= length z.2)%nat.
Proof. intros (w & -> & _)%Matches_consumes. rewrite length_app. lia. Qed.

Lemma Matches_same_length r z z' : Matches r z z' -> length z'.2 = length z.2 -> z' = z.
Proof.
  intros (w & E & E')%Matches_consumes Hl. rewrite E, length_app in Hl.
  destruct w; simpl in *; [|lia]. destruct z, z'; simpl in *. congruence.
Qed.

(** *** The matcher finds only matches *)

Section Soundness.
Context {X : Type}.

Lemma star_loop_sound g r (mr : mstate -> (mstate -> option X) -> option X) :
  (forall st k x, mr st k = Some x -> exists st', Matches r (pos st) (pos st') /\ k st' = Some x) ->
  forall fuel st k x, star_loop mr g fuel st k = Some x ->
  exists st', Matches (RStar g r) (pos st) (pos st') /\ k st' = Some x.
Proof.
  intros Hr fuel. induction fuel as [|f IH]; intros st k x; simpl.
  { intros Hk. eauto with aura. }
  assert (Hagain : forall y, mr st (fun st' => if (length (after st') <? length (after st))%nat
      then star_loop mr g f st' k else None) = Some y ->
    exists st', Matches (RStar g r) (pos st) (pos st') /\ k st' = Some y).
  { intros y (st1 & H1 & H2)%Hr. case_match; [|done].
    apply IH in H2 as (st2 & H2 & Hk). eauto with aura. }
  destruct g; repeat case_match; intros ?; simplify_eq; eauto with aura.
Qed.

Lemma run_sound r (st : mstate) (k : mstate -> option X) x :
  run r st k = Some x -> exists st', Matches r (pos st) (pos st') /\ k st' = Some x.
Proof.
  revert st k x. induction r as [| |p|r1 IH1 r2 IH2|r1 IH1 r2 IH2|g r IH|n r IH| | |]; intros st k x; simpl.
  - done.
  - eauto with aura.
  - destruct st as [b [|c a] cs]; simpl; [done|]. case_match; [|done]. intros Hk.
    eexists. split; [|exact Hk]. by constructor.
  - intros (st1 & H1 & (st2 & H2 & Hk)%IH2)%IH1. eauto with aura.
  - case_match; intros ?; simplify_eq.
    + apply IH1 in H as (? & ? & ?). eauto with aura.
    + apply IH2 in H0 as (? & ? & ?). eauto with aura.
  - exact (star_loop_sound g r (run r) IH (S (length (after st))) st k x).
  - intros (st1 & H1 & Hk)%IH. eexists. split; [|exact Hk]. by constructor.
  - destruct st as [[|c b] a cs]; [|done]. intros Hk. eexists; split; [|exact Hk]; constructor.
  - destruct st as [b [|c a] cs]; [|done]. intros Hk. eexists; split; [|exact Hk]; constructor.
  - case_match; [|done]. eauto with aura.
Qed.
End Soundness.

(** *** The matcher finds every match *)

Section Completeness.
Context {X : Type}.

(** From [z] the matcher of [r] succeeds for every continuation that
    succeeds at [z']. *)
Definition reaches (m : mstate -> (mstate -> option X) -> option X) (z z' : jsstr * jsstr) : Prop :=
  forall st k, pos st = z -> (forall st', pos st' = z' -> k st' <> None) -> m st k <> None.

Lemma star_loop_complete g r (mr : mstate -> (mstate -> option X) -> option X) z z' :
  (forall z1 z2, Matches r z1 z2 -> reaches mr z1 z2) ->
  Matches (RStar g r) z z' ->
  forall fuel, (length z.2 < fuel)%nat -> reaches (star_loop mr g fuel) z z'.
Proof.
  intros Hr Hm. remember (RStar g r) as q eqn:Hq.
  induction Hm as [| | | | |g' r' z|g' r' z1 z2 z3 H1 _ H2 IH| | | |]; try done; simplify_eq;
    specialize Hr; (intros [|f] Hf st k Hst Hk; [lia|]); simpl.
  - specialize (Hk st Hst). destruct g; repeat case_match; done.
  - specialize (IH eq_refl).
    destruct (decide (length z2.2 = length z1.2)) as [El|Nl].
    { apply Matches_same_length in H1 as ->; [|done]. by apply (IH (S f) Hf st k). }
    pose proof (Matches_length _ _ _ H1) as Hle.
    assert (Hagain : mr st (fun st' => if (length (after st') <? length (after st))%nat
      then star_loop mr g f st' k else None) <> None).
    { apply (Hr z1 z2 H1); [done|]. intros st' Hst'.
      assert (length (after st) = length z1.2) as -> by (by rewrite <- Hst).
      assert (length (after st') = length z2.2) as -> by (by rewrite <- Hst').
      rewrite (proj2 (Nat.ltb_lt _ _)) by lia. apply (IH f); [lia|done|done]. }
    destruct g; repeat case_match; done.
Qed.

Lemma run_complete r z z' : Matches r z z' -> reaches (run r) z z'.
Proof.
  revert z z'. induction r as [| |p|r1 IH1 r2 IH2|r1 IH1 r2 IH2|g r IH|n r IH| | |];
    intros z z' Hm st k Hst Hk; simpl.
  - inversion Hm.
  - inversion Hm; subst. by apply Hk.
  - subst z. destruct st; unfold pos in Hm; simpl in Hm. inversion Hm as [|? ? ? ? Hp| | | | | | | | |]; subst. simpl.
    rewrite Hp. by apply Hk.
  - inversion Hm; subst. eapply IH1; [eassumption|done|]. intros st1 Hst1. eapply IH2; eassumption.
  - inversion Hm as [| | |? ? ? ? H1|? ? ? ? H2| | | | | |]; subst; case_match eqn:E; try done.
    + exfalso. exact (IH1 _ _ H1 st k eq_refl Hk E).
    + exact (IH2 _ _ H2 st k eq_refl Hk).
  - assert (length z.2 < S (length (after st)))%nat as Hf by (rewrite <- Hst; simpl; lia).
    exact (star_loop_complete g r (run r) z z' IH Hm _ Hf st k Hst Hk).
  - inversion Hm; subst. eapply IH; [eassumption|done|]. intros st1 Hst1. by apply Hk.
  - subst z. destruct st; unfold pos in Hm; simpl in Hm. inversion Hm; subst. by apply Hk.
  - subst z. destruct st; unfold pos in Hm; simpl in Hm. inversion Hm; subst. by apply Hk.
  - inversion Hm; subst. case_match; [by apply Hk|congruence].
Qed.
End Completeness.

(** *** Searching *)

Lemma search_sound r pre rest st st' :
  search r pre rest = Some (st, st') ->
  reverse (before st) ++ after st = reverse pre ++ rest /\ Matches r (pos st) (pos st').
Proof.
  revert pre. induction rest as [|c rest IH]; intros pre; simpl.
  - destruct (run r _ _) eqn:E; [|done]. intros [= <- <-]. split; [done|].
    apply run_sound in E as (? & ? & ?); by simplify_eq.
  - destruct (run r _ _) eqn:E.
    + intros [= <- <-]. split; [done|]. apply run_sound in E as (? & ? & ?); by simplify_eq.
    + intros (Hs & Hm)%IH. split; [|done]. rewrite Hs, reverse_cons, <- app_assoc. done.
Qed.

Lemma search_complete r (b a : jsstr) z' pre rest :
  Matches r (b, a) z' -> (exists w, b = reverse w ++ pre /\ rest = w ++ a) -> search r pre rest <> None.
Proof.
  intros Hm. revert pre. induction rest as [|c rest IH]; intros pre (w & -> & Hr); simpl.
  - destruct w; [|done]. simpl in Hr. subst a.
    assert (run r (mkState pre [] []) Some <> None) by (eapply run_complete; [exact Hm|done..]).
    by case_match.
  - destruct w as [|c' w]; simplify_eq/=.
    + assert (run r (mkState pre (c :: rest) []) Some <> None) by (eapply run_complete; [exact Hm|done..]).
      by case_match.
    + case_match; [done|]. apply IH. exists w. split; [|done]. rewrite reverse_cons, <- app_assoc. done.
Qed.

(** A pattern tests true exactly on the strings with a matching piece. *)
Lemma test_iff r (s : jsstr) :
  test r s = true <-> exists u v z', s = u ++ v /\ Matches r (reverse u, v) z'.
Proof.
  unfold test. split.
  - destruct (search r [] s) as [[st st']|] eqn:E; [|done]. intros _.
    apply search_sound in E as (Hs & Hm). simpl in Hs.
    exists (reverse (before st)), (after st), (pos st'). rewrite reverse_involutive. done.
  - intros (u & v & z' & -> & Hm).
    assert (search r [] (u ++ v) <> None) as Hn.
    { eapply search_complete; [exact Hm|]. exists u. split; [by rewrite app_nil_r|done]. }
    by case_match.
Qed.

(** *** Patterns without anchors do not look at the context *)

Fixpoint anchor_free (r : regex) : bool :=
  match r with
  | RSeq r1 r2 | RAlt r1 r2 => anchor_free r1 && anchor_free r2
  | RStar _ r' | RGroup _ r' => anchor_free r'
  | RBol | REol | RWordB => false
  | RFail | REps | RClass _ => true
  end.

Lemma Matches_context r (b1 a1 b2 a2 pre post : jsstr) :
  anchor_free r = true -> Matches r (b1, a1) (b2, a2) ->
  Matches r (b1 ++ pre, a1 ++ post) (b2 ++ pre, a2 ++ post).
Proof.
  intros Ha Hm. remember (b1, a1) as z1 eqn:E1. remember (b2, a2) as z2 eqn:E2. revert b1 a1 b2 a2 E1 E2.
  induction Hm; intros ???? E1 E2; simplify_eq/=; bool_cases; eauto with aura.
  - destruct z2. econstructor; eauto.
  - destruct z2. econstructor; eauto.
Qed.

Lemma test_context r (pre s post : jsstr) :
  anchor_free r = true -> test r s = true -> test r (pre ++ s ++ post) = true.
Proof.
  intros Ha. rewrite !test_iff. intros (u & v & [b a] & -> & Hm).
  exists (pre ++ u), (v ++ post), (b ++ reverse pre, a ++ post). split; [by rewrite <- !app_assoc|].
  rewrite reverse_app. by apply Matches_context.
Qed.

(** Greedy or lazy repetition of one class over a run of its characters *)
Lemma Matches_star_class g p (b w a : jsstr) :
  Forall (fun c => p c = true) w -> Matches (RStar g (RClass p)) (b, w ++ a) (reverse w ++ b, a).
Proof.
  intros H. revert b. induction H as [|c w Hc _ IH]; intros b; simpl; [constructor|].
  eapply MStarStep; [by constructor|]. rewrite reverse_cons, <- app_assoc. apply IH.
Qed.
