(* ===== verification/Substitution.v ===== *)
(** * Global replacement of words

    What [s.replace(/r/g, c)] does to the occurrences of a word: the result is the
    text cut into gaps without a match and matches, with each match replaced.
    [overlap] decides whether an occurrence of a word can share units with the
    inserted text, which is all that is needed to follow a word through a list of
    replacements. *)

From Stdlib Require Import ZArith Lia.
From stdpp Require Import base strings option list.
From S2P Require Import Prelude JsString Regex.

#[local] Open Scope Z_scope.

(* ------------------------------------------------------------------ *)
(** ** Gaps and matches *)

Inductive pieces (G M : jsstr -> Prop) (c : jsstr) : jsstr -> jsstr -> Prop :=
| pieces_end g : G g -> pieces G M c g g
| pieces_step g m s t : G g -> M m -> pieces G M c s t -> pieces G M c (g ++ m ++ s) (g ++ c ++ t).

(** A text that [r] matches somewhere *)
Definition matched (r : regex) (m : jsstr) : Prop := exists b a, Matches r (b, m ++ a) (reverse m ++ b, a).

(** The search stops at the first position with a match *)
Lemma search_first r pre rest st st' :
  search r pre rest = Some (st, st') ->
  exists g, rest = g ++ after st /\ before st = reverse g ++ pre /\
    forall u v, g = u ++ v -> v <> [] -> run r (mkState (reverse u ++ pre) (v ++ after st) []) Some = None.
Proof.
  revert pre. induction rest as [|c rest IH]; intros pre; cbn [search]; destruct (run r _ Some) as [x|] eqn:E; try done.
  - intros [= <- _]. exists []. split_and!; try done. intros u v Huv Hv. destruct u, v; done.
  - intros [= <- _]. exists []. split_and!; try done. intros u v Huv Hv. destruct u, v; done.
  - intros (g & -> & Hb & Hg)%IH. exists (c :: g). split_and!; [done|by rewrite Hb, reverse_cons, <- app_assoc|].
    intros [|c' u] v Huv Hv; simpl in Huv; [subst v; exact E|]. injection Huv as <- ->.
    specialize (Hg u v eq_refl Hv). rewrite reverse_cons, <- app_assoc. exact Hg.
Qed.

Lemma search_none r pre rest u v :
  search r pre rest = None -> rest = u ++ v -> run r (mkState (reverse u ++ pre) v []) Some = None.
Proof.
  revert pre u. induction rest as [|c rest IH]; intros pre u; cbn [search]; destruct (run r _ Some) as [x|] eqn:E; try done.
  - intros _ Huv. destruct u, v; try done.
  - intros Hs Huv. destruct u as [|c' u]; simpl in Huv; [by subst v|]. injection Huv as <- ->.
    rewrite reverse_cons, <- app_assoc. exact (IH (c :: pre) u Hs eq_refl).
Qed.

Section Replace.
Context (r : regex) (c : jsstr).
Hypothesis free : anchor_free r = true.
Hypothesis nonempty : forall z z', Matches r z z' -> (length z'.2 < length z.2)%nat.

(** Nothing matches inside a gap *)
Lemma gap_no_match pre g post :
  (forall u v, g = u ++ v -> v <> [] -> run r (mkState (reverse u ++ pre) (v ++ post) []) Some = None) -> test r g = false.
Proof using free nonempty.
  intros Hg. destruct (test r g) eqn:E; [|done]. apply test_iff in E as (u & v & [b a] & -> & Hm). exfalso.
  assert (v <> []) as Hv by (intros ->; apply nonempty in Hm; simpl in Hm; lia).
  apply (Matches_context r _ _ _ _ pre post free) in Hm.
  apply (run_complete r _ _ Hm (mkState (reverse u ++ pre) (v ++ post) []) Some); [done|done|by apply Hg].
Qed.

Lemma replace_pieces_from fuel pre rest :
  (length rest < fuel)%nat -> pieces (fun g => test r g = false) (matched r) c rest (replace_from fuel r c pre rest).
Proof using free nonempty.
  revert pre rest. induction fuel as [|f IH]; intros pre rest Hf; [lia|]. cbn [replace_from].
  destruct (search r pre rest) as [[st st']|] eqn:E.
  - pose proof (search_sound _ _ _ _ _ E) as [_ Hm]. destruct (search_first _ _ _ _ _ E) as (g & -> & Hb & Hg).
    apply gap_no_match in Hg. pose proof (nonempty _ _ Hm) as Hlt. simpl in Hlt. rewrite (proj2 (Nat.ltb_lt _ _) Hlt).
    rewrite length_app, Nat.add_sub, take_app_length.
    destruct (Matches_consumes _ _ _ Hm) as (m & Hm1 & Hm2). simpl in Hm1, Hm2. rewrite Hm1.
    apply pieces_step; [done| |].
    + exists (before st), (after st'). rewrite <- Hm1, <- Hm2. by destruct st, st'.
    + apply IH. rewrite length_app in Hf. lia.
  - apply pieces_end. apply (gap_no_match pre rest []). intros u v Huv _. rewrite app_nil_r. by apply (search_none r pre rest).
Qed.

Lemma replace_pieces s : pieces (fun g => test r g = false) (matched r) c s (replace_all r c s).
Proof using free nonempty. apply replace_pieces_from. lia. Qed.
End Replace.

(* ------------------------------------------------------------------ *)
(** ** Occurrences of a word *)

(** Agreement on the common prefix *)
Fixpoint agree (a b : jsstr) : bool :=
  match a, b with x :: a, y :: b => (x =? y) && agree a b | _, _ => true end.

(** The words can share units in a text: one begins at a unit of the other *)
Definition overlap (x c : jsstr) : bool :=
  existsb (fun i => agree (drop i x) c) (seq 0 (length x)) || existsb (fun j => agree x (drop j c)) (seq 0 (length c)).

Lemma agree_prefixes (a b u v : jsstr) : a ++ u = b ++ v -> agree a b = true.
Proof.
  revert b. induction a as [|x a IH]; intros [|y b]; simpl; try done. intros [= -> H]. by rewrite Z.eqb_refl, (IH b).
Qed.

Lemma app_split (l a g b : jsstr) : l ++ a = g ++ b -> (length l <= length g)%nat -> exists g', g = l ++ g' /\ a = g' ++ b.
Proof.
  revert g. induction l as [|x l IH]; intros g H Hl; [by exists g|]. destruct g as [|y g]; simpl in *; [lia|]. injection H as <- H.
  destruct (IH g H ltac:(lia)) as (g' & -> & ->). by exists g'.
Qed.

(** An occurrence that shares no unit with [c] lies before or after it *)
Lemma occurrence_apart (x c l r' g t : jsstr) :
  overlap x c = false -> l ++ x ++ r' = g ++ c ++ t ->
  (exists r0, g = l ++ x ++ r0) \/ (exists l0, t = l0 ++ x ++ r' /\ l = g ++ c ++ l0).
Proof.
  intros Ho H. apply orb_false_iff in Ho as [H1 H2].
  assert (forall i, (i < length x)%nat -> agree (drop i x) c = false) as K1.
  { intros i Hi. destruct (agree (drop i x) c) eqn:E; [|done]. rewrite <- H1. symmetry. apply existsb_exists. exists i. split; [|done]. apply in_seq. lia. }
  assert (forall j, (j < length c)%nat -> agree x (drop j c) = false) as K2.
  { intros j Hj. destruct (agree x (drop j c)) eqn:E; [|done]. rewrite <- H2. symmetry. apply existsb_exists. exists j. split; [|done]. apply in_seq. lia. }
  destruct (decide (length l <= length g)%nat) as [Hl|Hl].
  - destruct (app_split _ _ _ _ H Hl) as (g' & -> & H').
    destruct (decide (length x <= length g')%nat) as [Hx|Hx].
    + destruct (app_split _ _ _ _ H' Hx) as (r0 & -> & _). left. by exists r0.
    + symmetry in H'. destruct (app_split _ _ _ _ H' ltac:(lia)) as (x' & -> & H3). exfalso. rewrite length_app in Hx.
      specialize (K1 (length g') ltac:(rewrite length_app; lia)). rewrite drop_app_length in K1. symmetry in H3. apply agree_prefixes in H3. congruence.
  - symmetry in H. destruct (app_split _ _ _ _ H ltac:(lia)) as (l' & -> & H').
    destruct (decide (length c <= length l')%nat) as [Hc|Hc].
    + destruct (app_split _ _ _ _ H' Hc) as (l0 & -> & ->). right. by exists l0.
    + symmetry in H'. destruct (app_split _ _ _ _ H' ltac:(lia)) as (c' & -> & H3). exfalso. rewrite length_app in Hc.
      specialize (K2 (length l') ltac:(rewrite length_app; lia)). rewrite drop_app_length in K2. apply agree_prefixes in H3. congruence.
Qed.

Lemma includes_app_l s t x : includes s x = true -> includes (s ++ t) x = true.
Proof. rewrite !includes_spec. intros (l & r & ->). exists l, (r ++ t). by rewrite <- !app_assoc. Qed.

Lemma includes_app_r s t x : includes t x = true -> includes (s ++ t) x = true.
Proof. rewrite !includes_spec. intros (l & r & ->). exists (s ++ l), r. by rewrite <- !app_assoc. Qed.

Section Words.
Context (G M : jsstr -> Prop) (c : jsstr).

(** A word that the replacement does not touch comes from a gap *)
Lemma pieces_no_new s t x :
  pieces G M c s t -> overlap x c = false -> includes t x = true -> includes s x = true /\ exists g, G g /\ includes g x = true.
Proof.
  intros H Ho. induction H as [g Hg|g m s t Hg Hm H IH]; intros Hx; [split; [done|by exists g]|].
  apply includes_spec in Hx as (l & r & Hlr). symmetry in Hlr. destruct (occurrence_apart _ _ _ _ _ _ Ho Hlr) as [[r0 ->]|(l0 & -> & _)].
  - assert (includes (l ++ x ++ r0) x = true) as Hi by (apply includes_spec; eauto).
    split; [by apply includes_app_l|by exists (l ++ x ++ r0)].
  - destruct IH as [IH1 IH2]; [apply includes_spec; eauto|]. split; [|done]. by apply includes_app_r, includes_app_r.
Qed.

(** A word that no match touches, or that is part of the replacement, is kept *)
Lemma pieces_keep s t x :
  pieces G M c s t -> (forall m, M m -> overlap x m = false) \/ includes c x = true -> includes s x = true -> includes t x = true.
Proof.
  intros H [Ho|Hc].
  - induction H as [g Hg|g m s t Hg Hm H IH]; [done|]. intros (l & r & Hlr)%includes_spec. symmetry in Hlr.
    destruct (occurrence_apart _ _ _ _ _ _ (Ho m Hm) Hlr) as [[r0 ->]|(l0 & -> & _)].
    + apply includes_app_l, includes_spec; eauto.
    + apply includes_app_r, includes_app_r, IH, includes_spec; eauto.
  - intros Hx. destruct H as [g Hg|g m s t Hg Hm H]; [done|]. by apply includes_app_r, includes_app_l.
Qed.

(** A word that occurs in no gap has been replaced *)
Lemma pieces_replaced s t x :
  pieces G M c s t -> (forall g, G g -> includes g x = false) -> includes s x = true -> includes t c = true.
Proof.
  intros H Hg Hx. destruct H as [g Hg'|g m s t Hg' Hm H]; [by rewrite Hg in Hx|].
  apply includes_app_r, includes_app_l, includes_spec. exists [], []. by rewrite app_nil_r.
Qed.
End Words.

(* ------------------------------------------------------------------ *)
(** ** Literal patterns with the flag [i] *)

(** Units that no other unit equals up to case *)
Definition plain (c : Z) : bool := (c <? 65) || (255 <? c).

Definition literal (icase : bool) (w : jsstr) : regex := seqs ((fun c => RClass (lit_class icase c)) <$> w).

Lemma lower_plain c d : plain c = true -> lower_unit d = lower_unit c -> d = c.
Proof.
  unfold plain, lower_unit. intros Hc Hd. apply orb_true_iff in Hc.
  destruct (((65 <=? d) && _) || _) eqn:E1; destruct (((65 <=? c) && _) || _) eqn:E2; lia.
Qed.

Lemma lit_plain i c d : plain c = true -> lit_class i c d = true -> d = c.
Proof. destruct i; unfold lit_class; intros Hc Hd%Z.eqb_eq; [by apply lower_plain|done]. Qed.

Lemma Matches_literal i w z z' :
  forallb plain w = true -> Matches (literal i w) z z' <-> z.2 = w ++ z'.2 /\ z'.1 = reverse w ++ z.1.
Proof.
  revert z. induction w as [|c w IH]; intros z; unfold literal, seqs; cbn [fmap list_fmap foldr forallb].
  - intros _. split; [by inversion 1|]. intros [H1 H2]. destruct z, z'; simpl in *; subst. constructor.
  - intros [Hc Hw]%andb_true_iff. change (foldr RSeq REps _) with (literal i w). split.
    + inversion 1 as [| |? ? ? z2 ? H1 H2| | | | | | | |]; subst. inversion H1 as [|? b d a Hd| | | | | | | | |]; subst.
      apply (lit_plain i c d Hc) in Hd as ->. apply (IH _ Hw) in H2 as [H3 H4]. simpl in *. subst. rewrite reverse_cons, <- app_assoc, H4. done.
    + intros [H1 H2]. destruct z as [b a], z' as [b' a']; simpl in *. subst.
      apply (MSeq _ _ _ (c :: b, w ++ a')); [constructor; unfold lit_class; destruct i; apply Z.eqb_refl|].
      apply (IH _ Hw). simpl. by rewrite reverse_cons, <- app_assoc.
Qed.

Lemma test_literal i w s : forallb plain w = true -> test (literal i w) s = includes s w.
Proof.
  intros Hw. apply eq_bool_prop_intro. rewrite !Is_true_true, test_iff, includes_spec. split.
  - intros (u & v & z' & -> & [H _]%(Matches_literal _ _ _ _ Hw)). simpl in H. subst v. by exists u, (z'.2).
  - intros (l & r & ->). exists l, (w ++ r), (reverse w ++ reverse l, r). split; [done|]. by apply Matches_literal.
Qed.

Lemma anchor_free_literal i w : anchor_free (literal i w) = true.
Proof. induction w as [|c w IH]; [done|]. exact IH. Qed.

Lemma pieces_mono (G G' M M' : jsstr -> Prop) c s t :
  (forall g, G g -> G' g) -> (forall m, M m -> M' m) -> pieces G M c s t -> pieces G' M' c s t.
Proof. intros HG HM. induction 1; [constructor; auto|constructor; auto]. Qed.

Lemma replace_literal i w c s :
  w <> [] -> forallb plain w = true -> pieces (fun g => includes g w = false) (eq w) c s (replace_all (literal i w) c s).
Proof.
  intros Hne Hw. refine (pieces_mono _ _ _ _ _ _ _ _ _ (replace_pieces (literal i w) c (anchor_free_literal i w) _ s)).
  - intros g Hg. by rewrite <- (test_literal i).
  - intros m (b & a & [H _]%(Matches_literal _ _ _ _ Hw)). simpl in H. by apply app_inv_tail in H.
  - intros z z' [H _]%(Matches_literal _ _ _ _ Hw). rewrite H, length_app. destruct w; [done|]. simpl. lia.
Qed.

(** Lower case makes no word of plain units *)
Lemma includes_to_lower s w :
  forallb plain w = true -> forallb (fun c => lower_unit c =? c) w = true -> includes (to_lower s) w = true -> includes s w = true.
Proof.
  rewrite !includes_spec. intros Hp Hl (l & r & H). apply fmap_app_inv in H as (l' & r1 & -> & H & ->).
  symmetry in H. apply fmap_app_inv in H as (w' & r' & Hw & -> & ->). exists l', r'. do 2 f_equal. clear -Hp Hl Hw. subst w.
  induction w' as [|c w' IH]; [done|]. cbn in Hp, Hl. apply andb_true_iff in Hp as [Hp Hps], Hl as [Hl Hls].
  simpl. f_equal; [|by apply IH]. apply (lower_plain (lower_unit c) c Hp). by apply Z.eqb_eq in Hl.
Qed.

Lemma test_alt r1 r2 s : test (RAlt r1 r2) s = test r1 s || test r2 s.
Proof.
  apply eq_bool_prop_intro. rewrite !Is_true_true, orb_true_iff, !test_iff. split.
  - intros (u & v & z & -> & H). inversion H; subst; [left|right]; eauto.
  - intros [(u & v & z & -> & H)|(u & v & z & -> & H)]; eauto 8 with aura.
Qed.

Lemma test_anchored r s : test (RSeq RBol r) s = true -> test r s = true.
Proof.
  rewrite !test_iff. intros (u & v & z & -> & H). inversion H as [| |? ? ? z2 ? H1 H2| | | | | | | |]; subst.
  exists u, v, z. split; [done|]. assert (z2 = (reverse u, v)) as -> by (by inversion H1). exact H2.
Qed.

(* ------------------------------------------------------------------ *)
(** ** White space *)

Definition spaces_pattern : regex := re (js "\s+").
Definition solid (x : jsstr) : bool := negb (bool_decide (x = [])) && forallb (fun c => negb (is_space c)) x.

Lemma Matches_star_inv g p z z' : Matches (RStar g (RClass p)) z z' -> exists m, z.2 = m ++ z'.2 /\ forallb p m = true.
Proof.
  intros H. remember (RStar g (RClass p)) as q eqn:Hq. induction H as [| | | | |g' r z|g' r z1 z2 z3 H1 _ H2 IH| | | |]; try done; [by exists []|].
  injection Hq as -> ->. destruct (IH eq_refl) as (m & Hm & Hp). inversion H1 as [|? b c a Hc| | | | | | | | |]; subst. simpl in *. subst.
  exists (c :: m). simpl. by rewrite Hc.
Qed.

Lemma Matches_spaces z z' :
  Matches spaces_pattern z z' -> exists c m, z.2 = (c :: m) ++ z'.2 /\ forallb is_space (c :: m) = true.
Proof.
  change spaces_pattern with (RSeq (RSeq (RSeq (RClass is_space) REps) (RStar true (RClass is_space))) REps). intros H.
  inversion H as [| |? ? ? z2 ? H1 H2| | | | | | | |]; subst. inversion H2; subst. clear H2.
  inversion H1 as [| |? ? ? z3 ? H3 H4| | | | | | | |]; subst. inversion H3 as [| |? ? ? z4 ? H5 H6| | | | | | | |]; subst. inversion H6; subst.
  inversion H5 as [|? b c a Hc| | | | | | | | |]; subst. apply Matches_star_inv in H4 as (m & Hm & Hp). simpl in *. subst.
  exists c, m. simpl. by rewrite Hc.
Qed.

Lemma overlap_spaces x m : solid x = true -> m <> [] -> forallb is_space m = true -> overlap x m = false.
Proof.
  intros [Hne Hx]%andb_true_iff Hm Hs. rewrite forallb_forall in Hx, Hs. apply orb_false_iff. split; apply not_true_iff_false; intros (i & Hi & Ha)%existsb_exists.
  - apply in_seq in Hi. destruct m as [|d m]; [done|]. destruct (drop i x) as [|c y] eqn:E.
    { apply (f_equal length) in E. rewrite length_drop in E. simpl in E. lia. }
    simpl in Ha. apply andb_true_iff in Ha as [->%Z.eqb_eq _]. specialize (Hs d (or_introl eq_refl)).
    assert (In d x) as Hd by (rewrite <- (take_drop i x), E; apply in_or_app; right; by left). specialize (Hx d Hd). by rewrite Hs in Hx.
  - apply in_seq in Hi. destruct x as [|c x]; [|destruct (drop i m) as [|d y] eqn:E].
    + done.
    + apply (f_equal length) in E. rewrite length_drop in E. simpl in E. lia.
    + simpl in Ha. apply andb_true_iff in Ha as [->%Z.eqb_eq _]. assert (In d m) as Hd by (rewrite <- (take_drop i m), E; apply in_or_app; right; by left).
      specialize (Hs d Hd). specialize (Hx d (or_introl eq_refl)). by rewrite Hs in Hx.
Qed.

Lemma pieces_spaces s : pieces (fun _ => True) (fun m => m <> [] /\ forallb is_space m = true) (js " ") s (replace_all spaces_pattern (js " ") s).
Proof.
  refine (pieces_mono _ _ _ _ _ _ _ _ _ (replace_pieces spaces_pattern (js " ") eq_refl _ s)); [done| |].
  - intros m (b & a & (c & m' & H & Hs)%Matches_spaces). simpl in H. change (c :: m' ++ a) with ((c :: m') ++ a) in H. apply app_inv_tail in H. by subst m.
  - intros z z' (c & m & H & _)%Matches_spaces. rewrite H. simpl. rewrite length_app. lia.
Qed.

Lemma solid_head x : solid x = true -> exists c y, x = c :: y /\ is_space c = false.
Proof.
  destruct x as [|c y]; [done|]. unfold solid. simpl. intros [Hc _]%andb_true_iff. exists c, y. split; [done|]. by apply negb_true_iff.
Qed.

Lemma trim_start_before x l r : solid x = true -> exists l', trim_start (l ++ x ++ r) = l' ++ x ++ r.
Proof.
  intros Hx. induction l as [|d l [l' IH]]; simpl.
  - destruct (solid_head x Hx) as (c & y & -> & Hc). exists []. simpl. by rewrite Hc.
  - destruct (is_space d); [by exists l'|by exists (d :: l)].
Qed.

Lemma solid_reverse x : solid x = true -> solid (reverse x) = true.
Proof.
  unfold solid. rewrite !andb_true_iff, !negb_true_iff, !bool_decide_eq_false, !forallb_forall. intros [Hne Hx]. split.
  - intros H. apply Hne. apply (f_equal reverse) in H. by rewrite reverse_involutive in H.
  - intros c Hc. apply Hx. rewrite <- list_elem_of_In in *. by apply elem_of_reverse.
Qed.

(** Trimming neither adds nor removes a word without white space *)
Lemma includes_trim x s : solid x = true -> includes (trim s) x = includes s x.
Proof.
  intros Hx. apply eq_bool_prop_intro. rewrite !Is_true_true, !includes_spec. unfold trim. split.
  - intros (l & r & H). destruct (trim_start_suffix s) as [a Ha]. destruct (trim_start_suffix (reverse (trim_start s))) as [b Hb].
    apply (f_equal reverse) in H. rewrite reverse_involutive in H. rewrite H in Hb. apply (f_equal reverse) in Hb.
    rewrite reverse_involutive, reverse_app, reverse_involutive in Hb. rewrite Hb in Ha. exists (a ++ l), (r ++ reverse b).
    rewrite Ha, <- !app_assoc. done.
  - intros (l & r & ->). destruct (trim_start_before x l r Hx) as [l' ->]. rewrite !reverse_app, <- app_assoc.
    destruct (trim_start_before (reverse x) (reverse r) (reverse l') (solid_reverse x Hx)) as [r' ->].
    rewrite !reverse_app, !reverse_involutive, <- app_assoc. by exists l', (reverse r').
Qed.
