(* ===== verification/IntentTables.v ===== *)
(** * The tables of the intent classifier

    [src/intent/intent-classifier.service.ts], the constants: wake words,
    corrections of speech recognition errors, keywords per category, question
    and command words, and the regular expressions of each intent.  The
    patterns are written as in the source and parsed by [Regex.parse];
    [tables_parse] checks that every one of them is in the modelled syntax. *)

From stdpp Require Import base list strings.
From Stdlib Require Import ZArith.
From S2P Require Import Prelude JsString Regex.

(** A regular expression literal: its [source] and the [i] flag. *)
Record RegExp := mkRegExp { source : jsstr; ignoreCase : bool }.

Definition rx (s : string) : RegExp := mkRegExp (js s) false.
Definition rxi (s : string) : RegExp := mkRegExp (js s) true.

Definition compile (p : RegExp) : regex := if ignoreCase p then re_i (source p) else re (source p).
Definition regexp_test (p : RegExp) (s : jsstr) : bool := test (compile p) s.

Definition compiles (p : RegExp) : bool :=
  match parse (ignoreCase p) (source p) with Some _ => true | None => false end.

Record Correction := mkCorrection { pattern : RegExp; replacement : jsstr; label : jsstr }.
Definition stt (p r l : string) : Correction := mkCorrection (rxi p) (js r) (js l).

Inductive SearchType := local | news.

Record Category := mkCategory { category_name : jsstr; searchType : SearchType; keywords : list jsstr }.
Definition cat (n : string) (t : SearchType) (ks : list string) : Category :=
  mkCategory (js n) t (js <$> ks).

Inductive TimerAction := start | pause | resume | extend | stop | status.
#[export] Instance TimerAction_eq_dec : EqDecision TimerAction.
Proof. solve_decision. Defined.

Record TimerPattern := mkTimerPattern { timer_pattern : RegExp; action : TimerAction; extractMinutes : bool }.
Definition timer_rule (p : string) (a : TimerAction) (m : bool) : TimerPattern :=
  mkTimerPattern (rx p) a m.

Definition WAKE_WORDS_EXACT : list jsstr := js <$> [
  "아우라"; "아우라야"; "헤이 아우라"; "헤이아우라"; "페이아우라"; "페이 아우라"].

Definition WAKE_WORDS_VARIANTS : list jsstr := js <$> [
  "아오라"; "아오라야"; "오우라"; "오우라야"; "어우라"; "어우라야";
  "아어라"; "아어라야"; "아우나"; "아우나야"; "아우라나"; "아울라";
  "아울라야"; "아운라"; "아운라야"; "아우다"; "아우다야"; "아 우라";
  "아우 라"; "아우라 야"; "아 우 라"; "아우 야"; "아우야"; "아 야";
  "헤이 아우라야"; "해이아우라"; "해이 아우라"; "해 아우라"; "헤이 아오라"; "헤이 오우라";
  "헤이 아울라"; "에이아우라"; "에이 아우라"; "혜이아우라"; "혜이 아우라"; "아우라요";
  "아우라 요"; "아우라여"; "아우러"; "아우러야"; "아우리"; "아우리야";
  "아위라"; "아위라야"; "아웨라"; "아웨라야"].

Definition WAKE_WORDS : list jsstr := WAKE_WORDS_EXACT ++ WAKE_WORDS_VARIANTS.

Definition WAKE_WORD_MAX_TOKENS : nat := 4.

Definition STT_CORRECTIONS : list Correction := [
  stt "\b(hey|hay|hae)\s*(aura|oura|awra)\b" "헤이 아우라" "en_heyaura";
  stt "\baura\b|\boura\b|\bawra\b" "아우라" "en_aura";
  stt "^(헤이|해이|해|헤|에이|혜이|혜)\s*(아우라|아오라|오우라|아울라|어우라)" "헤이 아우라" "heyaura";
  stt "^(아오라|오우라|어우라)(야|아)?(\s|$)" "아우라야 " "vowel_aora";
  stt "^(아울라|아우나|아운라)(야|아)?(\s|$)" "아우라야 " "cons_aula";
  stt "아\s+우\s*라\s*(야|아)?" "아우라야" "space_aura";
  stt "아우\s+라\s*(야|아)?" "아우라야" "space_aura2";
  stt "^아우\s*야" "아우라야" "missing_ra";
  stt "^아\s*야" "아우라야" "missing_ura";
  stt "아우라(아|여)(\s|$)" "아우라야 " "auraa";
  stt "아우라\s*요" "아우라야" "aurayo";
  stt "달씨" "날씨" "weather";
  stt "너씨" "날씨" "weather2";
  stt "날시" "날씨" "weather3";
  stt "그니까" "그러니까" "contraction1";
  stt "긍까" "그러니까" "contraction2";
  stt "근까" "그러니까" "contraction3";
  stt "어케" "어떻게" "contraction4";
  stt "어뜨케" "어떻게" "contraction5";
  stt "이케" "이렇게" "contraction6";
  stt "저케" "저렇게" "contraction7";
  stt "그케" "그렇게" "contraction8";
  stt "어떠게" "어떻게" "pron1";
  stt "어떠케" "어떻게" "pron2";
  stt "머라고" "뭐라고" "pron3";
  stt "머래" "뭐래" "pron4";
  stt "됬" "됐" "pron5";
  stt "햇" "했" "pron6"].

Definition CATEGORY_KEYWORDS : list Category := [
  cat "카페" local
    ["카페"; "커피"; "커피숍"; "카페테리아"; "스타벅스"; "투썸"; "이디야"; "할리스"; "블루보틀"; "카공"];
  cat "맛집" local
    ["맛집"; "식당"; "레스토랑"; "밥집"; "음식점"; "맛있는"; "먹을만한"; "저녁"; "점심"; "아침"; "브런치"];
  cat "술집" local
    ["술집"; "바"; "포차"; "호프"; "이자카야"; "와인바"; "칵테일"; "소주"; "맥주"; "회식"];
  cat "분식" local
    ["분식"; "떡볶이"; "김밥"; "라면"; "튀김"; "순대"; "어묵"];
  cat "치킨" local
    ["치킨"; "BBQ"; "BHC"; "교촌"; "굽네"; "네네"; "페리카나"];
  cat "피자" local
    ["피자"; "도미노"; "피자헛"; "파파존스"; "미스터피자"];
  cat "빵집" local
    ["빵집"; "베이커리"; "제과점"; "빵"; "케이크"; "파리바게뜨"; "뚜레쥬르"; "성심당"];
  cat "디저트" local
    ["디저트"; "케이크"; "마카롱"; "아이스크림"; "젤라또"; "와플"; "크로플"; "타르트"];
  cat "쇼핑" local
    ["쇼핑"; "백화점"; "마트"; "아울렛"; "몰"; "매장"; "가게"; "상점"];
  cat "팝업" local
    ["팝업"; "팝업스토어"; "팝업 스토어"; "한정"; "오픈"];
  cat "전시" local
    ["전시"; "전시회"; "갤러리"; "미술관"; "박물관"; "아트"];
  cat "날씨" news
    ["날씨"; "기온"; "온도"; "비"; "눈"; "바람"; "흐림"; "맑음"; "습도"; "미세먼지"; "우산"; "더워"; "추워"; "덥"; "춥"; "기상"; "일기예보"];
  cat "뉴스" news
    ["뉴스"; "소식"; "기사"; "속보"; "이슈"; "사건"; "사고"];
  cat "주식" news
    ["주식"; "주가"; "코스피"; "코스닥"; "나스닥"; "증시"; "투자"; "종목"];
  cat "스포츠" news
    ["스포츠"; "축구"; "야구"; "농구"; "배구"; "경기"; "결과"; "스코어"; "승패"];
  cat "영화" news
    ["영화"; "개봉"; "상영"; "박스오피스"; "영화관"; "CGV"; "롯데시네마"; "메가박스"]].

Definition QUESTION_WORDS : list jsstr := js <$> [
  "뭐"; "무엇"; "어디"; "언제"; "누구"; "누가";
  "왜"; "어떻게"; "어떤"; "몇"; "어느"; "얼마";
  "무슨"; "어찌"].

Definition COMMAND_WORDS : list jsstr := js <$> [
  "알려줘"; "말해줘"; "보여줘"; "찾아줘"; "검색해줘"; "물어봐";
  "알려"; "말해"; "보여"; "찾아"; "검색해"; "설명해줘";
  "설명해"; "가르쳐줘"; "가르쳐"; "추천해줘"; "추천해"; "해줘";
  "해봐"; "알려줄래"; "말해줄래"; "보여줄래"; "찾아줄래"; "추천해줄래";
  "해줄래"; "해줘요"; "해주세요"; "부탁해"; "부탁해요"].

Definition BOT_REFERENCES : list jsstr := js <$> [
  "너"; "니가"; "당신"; "네가"; "넌"; "아우라";
  "아우라야"].

Definition QUESTION_PATTERNS : list RegExp := [
  rx "\?$";
  rx "뭐야$";
  rx "뭐지$";
  rx "뭔데$";
  rx "어때$";
  rx "어때요$";
  rx "[가-힣]+까$";
  rx "[가-힣]+니$";
  rx "[가-힣]+나$";
  rx "[가-힣]+냐$"].

Definition REQUEST_PATTERNS : list RegExp := [
  rx "해\s?줄래(요)?$";
  rx "해\s?줘(요)?$";
  rx "해\s?주세요$";
  rx "줄래(요)?$";
  rx "될까요?$";
  rx "되나요?$"].

Definition VISION_PATTERNS : list RegExp := [
  rx "화면.{0,10}(봐|보고|보면|설명|해명|분석|해석|읽|알려|뭐)";
  rx "화면\s*을?\s*(봐|보고|보면서|설명|해명|분석)";
  rx "이거\s*.{0,5}(봐|보|설명|해명|분석|뭐야|뭐냐|뭘지|어때|봐줘|알려)";
  rx "이게\s*(뭐야|뭘지|뭐냐|뭔지|어때)";
  rx "저거\s*.{0,5}(뭐|어떻|설명|보|분석)";
  rx "저게\s*(뭐야|뭘지|뭔지)";
  rx "여기\s*.{0,5}(보|봐|설명|뭐|분석)";
  rx "여기서.*?(어떻|뭐|설명|분석)";
  rx "지금\s*(보이|보는|보여).{0,10}(설명|분석|뭐|알려)";
  rx "(보이|보여)\s*주.{0,5}(는|고\s*있).{0,10}(설명|분석|뭐)";
  rx "(설명|분석|해석|해명).{0,5}해\s*(줘|줄래|주세요|봐)";
  rx "이?\s*(코드|함수|변수|클래스|메서드).{0,5}(는|이|가)?\s*(뭐|어떻|설명|분석)";
  rx "이?\s*(에러|오류|버그|문제|이슈).{0,10}(봐|분석|설명|해결|뭐)";
  rx "이?\s*(그래프|차트|표|데이터).{0,5}(는|을)?\s*(뭐|어떻|해석|분석|설명)";
  rx "이?\s*(문서|문단|부분|내용).{0,5}(는|을)?\s*(뭐|어떻|요약|설명)";
  rx ".{0,5}보고.{0,10}(설명|해명|분석|알려|말해).{0,3}(줘|줄래|주세요)?";
  rx "(스크린|공유).{0,10}(봐|보고|설명|분석)"].

Definition IDEA_BOARD_PATTERNS : list RegExp := [
  rx "아이디어\s*(모드|보드)?\s*(열어|시작|켜|오픈|해|해줘|하자)";
  rx "아이디어\s*(회의|브레인스토밍)?\s*(시작|해|하자|할까)";
  rx "브레인\s*스토밍\s*(시작|열어|하자|해)";
  rx "아이디어\s*(정리|모으|수집).{0,5}(시작|하자|해)";
  rx "(아이디어|브레인스토밍)\s*(좀)?\s*(해볼까|할까|하자)"].

Definition FLOWCHART_BOARD_PATTERNS : list RegExp := [
  rx "설계\s*(보드|모드)?\s*(열어|시작|켜|오픈|해|해줘|하자|열어줘|켜줘)";
  rx "설계\s*(보드|모드)";
  rxi "(다이어그램|diagram)\s*(보드|모드)?\s*(열어|시작|켜|오픈|해|해줘|하자|열어줘|켜줘|그려)";
  rx "다이어그램\s*(그려|만들어|보여)";
  rxi "(flowchart|플로우차트|플로차트|플로우 차트)\s*(모드|보드)?\s*(열어|시작|켜|오픈|해|해줘|하자)";
  rxi "(flow|플로우)\s*(보드|차트)?\s*(열어|시작|켜|오픈|해|해줘|하자)";
  rx "(플로차트|프로차트|플러차트|플로우 차트)\s*(열어|시작|켜|오픈|해|해줘|하자|켜줘|켜져)";
  rx "순서도\s*(열어|시작|켜|오픈|해|해줘|하자|그려)";
  rxi "(cdr|시디알|씨디알)\s*(분석|파싱)?\s*(시작|하자|해)";
  rx "(구조도|흐름도|시퀀스)\s*(그려|열어|시작|만들어|보여)";
  rx "시스템\s*(설계|구조)\s*(보여|그려|열어|시작)"].

Definition CALENDAR_PATTERNS : list RegExp := [
  rx "일정\s*(잡|추천|찾|조율|조정|맞춰|정|확인).{0,5}(아|어|줘|줄래|주세요|해|할까)?";
  rx "(회의|미팅|약속|모임)\s*(일정|시간|날짜).{0,5}(잡|추천|찾|조율|조정|맞춰|정|확인)";
  rx "(언제|몇\s*시|몇\s*일).{0,10}(가능|되|비어|괜찮|시간)";
  rx "(빈\s*시간|가능한\s*시간|비어\s*있는\s*시간|공통\s*시간).{0,5}(찾|알려|추천|확인|언제)";
  rx "(참여자|참석자|멤버|모두|다\s*같이|우리).{0,10}(일정|시간|스케줄).{0,5}(확인|알려|맞춰|조율)";
  rx "(다들|모두|참석자).{0,5}(언제|몇\s*시).{0,5}(가능|되|괜찮)";
  rx "스케줄\s*(조율|조정|확인|추천|잡|맞춰)";
  rx "(캘린더|달력|일정표).{0,5}(확인|봐|보여|열어|분석)";
  rx "(날짜|시간|일시).{0,5}(추천|잡|정|알려|찾)";
  rx "(다음\s*주|이번\s*주|내일|모레).{0,10}(가능|되|비어|시간)"].

Definition WAKE_WORD_PATTERNS : list RegExp := [
  rx "^아[우오어][라나다][야아요]?";
  rx "^헤이?\s*아[우오][라나]";
  rx "^[해헤에혜][이]?\s*아[우오]"].

Definition TIMER_PATTERNS : list TimerPattern := [
  timer_rule "타이머\s*(\d+)\s*분\s*(시작|켜|설정|맞춰|해|해줘)?" start true;
  timer_rule "(\d+)\s*분\s*타이머\s*(시작|켜|설정|맞춰|해|해줘)?" start true;
  timer_rule "회의\s*시간\s*(\d+)\s*분\s*(으로)?\s*(설정|맞춰|해|해줘)?" start true;
  timer_rule "타이머\s*(시작|켜|설정|맞춰)" start false;
  timer_rule "타이머\s*(일시\s*정지|멈춰|중지|정지|잠깐\s*멈춰|스톱|pause)" pause false;
  timer_rule "(일시\s*정지|멈춰|중지|정지)\s*타이머" pause false;
  timer_rule "타이머\s*(다시\s*시작|재개|계속|이어서|resume)" resume false;
  timer_rule "(다시\s*시작|재개|계속)\s*타이머" resume false;
  timer_rule "(\d+)\s*분\s*(더|연장|추가|늘려|늘려줘)" extend true;
  timer_rule "(시간|타이머)\s*(\d+)\s*분\s*(연장|추가|늘려)" extend true;
  timer_rule "(\d+)\s*분\s*(만큼)?\s*(연장|추가|늘려|더)" extend true;
  timer_rule "시간\s*(좀)?\s*(더|늘려|연장)\s*(\d+)\s*분?" extend true;
  timer_rule "타이머\s*(종료|끝|끄기|꺼|해제|취소|off)" stop false;
  timer_rule "(종료|끝|끄기|꺼|해제|취소)\s*타이머" stop false;
  timer_rule "타이머\s*(상태|확인|얼마나\s*남았|몇\s*분\s*남았)" status false;
  timer_rule "(남은\s*시간|얼마나\s*남았|몇\s*분\s*남았)" status false].

Definition SIMILAR_JAMO : list (jsstr * list jsstr) := [
  (js "ㄹ", js <$> ["ㄴ"; "ㄷ"]);
  (js "ㄴ", js <$> ["ㄹ"; "ㅁ"]);
  (js "ㅁ", js <$> ["ㅂ"; "ㄴ"]);
  (js "ㅂ", js <$> ["ㅁ"; "ㅍ"; "ㅃ"]);
  (js "ㄱ", js <$> ["ㅋ"; "ㄲ"]);
  (js "ㅅ", js <$> ["ㅆ"; "ㅈ"; "ㅊ"]);
  (js "ㅈ", js <$> ["ㅅ"; "ㅆ"; "ㅊ"; "ㅉ"]);
  (js "ㅜ", js <$> ["ㅡ"; "ㅗ"]);
  (js "ㅡ", js <$> ["ㅜ"; "ㅣ"; "ㅓ"]);
  (js "ㅗ", js <$> ["ㅜ"; "ㅓ"]);
  (js "ㅏ", js <$> ["ㅑ"; "ㅐ"; "ㅓ"]);
  (js "ㅓ", js <$> ["ㅕ"; "ㅔ"; "ㅏ"; "ㅗ"]);
  (js "ㅣ", js <$> ["ㅡ"; "ㅢ"])].

(** The pattern built for a word of [BOT_REFERENCES] *)
Definition bot_reference_pattern (word : jsstr) : RegExp :=
  mkRegExp (js "(^|\s)" ++ word ++ js "($|\s|[^가-힣])") true.

(** The patterns of [mightHaveWakeWord] *)
Definition MIGHT_PATTERNS : list RegExp := [
  rx "아[우오어][라나다]";
  rx "헤이|해이|에이|혜이|해\s|헤\s";
  rxi "aura|oura|awra"].

(** The particles and endings [extractKeyword] removes *)
Definition PARTICLES : RegExp :=
  rx "\b(을|를|이|가|은|는|에서|에|의|으로|로|과|와|도|만|부터|까지|처럼|같은|좀|한번|하나|거|것|데|줘|줄래|해줘)\b".

Definition all_patterns : list RegExp :=
  (pattern <$> STT_CORRECTIONS) ++ QUESTION_PATTERNS ++ REQUEST_PATTERNS ++ VISION_PATTERNS
  ++ IDEA_BOARD_PATTERNS ++ FLOWCHART_BOARD_PATTERNS ++ CALENDAR_PATTERNS ++ WAKE_WORD_PATTERNS
  ++ (timer_pattern <$> TIMER_PATTERNS) ++ (bot_reference_pattern <$> BOT_REFERENCES)
  ++ MIGHT_PATTERNS ++ [PARTICLES; rx "\s+"].

Lemma tables_parse : forallb compiles all_patterns = true /\ length all_patterns = 118%nat.
Proof. vm_compute. auto. Qed.
