(* ===== verification/Intent.v ===== *)
(** * The intent classifier

    [src/intent/intent-classifier.service.ts]: correction of recognised
    text, the three wake word detectors (exact, by pattern, by similarity of
    Hangul letters), category and keyword extraction, [classify] and the
    decisions taken from its result.  The service keeps no state: the
    patterns with the [g] flag have their [lastIndex] reset after each use.
    Scores are doubles in the program and rationals here. *)

From stdpp Require Import base list strings option.
From Stdlib Require Import ZArith QArith Qminmax Lia Lqa.
From S2P Require Import Prelude JsString Regex IntentTables.

#[local] Open Scope Z_scope.

(* ------------------------------------------------------------------ *)
(** ** Hangul *)

Definition CHO : jsstr := js "ㄱㄲㄴㄷㄸㄹㅁㅂㅃㅅㅆㅇㅈㅉㅊㅋㅌㅍㅎ".
Definition JUNG : jsstr := js "ㅏㅐㅑㅒㅓㅔㅕㅖㅗㅘㅙㅚㅛㅜㅝㅞㅟㅠㅡㅢㅣ".
Definition JONG : jsstr := js " ㄱㄲㄳㄴㄵㄶㄷㄹㄺㄻㄼㄽㄾㄿㅀㅁㅂㅄㅅㅆㅇㅈㅊㅋㅌㅍㅎ".

Definition nth_char (s : jsstr) (i : Z) : Z := default 0 (s !! Z.to_nat i).

(** The iteration [for (const char of str)]: one string per code point *)
Definition is_high (c : Z) : bool := (55296 <=? c) && (c <=? 56319).
Definition is_low (c : Z) : bool := (56320 <=? c) && (c <=? 57343).

Fixpoint code_points (s : jsstr) : list jsstr :=
  match s with
  | [] => []
  | c :: s' =>
    match s' with
    | d :: s'' => if is_high c && is_low d then [c; d] :: code_points s'' else [c] :: code_points s'
    | [] => [[c]]
    end
  end.

(** The letters of one character *)
Definition decompose_char (char : jsstr) : list jsstr :=
  let code := default 0 (head char) - 44032 in
  if (code <? 0) || (11171 <? code) then [char]
  else
    let jong := nth_char JONG (code mod 28) in
    [[nth_char CHO (code / 588)]; [nth_char JUNG (code mod 588 / 28)]]
    ++ (if jong =? 32 then [] else [[jong]]).

Definition decomposeHangul (str : jsstr) : list jsstr := code_points str ≫= decompose_char.

Definition similar_of (a : jsstr) : list jsstr :=
  match find_first (fun e => bool_decide (e.1 = a)) SIMILAR_JAMO with
  | Some e => e.2
  | None => []
  end.

Definition isSimilarJamo (a b : jsstr) : bool :=
  bool_decide (a = b) || bool_decide (b ∈ similar_of a) || bool_decide (a ∈ similar_of b).

(** The contribution of one position to [matches] *)
Definition jamo_score (a b : jsstr) : Q :=
  if bool_decide (a = b) then 1 else if isSimilarJamo a b then 6 # 10 else 0.

Definition jamo_matches (jamoA jamoB : list jsstr) : Q := Qsum (zip_with jamo_score jamoA jamoB).

Definition jamoSimilarity (a b : jsstr) : Q :=
  let jamoA := decomposeHangul (to_lower a) in
  let jamoB := decomposeHangul (to_lower b) in
  let lenA := Z.of_nat (length jamoA) in
  let lenB := Z.of_nat (length jamoB) in
  let maxLen := Z.max lenA lenB in
  if maxLen =? 0 then 0
  else if 3 <? Z.abs (lenA - lenB) then 0
  else (jamo_matches jamoA jamoB / inject_Z maxLen)%Q.

(* ------------------------------------------------------------------ *)
(** ** Wake words *)

Record FuzzyResult := mkFuzzy { matched : bool; word : jsstr; similarity : Q }.

Definition fuzzy_targets : list jsstr := js <$> ["아우라"; "아우라야"; "헤이아우라"].
Definition fuzzy_greetings : list jsstr := js <$> ["헤이"; "해이"; "에이"; "혜이"; "해"; "헤"].
Definition fuzzy_threshold : Q := 65 # 100.

Fixpoint list_index_of (l : list jsstr) (x : jsstr) : option nat :=
  match l with
  | [] => None
  | y :: l' => if bool_decide (y = x) then Some 0%nat else S <$> list_index_of l' x
  end.

(** The loop over the targets for one token *)
Definition fuzzy_target (token : jsstr) : option FuzzyResult :=
  (fun target => mkFuzzy true target (jamoSimilarity token target)) <$>
    find_first (fun target => Qle_bool fuzzy_threshold (jamoSimilarity token target)) fuzzy_targets.

(** A greeting followed by something like the name *)
Definition fuzzy_greeting (tokens : list jsstr) (token : jsstr) : option FuzzyResult :=
  if bool_decide (token ∈ fuzzy_greetings) then
    next ← tokens !! (default 0%nat (list_index_of tokens token) + 1)%nat;
    let nextSim := jamoSimilarity next (js "아우라") in
    if Qle_bool (1 # 2) nextSim then Some (mkFuzzy true (js "헤이 아우라") nextSim) else None
  else None.

Definition fuzzy_token (tokens : list jsstr) (token : jsstr) : option FuzzyResult :=
  if (length token <? 2)%nat then None
  else match fuzzy_target token with
       | Some r => Some r
       | None => fuzzy_greeting tokens token
       end.

Definition fuzzyMatchWakeWord (text : jsstr) : FuzzyResult :=
  let tokens := take 4 (split_ws (to_lower text)) in
  default (mkFuzzy false [] 0) (first_some (fuzzy_token tokens) tokens).

Definition mightHaveWakeWord (text : jsstr) : bool :=
  let first40 := to_lower (slice_to 40 text) in
  existsb (fun p => regexp_test p first40) MIGHT_PATTERNS.

Definition regexMatchWakeWord (text : jsstr) : bool :=
  let normalized := trim (to_lower text) in
  existsb (fun p => regexp_test p normalized) WAKE_WORD_PATTERNS.

(** [tokens.filter(Boolean)] keeps the non-empty strings *)
Definition truthy (s : jsstr) : bool := match s with [] => false | _ => true end.

Definition isWakeWordInLeadingTokens (text wakeWord : jsstr) : bool :=
  let lowerText := to_lower text in
  let lowerWake := to_lower wakeWord in
  match index_of lowerText lowerWake with
  | None => false
  | Some index =>
    let before := trim (slice_to index lowerText) in
    if negb (truthy before) then true
    else (length (List.filter truthy (split_ws before)) <? WAKE_WORD_MAX_TOKENS)%nat
  end.

(* ------------------------------------------------------------------ *)
(** ** Category and keyword *)

Definition has_keyword (lowerText : jsstr) (c : Category) : bool :=
  existsb (fun keyword => includes lowerText (to_lower keyword)) (keywords c).

Definition detectCategory (text : jsstr) : option Category :=
  find_first (has_keyword (to_lower text)) CATEGORY_KEYWORDS.

(** [cleaned.replace(new RegExp(word, 'gi'), '').trim()] *)
Definition remove_word (cleaned word : jsstr) : jsstr :=
  trim (replace_all (compile (mkRegExp word true)) [] cleaned).

Definition remove_particles (cleaned : jsstr) : jsstr :=
  trim (replace_all (compile (rx "\s+")) (js " ") (replace_all (compile PARTICLES) (js " ") cleaned)).

Definition extractKeyword (text : jsstr) : option jsstr :=
  let cleaned := foldl remove_word text WAKE_WORDS in
  let cleaned := foldl remove_word cleaned COMMAND_WORDS in
  let cleaned := remove_particles cleaned in
  if (length cleaned <? 2)%nat then None else Some cleaned.

(* ------------------------------------------------------------------ *)
(** ** Normalisation *)

Definition apply_correction (st : jsstr * list jsstr) (rule : Correction) : jsstr * list jsstr :=
  let '(normalized, matchedPatterns) := st in
  if regexp_test (pattern rule) normalized then
    let replaced := replace_all (compile (pattern rule)) (replacement rule) normalized in
    (replaced, if bool_decide (normalized = replaced) then matchedPatterns
               else matchedPatterns ++ [js "보정: " ++ label rule])
  else (normalized, matchedPatterns).

Definition normalizeText (text : jsstr) : jsstr * list jsstr :=
  let '(normalized, matchedPatterns) := foldl apply_correction (trim text, []) STT_CORRECTIONS in
  (trim normalized, matchedPatterns).

(* ------------------------------------------------------------------ *)
(** ** The timer patterns *)

(** [parseInt(s, 10)]: white space, a sign, then the leading digits; [None] is NaN *)
Fixpoint digits (s : jsstr) (acc : option Z) : option Z :=
  match s with
  | c :: s' => if is_digit c then digits s' (Some (10 * default 0 acc + (c - 48))) else acc
  | [] => acc
  end.

Definition parse_int (s : jsstr) : option Z :=
  match trim_start s with
  | 45 :: s' => Z.opp <$> digits s' None
  | 43 :: s' => digits s' None
  | s' => digits s' None
  end.

Fixpoint group_count (r : regex) : nat :=
  match r with
  | RSeq r1 r2 | RAlt r1 r2 => group_count r1 + group_count r2
  | RStar _ r' => group_count r'
  | RGroup _ r' => S (group_count r')
  | _ => 0
  end.

Definition minutes_of_group (g : option jsstr) : option Z :=
  s ← g;
  num ← parse_int s;
  if (0 <? num) && (num <=? 180) then Some num else None.

(** The loop [for (let i = 1; i < match.length; i++)] *)
Definition match_minutes (count : nat) (groups : nat -> option jsstr) : option Z :=
  first_some (fun i => minutes_of_group (groups i)) (seq 1 count).

Record TimerIntent := mkTimerIntent { timerAction : TimerAction; timerMinutes : option Z }.

Definition match_timer (text : jsstr) (p : TimerPattern) : option TimerIntent :=
  let r := compile (timer_pattern p) in
  groups ← exec r text;
  Some (mkTimerIntent (action p)
          (if extractMinutes p then match_minutes (group_count r) groups else None)).

Definition detectTimer (text : jsstr) : option TimerIntent := first_some (match_timer text) TIMER_PATTERNS.

(* ------------------------------------------------------------------ *)
(** ** [classify] *)

Inductive SearchDomain := weather | naver.

Record IntentAnalysis := mkIntent {
  isCallIntent : bool;
  isQuestionIntent : bool;
  isBotRelated : bool;
  isVisionIntent : bool;
  isIdeaBoardIntent : bool;
  isFlowchartIntent : bool;
  isCalendarIntent : bool;
  timer : option TimerIntent;
  confidence : Q;
  matchedPatterns : list jsstr;
  normalizedText : jsstr;
  hasQuestionWord : bool;
  hasCommandWord : bool;
  hasQuestionPattern : bool;
  hasRequestPattern : bool;
  isWeatherIntent : bool;
  searchDomain : option SearchDomain;
  category : option Category;
  extractedKeyword : option jsstr;
  needsLlmCorrection : bool;
}.

Definition isTimerIntent (i : IntentAnalysis) : bool := bool_decide (is_Some (timer i)).

Definition is_some {A} (o : option A) : bool := match o with Some _ => true | None => false end.

(** [x.toFixed(2)] for a non-negative number *)
Definition to_fixed2 (x : Q) : jsstr :=
  let n := math_round (x * 100)%Q in
  js_of_Z (n / 100) ++ js "." ++ js_of_Z (n mod 100 / 10) ++ js_of_Z (n mod 10).

Definition timer_action_name (a : TimerAction) : jsstr :=
  js match a with start => "start" | pause => "pause" | resume => "resume"
             | extend => "extend" | stop => "stop" | status => "status" end.

(** Steps 2 to 4: the score and the log entry of the wake word, if any *)
Definition wakeCall (lowerNormalized : jsstr) : option (Q * jsstr) :=
  match find_first (fun word => isWakeWordInLeadingTokens lowerNormalized (to_lower word)) WAKE_WORDS with
  | Some word => Some (6 # 10, js "웨이크워드(정확): " ++ word)
  | None =>
    if regexMatchWakeWord lowerNormalized then Some (1 # 2, js "웨이크워드(정규식)")
    else
      let fuzzyResult := fuzzyMatchWakeWord lowerNormalized in
      if matched fuzzyResult
      then Some ((3 # 10) + similarity fuzzyResult * (2 # 10),
                 js "웨이크워드(퍼지): " ++ word fuzzyResult ++ js " (" ++ to_fixed2 (similarity fuzzyResult) ++ js ")")%Q
      else None
  end.

(** [patterns.some(pattern => pattern.test(text))], with the pattern found *)
Definition some_pattern (patterns : list RegExp) (text : jsstr) : option RegExp :=
  find_first (fun p => regexp_test p text) patterns.

Definition points (b : bool) (q : Q) : Q := if b then q else 0.

Definition log_if {A} (o : option A) (f : A -> jsstr) : list jsstr :=
  match o with Some x => [f x] | None => [] end.

Definition log_short (prefix : string) (p : RegExp) : jsstr :=
  js prefix ++ slice_to 20 (source p) ++ js "...".

Definition timer_log (t : TimerIntent) : list jsstr :=
  (js "Timer: " ++ timer_action_name (timerAction t))
  :: log_if (timerMinutes t) (fun num => js "Timer minutes: " ++ js_of_Z num).

Definition is_weather (c : option Category) : bool :=
  match c with Some c => bool_decide (category_name c = js "날씨") | None => false end.

Definition classify (text : jsstr) : IntentAnalysis :=
  let '(normalizedText, corrections) := normalizeText text in
  let lowerNormalized := to_lower normalizedText in
  let call := wakeCall lowerNormalized in
  let isCallIntent := is_some call in
  let category := detectCategory lowerNormalized in
  let extractedKeyword := extractKeyword normalizedText in
  let questionWord := find_first (includes lowerNormalized) QUESTION_WORDS in
  let commandWord := find_first (fun word => includes lowerNormalized (to_lower word)) COMMAND_WORDS in
  let questionPattern := some_pattern QUESTION_PATTERNS lowerNormalized in
  let requestPattern := some_pattern REQUEST_PATTERNS lowerNormalized in
  let isBotRelated := existsb (fun word => regexp_test (bot_reference_pattern word) lowerNormalized) BOT_REFERENCES in
  let vision := some_pattern VISION_PATTERNS lowerNormalized in
  let ideaBoard := some_pattern IDEA_BOARD_PATTERNS lowerNormalized in
  let flowchart := some_pattern FLOWCHART_BOARD_PATTERNS lowerNormalized in
  let calendar := some_pattern CALENDAR_PATTERNS lowerNormalized in
  let timer := detectTimer lowerNormalized in
  let hasQuestionWord := is_some questionWord in
  let hasCommandWord := is_some commandWord in
  let hasQuestionPattern := is_some questionPattern in
  let hasRequestPattern := is_some requestPattern in
  let isQuestionIntent := hasQuestionWord || hasCommandWord || hasQuestionPattern || hasRequestPattern in
  let isWeatherIntent := is_weather category in
  let score := (match call with Some (q, _) => q | None => 0 end
    + points hasQuestionWord (2 # 10) + points hasCommandWord (25 # 100)
    + points hasQuestionPattern (15 # 100) + points hasRequestPattern (3 # 10)
    + points isBotRelated (15 # 100))%Q in
  let confidence := Qmin score 1 in
  mkIntent isCallIntent isQuestionIntent isBotRelated
    (is_some vision) (is_some ideaBoard) (is_some flowchart) (is_some calendar) timer confidence
    (corrections ++ log_if call snd
      ++ log_if category (fun c => js "카테고리: " ++ category_name c)
      ++ log_if questionWord (fun word => js "의문사: " ++ word)
      ++ log_if commandWord (fun word => js "명령어: " ++ word)
      ++ log_if questionPattern (fun p => js "패턴: " ++ source p)
      ++ log_if requestPattern (fun p => js "요청: " ++ source p)
      ++ log_if vision (log_short "Vision: ") ++ log_if ideaBoard (log_short "IdeaBoard: ")
      ++ log_if flowchart (log_short "Flowchart: ") ++ log_if calendar (log_short "Calendar: ")
      ++ match timer with Some t => timer_log t | None => [] end)
    normalizedText hasQuestionWord hasCommandWord hasQuestionPattern hasRequestPattern
    isWeatherIntent
    (if isQuestionIntent || isCallIntent then Some (if isWeatherIntent then weather else naver) else None)
    category extractedKeyword
    (negb isCallIntent && mightHaveWakeWord text && Qlt_bool confidence (1 # 2)).

Definition shouldRespondFromAnalysis (intent : IntentAnalysis) : bool :=
  isCallIntent intent
  || (isQuestionIntent intent && isBotRelated intent)
  || (isQuestionIntent intent && hasCommandWord intent && Qle_bool (4 # 10) (confidence intent))
  || (isQuestionIntent intent && hasRequestPattern intent).

Definition shouldRespond (text : jsstr) : bool := shouldRespondFromAnalysis (classify text).

Definition shouldWakeFromSleepAnalysis (intent : IntentAnalysis) : bool :=
  isCallIntent intent || hasCommandWord intent || hasRequestPattern intent
  || (hasQuestionWord intent && hasQuestionPattern intent)
  || (isQuestionIntent intent && Qle_bool (6 # 10) (confidence intent)).

Definition shouldWakeFromSleep (text : jsstr) : bool := shouldWakeFromSleepAnalysis (classify text).

(** Sample utterances *)
Example classify_ex1 :
  let i := classify (js "아우라 타이머 10분 시작해줘") in
  (isCallIntent i, timer i, shouldRespondFromAnalysis i)
  = (true, Some (mkTimerIntent start (Some 10)), true).
Proof. vm_compute. reflexivity. Qed.
Example classify_ex2 :
  let i := classify (js "hey aura 강남 날시 알려줘") in
  (isCallIntent i, searchDomain i, normalizedText i, extractedKeyword i)
  = (true, Some weather, js "헤이 아우라 강남 날씨 알려줘", Some (js "헤이 강남 날씨")).
Proof. vm_compute. reflexivity. Qed.

(* ------------------------------------------------------------------ *)
(** ** Similarity *)

Lemma isSimilarJamo_sym a b : isSimilarJamo a b = isSimilarJamo b a.
Proof.
  unfold isSimilarJamo. rewrite <- !orb_assoc. f_equal; [by apply bool_decide_ext|apply orb_comm].
Qed.

Lemma jamo_score_sym a b : jamo_score a b = jamo_score b a.
Proof.
  unfold jamo_score. rewrite isSimilarJamo_sym.
  replace (bool_decide (a = b)) with (bool_decide (b = a)) by by apply bool_decide_ext. done.
Qed.

Lemma jamo_score_bounds a b : (0 <= jamo_score a b /\ jamo_score a b <= 1)%Q.
Proof. unfold jamo_score. repeat case_match; split; discriminate. Qed.

Lemma jamo_score_one a b : (jamo_score a b == 1)%Q -> a = b.
Proof. unfold jamo_score. case_bool_decide; [done|]. case_match; discriminate. Qed.

Lemma jamo_matches_sym l k : jamo_matches l k = jamo_matches k l.
Proof.
  unfold jamo_matches. f_equal.
  revert k. induction l as [|x l IH]; intros [|y k]; simpl; try done. by rewrite IH, jamo_score_sym.
Qed.

Lemma jamo_matches_bounds l k :
  (0 <= jamo_matches l k /\ jamo_matches l k <= inject_Z (Z.of_nat (Nat.min (length l) (length k))))%Q.
Proof.
  unfold jamo_matches. pose proof (Qsum_bounds (zip_with jamo_score l k) 0 1) as [H1 H2].
  { revert k. induction l as [|x l IH]; intros [|y k]; simpl; constructor; auto using jamo_score_bounds. }
  rewrite length_zip_with in H1, H2. lra.
Qed.

Lemma jamo_matches_self l : (jamo_matches l l == inject_Z (Z.of_nat (length l)))%Q.
Proof.
  unfold jamo_matches. induction l as [|x l IH]; [done|].
  change (Z.of_nat (length (x :: l))) with (Z.of_nat (S (length l))).
  rewrite Nat2Z.inj_succ, <- Z.add_1_l, inject_Z_plus. simpl. rewrite IH.
  unfold jamo_score. by rewrite bool_decide_eq_true_2.
Qed.

(** Full marks at every position means equal letters. *)
Lemma jamo_matches_full l k :
  length l = length k -> (inject_Z (Z.of_nat (length l)) <= jamo_matches l k)%Q -> l = k.
Proof.
  revert k. induction l as [|x l IH]; intros [|y k] Hl; simpl in Hl; try done. intros H.
  change (Z.of_nat (length (x :: l))) with (Z.of_nat (S (length l))) in H.
  rewrite Nat2Z.inj_succ, <- Z.add_1_l, inject_Z_plus in H.
  unfold jamo_matches in H. simpl in H. fold (jamo_matches l k) in H. change (inject_Z 1) with 1%Q in H.
  pose proof (jamo_score_bounds x y) as [_ Hs]. pose proof (jamo_matches_bounds l k) as [_ Hm].
  replace (Nat.min (length l) (length k)) with (length l) in Hm by lia.
  f_equal; [apply jamo_score_one|apply IH; [lia|]]; lra.
Qed.

Lemma jamoSimilarity_bounds a b : (0 <= jamoSimilarity a b /\ jamoSimilarity a b <= 1)%Q.
Proof.
  unfold jamoSimilarity. repeat case_match; bool_cases; [split; discriminate..|].
  set (l := decomposeHangul (to_lower a)) in *. set (k := decomposeHangul (to_lower b)) in *.
  set (m := Z.max _ _) in *. pose proof (jamo_matches_bounds l k) as [H1 H2].
  assert (0 < inject_Z m)%Q by (rewrite <- (Zlt_Qlt 0); lia).
  split.
  - apply Qle_shift_div_l; [done|]. lra.
  - apply Qle_shift_div_r; [done|]. rewrite Qmult_1_l. eapply Qle_trans; [exact H2|].
    rewrite <- Zle_Qle. lia.
Qed.

Lemma jamoSimilarity_sym a b : jamoSimilarity a b = jamoSimilarity b a.
Proof.
  unfold jamoSimilarity.
  rewrite (Z.max_comm (Z.of_nat (length (decomposeHangul (to_lower b))))), jamo_matches_sym.
  rewrite <- (Z.abs_opp (Z.of_nat (length (decomposeHangul (to_lower b))) - _)), Z.opp_sub_distr.
  by rewrite (Z.add_comm (- _)), Z.add_opp_r.
Qed.

(** Similarity one is equality of the letters. *)
Lemma jamoSimilarity_one a b :
  decomposeHangul (to_lower a) <> [] ->
  (jamoSimilarity a b == 1)%Q <-> decomposeHangul (to_lower a) = decomposeHangul (to_lower b).
Proof.
  unfold jamoSimilarity. set (l := decomposeHangul (to_lower a)). set (k := decomposeHangul (to_lower b)).
  intros Hne. assert (0 < Z.of_nat (length l)) as Hpos by (destruct l; simpl in *; [done|lia]).
  set (m := Z.max _ _). assert (0 < inject_Z m)%Q as Hm by (rewrite <- (Zlt_Qlt 0); lia).
  split.
  - repeat case_match; bool_cases; [discriminate..|]. intros Hs.
    pose proof (jamo_matches_bounds l k) as [_ H2].
    assert (jamo_matches l k == inject_Z m)%Q as He.
    { rewrite <- (Qmult_1_l (inject_Z m)), <- Hs. field. lra. }
    rewrite He, <- Zle_Qle in H2. apply jamo_matches_full; [lia|]. rewrite He, <- Zle_Qle. lia.
  - intros E. subst m. rewrite <- E, Z.max_id, Z.sub_diag. simpl.
    rewrite (proj2 (Z.eqb_neq _ _)) by lia. rewrite jamo_matches_self. field.
    change 0%Q with (inject_Z 0). rewrite inject_Z_injective. lia.
Qed.

(* ------------------------------------------------------------------ *)
(** ** The letters determine a Hangul word *)

Definition syllable (c : Z) : Prop := 44032 <= c <= 55203.
#[export] Instance syllable_dec c : Decision (syllable c).
Proof. unfold syllable. apply _. Defined.

Definition consonant (c : Z) : bool := (12593 <=? c) && (c <=? 12622).
Definition vowel (c : Z) : bool := (12623 <=? c) && (c <=? 12643).

Definition position (s : jsstr) (c : Z) : Z := Z.of_nat (default 0%nat (index_of s [c])).

(** The syllable with given letters, by the arithmetic of Unicode *)
Definition compose (cho jung jong : Z) : Z :=
  44032 + 588 * position CHO cho + 28 * position JUNG jung + position JONG jong.

Lemma forallb_seqZ p n i : forallb p (seqZ 0 n) = true -> 0 <= i < n -> p i = true.
Proof.
  rewrite forallb_Forall, Forall_forall. intros H Hi. apply H, list_elem_of_In, elem_of_seqZ. lia.
Qed.

Lemma cho_spec i : 0 <= i < 19 -> consonant (nth_char CHO i) && (position CHO (nth_char CHO i) =? i) = true.
Proof.
  apply (forallb_seqZ (fun i => consonant (nth_char CHO i) && (position CHO (nth_char CHO i) =? i))).
  vm_compute. reflexivity.
Qed.

Lemma jung_spec i : 0 <= i < 21 -> vowel (nth_char JUNG i) && (position JUNG (nth_char JUNG i) =? i) = true.
Proof.
  apply (forallb_seqZ (fun i => vowel (nth_char JUNG i) && (position JUNG (nth_char JUNG i) =? i))).
  vm_compute. reflexivity.
Qed.

Lemma jong_spec i : 0 <= i < 28 ->
  ((nth_char JONG i =? 32) || consonant (nth_char JONG i)) && (position JONG (nth_char JONG i) =? i) = true.
Proof.
  apply (forallb_seqZ (fun i =>
    ((nth_char JONG i =? 32) || consonant (nth_char JONG i)) && (position JONG (nth_char JONG i) =? i))).
  vm_compute. reflexivity.
Qed.

(** The three indices of a syllable *)
Lemma syllable_indices c :
  syllable c -> exists i j k, 0 <= i < 19 /\ 0 <= j < 21 /\ 0 <= k < 28 /\ c = 44032 + (588 * i + 28 * j + k).
Proof.
  unfold syllable. intros Hc. exists ((c - 44032) / 588), ((c - 44032) mod 588 / 28), ((c - 44032) mod 28).
  pose proof (Z.mod_pos_bound (c - 44032) 588 ltac:(lia)). pose proof (Z.mod_pos_bound (c - 44032) 28 ltac:(lia)).
  pose proof (Z.div_mod (c - 44032) 588 ltac:(lia)). pose proof (Z.div_mod ((c - 44032) mod 588) 28 ltac:(lia)).
  assert ((c - 44032) mod 588 mod 28 = (c - 44032) mod 28) by (apply Z.mod_mod_divide; by exists 21).
  repeat split; try lia; first [apply Z.div_pos|apply Z.div_lt_upper_bound]; lia.
Qed.

Definition letters (i j k : Z) : list jsstr :=
  [[nth_char CHO i]; [nth_char JUNG j]]
  ++ (if nth_char JONG k =? 32 then [] else [[nth_char JONG k]]).

Lemma decompose_indices i j k :
  0 <= i < 19 -> 0 <= j < 21 -> 0 <= k < 28 ->
  decompose_char [44032 + (588 * i + 28 * j + k)] = letters i j k.
Proof.
  intros Hi Hj Hk. unfold decompose_char. cbn [head default from_option id].
  replace (44032 + (588 * i + 28 * j + k) - 44032) with (588 * i + 28 * j + k) by lia.
  rewrite (proj2 (Z.ltb_ge _ 0)), (proj2 (Z.ltb_ge 11171 _)) by lia.
  assert ((588 * i + 28 * j + k) / 588 = i) as -> by (symmetry; apply (Z.div_unique_pos _ _ _ (28 * j + k)); lia).
  assert ((588 * i + 28 * j + k) mod 588 = 28 * j + k) as -> by (symmetry; apply (Z.mod_unique_pos _ _ i); lia).
  assert ((28 * j + k) / 28 = j) as -> by (symmetry; apply (Z.div_unique_pos _ _ _ k); lia).
  assert ((588 * i + 28 * j + k) mod 28 = k) as -> by (symmetry; apply (Z.mod_unique_pos _ _ (21 * i + j)); lia).
  reflexivity.
Qed.

Lemma syllable_letters c :
  syllable c -> exists a b, consonant a = true /\ vowel b = true /\
    ((decompose_char [c] = [[a]; [b]] /\ c = compose a b 32) \/
     exists k, consonant k = true /\ decompose_char [c] = [[a]; [b]; [k]] /\ c = compose a b k).
Proof.
  intros (i & j & k & Hi & Hj & Hk & ->)%syllable_indices.
  rewrite decompose_indices by assumption.
  apply cho_spec, andb_true_iff in Hi as [Ha Hi]. apply jung_spec, andb_true_iff in Hj as [Hb Hj].
  apply jong_spec, andb_true_iff in Hk as [Hc Hk]. apply Z.eqb_eq in Hi, Hj, Hk.
  exists (nth_char CHO i), (nth_char JUNG j). split; [exact Ha|]. split; [exact Hb|].
  unfold letters, compose. rewrite Hi, Hj.
  destruct (nth_char JONG k =? 32) eqn:E.
  - left. split; [reflexivity|]. apply Z.eqb_eq in E. rewrite E in Hk. rewrite Hk. lia.
  - rewrite orb_false_l in Hc. right. exists (nth_char JONG k). split; [exact Hc|]. split; [reflexivity|]. rewrite Hk. lia.
Qed.

Lemma code_points_syllables (s : jsstr) : Forall syllable s -> code_points s = (fun c => [c]) <$> s.
Proof.
  intros H. induction H as [|c s Hc Hs IH]; [done|]. rewrite fmap_cons, <- IH.
  destruct s as [|d s]; [done|]. simpl (code_points (c :: d :: s)).
  unfold is_high. unfold syllable in Hc. by rewrite (proj2 (Z.leb_gt 55296 c)) by lia.
Qed.

Lemma decompose_syllables (s : jsstr) :
  Forall syllable s -> decomposeHangul s = s ≫= (fun c => decompose_char [c]).
Proof.
  intros H. unfold decomposeHangul. rewrite code_points_syllables by done.
  clear H. induction s as [|c s IH]; [done|].
  rewrite fmap_cons, !bind_cons. by rewrite IH.
Qed.

Lemma to_lower_syllables (s : jsstr) : Forall syllable s -> to_lower s = s.
Proof.
  intros H. induction H as [|c s Hc Hs IH]; [done|].
  change (to_lower (c :: s)) with (lower_unit c :: to_lower s). rewrite IH. f_equal.
  unfold lower_unit. unfold syllable in Hc. z_decide. done.
Qed.

(** No syllable string starts with a vowel letter, and after a consonant
    that starts it comes a vowel. *)
Lemma letters_head (s : jsstr) x l :
  Forall syllable s -> s ≫= (fun c => decompose_char [c]) = x :: l ->
  exists a b l', x = [a] /\ consonant a = true /\ l = [b] :: l' /\ vowel b = true.
Proof.
  intros Hs. destruct Hs as [|c s Hc Hs]; [done|]. simpl.
  destruct (syllable_letters c Hc) as (a & b & Ha & Hb & [[-> _]|(k & _ & -> & _)]);
    simpl; intros [= <- <-]; eauto 10.
Qed.

Lemma consonant_not_vowel c : consonant c = true -> vowel c = true -> False.
Proof. unfold consonant, vowel. intros. bool_cases. lia. Qed.

Lemma letters_shift_absurd (s t : jsstr) x :
  Forall syllable s -> Forall syllable t ->
  s ≫= (fun c => decompose_char [c]) = [x] :: (t ≫= (fun c => decompose_char [c])) -> False.
Proof.
  intros Hs Ht E. apply letters_head in E as (a & b & l & _ & _ & E & Hb); [|done].
  apply letters_head in E as (a' & _ & _ & [= ->] & Ha & _); [|done]. eauto using consonant_not_vowel.
Qed.

Lemma letters_inj (s t : jsstr) :
  Forall syllable s -> Forall syllable t ->
  s ≫= (fun c => decompose_char [c]) = t ≫= (fun c => decompose_char [c]) -> s = t.
Proof.
  intros Hs. revert t. induction Hs as [|c s Hc Hs IH]; intros t Ht E.
  - destruct t as [|d t]; [done|]. inversion Ht; subst. symmetry in E.
    destruct (syllable_letters d) as (a & b & _ & _ & [[H _]|(k & _ & H & _)]); [done|..];
      simpl in E; rewrite H in E; done.
  - destruct Ht as [|d t Hd Ht].
    { destruct (syllable_letters c) as (a & b & _ & _ & [[H _]|(k & _ & H & _)]); [done|..];
      simpl in E; rewrite H in E; done. }
    rewrite !bind_cons in E.
    destruct (syllable_letters c Hc) as (a & b & _ & _ & [[H Hcc]|(k & _ & H & Hcc)]);
    destruct (syllable_letters d Hd) as (a' & b' & _ & _ & [[H' Hdd]|(k' & _ & H' & Hdd)]);
      rewrite H, H' in E; clear H H'; rewrite <- ?app_comm_cons, ?app_nil_l in E.
    + injection E as <- <- E. rewrite Hcc, Hdd. f_equal. by apply IH.
    + injection E as _ _ E. by eapply letters_shift_absurd in E.
    + injection E as _ _ E. symmetry in E. by eapply letters_shift_absurd in E.
    + injection E as <- <- <- E. rewrite Hcc, Hdd. f_equal. by apply IH.
Qed.

Lemma decomposeHangul_inj (s t : jsstr) :
  Forall syllable s -> Forall syllable t -> decomposeHangul s = decomposeHangul t -> s = t.
Proof. intros Hs Ht. rewrite !decompose_syllables by done. by apply letters_inj. Qed.

(** The similarity of the fuzzy wake word matcher is between zero and one
    and symmetric, and two non-empty Hangul words have similarity one exactly
    when they are the same word: the decomposition into letters loses
    nothing. *)
Theorem jamoSimilarity_spec (a b : jsstr) :
  (0 <= jamoSimilarity a b /\ jamoSimilarity a b <= 1)%Q /\
  jamoSimilarity a b = jamoSimilarity b a /\
  (a <> [] -> Forall syllable a -> Forall syllable b -> ((jamoSimilarity a b == 1)%Q <-> a = b)).
Proof.
  split; [apply jamoSimilarity_bounds|]. split; [apply jamoSimilarity_sym|]. intros Hne Ha Hb.
  rewrite jamoSimilarity_one; rewrite !to_lower_syllables by done.
  - split; [by apply decomposeHangul_inj|by intros ->].
  - rewrite decompose_syllables by done. destruct Ha as [|c s Hc Hs]; [done|]. simpl.
    destruct (syllable_letters c Hc) as (? & ? & _ & _ & [[-> _]|(? & _ & -> & _)]); done.
Qed.

Lemma jamoSimilarity_spec_witness : ~ (jamoSimilarity (js "아우라") (js "아오라") == 1)%Q.
Proof.
  intros H. destruct (jamoSimilarity_spec (js "아우라") (js "아오라")) as (_ & _ & Hs).
  apply Hs in H; [discriminate|discriminate|apply (bool_decide_unpack _)..]; vm_compute; exact I.
Defined.

(* ------------------------------------------------------------------ *)
(** ** The scores *)

Lemma fuzzy_token_bounds tokens token r :
  fuzzy_token tokens token = Some r -> (1 # 2 <= similarity r /\ similarity r <= 1)%Q.
Proof.
  unfold fuzzy_token, fuzzy_target, fuzzy_greeting. case_match; [done|].
  destruct (find_first _ _) as [target|] eqn:E; simpl.
  - intros [= <-]. apply find_first_Some in E as [_ E]. q_cases. simpl.
    split; [|apply jamoSimilarity_bounds]. eapply Qle_trans; [|exact E]. discriminate.
  - case_bool_decide; [|done]. destruct (tokens !! _) as [next|]; simpl; [|done].
    case_match; [|done]. intros [= <-]. q_cases. split; [done|apply jamoSimilarity_bounds].
Qed.

Lemma fuzzyMatch_bounds text :
  matched (fuzzyMatchWakeWord text) = true ->
  (1 # 2 <= similarity (fuzzyMatchWakeWord text) /\ similarity (fuzzyMatchWakeWord text) <= 1)%Q.
Proof.
  unfold fuzzyMatchWakeWord. destruct (first_some _ _) as [r|] eqn:E; [|done]. intros _.
  apply first_some_Some in E as (token & _ & E). by eapply fuzzy_token_bounds.
Qed.

Lemma wakeCall_bounds text q l : wakeCall text = Some (q, l) -> (4 # 10 <= q /\ q <= 6 # 10)%Q.
Proof.
  unfold wakeCall. case_match; [intros [= <- <-]; split; discriminate|].
  case_match; [intros [= <- <-]; split; discriminate|].
  destruct (matched _) eqn:E; [|done]. apply fuzzyMatch_bounds in E.
  intros [= <- <-]. lra.
Qed.

Lemma points_nonneg b q : (0 <= q)%Q -> (0 <= points b q)%Q.
Proof. destruct b; [done|]. intros _. apply Qle_refl. Qed.

Lemma Qmin_cases (x y : Q) : (Qmin x y == x /\ x <= y)%Q \/ (Qmin x y == y /\ y <= x)%Q.
Proof.
  destruct (Qlt_le_dec x y) as [H|H]; [left|right]; split; auto using Qlt_le_weak.
  - by apply Q.min_l, Qlt_le_weak.
  - by apply Q.min_r.
Qed.

(** A call is answered whatever else the text holds. *)
Lemma called_answered i :
  isCallIntent i = true -> shouldRespondFromAnalysis i = true /\ shouldWakeFromSleepAnalysis i = true.
Proof. unfold shouldRespondFromAnalysis, shouldWakeFromSleepAnalysis. by intros ->. Qed.

(** The call, the other points and the correction flag of [classify] *)
Lemma classify_score text :
  exists (call : option (Q * jsstr)) (other : Q) (might : bool),
    isCallIntent (classify text) = is_some call /\ (0 <= other)%Q /\
    call = wakeCall (to_lower (normalizedText (classify text))) /\
    (confidence (classify text) == Qmin (match call with Some (q, _) => q | None => 0 end + other) 1)%Q /\
    needsLlmCorrection (classify text) =
      negb (is_some call) && might && Qlt_bool (confidence (classify text)) (1 # 2).
Proof.
  unfold classify. destruct (normalizeText text) as [norm corr]. cbv zeta.
  cbn [confidence isCallIntent needsLlmCorrection normalizedText].
  generalize (is_some (find_first (includes (to_lower norm)) QUESTION_WORDS)).
  generalize (is_some (find_first (fun word => includes (to_lower norm) (to_lower word)) COMMAND_WORDS)).
  generalize (is_some (some_pattern QUESTION_PATTERNS (to_lower norm))).
  generalize (is_some (some_pattern REQUEST_PATTERNS (to_lower norm))).
  generalize (existsb (fun word => regexp_test (bot_reference_pattern word) (to_lower norm)) BOT_REFERENCES).
  intros b1 b2 b3 b4 b5. eexists _, _, _. split_and!; [reflexivity| |reflexivity| |reflexivity].
  2: { rewrite <- !Qplus_assoc. reflexivity. }
  repeat (apply (Qplus_le_compat 0 _ 0)); apply points_nonneg; discriminate.
Qed.

(** C26: For every text the confidence of [classify] is between zero and one;
    a text that calls the bot has confidence at least 0.4 and is answered, awake
    or asleep; and the correction by the language model is asked for only when
    the bot was not called and the confidence is below one half. *)
Theorem classify_confidence (text : jsstr) :
  (0 <= confidence (classify text) /\ confidence (classify text) <= 1)%Q /\
  (isCallIntent (classify text) = true ->
     (4 # 10 <= confidence (classify text))%Q /\ shouldRespond text = true /\ shouldWakeFromSleep text = true) /\
  (needsLlmCorrection (classify text) = true ->
     isCallIntent (classify text) = false /\ (confidence (classify text) < 1 # 2)%Q).
Proof.
  unfold shouldRespond, shouldWakeFromSleep.
  destruct (classify_score text) as (call & other & might & Hcall & Ho & Hw & Hconf & Hneeds).
  set (i := classify text) in *. clearbody i. set (q := match call with Some (q, _) => q | None => 0%Q end) in *.
  assert (0 <= q /\ (is_some call = true -> 4 # 10 <= q))%Q as [Hq Hq'].
  { unfold q. destruct call as [[q' l]|]; [|split; [apply Qle_refl|done]].
    symmetry in Hw. apply wakeCall_bounds in Hw. split; [|intros _]; lra. }
  split; [|split].
  - rewrite Hconf. destruct (Qmin_cases (q + other) 1) as [[-> Hm]|[-> Hm]]; lra.
  - intros Hc. split; [|by apply called_answered]. rewrite Hcall in Hc. specialize (Hq' Hc).
    rewrite Hconf. destruct (Qmin_cases (q + other) 1) as [[-> Hm]|[-> Hm]]; lra.
  - rewrite Hneeds, Hcall. intros Hn. bool_cases. q_cases. done.
Qed.

(* ------------------------------------------------------------------ *)
(** ** Wake words near the start *)

(** The number of words of a string *)
Definition nwords (s : jsstr) : nat := length (List.filter truthy (split_ws s)).

(** It is the number of word starts. *)
Fixpoint starts (inword : bool) (s : jsstr) : nat :=
  match s with
  | [] => 0
  | c :: s' => if is_space c then starts false s' else (if inword then 0 else 1) + starts true s'
  end.

Lemma split_ws_starts s :
  (forall b, length (List.filter truthy (split_ws_aux b s)) = starts false s) /\
  length (List.filter truthy (tail (split_ws_aux false s))) = starts true s.
Proof.
  induction s as [|c s [IHa IHb]]; [done|]. simpl. destruct (is_space c).
  - split; [|apply IHa]. intros [|]; simpl; apply IHa.
  - pose proof (split_ws_not_nil false s). destruct (split_ws_aux false s) as [|w ws]; [done|].
    simpl in *. rewrite IHb. done.
Qed.

Lemma nwords_starts s : nwords s = starts false s.
Proof. apply split_ws_starts. Qed.

Lemma starts_app b s t : (starts b s <= starts b (s ++ t))%nat.
Proof.
  revert b. induction s as [|c s IH]; intros b; simpl; [lia|].
  destruct (is_space c); [apply IH|]. specialize (IH true). lia.
Qed.

Lemma starts_trim_start s : starts false (trim_start s) = starts false s.
Proof. induction s as [|c s IH]; simpl; [done|]. destruct (is_space c) eqn:E; [done|]. simpl. by rewrite E. Qed.

Lemma nwords_trim s : (nwords (trim s) <= nwords s)%nat.
Proof.
  rewrite !nwords_starts, <- (starts_trim_start s). unfold trim.
  destruct (trim_start_suffix (reverse (trim_start s))) as [k Hk].
  apply (f_equal reverse) in Hk. rewrite reverse_involutive, reverse_app in Hk.
  rewrite Hk at 2. apply starts_app.
Qed.

Lemma index_of_first (s p l r : jsstr) i :
  index_of s p = Some i -> s = l ++ p ++ r -> (i <= length l)%nat.
Proof.
  revert l i. induction s as [|c s IH]; intros l i; simpl.
  - case_match; [|done]. intros [= <-] _. lia.
  - destruct (starts_with (c :: s) p) eqn:E; [intros [= <-] _; lia|].
    destruct (index_of s p) as [j|] eqn:Ej; simpl; [|done]. intros [= <-] Hs.
    destruct l as [|c' l]; simpl in Hs.
    + rewrite Hs, (proj2 (starts_with_spec _ _)) in E; [done|by exists r].
    + injection Hs as <- Hs. specialize (IH l j eq_refl Hs). simpl. lia.
Qed.

Lemma leading_wake_word (text pre word post : jsstr) :
  to_lower text = pre ++ to_lower word ++ post -> (nwords pre < WAKE_WORD_MAX_TOKENS)%nat ->
  isWakeWordInLeadingTokens text word = true.
Proof.
  intros Ht Hw. unfold isWakeWordInLeadingTokens.
  destruct (index_of _ _) as [i|] eqn:E.
  - case_match; [done|]. apply Nat.ltb_lt. eapply Nat.le_lt_trans; [apply nwords_trim|].
    pose proof (index_of_first _ _ _ _ _ E Ht) as Hi. rewrite Ht. unfold slice_to.
    rewrite take_app_le by done. eapply Nat.le_lt_trans; [|exact Hw].
    rewrite !nwords_starts. rewrite <- (take_drop i pre) at 2. apply starts_app.
  - apply index_of_None in E. exfalso. eauto.
Qed.

(** A text with a wake word after at most three words calls the bot, with
    confidence at least 0.6: it is answered, it wakes the bot up, and no
    correction is asked for. *)
Theorem wake_word_calls (text pre word post : jsstr) :
  word ∈ WAKE_WORDS ->
  to_lower (normalizedText (classify text)) = pre ++ to_lower word ++ post ->
  (nwords pre < 4)%nat ->
  isCallIntent (classify text) = true /\ shouldRespond text = true /\
  shouldWakeFromSleep text = true /\ needsLlmCorrection (classify text) = false.
Proof.
  intros Hword Ht Hw.
  destruct (classify_score text) as (call & other & might & Hcall & _ & Hwake & _ & Hneeds).
  unfold shouldRespond, shouldWakeFromSleep. set (i := classify text) in *. clearbody i.
  assert (is_some call = true) as Hc.
  { rewrite Hwake. unfold wakeCall. destruct (find_first _ WAKE_WORDS) eqn:E; [done|]. exfalso.
    rewrite find_first_None, List.Forall_forall in E. apply list_elem_of_In in Hword.
    specialize (E word Hword). cbv beta in E.
    rewrite (leading_wake_word _ pre _ post) in E; [done| |done]. by rewrite !to_lower_idem. }
  rewrite Hneeds, Hcall, Hc. split; [done|]. rewrite <- Hcall in Hc.
  destruct (called_answered i Hc) as [-> ->]. done.
Qed.

Lemma wake_word_calls_witness :
  shouldRespond (js "음 그래서 아우라야 오늘 뭐 먹지") = true.
Proof.
  refine (proj1 (proj2 (wake_word_calls (js "음 그래서 아우라야 오늘 뭐 먹지")
    (js "음 그래서 ") (js "아우라야") (js " 오늘 뭐 먹지") _ _ _))).
  - apply (bool_decide_unpack _). vm_compute. exact I.
  - vm_compute. reflexivity.
  - vm_compute. lia.
Defined.

(* ------------------------------------------------------------------ *)
(** ** Timer commands *)

Lemma exec_test r (s : jsstr) : is_Some (exec r s) <-> test r s = true.
Proof. unfold exec, test. destruct (search r [] s) as [[??]|]; simpl; split; by eauto using is_Some_None. Qed.

Lemma match_minutes_range n groups m : match_minutes n groups = Some m -> 1 <= m <= 180.
Proof.
  unfold match_minutes. intros (i & _ & H)%first_some_Some. revert H. unfold minutes_of_group.
  destruct (groups i) as [g|]; simpl; [|done]. destruct (parse_int g) as [num|]; simpl; [|done].
  case_match; [|done]. intros [= <-]. bool_cases. lia.
Qed.

(** Only commands that start or extend the timer read a number. *)
Lemma extracting_patterns :
  forallb (fun p => negb (extractMinutes p) || bool_decide (action p = start) || bool_decide (action p = extend))
    TIMER_PATTERNS = true.
Proof. vm_compute. reflexivity. Qed.

(** A timer command found in a text is the action of the first pattern of
    the table that matches it; its number of minutes, when there is one, is
    between 1 and 180 and only a start or an extension carries one. *)
Theorem timer_command (text : jsstr) (t : TimerIntent) :
  detectTimer text = Some t ->
  (exists l1 p l2, TIMER_PATTERNS = l1 ++ p :: l2 /\ timerAction t = action p /\
     regexp_test (timer_pattern p) text = true /\
     Forall (fun p' => regexp_test (timer_pattern p') text = false) l1) /\
  (forall m, timerMinutes t = Some m -> 1 <= m <= 180 /\ (timerAction t = start \/ timerAction t = extend)).
Proof.
  unfold detectTimer. pose proof extracting_patterns as Hall. revert Hall.
  generalize TIMER_PATTERNS. intros l Hall.
  induction l as [|p l IH]; [done|].
  cbn [forallb] in Hall. apply andb_true_iff in Hall as [Hp Hall]. simpl first_some. unfold match_timer at 1.
  destruct (exec (compile (timer_pattern p)) text) as [g|] eqn:E; cbn -[compile].
  - intros [= <-]. split.
    + exists [], p, l. split_and!; [done..| |constructor]. apply exec_test. by rewrite E.
    + cbn -[compile]. intros m Hm. destruct (extractMinutes p); [|done].
      split; [by eapply match_minutes_range|]. bool_cases. destruct (action p); (by left) || (by right) || done.
  - intros H. destruct (IH Hall H) as [(l1 & p' & l2 & -> & Ha & Ht & Hl) Hm].
    split; [|exact Hm]. exists (p :: l1), p', l2. split_and!; try done.
    constructor; [|done]. apply not_true_iff_false. intros Ht'. apply exec_test in Ht'. rewrite E in Ht'.
    by apply is_Some_None in Ht'.
Qed.

Lemma timer_command_witness :
  detectTimer (js "20분만큼 추가") = Some (mkTimerIntent extend (Some 20)) /\ 1 <= 20 <= 180.
Proof.
  assert (detectTimer (js "20분만큼 추가") = Some (mkTimerIntent extend (Some 20))) as H by (vm_compute; reflexivity).
  split; [exact H|]. exact (proj1 (proj2 (timer_command _ _ H) 20 eq_refl)).
Defined.

(** The first timer pattern, taken apart *)
Definition star_of (p : Z -> bool) : regex := counted 0 None true (RClass p).
Definition plus_of (p : Z -> bool) : regex := counted 1 None true (RClass p).
Definition unit_lit (c : Z) : regex := RClass (lit_class false c).
Definition opt_of (r : regex) : regex := counted 0 (Some 1%nat) true r.

Lemma first_timer_pattern :
  compile (rx "타이머\s*(\d+)\s*분\s*(시작|켜|설정|맞춰|해|해줘)?") =
    seqs ((unit_lit <$> js "타이머")
      ++ [star_of is_space; RGroup 1 (seqs [plus_of is_digit]); star_of is_space]
      ++ (unit_lit <$> js "분")
      ++ [star_of is_space; opt_of (RGroup 2 (re (js "시작|켜|설정|맞춰|해|해줘")))]).
Proof. vm_compute. reflexivity. Qed.

Lemma Matches_seqs_app l k z1 z2 z3 :
  Matches (seqs l) z1 z2 -> Matches (seqs k) z2 z3 -> Matches (seqs (l ++ k)) z1 z3.
Proof.
  revert z1. induction l as [|r l IH]; intros z1 H1 H2; simpl in *.
  - inversion H1; subst. done.
  - inversion H1; subst. econstructor; eauto.
Qed.

Lemma Matches_lits (w b a : jsstr) : Matches (seqs (unit_lit <$> w)) (b, w ++ a) (reverse w ++ b, a).
Proof.
  revert b. induction w as [|c w IH]; intros b; [constructor|].
  rewrite fmap_cons. simpl. econstructor; [constructor; apply Z.eqb_refl|].
  rewrite reverse_cons, <- app_assoc. apply IH.
Qed.

Lemma Matches_star_of p (b w a : jsstr) :
  Forall (fun c => p c = true) w -> Matches (star_of p) (b, w ++ a) (reverse w ++ b, a).
Proof. intros H. econstructor; [constructor|]. by apply Matches_star_class. Qed.

Lemma Matches_plus_of p (b w a : jsstr) :
  w <> [] -> Forall (fun c => p c = true) w -> Matches (plus_of p) (b, w ++ a) (reverse w ++ b, a).
Proof.
  intros Hne Hw. destruct Hw as [|c w' Hc H]; [done|]. econstructor.
  - econstructor; [by constructor|constructor].
  - rewrite reverse_cons, <- app_assoc. by apply Matches_star_class.
Qed.

(** The first pattern matches whatever follows the unit. *)
Lemma first_timer_test (pre ws1 d ws2 post : jsstr) :
  Forall (fun c => is_space c = true) ws1 -> Forall (fun c => is_space c = true) ws2 ->
  d <> [] -> Forall (fun c => is_digit c = true) d ->
  regexp_test (rx "타이머\s*(\d+)\s*분\s*(시작|켜|설정|맞춰|해|해줘)?")
    (pre ++ js "타이머" ++ ws1 ++ d ++ ws2 ++ js "분" ++ post) = true.
Proof.
  intros H1 H2 Hne Hd. unfold regexp_test. rewrite first_timer_pattern. apply test_iff.
  exists pre, (js "타이머" ++ ws1 ++ d ++ ws2 ++ js "분" ++ post). eexists. split; [reflexivity|].
  eapply Matches_seqs_app; [apply Matches_lits|].
  eapply Matches_seqs_app; [|eapply Matches_seqs_app; [apply Matches_lits|]].
  - eapply MSeq; [by apply Matches_star_of|].
    eapply MSeq; [apply MGroup; eapply MSeq; [by apply Matches_plus_of|apply MEps]|].
    eapply MSeq; [by apply Matches_star_of|apply MEps].
  - econstructor; [apply (Matches_star_of _ _ []); constructor|].
    econstructor; [|constructor]. econstructor; [constructor|apply MAltR; constructor].
Qed.

(** Whatever surrounds it, a text with [타이머 <number>분] is taken as a
    command to start a timer: the patterns for extending it ([타이머 10분
    연장]) come later in the table and are never reached. *)
Theorem timer_extension_starts (pre ws1 d ws2 post : jsstr) :
  Forall (fun c => is_space c = true) ws1 -> Forall (fun c => is_space c = true) ws2 ->
  d <> [] -> Forall (fun c => is_digit c = true) d ->
  timerAction <$> detectTimer (pre ++ js "타이머" ++ ws1 ++ d ++ ws2 ++ js "분" ++ post) = Some start.
Proof.
  intros H1 H2 Hne Hd.
  pose proof (first_timer_test pre ws1 d ws2 post H1 H2 Hne Hd) as Ht. apply exec_test in Ht as [g Hg].
  set (text := pre ++ _) in *. clearbody text.
  set (p := rx "타이머\s*(\d+)\s*분\s*(시작|켜|설정|맞춰|해|해줘)?") in *.
  assert (exists m, match_timer text (mkTimerPattern p start true) = Some (mkTimerIntent start m)) as [m Hm].
  { unfold match_timer. cbv zeta. cbn [timer_pattern]. rewrite Hg. by eexists. }
  change (timerAction <$> first_some (match_timer text) (mkTimerPattern p start true :: tail TIMER_PATTERNS) = Some start).
  cbn [first_some]. rewrite Hm. reflexivity.
Qed.

Lemma timer_extension_starts_witness :
  timerAction <$> detectTimer (js "아우라 타이머 10분 연장해줘") = Some start.
Proof.
  refine (timer_extension_starts (js "아우라 ") (js " ") (js "10") [] (js " 연장해줘") _ _ _ _);
    try discriminate; repeat constructor.
Defined.

(* ------------------------------------------------------------------ *)
(** ** Particles *)

Lemma PARTICLES_boundary : exists r, compile PARTICLES = RSeq RWordB r.
Proof.
  exists (seqs [RGroup 1 (re (js "을|를|이|가|은|는|에서|에|의|으로|로|과|와|도|만|부터|까지|처럼|같은|좀|한번|하나|거|것|데|줘|줄래|해줘"));
                RWordB]).
  vm_compute. reflexivity.
Qed.

Lemma no_boundary (u v : jsstr) :
  Forall (fun c => is_word c = false) (u ++ v) -> at_boundary (reverse u, v) = false.
Proof.
  intros [Hu Hv]%Forall_app. unfold at_boundary. simpl.
  assert (head_is is_word (reverse u) = false) as ->.
  { apply Forall_reverse in Hu. destruct Hu as [|c l Hc]; [done|]. exact Hc. }
  destruct Hv as [|c l Hc _]; [reflexivity|]. cbn [head_is]. by rewrite Hc.
Qed.

(** The removal of particles in [extractKeyword] has no effect on Korean
    text: [\b] looks for ASCII word characters, so on a text without any the
    step only collapses white space. *)
Theorem particles_kept (s : jsstr) :
  Forall (fun c => is_word c = false) s ->
  remove_particles s = trim (replace_all (compile (rx "\s+")) (js " ") s).
Proof.
  intros H. unfold remove_particles. f_equal. f_equal. unfold replace_all. simpl replace_from.
  destruct (search (compile PARTICLES) [] s) as [[st st']|] eqn:E; [exfalso|done].
  apply search_sound in E as [Hs Hm]. destruct PARTICLES_boundary as [r Hr]. rewrite Hr in Hm.
  inversion Hm as [| |? ? ? ? ? Hb _| | | | | | | |]; subst. inversion Hb as [| | | | | | | | | |? Hz]; subst.
  unfold pos in Hz. rewrite <- (reverse_involutive (before st)), no_boundary in Hz; [done|].
  simpl in Hs. by rewrite Hs.
Qed.

Lemma particles_kept_witness : remove_particles (js "강남에서 파스타를") = js "강남에서 파스타를".
Proof.
  rewrite (particles_kept (js "강남에서 파스타를")); [vm_compute; reflexivity|].
  apply (bool_decide_unpack _). vm_compute. exact I.
Defined.
