(* ===== verification/EvidenceData.v ===== *)
(** * Verified evidence: the data

    [src/agent/evidence/evidence.interface.ts] and the table of
    [initializeDefaultEvidence] in [src/agent/evidence/evidence.repository.ts],
    one definition per section of the table. *)

From stdpp Require Import base list strings.
From Stdlib Require Import ZArith.
From S2P Require Import Prelude JsString.

Inductive EvidenceSourceType :=
| official_announcement | large_survey | academic_paper | standard_organization | statistics_agency.
#[export] Instance EvidenceSourceType_eq_dec : EqDecision EvidenceSourceType.
Proof. solve_decision. Defined.

Record VerifiedEvidence := mkEvidence {
  id : jsstr;
  topic : jsstr;
  keywords : list jsstr;
  fact : jsstr;
  sourceName : jsstr;
  sourceType : EvidenceSourceType;
  sourceUrl : jsstr;
  verifiedDate : jsstr;
  participantCount : option Z;
  category : jsstr;
  isActive : bool;
}.
#[export] Instance VerifiedEvidence_eq_dec : EqDecision VerifiedEvidence.
Proof. solve_decision. Defined.

Record EvidenceMatchResult := mkMatch {
  evidence : VerifiedEvidence;
  confidence : Z;
  matchedKeywords : list jsstr;
}.

Record OpinionConfig := mkConfig {
  minConfidenceThreshold : Z;
  maxEvidenceAgeMonths : Z;
  minSurveyParticipants : Z;
  enabled : bool;
}.

Definition DEFAULT_OPINION_CONFIG : OpinionConfig := mkConfig 95 24 10000 true.

Definition evidence_languages : list VerifiedEvidence := [
  mkEvidence (js "so-survey-2024-typescript") (js "TypeScript 선호도")
    (js <$> ["타입스크립트"; "typescript"; "ts"; "언어 선택"; "프론트엔드 언어"])
    (js "65,000명 이상의 개발자 중 약 38.5%가 TypeScript를 사용하며, 가장 원하는 언어 상위권에 랭크되었습니다")
    (js "2024 StackOverflow Developer Survey") large_survey
    (js "https://survey.stackoverflow.co/2024/")
    (js "2024-05") (Some 65000) (js "development") true;
  mkEvidence (js "so-survey-2024-react") (js "React 프레임워크 사용률")
    (js <$> ["리액트"; "react"; "프론트엔드"; "프레임워크"; "UI 라이브러리"])
    (js "웹 프레임워크 중 React가 약 39.5%의 사용률로 1위를 차지했습니다")
    (js "2024 StackOverflow Developer Survey") large_survey
    (js "https://survey.stackoverflow.co/2024/")
    (js "2024-05") (Some 65000) (js "development") true;
  mkEvidence (js "jetbrains-2023-ide") (js "IDE 사용 통계")
    (js <$> ["ide"; "vscode"; "intellij"; "에디터"; "개발환경"; "vs code"])
    (js "Visual Studio Code가 약 72%의 사용률로 가장 많이 사용되는 IDE입니다")
    (js "2023 JetBrains Developer Ecosystem Survey") large_survey
    (js "https://www.jetbrains.com/lp/devecosystem-2023/")
    (js "2023-06") (Some 26000) (js "development") true].

Definition evidence_security : list VerifiedEvidence := [
  mkEvidence (js "owasp-session-jwt") (js "JWT 토큰 유효시간 권장사항")
    (js <$> ["jwt"; "토큰"; "유효시간"; "만료"; "access token"; "세션"; "인증"])
    (js "Access Token은 15분~2시간, Refresh Token은 최대 24시간을 권장합니다. 민감한 작업에는 더 짧은 시간을 권장합니다")
    (js "OWASP Session Management Cheat Sheet") standard_organization
    (js "https://cheatsheetseries.owasp.org/cheatsheets/Session_Management_Cheat_Sheet.html")
    (js "2024-01") None (js "security") true;
  mkEvidence (js "owasp-password-hash") (js "비밀번호 해싱 알고리즘")
    (js <$> ["비밀번호"; "해싱"; "bcrypt"; "argon2"; "암호화"; "password"])
    (js "Argon2id를 최우선으로 권장하며, bcrypt(cost 10 이상) 또는 scrypt를 대안으로 권장합니다. MD5, SHA1은 비밀번호 해싱에 사용하면 안 됩니다")
    (js "OWASP Password Storage Cheat Sheet") standard_organization
    (js "https://cheatsheetseries.owasp.org/cheatsheets/Password_Storage_Cheat_Sheet.html")
    (js "2024-01") None (js "security") true].

Definition evidence_devops : list VerifiedEvidence := [
  mkEvidence (js "cncf-kubernetes-2023") (js "Kubernetes 채택률")
    (js <$> ["쿠버네티스"; "kubernetes"; "k8s"; "컨테이너"; "오케스트레이션"])
    (js "전 세계적으로 84%의 조직이 Kubernetes를 프로덕션에서 사용하거나 평가 중입니다")
    (js "CNCF Annual Survey 2023") large_survey
    (js "https://www.cncf.io/reports/cncf-annual-survey-2023/")
    (js "2023-12") (Some 17000) (js "infrastructure") true;
  mkEvidence (js "github-copilot-productivity") (js "AI 코딩 도구 생산성")
    (js <$> ["copilot"; "ai 코딩"; "코파일럿"; "github copilot"; "생산성"])
    (js "GitHub Copilot 사용자의 88%가 생산성이 향상되었다고 응답했으며, 평균 55% 더 빠르게 작업을 완료했습니다")
    (js "GitHub Copilot Research Study") official_announcement
    (js "https://github.blog/2022-09-07-research-quantifying-github-copilots-impact-on-developer-productivity-and-happiness/")
    (js "2022-09") None (js "development") true].

Definition evidence_architecture : list VerifiedEvidence := [
  mkEvidence (js "google-sre-slo") (js "SLO/SLI 설정 권장사항")
    (js <$> ["slo"; "sli"; "sre"; "가용성"; "availability"; "99.9"; "99.99"])
    (js "Google SRE는 99.9% (three nines)를 대부분의 서비스에 적절한 목표로 권장하며, 99.99%는 매우 중요한 시스템에만 권장합니다")
    (js "Google SRE Book") official_announcement
    (js "https://sre.google/sre-book/service-level-objectives/")
    (js "2023-01") None (js "infrastructure") true;
  mkEvidence (js "martin-fowler-microservices") (js "마이크로서비스 도입 시점")
    (js <$> ["마이크로서비스"; "microservices"; "모놀리스"; "monolith"; "아키텍처"])
    ((js "Martin Fowler는 " ++ dq ++ js "Monolith First" ++ dq ++ js " 접근을 권장합니다. 처음부터 마이크로서비스로 시작하지 말고, 도메인을 충분히 이해한 후 분리할 것을 권장합니다"))
    (js "Martin Fowler - MonolithFirst") official_announcement
    (js "https://martinfowler.com/bliki/MonolithFirst.html")
    (js "2015-06") None (js "architecture") true].

Definition evidence_testing : list VerifiedEvidence := [
  mkEvidence (js "google-test-pyramid") (js "테스트 피라미드 비율")
    (js <$> ["테스트"; "unit test"; "유닛 테스트"; "통합 테스트"; "e2e"; "테스트 비율"])
    (js "Google은 테스트 비율을 Unit 70%, Integration 20%, E2E 10%로 권장합니다 (테스트 피라미드)")
    (js "Google Testing Blog") official_announcement
    (js "https://testing.googleblog.com/2015/04/just-say-no-to-more-end-to-end-tests.html")
    (js "2015-04") None (js "testing") true].

Definition evidence_database : list VerifiedEvidence := [
  mkEvidence (js "so-survey-2024-postgres") (js "PostgreSQL 인기도")
    (js <$> ["postgres"; "postgresql"; "포스트그레스"; "데이터베이스"; "db 선택"; "rdbms"])
    (js "PostgreSQL이 48.7%로 가장 많이 사용되는 데이터베이스이며, 가장 원하는 데이터베이스 1위입니다")
    (js "2024 StackOverflow Developer Survey") large_survey
    (js "https://survey.stackoverflow.co/2024/")
    (js "2024-05") (Some 65000) (js "database") true;
  mkEvidence (js "so-survey-2024-redis") (js "Redis 사용률")
    (js <$> ["redis"; "레디스"; "캐시"; "cache"; "인메모리"; "nosql"])
    (js "Redis가 NoSQL 데이터베이스 중 가장 높은 사용률을 보이며, 캐싱과 세션 관리에 가장 많이 사용됩니다")
    (js "2024 StackOverflow Developer Survey") large_survey
    (js "https://survey.stackoverflow.co/2024/")
    (js "2024-05") (Some 65000) (js "database") true;
  mkEvidence (js "so-survey-2024-mongodb") (js "MongoDB 사용 사례")
    (js <$> ["mongodb"; "몽고디비"; "nosql"; "도큐먼트"; "document db"])
    (js "MongoDB는 도큐먼트 DB 중 가장 높은 사용률을 보이며, 스키마 유연성이 필요한 프로젝트에서 주로 선택됩니다")
    (js "2024 StackOverflow Developer Survey") large_survey
    (js "https://survey.stackoverflow.co/2024/")
    (js "2024-05") (Some 65000) (js "database") true].

Definition evidence_state_management : list VerifiedEvidence := [
  mkEvidence (js "so-survey-2024-state-management") (js "React 상태 관리 트렌드")
    (js <$> ["상태 관리"; "state management"; "redux"; "zustand"; "recoil"; "jotai"; "context"])
    (js "React 프로젝트에서 Zustand와 같은 경량 상태 관리 라이브러리 사용이 증가하는 추세이며, Redux는 여전히 대규모 프로젝트에서 선호됩니다")
    (js "2024 State of JS Survey") large_survey
    (js "https://stateofjs.com/2024/")
    (js "2024-06") (Some 23000) (js "development") true].

Definition evidence_api_design : list VerifiedEvidence := [
  mkEvidence (js "postman-api-2023") (js "REST vs GraphQL 선택")
    (js <$> ["rest"; "graphql"; "api"; "api 설계"; "restful"; "grpc"])
    (js "REST API가 여전히 89%로 가장 많이 사용되지만, GraphQL 사용률이 28%로 꾸준히 증가 중입니다. 복잡한 데이터 요구사항에는 GraphQL이 선호됩니다")
    (js "2023 Postman State of the API Report") large_survey
    (js "https://www.postman.com/state-of-api/")
    (js "2023-10") (Some 40000) (js "architecture") true;
  mkEvidence (js "google-api-versioning") (js "API 버전 관리")
    (js <$> ["api 버전"; "versioning"; "api version"; "v1"; "v2"; "breaking change"])
    (js "Google은 URL 경로에 major 버전을 포함하는 방식(예: /v1/users)을 권장하며, 하위 호환성 유지를 강조합니다")
    (js "Google API Design Guide") official_announcement
    (js "https://cloud.google.com/apis/design/versioning")
    (js "2024-01") None (js "architecture") true].

Definition evidence_auth : list VerifiedEvidence := [
  mkEvidence (js "owasp-oauth2") (js "OAuth 2.0 구현")
    (js <$> ["oauth"; "oauth2"; "소셜 로그인"; "authorization"; "인증"; "인가"])
    (js "PKCE(Proof Key for Code Exchange)를 모든 OAuth 2.0 클라이언트에서 사용할 것을 권장합니다. SPA나 모바일 앱에서는 필수입니다")
    (js "OWASP OAuth 2.0 Cheat Sheet") standard_organization
    (js "https://cheatsheetseries.owasp.org/cheatsheets/OAuth2_Cheat_Sheet.html")
    (js "2024-01") None (js "security") true;
  mkEvidence (js "auth0-mfa-stats") (js "MFA 도입 효과")
    (js <$> ["mfa"; "2fa"; "이중 인증"; "다중 인증"; "multi factor"; "otp"])
    (js "MFA를 도입하면 계정 탈취 공격의 99.9%를 방지할 수 있습니다. SMS보다 앱 기반 OTP나 하드웨어 키를 권장합니다")
    (js "Microsoft Security Research") official_announcement
    (js "https://www.microsoft.com/security/blog/2019/08/20/one-simple-action-you-can-take-to-prevent-99-9-percent-of-account-attacks/")
    (js "2023-01") None (js "security") true].

Definition evidence_frontend : list VerifiedEvidence := [
  mkEvidence (js "so-survey-2024-nextjs") (js "Next.js 사용률")
    (js <$> ["nextjs"; "next.js"; "next"; "ssr"; "server side rendering"; "react framework"])
    (js "Next.js가 React 메타 프레임워크 중 가장 높은 채택률을 보이며, SSR이 필요한 프로젝트에서 표준으로 자리잡고 있습니다")
    (js "2024 State of JS Survey") large_survey
    (js "https://stateofjs.com/2024/")
    (js "2024-06") (Some 23000) (js "development") true;
  mkEvidence (js "so-survey-2024-tailwind") (js "Tailwind CSS 사용률")
    (js <$> ["tailwind"; "css"; "스타일링"; "styled-components"; "css-in-js"])
    (js "Tailwind CSS 사용률이 급증하여 CSS 프레임워크 중 만족도 1위를 기록했습니다. 유틸리티 퍼스트 접근 방식이 생산성을 높인다는 평가입니다")
    (js "2024 State of CSS Survey") large_survey
    (js "https://stateofcss.com/2024/")
    (js "2024-06") (Some 14000) (js "development") true].

Definition evidence_backend : list VerifiedEvidence := [
  mkEvidence (js "so-survey-2024-nestjs") (js "NestJS 사용률")
    (js <$> ["nestjs"; "nest"; "node 프레임워크"; "express"; "fastify"; "백엔드 프레임워크"])
    (js "NestJS가 Node.js 백엔드 프레임워크 중 만족도가 가장 높으며, 엔터프라이즈 프로젝트에서 채택이 증가하고 있습니다")
    (js "2024 State of JS Survey") large_survey
    (js "https://stateofjs.com/2024/")
    (js "2024-06") (Some 23000) (js "development") true].

Definition evidence_logging : list VerifiedEvidence := [
  mkEvidence (js "datadog-observability-2023") (js "로깅 구조화")
    (js <$> ["로깅"; "logging"; "로그"; "structured logging"; "json log"; "모니터링"])
    (js "구조화된 JSON 로깅을 사용하면 로그 분석 시간이 평균 40% 단축됩니다. 컨텍스트 정보(trace_id, user_id 등)를 포함할 것을 권장합니다")
    (js "Datadog State of Observability 2023") large_survey
    (js "https://www.datadoghq.com/state-of-observability/")
    (js "2023-11") (Some 12000) (js "infrastructure") true].

Definition evidence_cicd : list VerifiedEvidence := [
  mkEvidence (js "dora-2023-deployment") (js "배포 빈도와 성과")
    (js <$> ["배포"; "deployment"; "ci/cd"; "cicd"; "devops"; "파이프라인"])
    (js "엘리트 성과 팀은 하루에 여러 번 배포하며, 변경 실패율이 15% 미만입니다. 자동화된 테스트와 배포 파이프라인이 핵심입니다")
    (js "DORA State of DevOps Report 2023") large_survey
    (js "https://dora.dev/research/")
    (js "2023-10") (Some 36000) (js "infrastructure") true;
  mkEvidence (js "github-actions-2024") (js "CI/CD 도구 선택")
    (js <$> ["github actions"; "jenkins"; "gitlab ci"; "ci 도구"; "circleci"])
    (js "GitHub Actions가 CI/CD 도구 중 가장 빠르게 성장하고 있으며, GitHub 사용자 중 63%가 Actions를 사용합니다")
    (js "GitHub Octoverse 2023") official_announcement
    (js "https://octoverse.github.com/")
    (js "2023-11") None (js "infrastructure") true].

Definition evidence_containers : list VerifiedEvidence := [
  mkEvidence (js "docker-2024-compose") (js "Docker Compose 사용")
    (js <$> ["docker"; "도커"; "compose"; "컨테이너"; "container"; "로컬 개발"])
    (js "Docker Compose가 로컬 개발 환경 구성에 가장 많이 사용되며, 개발자의 87%가 컨테이너를 사용합니다")
    (js "Docker 2024 Survey") large_survey
    (js "https://www.docker.com/resources/state-of-the-developer-survey/")
    (js "2024-02") (Some 15000) (js "infrastructure") true].

Definition evidence_quality : list VerifiedEvidence := [
  mkEvidence (js "sonarqube-code-coverage") (js "코드 커버리지 목표")
    (js <$> ["커버리지"; "coverage"; "코드 품질"; "code quality"; "테스트 커버리지"])
    (js "80% 이상의 코드 커버리지가 일반적인 목표이지만, 중요한 비즈니스 로직은 90% 이상을 권장합니다. 단, 커버리지 수치보다 테스트 품질이 더 중요합니다")
    (js "SonarQube Best Practices") official_announcement
    (js "https://docs.sonarqube.org/latest/user-guide/metric-definitions/")
    (js "2024-01") None (js "testing") true].

Definition evidence_errors : list VerifiedEvidence := [
  mkEvidence (js "aws-retry-pattern") (js "재시도 전략")
    (js <$> ["retry"; "재시도"; "exponential backoff"; "백오프"; "resilience"; "장애 처리"])
    (js "AWS는 Exponential Backoff with Jitter를 권장합니다. 초기 대기시간 100ms, 최대 대기시간 설정, 랜덤 지터 추가가 표준 패턴입니다")
    (js "AWS Architecture Best Practices") official_announcement
    (js "https://aws.amazon.com/builders-library/timeouts-retries-and-backoff-with-jitter/")
    (js "2023-01") None (js "architecture") true].

Definition evidence_messaging : list VerifiedEvidence := [
  mkEvidence (js "confluent-kafka-2023") (js "Kafka 사용 사례")
    (js <$> ["kafka"; "카프카"; "메시지 큐"; "message queue"; "event driven"; "이벤트 드리븐"])
    (js "Kafka는 초당 수백만 메시지 처리가 필요한 경우에 적합하며, 80% 이상의 Fortune 100 기업이 사용 중입니다")
    (js "Confluent 2023 Data Streaming Report") large_survey
    (js "https://www.confluent.io/resources/report/")
    (js "2023-09") (Some 10000) (js "infrastructure") true].

Definition evidence_security_more : list VerifiedEvidence := [
  mkEvidence (js "owasp-input-validation") (js "입력 유효성 검사")
    (js <$> ["validation"; "유효성 검사"; "input"; "입력 검증"; "sanitize"; "xss"])
    (js "서버 사이드 유효성 검사는 필수이며, 화이트리스트 방식을 권장합니다. 클라이언트 검증은 UX용이지 보안용이 아닙니다")
    (js "OWASP Input Validation Cheat Sheet") standard_organization
    (js "https://cheatsheetseries.owasp.org/cheatsheets/Input_Validation_Cheat_Sheet.html")
    (js "2024-01") None (js "security") true;
  mkEvidence (js "owasp-cors") (js "CORS 설정")
    (js <$> ["cors"; "크로스 오리진"; "cross origin"; "access-control"; "보안 헤더"])
    (js "프로덕션에서 Access-Control-Allow-Origin: *는 피해야 하며, 허용된 도메인을 명시적으로 지정해야 합니다")
    (js "OWASP CORS Cheat Sheet") standard_organization
    (js "https://cheatsheetseries.owasp.org/cheatsheets/Cross-Site_Request_Forgery_Prevention_Cheat_Sheet.html")
    (js "2024-01") None (js "security") true].

Definition evidence_performance : list VerifiedEvidence := [
  mkEvidence (js "google-web-vitals") (js "웹 성능 지표")
    (js <$> ["web vitals"; "lcp"; "fid"; "cls"; "성능"; "performance"; "웹 성능"])
    (js "Google은 LCP 2.5초 이하, FID 100ms 이하, CLS 0.1 이하를 좋은 사용자 경험의 기준으로 제시합니다")
    (js "Google Web Vitals") official_announcement
    (js "https://web.dev/vitals/")
    (js "2024-01") None (js "development") true].

Definition evidence_orm : list VerifiedEvidence := [
  mkEvidence (js "prisma-2024") (js "ORM 선택")
    (js <$> ["orm"; "prisma"; "typeorm"; "sequelize"; "데이터베이스 접근"])
    (js "Node.js 환경에서 Prisma의 채택률이 빠르게 증가하고 있으며, 타입 안정성과 개발 경험에서 높은 평가를 받고 있습니다")
    (js "2024 State of JS Survey") large_survey
    (js "https://stateofjs.com/2024/")
    (js "2024-06") (Some 23000) (js "development") true].

Definition evidence_versioning : list VerifiedEvidence := [
  mkEvidence (js "conventional-commits") (js "커밋 메시지 컨벤션")
    (js <$> ["commit"; "커밋"; "커밋 메시지"; "conventional commits"; "git"])
    (js "Conventional Commits 형식(feat:, fix:, docs: 등)을 사용하면 자동 버전 관리와 CHANGELOG 생성이 가능합니다")
    (js "Conventional Commits Specification") standard_organization
    (js "https://www.conventionalcommits.org/")
    (js "2024-01") None (js "development") true].

Definition defaultEvidence : list VerifiedEvidence :=
  evidence_languages ++ evidence_security ++ evidence_devops ++ evidence_architecture ++ evidence_testing ++ evidence_database ++ evidence_state_management ++ evidence_api_design ++ evidence_auth ++ evidence_frontend ++ evidence_backend ++ evidence_logging ++ evidence_cicd ++ evidence_containers ++ evidence_quality ++ evidence_errors ++ evidence_messaging ++ evidence_security_more ++ evidence_performance ++ evidence_orm ++ evidence_versioning.
