(* ===== verification/EvidenceSource.v ===== *)
(** * What the opinion service needs from a store of evidence

    [OpinionService] is given an [EvidenceRepository] by its constructor and
    calls [getConfig], [setConfig] and [findRelevantEvidence].  The interface
    states these operations and the promises the service relies on: every
    result is supported (what that means is the store's to say), and the
    results come best first. *)

From stdpp Require Import base list sorting.
From Stdlib Require Import ZArith.
From S2P Require Import Prelude JsString EvidenceData.

(** [Partial<OpinionConfig>]: the fields that are given *)
Record PartialConfig := mkPartial {
  p_threshold : option Z;
  p_age : option Z;
  p_participants : option Z;
  p_enabled : option bool;
}.

Definition merge_config (c : OpinionConfig) (p : PartialConfig) : OpinionConfig :=
  mkConfig (default (minConfidenceThreshold c) (p_threshold p))
           (default (maxEvidenceAgeMonths c) (p_age p))
           (default (minSurveyParticipants c) (p_participants p))
           (default (enabled c) (p_enabled p)).

Class EvidenceSource (S : Type) := {
  es_getConfig : S -> OpinionConfig;
  es_setConfig : S -> PartialConfig -> S;
  es_find : S -> Z -> jsstr -> list EvidenceMatchResult;
  (** when a match may be used as an argument for a text at a time *)
  es_supported : S -> Z -> jsstr -> EvidenceMatchResult -> Prop;
  es_find_supported s now text m : m ∈ es_find s now text -> es_supported s now text m;
  es_find_sorted s now text : StronglySorted (fun a b => confidence b <= confidence a) (es_find s now text);
  es_config_set s p : es_getConfig (es_setConfig s p) = merge_config (es_getConfig s) p;
}.
