(* ===== verification/Evidence.v ===== *)
(** * The evidence repository

    [src/agent/evidence/evidence.repository.ts]: the map of verified facts,
    its configuration, validity of an item at a point in time, the matching
    score and the search that the opinion service uses.  Dates are the
    [YYYY-MM] strings of the data; a date that is not of that form is [NaN]
    in every comparison.  The current time and the offset of the local time
    zone are arguments. *)

From stdpp Require Import base list strings option sorting.
From Stdlib Require Import ZArith QArith Qminmax Lia Lqa.
From S2P Require Import Prelude JsString Dates JsMap EvidenceData EvidenceSource.

#[local] Open Scope Z_scope.

(* ------------------------------------------------------------------ *)
(** ** Dates *)

Definition digit_value (c : Z) : option Z := if (48 <=? c) && (c <=? 57) then Some (c - 48) else None.

(** [new Date(s).getTime()] on a [YYYY-MM] string: midnight UTC of the first
    day; [None] for [NaN] *)
Definition date_time (s : jsstr) : option Z :=
  match s with
  | [a; b; c; d; 45; e; f] =>
    a ← digit_value a; b ← digit_value b; c ← digit_value c; d ← digit_value d;
    e ← digit_value e; f ← digit_value f;
    let y := 1000 * a + 100 * b + 10 * c + d in
    let m := 10 * e + f in
    if (1 <=? m) && (m <=? 12) then Some (days_from_month y m * MS_PER_DAY) else None
  | _ => None
  end.

Example date_time_ex :
  date_time (js "2024-05") = Some 1714521600000 /\ date_time (js "2024-13") = None /\
  month_index (1714521600000 / MS_PER_DAY) = 12 * 2024 + 4.
Proof. vm_compute. auto. Qed.

(* ------------------------------------------------------------------ *)
(** ** The repository *)

Record Repository := mkRepository {
  evidenceMap : jsmap jsstr VerifiedEvidence;
  config : OpinionConfig;
}.

Definition initializeDefaultEvidence : jsmap jsstr VerifiedEvidence :=
  foldl (fun m e => map_set m (id e) e) [] defaultEvidence.

Definition new_repository : Repository := mkRepository initializeDefaultEvidence DEFAULT_OPINION_CONFIG.

Definition setConfig (r : Repository) (c : PartialConfig) : Repository :=
  mkRepository (evidenceMap r) (merge_config (config r) c).

Definition getConfig (r : Repository) : OpinionConfig := config r.
Definition getAll (r : Repository) : list VerifiedEvidence := List.filter isActive (map_values (evidenceMap r)).
Definition getById (r : Repository) (i : jsstr) : option VerifiedEvidence := map_get (evidenceMap r) i.
Definition getByCategory (r : Repository) (c : jsstr) : list VerifiedEvidence :=
  List.filter (fun e => bool_decide (category e = c)) (getAll r).

Definition add (r : Repository) (e : VerifiedEvidence) : Repository :=
  mkRepository (map_set (evidenceMap r) (id e) e) (config r).

Definition set_inactive (e : VerifiedEvidence) : VerifiedEvidence :=
  mkEvidence (id e) (topic e) (keywords e) (fact e) (sourceName e) (sourceType e) (sourceUrl e)
    (verifiedDate e) (participantCount e) (category e) false.

Definition deactivate (r : Repository) (i : jsstr) : Repository * bool :=
  match map_get (evidenceMap r) i with
  | Some e => (mkRepository (map_set (evidenceMap r) i (set_inactive e)) (config r), true)
  | None => (r, false)
  end.

(* ------------------------------------------------------------------ *)
(** ** Validity *)

Definition enough_participants (c : OpinionConfig) (e : VerifiedEvidence) : bool :=
  match participantCount e with
  | Some n => negb (n =? 0) && (minSurveyParticipants c <=? n)
  | None => false
  end.

Definition maxAgeMs (c : OpinionConfig) : Z := maxEvidenceAgeMonths c * 30 * MS_PER_DAY.

Definition too_old (c : OpinionConfig) (now : Z) (e : VerifiedEvidence) : bool :=
  match date_time (verifiedDate e) with
  | Some t => maxAgeMs c <? now - t
  | None => false
  end.

Definition isEvidenceValid (c : OpinionConfig) (now : Z) (e : VerifiedEvidence) : bool :=
  if negb (isActive e) then false
  else if too_old c now e then false
  else if bool_decide (sourceType e = large_survey) then enough_participants c e
  else true.

(* ------------------------------------------------------------------ *)
(** ** Scores *)

Definition getKeywordWeight (keyword : jsstr) : Z :=
  if (6 <=? length keyword)%nat then 3 else if (4 <=? length keyword)%nat then 2 else 1.

Definition getSourceTypeBonus (t : EvidenceSourceType) : Z :=
  match t with
  | standard_organization => 20
  | official_announcement => 18
  | large_survey => 15
  | academic_paper => 15
  | statistics_agency => 12
  end.

Definition keyword_found (normalizedText keyword : jsstr) : bool := includes normalizedText (to_lower keyword).

Definition matched_keywords (normalizedText : jsstr) (e : VerifiedEvidence) : list jsstr :=
  List.filter (keyword_found normalizedText) (keywords e).

Definition keyword_score (matched : list jsstr) : Z :=
  foldl (fun score k => score + getKeywordWeight k) 0 matched.

Definition topic_words (e : VerifiedEvidence) : list jsstr := split_char 32 (to_lower (topic e)).

Definition topic_match_count (normalizedText : jsstr) (e : VerifiedEvidence) : Z :=
  Z.of_nat (length (List.filter (fun w => (1 <? length w)%nat && includes normalizedText w) (topic_words e))).

Section Clock.
(** The offset of local time from UTC, in milliseconds, at an instant *)
Context (tz : Z -> Z).

Definition local_month (t : Z) : Z := month_index ((t + tz t) / MS_PER_DAY).

(** [None] is [NaN] *)
Definition getAgeInMonths (now : Z) (date : jsstr) : option Z :=
  (fun t => local_month now - local_month t) <$> date_time date.

Definition recency_bonus (age : option Z) : Z :=
  match age with
  | Some m => if m <=? 6 then 5 else if m <=? 12 then 3 else 0
  | None => 0
  end.

Definition calculateConfidence (now keywordScore topicMatchCount totalTopicWords : Z) (e : VerifiedEvidence) : Z :=
  let topicRatio := (inject_Z topicMatchCount / inject_Z (Z.max totalTopicWords 1))%Q in
  let confidence := (inject_Z (Z.min (keywordScore * 10) 50) + topicRatio * 30
    + inject_Z (getSourceTypeBonus (sourceType e))
    + inject_Z (recency_bonus (getAgeInMonths now (verifiedDate e))))%Q in
  Z.min (math_round confidence) 100.

(** The score of an item against a text in lower case *)
Definition score (now : Z) (normalizedText : jsstr) (e : VerifiedEvidence) : Z :=
  calculateConfidence now (keyword_score (matched_keywords normalizedText e))
    (topic_match_count normalizedText e) (Z.of_nat (length (topic_words e))) e.

(** The body of the loop of [findRelevantEvidence] *)
Definition match_evidence (c : OpinionConfig) (now : Z) (normalizedText : jsstr) (e : VerifiedEvidence)
  : option EvidenceMatchResult :=
  if negb (isEvidenceValid c now e) then None
  else
    let matchedKeywords := matched_keywords normalizedText e in
    let confidence := score now normalizedText e in
    if (50 <=? confidence) && negb (length matchedKeywords =? 0)%nat
    then Some (mkMatch e confidence matchedKeywords) else None.

Definition by_confidence (a b : EvidenceMatchResult) : bool := confidence b <=? confidence a.

Definition findRelevantEvidence (r : Repository) (now : Z) (text : jsstr) : list EvidenceMatchResult :=
  ssort by_confidence (omap (match_evidence (config r) now (to_lower text)) (getAll r)).
End Clock.

(* ------------------------------------------------------------------ *)
(** ** Properties of the scores *)

Lemma weight_bounds k : 1 <= getKeywordWeight k <= 3.
Proof. unfold getKeywordWeight. repeat case_match; lia. Qed.

Lemma keyword_score_from l n : n + Z.of_nat (length l) <= foldl (fun score k => score + getKeywordWeight k) n l.
Proof.
  revert n. induction l as [|k l IH]; intros n; simpl; [lia|].
  pose proof (weight_bounds k). specialize (IH (n + getKeywordWeight k)). lia.
Qed.

Lemma keyword_score_length l : Z.of_nat (length l) <= keyword_score l.
Proof. apply (keyword_score_from l 0). Qed.

Lemma topic_match_count_le text e :
  0 <= topic_match_count text e <= Z.of_nat (length (topic_words e)).
Proof. unfold topic_match_count. pose proof (length_bfilter (fun w => (1 <? length w)%nat && includes text w) (topic_words e)). lia. Qed.

Lemma source_bonus_bounds t : 12 <= getSourceTypeBonus t <= 20.
Proof. destruct t; simpl; lia. Qed.

Lemma recency_bonus_bounds a : 0 <= recency_bonus a <= 5.
Proof. unfold recency_bonus. repeat case_match; lia. Qed.

Lemma topic_ratio_bounds (a n : Z) :
  0 <= a <= n -> 0 < n -> (0 <= inject_Z a / inject_Z (Z.max n 1) /\ inject_Z a / inject_Z (Z.max n 1) <= 1)%Q.
Proof.
  intros Ha Hn. replace (Z.max n 1) with n by lia.
  assert (0 < inject_Z n)%Q by (rewrite <- (Zlt_Qlt 0); lia).
  split; [apply Qle_shift_div_l|apply Qle_shift_div_r]; try done; rewrite ?Qmult_0_l, ?Qmult_1_l;
    [rewrite <- (Zle_Qle 0)|rewrite <- Zle_Qle]; lia.
Qed.

Lemma topic_words_pos e : 0 < Z.of_nat (length (topic_words e)).
Proof.
  unfold topic_words, split_char. pose proof (split_on_not_nil (Z.eqb 32) (to_lower (topic e))).
  destruct (split_on _ _); simpl; [done|lia].
Qed.

(** The score is a percentage; with a matched keyword it is at least 22. *)
Lemma score_bounds tz now text e :
  matched_keywords text e <> [] -> 22 <= score tz now text e <= 100.
Proof.
  intros Hm. unfold score, calculateConfidence.
  pose proof (keyword_score_length (matched_keywords text e)).
  assert (1 <= Z.of_nat (length (matched_keywords text e))) by (destruct (matched_keywords text e); simpl; [done|lia]).
  pose proof (topic_ratio_bounds _ _ (topic_match_count_le text e) (topic_words_pos e)) as [Hr1 Hr2].
  set (ratio := (inject_Z _ / _)%Q) in *. clearbody ratio.
  pose proof (source_bonus_bounds (sourceType e)). pose proof (recency_bonus_bounds (getAgeInMonths tz now (verifiedDate e))).
  set (kw := Z.min _ 50). assert (10 <= kw) by (unfold kw; lia). clearbody kw.
  split; [|lia]. apply Z.min_glb; [|lia]. unfold math_round. apply math_floor_le.
  assert (10 <= inject_Z kw)%Q by (rewrite <- (Zle_Qle 10); lia).
  assert (12 <= inject_Z (getSourceTypeBonus (sourceType e)))%Q by (rewrite <- (Zle_Qle 12); lia).
  assert (0 <= inject_Z (recency_bonus (getAgeInMonths tz now (verifiedDate e))))%Q by (rewrite <- (Zle_Qle 0); lia).
  change (inject_Z 22) with 22%Q. lra.
Qed.

(* ------------------------------------------------------------------ *)
(** ** The search *)

(** A word occurs in a text *)
Definition occurs (word text : jsstr) : Prop := exists pre post, text = pre ++ word ++ post.

#[export] Instance occurs_dec word text : Decision (occurs word text).
Proof.
  destruct (includes text word) eqn:E; [left; by apply includes_spec|right]. intros H. apply includes_spec in H. congruence.
Defined.

Lemma filter_occurs {A} (P : A -> Prop) `{!forall x, Decision (P x)} (p : A -> bool) l :
  (forall x, p x = true <-> P x) -> List.filter p l = filter P l.
Proof.
  intros Hp. induction l as [|x l IH]; [done|]. rewrite filter_cons. simpl. specialize (Hp x).
  destruct (decide (P x)), (p x); rewrite IH; naive_solver.
Qed.

(** Ten points for every point of the keywords, up to fifty; thirty for the part of the
    topic's words that occur, rounded; the points of the kind of source; and five or
    three for an age of up to six or twelve months *)
Definition percentage (tz : Z -> Z) (now : Z) (text : jsstr) (e : VerifiedEvidence) : Z :=
  let found := filter (fun k => occurs (to_lower k) text) (keywords e) in
  let words := split_char 32 (to_lower (topic e)) in
  let n := Z.of_nat (length words) in
  let a := Z.of_nat (length (filter (fun w => (1 < length w)%nat /\ occurs w text) words)) in
  Z.min 100 (Z.min 50 (10 * foldr Z.add 0 (getKeywordWeight <$> found)) + (60 * a + n) / (2 * n)
             + getSourceTypeBonus (sourceType e) + recency_bonus (getAgeInMonths tz now (verifiedDate e))).

Lemma keyword_score_sum l : keyword_score l = foldr Z.add 0 (getKeywordWeight <$> l).
Proof.
  unfold keyword_score. enough (forall n, foldl (fun score k => score + getKeywordWeight k) n l = n + foldr Z.add 0 (getKeywordWeight <$> l)) as H by apply H.
  induction l as [|k l IH]; intros n; csimpl; [lia|]. rewrite IH. lia.
Qed.

Lemma matched_keywords_occur text e : matched_keywords text e = filter (fun k => occurs (to_lower k) text) (keywords e).
Proof. apply filter_occurs. intros k. apply includes_spec. Qed.

Lemma math_floor_unique (x : Q) (n : Z) : (inject_Z n <= x)%Q -> (x < inject_Z (n + 1))%Q -> math_floor x = n.
Proof. intros H1 H2. pose proof (math_floor_le x n H1). pose proof (math_floor_lt x (n + 1) H2). lia. Qed.

(** Rounding the sum rounds the part of the topic *)
Lemma round_part (k b r a n : Z) :
  0 < n -> math_round (inject_Z k + inject_Z a / inject_Z n * 30 + inject_Z b + inject_Z r)%Q = k + (60 * a + n) / (2 * n) + b + r.
Proof.
  intros Hn. set (q := (60 * a + n) / (2 * n)).
  assert (2 * n * q <= 60 * a + n < 2 * n * (q + 1)) as [H1 H2] by (pose proof (Z.div_mod (60 * a + n) (2 * n) ltac:(lia)); pose proof (Z.mod_pos_bound (60 * a + n) (2 * n) ltac:(lia)); unfold q; nia).
  clearbody q. assert (0 < inject_Z n)%Q as Hq by (rewrite <- (Zlt_Qlt 0); lia).
  assert (inject_Z a / inject_Z n * inject_Z n == inject_Z a)%Q as Hx by (field; lra).
  set (x := (inject_Z a / inject_Z n)%Q) in *. clearbody x.
  rewrite Zle_Qle in H1. rewrite Zlt_Qlt in H2. rewrite ?inject_Z_plus, ?inject_Z_mult in H1, H2.
  rewrite (inject_Z_plus q 1) in H2. rewrite <- Hx in H1, H2. change (inject_Z 60) with 60%Q in *. change (inject_Z 2) with 2%Q in *. change (inject_Z 1) with 1%Q in *.
  assert (inject_Z q <= x * 30 + (1 # 2))%Q by (apply (Qmult_le_r _ _ (2 * inject_Z n)); lra).
  assert (x * 30 + (1 # 2) < inject_Z q + 1)%Q by (apply (Qmult_lt_r _ _ (2 * inject_Z n)); lra).
  unfold math_round. apply math_floor_unique; rewrite ?inject_Z_plus; change (inject_Z 1) with 1%Q; lra.
Qed.

Lemma score_percentage tz now text e : score tz now text e = percentage tz now text e.
Proof.
  unfold score, calculateConfidence, percentage. cbv zeta. rewrite keyword_score_sum, matched_keywords_occur.
  rewrite (Z.min_comm _ 50), (Z.mul_comm _ 10). pose proof (topic_words_pos e) as Hn.
  unfold topic_match_count. rewrite (filter_occurs (fun w => (1 < length w)%nat /\ occurs w text)).
  2: { intros w. rewrite andb_true_iff, includes_spec, Nat.ltb_lt. done. }
  change (split_char 32 (to_lower (topic e))) with (topic_words e). rewrite (Z.max_l (Z.of_nat (length (topic_words e))) 1) by lia.
  by rewrite round_part, Z.min_comm by done.
Qed.

(** What makes a match usable *)
Record supported (tz : Z -> Z) (r : Repository) (now : Z) (text : jsstr) (m : EvidenceMatchResult) : Prop := {
  supp_stored : evidence m ∈ map_values (evidenceMap r);
  supp_active : isActive (evidence m) = true;
  (** an item whose date cannot be read never becomes too old *)
  supp_age : forall t, date_time (verifiedDate (evidence m)) = Some t -> now - t <= maxEvidenceAgeMonths (config r) * 30 * MS_PER_DAY;
  supp_survey : sourceType (evidence m) = large_survey ->
    exists n, participantCount (evidence m) = Some n /\ n <> 0 /\ minSurveyParticipants (config r) <= n;
  supp_keywords : matchedKeywords m = filter (fun k => occurs (to_lower k) (to_lower text)) (keywords (evidence m));
  supp_found : matchedKeywords m <> [];
  supp_confidence : confidence m = percentage tz now (to_lower text) (evidence m);
  supp_enough : 50 <= confidence m <= 100;
}.

Lemma valid_iff c now e :
  isEvidenceValid c now e = true <->
  isActive e = true /\ (forall t, date_time (verifiedDate e) = Some t -> now - t <= maxEvidenceAgeMonths c * 30 * MS_PER_DAY) /\
  (sourceType e = large_survey -> exists n, participantCount e = Some n /\ n <> 0 /\ minSurveyParticipants c <= n).
Proof.
  unfold isEvidenceValid, too_old, enough_participants, maxAgeMs. destruct (isActive e); simpl; [|naive_solver].
  assert ((forall t, date_time (verifiedDate e) = Some t -> now - t <= maxEvidenceAgeMonths c * 30 * MS_PER_DAY) <->
    match date_time (verifiedDate e) with Some t => maxEvidenceAgeMonths c * 30 * MS_PER_DAY <? now - t | None => false end = false) as ->.
  { destruct (date_time _) as [t|]; [rewrite Z.ltb_ge|]; naive_solver. }
  destruct (match date_time _ with Some _ => _ | None => _ end); [naive_solver|].
  case_bool_decide as Hs; [|naive_solver]. destruct (participantCount e) as [n|]; [|naive_solver].
  rewrite andb_true_iff, negb_true_iff, Z.eqb_neq, Z.leb_le. naive_solver.
Qed.

Lemma match_evidence_Some tz c now text e m :
  match_evidence tz c now text e = Some m <->
  isEvidenceValid c now e = true /\ matched_keywords text e <> [] /\ 50 <= score tz now text e /\
  m = mkMatch e (score tz now text e) (matched_keywords text e).
Proof.
  unfold match_evidence. destruct (isEvidenceValid c now e); simpl; [|naive_solver].
  destruct (matched_keywords text e) as [|k ks] eqn:Ek; simpl.
  - rewrite andb_false_r. naive_solver.
  - rewrite andb_true_r. destruct (Z.leb_spec 50 (score tz now text e)); split; intros; simplify_eq; naive_solver lia.
Qed.

Lemma by_confidence_total a b : by_confidence a b = true \/ by_confidence b a = true.
Proof. unfold by_confidence. lia. Qed.
Lemma by_confidence_trans a b c : by_confidence a b = true -> by_confidence b c = true -> by_confidence a c = true.
Proof. unfold by_confidence. lia. Qed.

Lemma find_sorted tz r now text :
  StronglySorted (fun a b => confidence b <= confidence a) (findRelevantEvidence tz r now text).
Proof.
  eapply StronglySorted_weaken; [|apply (ssort_sorted by_confidence by_confidence_total by_confidence_trans)].
  intros a b. unfold by_confidence. lia.
Qed.

Lemma find_iff tz r now text m : m ∈ findRelevantEvidence tz r now text <-> supported tz r now text m.
Proof.
  unfold findRelevantEvidence, getAll.
  rewrite (ssort_perm by_confidence), list_elem_of_omap. setoid_rewrite match_evidence_Some. setoid_rewrite valid_iff.
  setoid_rewrite elem_of_bfilter. split.
  - intros (e & (Hin & Ha) & (_ & Hage & Hsurvey) & Hne & Hs & ->).
    pose proof (score_bounds tz now (to_lower text) e Hne). split; simpl; rewrite <- ?score_percentage, <- ?matched_keywords_occur; done || lia.
  - intros [Hin Ha Hage Hsurvey Hk Hne Hc Hb]. exists (evidence m). rewrite matched_keywords_occur, score_percentage, <- Hk, <- Hc.
    split_and!; try done; [lia|by destruct m].
Qed.


(** The latest date of the default table is June 2024. *)
Lemma default_dates :
  forallb (fun e => match date_time (verifiedDate e), date_time (js "2024-06") with
                    | Some t, Some last => t <=? last
                    | _, _ => false
                    end) (map_values initializeDefaultEvidence) = true.
Proof. vm_compute. reflexivity. Qed.

(** The default evidence runs out: with the default configuration (24
    months, counted as 30 days each) a repository to which nothing was added
    finds nothing, for any text, from 720 days after June 2024 on. *)
Theorem default_evidence_expires (tz : Z -> Z) (now last : Z) (text : jsstr) :
  date_time (js "2024-06") = Some last -> last + 720 * MS_PER_DAY < now ->
  findRelevantEvidence tz new_repository now text = [].
Proof.
  intros Hlast Hnow. pose proof default_dates as Hall. rewrite forallb_Forall, Hlast in Hall.
  unfold findRelevantEvidence, getAll, new_repository. cbn [evidenceMap config].
  revert Hall. generalize (map_values initializeDefaultEvidence). intros l Hall.
  enough (omap (match_evidence tz DEFAULT_OPINION_CONFIG now (to_lower text)) (List.filter isActive l) = []) as -> by done.
  induction Hall as [|e l He _ IH]; [done|]. csimpl. destruct (isActive e) eqn:Ea; csimpl; [|done].
  unfold match_evidence at 1. unfold isEvidenceValid, too_old. rewrite Ea. simpl negb. cbv iota.
  destruct (date_time (verifiedDate e)) as [t|]; [|done]. apply Z.leb_le in He.
  change (maxAgeMs DEFAULT_OPINION_CONFIG) with (720 * MS_PER_DAY).
  rewrite (proj2 (Z.ltb_lt _ _)) by lia. done.
Qed.

Lemma default_evidence_expires_witness :
  findRelevantEvidence (fun _ => 0) new_repository 1780000000000 (js "TypeScript 타입스크립트") = [].
Proof. apply (default_evidence_expires _ _ 1717200000000); vm_compute; reflexivity. Defined.

(** The repository is a source of evidence for the opinion service. *)
#[export] Instance Repository_source (tz : Z -> Z) : EvidenceSource Repository := {
  es_getConfig := getConfig;
  es_setConfig := setConfig;
  es_find := findRelevantEvidence tz;
  es_supported := supported tz;
  es_find_supported := fun s now text m => proj1 (find_iff tz s now text m);
  es_find_sorted := find_sorted tz;
  es_config_set := fun s p => eq_refl;
}.
