(* ===== verification/Opinion.v ===== *)
(** * The opinion service

    [src/agent/evidence/opinion.service.ts]: the bot speaks up by itself only
    when a verified fact supports what it says, and not twice about the same
    fact within five minutes.  The service is modelled against the interface
    [EvidenceSource]; [Repository_source] shows that the repository meets it.
    [Date.now()] is read several times during one call; the model takes one
    time per call.  The two draws of [Math.random] and the locale's number
    format are arguments. *)

From stdpp Require Import base list strings option sorting sets.
From Stdlib Require Import ZArith QArith Lia Lqa.
From S2P Require Import Prelude JsString JsMap EvidenceData EvidenceSource Evidence.

#[local] Open Scope Z_scope.

Definition OPINION_COOLDOWN_MS : Z := 5 * 60 * 1000.

Record OpinionRecord := mkRecord { evidenceId : jsstr; timestamp : Z }.

Record OpinionResult := mkOpinion {
  shouldSpeak : bool;
  response : option jsstr;
  o_evidence : option VerifiedEvidence;
  o_confidence : Z;
  silenceReason : option jsstr;
}.

Definition silent (confidence : Z) (reason : jsstr) : OpinionResult :=
  mkOpinion false None None confidence (Some reason).

(* ------------------------------------------------------------------ *)
(** ** The text of an opinion *)

Section Text.
(** [Number.prototype.toLocaleString] *)
Context (localeString : Z -> jsstr).

Definition formatParticipantCount (count : Z) : jsstr :=
  if 100000 <=? count then js_of_Z (count / 10000) ++ js "만 명"
  else if 10000 <=? count then localeString (count / 1000) ++ js "천 명"
  else localeString count ++ js "명".

(** [l[Math.floor(random * l.length)]] in a template *)
Definition pick (l : list jsstr) (random : Q) : jsstr :=
  default (js "undefined") (l !! Z.to_nat (math_floor (random * inject_Z (Z.of_nat (length l)))%Q)).

Definition closingPhrases : list (jsstr * list jsstr) := [
  (js "security", js <$> ["보안 관점에서 고려해보시는 건 어떨까요?"; "이 방식도 검토해보시면 좋을 것 같습니다."]);
  (js "architecture", js <$> ["아키텍처 설계 시 참고하시면 좋을 것 같아요."; "이런 접근 방식도 고려해보시는 건 어떨까요?"]);
  (js "development", js <$> ["개발하실 때 참고하시면 도움이 될 것 같습니다."; "비슷한 사례에서 많이 사용하는 방식이에요."]);
  (js "database", js <$> ["DB 선택하실 때 참고해보시면 좋겠습니다."; "최근 트렌드를 보면 이런 선택이 많더라고요."]);
  (js "infrastructure", js <$> ["인프라 구성 시 고려해보시면 좋을 것 같아요."; "운영 환경에서 검증된 방식이라 참고하시면 좋겠습니다."]);
  (js "testing", js <$> ["테스트 전략 수립 시 참고해보세요."; "품질 관리 측면에서 도움이 될 것 같습니다."]);
  (js "default", js <$> ["참고하시면 도움이 될 것 같습니다."; "이런 방식도 고려해보시는 건 어떨까요?"])].

Definition default_closing : list jsstr :=
  js <$> ["참고하시면 도움이 될 것 같습니다."; "이런 방식도 고려해보시는 건 어떨까요?"].

Definition getClosingPhrase (category : jsstr) (random : Q) : jsstr :=
  pick (default default_closing (map_get closingPhrases category)) random.

Definition openers (e : VerifiedEvidence) : list jsstr :=
  [js "현재 논의 중인 " ++ topic e ++ js "에 대해서 말씀드리자면,";
   js "지금 말씀하신 내용과 관련해서,";
   js "참고로 말씀드리면,"].

Definition attribution (e : VerifiedEvidence) : jsstr :=
  match sourceType e with
  | large_survey =>
    match participantCount e with
    | Some n => if n =? 0 then sourceName e ++ js " 통계를 보면 "
                else formatParticipantCount n ++ js " 이상이 참여한 " ++ sourceName e ++ js "에 따르면 "
    | None => sourceName e ++ js " 통계를 보면 "
    end
  | official_announcement => sourceName e ++ js "에서 발표한 내용을 보면 "
  | standard_organization => sourceName e ++ js " 권장사항을 참고하시면 "
  | academic_paper => sourceName e ++ js " 연구 결과를 보면 "
  | statistics_agency => sourceName e ++ js " 통계에 따르면, "
  end.

Definition generateOpinionResponse (m : EvidenceMatchResult) (random1 random2 : Q) : jsstr :=
  let e := evidence m in
  pick (openers e) random1 ++ js " " ++ attribution e ++ fact e ++ js "."
    ++ js " " ++ getClosingPhrase (category e) random2.

Record DataChannelOpinion := mkData {
  d_type : jsstr; d_topic : jsstr; d_fact : jsstr; d_source : jsstr; d_sourceUrl : jsstr; d_verifiedDate : jsstr }.

Definition formatForDataChannel (e : VerifiedEvidence) : DataChannelOpinion :=
  mkData (js "AI_OPINION") (topic e) (fact e) (sourceName e) (sourceUrl e) (verifiedDate e).

Lemma attribution_names e : exists l r, attribution e = l ++ sourceName e ++ r.
Proof.
  unfold attribution. destruct (sourceType e).
  - exists [], (js "에서 발표한 내용을 보면 "). rewrite app_nil_l. reflexivity.
  - destruct (participantCount e) as [n|]; [destruct (n =? 0)|].
    + exists [], (js " 통계를 보면 "). rewrite app_nil_l. reflexivity.
    + exists (formatParticipantCount n ++ js " 이상이 참여한 "), (js "에 따르면 "). rewrite <- (assoc_L (++)). reflexivity.
    + exists [], (js " 통계를 보면 "). rewrite app_nil_l. reflexivity.
  - exists [], (js " 연구 결과를 보면 "). rewrite app_nil_l. reflexivity.
  - exists [], (js " 권장사항을 참고하시면 "). rewrite app_nil_l. reflexivity.
  - exists [], (js " 통계에 따르면, "). rewrite app_nil_l. reflexivity.
Qed.

(** Whatever the draws, the text names the source and states the fact. *)
Lemma response_cites m random1 random2 :
  includes (generateOpinionResponse m random1 random2) (sourceName (evidence m)) = true /\
  includes (generateOpinionResponse m random1 random2) (fact (evidence m)) = true.
Proof.
  unfold generateOpinionResponse.
  generalize (pick (openers (evidence m)) random1) (getClosingPhrase (category (evidence m)) random2) (js " ") (js ".").
  intros o c sp dot. split; apply includes_spec.
  - destruct (attribution_names (evidence m)) as (l & r & ->).
    exists (o ++ sp ++ l), (r ++ fact (evidence m) ++ dot ++ sp ++ c). rewrite <- !(assoc_L (++)). reflexivity.
  - exists (o ++ sp ++ attribution (evidence m)), (dot ++ sp ++ c). rewrite <- !(assoc_L (++)). reflexivity.
Qed.
End Text.

(* ------------------------------------------------------------------ *)
(** ** The service *)

Section Service.
Context (localeString : Z -> jsstr).
Context {S : Type} `{!EvidenceSource S}.

Record Service := mkService {
  recentOpinions : jsmap jsstr OpinionRecord;
  evidenceRepository : S;
}.

Definition opinion_key (roomId evidenceId : jsstr) : jsstr := roomId ++ 58 :: evidenceId.

Definition isOnCooldown (s : Service) (now : Z) (roomId evidenceId : jsstr) : bool :=
  match map_get (recentOpinions s) (opinion_key roomId evidenceId) with
  | None => false
  | Some recent => now - timestamp recent <? OPINION_COOLDOWN_MS
  end.

Definition expired (now : Z) (r : OpinionRecord) : bool := OPINION_COOLDOWN_MS * 2 <? now - timestamp r.

Definition delete_keys (m : jsmap jsstr OpinionRecord) (ks : list jsstr) : jsmap jsstr OpinionRecord :=
  foldl map_delete m ks.

Definition cleanupOldRecords (m : jsmap jsstr OpinionRecord) (now : Z) : jsmap jsstr OpinionRecord :=
  delete_keys m (List.filter (fun e => expired now e.2) m).*1.

Definition registerOpinion (s : Service) (now : Z) (roomId evidenceId : jsstr) : Service :=
  mkService
    (cleanupOldRecords (map_set (recentOpinions s) (opinion_key roomId evidenceId) (mkRecord evidenceId now)) now)
    (evidenceRepository s).

Definition analyzeAndRespond (s : Service) (now : Z) (random1 random2 : Q) (roomId conversationText : jsstr)
  : Service * OpinionResult :=
  let config := es_getConfig (evidenceRepository s) in
  if negb (enabled config) then (s, silent 0 (js "Opinion feature is disabled"))
  else if (length (trim conversationText) <? 10)%nat then (s, silent 0 (js "Conversation text too short"))
  else match es_find (evidenceRepository s) now conversationText with
  | [] => (s, silent 0 (js "No relevant evidence found"))
  | bestMatch :: _ =>
    if confidence bestMatch <? minConfidenceThreshold config then
      (s, silent (confidence bestMatch)
        (js "Confidence " ++ js_of_Z (confidence bestMatch) ++ js "% below threshold "
          ++ js_of_Z (minConfidenceThreshold config) ++ js "%"))
    else if isOnCooldown s now roomId (id (evidence bestMatch)) then
      (s, silent (confidence bestMatch) (js "Same evidence recently shared in this room"))
    else
      (registerOpinion s now roomId (id (evidence bestMatch)),
       mkOpinion true (Some (generateOpinionResponse localeString bestMatch random1 random2))
         (Some (evidence bestMatch)) (confidence bestMatch) None)
  end.

Definition clearRoomHistory (s : Service) (roomId : jsstr) : Service :=
  mkService
    (delete_keys (recentOpinions s)
       (List.filter (fun key => starts_with key (roomId ++ js ":")) (map_keys (recentOpinions s))))
    (evidenceRepository s).

Definition setEnabled (s : Service) (b : bool) : Service :=
  mkService (recentOpinions s) (es_setConfig (evidenceRepository s) (mkPartial None None None (Some b))).

Definition isEnabled (s : Service) : bool := enabled (es_getConfig (evidenceRepository s)).

Definition setConfidenceThreshold (s : Service) (threshold : Z) : outcome jsstr Service :=
  if (threshold <? 0) || (100 <? threshold)
  then Throw (js "Confidence threshold must be between 0 and 100")
  else Return (mkService (recentOpinions s)
                 (es_setConfig (evidenceRepository s) (mkPartial (Some threshold) None None None))).

(* ------------------------------------------------------------------ *)
(** ** The records of what was said *)

Lemma delete_keys_get m ks k :
  map_get (delete_keys m ks) k = if bool_decide (k ∈ ks) then None else map_get m k.
Proof.
  unfold delete_keys. revert m. induction ks as [|k' ks IH]; intros m; simpl; [done|].
  rewrite IH. destruct (decide (k = k')) as [->|Hne].
  - rewrite map_get_delete_eq, (bool_decide_eq_true_2 (k' ∈ k' :: ks)) by set_solver. by case_bool_decide.
  - rewrite map_get_delete_ne by done.
    replace (bool_decide (k ∈ k' :: ks)) with (bool_decide (k ∈ ks)) by (apply bool_decide_ext; set_solver). done.
Qed.

Lemma delete_keys_wf m ks : map_wf m -> map_wf (delete_keys m ks).
Proof. unfold delete_keys. revert m. induction ks; simpl; auto with aura. Qed.

(** The clean-up drops exactly the expired records. *)
Lemma cleanup_get m now k :
  map_wf m ->
  map_get (cleanupOldRecords m now) k =
    match map_get m k with Some r => if expired now r then None else Some r | None => None end.
Proof.
  intros Hwf. unfold cleanupOldRecords. rewrite delete_keys_get. case_bool_decide as E.
  - apply list_elem_of_fmap in E as ([k' r] & -> & E). apply elem_of_bfilter in E as [Hin He].
    simpl. rewrite (map_elem_get _ _ _ Hwf Hin). simpl in He. by rewrite He.
  - destruct (map_get m k) as [r|] eqn:Eg; [|done]. destruct (expired now r) eqn:Ee; [|done].
    exfalso. apply E, list_elem_of_fmap. exists (k, r). split; [done|].
    apply elem_of_bfilter. split; [by apply map_get_elem|done].
Qed.

Definition service_wf (s : Service) : Prop := map_wf (recentOpinions s).

Lemma register_get s now roomId i k :
  service_wf s ->
  map_get (recentOpinions (registerOpinion s now roomId i)) k =
    if decide (opinion_key roomId i = k) then Some (mkRecord i now)
    else match map_get (recentOpinions s) k with
         | Some r => if expired now r then None else Some r
         | None => None
         end.
Proof.
  intros Hwf. unfold registerOpinion. simpl. rewrite cleanup_get by auto with aura. rewrite map_get_set.
  case_decide; [|done]. unfold expired, OPINION_COOLDOWN_MS. simpl.
  by rewrite (proj2 (Z.ltb_ge _ _)) by lia.
Qed.

Lemma register_wf s now roomId i : service_wf s -> service_wf (registerOpinion s now roomId i).
Proof. intros Hwf. apply delete_keys_wf. auto with aura. Qed.

Lemma clear_get s roomId k :
  map_get (recentOpinions (clearRoomHistory s roomId)) k =
    if starts_with k (roomId ++ js ":") then None else map_get (recentOpinions s) k.
Proof.
  unfold clearRoomHistory. simpl. rewrite delete_keys_get. case_bool_decide as E.
  - apply elem_of_bfilter in E as [_ ->]. done.
  - destruct (starts_with k _) eqn:Es; [|done].
    destruct (map_get (recentOpinions s) k) eqn:Eg; [|done].
    exfalso. apply E, elem_of_bfilter. split; [|done]. apply map_keys_get. by rewrite Eg.
Qed.

(* ------------------------------------------------------------------ *)
(** ** When the service speaks *)

(** The conditions for speaking, with the match it speaks about *)
Definition speaks_about (s : Service) (now : Z) (roomId text : jsstr) (m : EvidenceMatchResult) : Prop :=
  enabled (es_getConfig (evidenceRepository s)) = true /\ (10 <= length (trim text))%nat /\
  head (es_find (evidenceRepository s) now text) = Some m /\
  minConfidenceThreshold (es_getConfig (evidenceRepository s)) <= confidence m /\
  isOnCooldown s now roomId (id (evidence m)) = false.

Lemma analyze_cases s now r1 r2 roomId text s' r :
  analyzeAndRespond s now r1 r2 roomId text = (s', r) ->
  (shouldSpeak r = false /\ s' = s /\ o_evidence r = None /\ is_Some (silenceReason r)
     /\ (forall m, ~ speaks_about s now roomId text m)) \/
  (exists m, speaks_about s now roomId text m /\ s' = registerOpinion s now roomId (id (evidence m)) /\
     r = mkOpinion true (Some (generateOpinionResponse localeString m r1 r2)) (Some (evidence m)) (confidence m) None).
Proof.
  unfold analyzeAndRespond, speaks_about. destruct (enabled _); simpl.
  2: { intros [= <- <-]. left. split_and!; try done. naive_solver. }
  destruct (Nat.ltb_spec (length (trim text)) 10).
  { intros [= <- <-]. left. split_and!; try done. naive_solver lia. }
  destruct (es_find _ _ _) as [|m ms]; simpl.
  { intros [= <- <-]. left. split_and!; try done. naive_solver. }
  destruct (Z.ltb_spec (confidence m) (minConfidenceThreshold (es_getConfig (evidenceRepository s)))).
  { intros [= <- <-]. left. split_and!; try done. intros m' (_ & _ & [= <-] & ? & _). lia. }
  destruct (isOnCooldown _ _ _ _) eqn:E.
  { intros [= <- <-]. left. split_and!; try done. intros m' (_ & _ & [= <-] & _ & ?). congruence. }
  intros [= <- <-]. right. exists m. done.
Qed.

(** C31: Silence without verified evidence.  The service speaks exactly when it
    is enabled, the text has at least ten characters, the best match reaches
    the threshold and was not given in the room in the last five minutes; it
    then cites the source and the fact of a supported match that no other
    match outranks.  Otherwise it says why and changes nothing. *)
Theorem speaks_only_with_evidence (s s' : Service) (now : Z) (r1 r2 : Q) (roomId text : jsstr) (r : OpinionResult) :
  service_wf s -> analyzeAndRespond s now r1 r2 roomId text = (s', r) ->
  (shouldSpeak r = true <-> exists m, speaks_about s now roomId text m) /\
  (shouldSpeak r = true -> exists m words,
     es_supported (evidenceRepository s) now text m /\ confidence m = o_confidence r /\
     Forall (fun m' => confidence m' <= confidence m) (es_find (evidenceRepository s) now text) /\
     o_evidence r = Some (evidence m) /\ response r = Some words /\
     includes words (sourceName (evidence m)) = true /\ includes words (fact (evidence m)) = true /\
     isOnCooldown s' now roomId (id (evidence m)) = true) /\
  (shouldSpeak r = false -> s' = s /\ is_Some (silenceReason r)).
Proof.
  intros Hwf [(Hf & -> & _ & Hr & Hno)|(m & Hm & -> & ->)]%analyze_cases.
  { rewrite Hf. split_and!; try done. split; [done|]. intros [m Hm]. by apply Hno in Hm. }
  simpl. split_and!; try done; [naive_solver|]. intros _. exists m. eexists.
  destruct Hm as (_ & _ & Hh & _ & _).
  pose proof (es_find_sorted (evidenceRepository s) now text) as Hs.
  pose proof (es_find_supported (evidenceRepository s) now text m) as Hsup.
  destruct (es_find (evidenceRepository s) now text) as [|m' ms]; simplify_eq/=.
  split_and!; try done; try apply response_cites.
  - apply Hsup. by left.
  - apply StronglySorted_inv in Hs as [_ Hs]. constructor; [lia|]. exact Hs.
  - unfold isOnCooldown. rewrite register_get, decide_True by done. simpl.
    unfold OPINION_COOLDOWN_MS. apply Z.ltb_lt. lia.
Qed.

(* ------------------------------------------------------------------ *)
(** ** Executions *)

(** One call of the service; [Store] is any other change of the repository. *)
Inductive Op :=
| Analyze (now : Z) (random1 random2 : Q) (roomId text : jsstr)
| ClearRoom (roomId : jsstr)
| SetEnabled (b : bool)
| SetThreshold (threshold : Z)
| Store (repository : S).

Definition step (s : Service) (op : Op) : Service :=
  match op with
  | Analyze now random1 random2 roomId text => (analyzeAndRespond s now random1 random2 roomId text).1
  | ClearRoom roomId => clearRoomHistory s roomId
  | SetEnabled b => setEnabled s b
  | SetThreshold threshold => catch (setConfidenceThreshold s threshold) (fun _ => s)
  | Store repository => mkService (recentOpinions s) repository
  end.

Definition run_ops (s : Service) (ops : list Op) : Service := foldl step s ops.

Lemma step_wf s op : service_wf s -> service_wf (step s op).
Proof.
  intros Hwf. destruct op as [now q1 q2 roomId text|roomId|b|threshold|r]; simpl; try done.
  - destruct (analyzeAndRespond s now q1 q2 roomId text) as [s' r] eqn:E.
    apply analyze_cases in E as [(_ & -> & _)|(m & _ & -> & _)]; [done|]. by apply register_wf.
  - by apply delete_keys_wf.
  - unfold setConfidenceThreshold. by case_match.
Qed.

(** Times do not decrease. *)
Fixpoint clocked (t : Z) (ops : list Op) : Prop :=
  match ops with
  | [] => True
  | Analyze now _ _ _ _ :: ops' => t <= now /\ clocked now ops'
  | _ :: ops' => clocked t ops'
  end.

Fixpoint last_time (t : Z) (ops : list Op) : Z :=
  match ops with
  | [] => t
  | Analyze now _ _ _ _ :: ops' => last_time now ops'
  | _ :: ops' => last_time t ops'
  end.

(** [clearRoomHistory] calls that reach a key *)
Definition clears (k : jsstr) (op : Op) : bool :=
  match op with ClearRoom roomId => starts_with k (roomId ++ js ":") | _ => false end.

(** Something was said under key [k] at [t], and the service remembers, or
    five minutes have passed. *)
Definition remembers (s : Service) (k : jsstr) (t clock : Z) : Prop :=
  t <= clock /\
  ((exists r, map_get (recentOpinions s) k = Some r /\ t <= timestamp r) \/ t + OPINION_COOLDOWN_MS <= clock).

Lemma register_remembers s k t clock now roomId i :
  service_wf s -> remembers s k t clock -> clock <= now ->
  remembers (registerOpinion s now roomId i) k t now.
Proof.
  intros Hwf [Hle Hr] Hnow. split; [lia|]. rewrite register_get by done.
  destruct Hr as [(r & Hr & Ht)|]; [|right; lia]. case_decide.
  - left. eexists. split; [done|]. simpl. lia.
  - rewrite Hr. destruct (expired now r) eqn:E; [|by eauto].
    right. unfold expired, OPINION_COOLDOWN_MS in *. apply Z.ltb_lt in E. lia.
Qed.

Lemma step_remembers s k t clock op :
  service_wf s -> remembers s k t clock -> clears k op = false -> clocked clock [op] ->
  remembers (step s op) k t (last_time clock [op]).
Proof.
  intros Hwf Hr Hc Ht. destruct op as [now q1 q2 roomId text|roomId|b|threshold|r]; simpl in *; try done.
  - destruct (analyzeAndRespond s now q1 q2 roomId text) as [s' r] eqn:E.
    apply analyze_cases in E as [(_ & -> & _)|(m & _ & -> & _)]; simpl.
    + destruct Hr as [Hle Hr]. split; [lia|]. destruct Hr; [by left|right; lia].
    + apply (register_remembers s k t clock); tauto.
  - unfold remembers in *. rewrite clear_get, Hc. done.
  - unfold setConfidenceThreshold. by case_match.
Qed.

Lemma run_remembers s k t clock ops :
  service_wf s -> remembers s k t clock -> Forall (fun op => clears k op = false) ops -> clocked clock ops ->
  remembers (run_ops s ops) k t (last_time clock ops) /\ service_wf (run_ops s ops).
Proof.
  intros Hwf Hr Hc Ht. unfold run_ops. revert s clock Hwf Hr Ht.
  induction Hc as [|op ops Hop _ IH]; intros s clock Hwf Hr Ht; [done|]. simpl foldl.
  replace (last_time clock (op :: ops)) with (last_time (last_time clock [op]) ops) by by destruct op.
  apply IH; [by apply step_wf|apply step_remembers; try done|]; destruct op; simpl in *; tauto.
Qed.

(** Room names without a colon keep the histories of different rooms apart. *)
Lemma clear_other_room roomId other i :
  58 ∉ roomId -> 58 ∉ other -> other <> roomId -> clears (opinion_key roomId i) (ClearRoom other) = false.
Proof.
  intros H1 H2 Hne. simpl. apply not_true_iff_false. intros Hs%starts_with_spec.
  apply Hne. by eapply key_prefix.
Qed.

(** The bot does not repeat itself.  Between two opinions on the same
    evidence in the same room at least five minutes pass, whatever calls come
    between them in time order, unless the room's history was cleared. *)
Theorem opinions_are_spaced (s : Service) (t u : Z) (q1 q2 q3 q4 : Q) (roomId text1 text2 : jsstr)
    (mid : list Op) (e1 e2 : VerifiedEvidence) :
  service_wf s ->
  let first := Analyze t q1 q2 roomId text1 in
  let before := run_ops s (first :: mid) in
  o_evidence (analyzeAndRespond s t q1 q2 roomId text1).2 = Some e1 ->
  o_evidence (analyzeAndRespond before u q3 q4 roomId text2).2 = Some e2 ->
  id e1 = id e2 ->
  clocked t (mid ++ [Analyze u q3 q4 roomId text2]) ->
  Forall (fun op => clears (opinion_key roomId (id e1)) op = false) mid ->
  u - t >= OPINION_COOLDOWN_MS.
Proof.
  intros Hwf first before H1 H2 Heq Hclk Hmid.
  assert (remembers (step s first) (opinion_key roomId (id e1)) t t /\ service_wf (step s first)) as [Hr Hwf1].
  { split; [|by apply step_wf]. unfold first. simpl.
    destruct (analyzeAndRespond s t q1 q2 roomId text1) as [s' r] eqn:E. simpl in H1.
    apply analyze_cases in E as [(_ & _ & Hn & _ & _)|(m & _ & -> & ->)]; simplify_eq/=.
    split; [lia|]. left. rewrite register_get, decide_True by done. eexists. split; [done|]. simpl. lia. }
  assert (clocked t mid /\ last_time t mid <= u) as [Hc Hu].
  { clear -Hclk. revert t Hclk. induction mid as [|op mid IH]; intros t; simpl; [tauto|]. destruct op; naive_solver. }
  destruct (run_remembers _ _ _ _ _ Hwf1 Hr Hmid Hc) as [[Hle Hrem] Hwf2].
  change (run_ops (step s first) mid) with before in *.
  destruct (analyzeAndRespond before u q3 q4 roomId text2) as [s' r] eqn:E. simpl in H2.
  apply analyze_cases in E as [(_ & _ & Hn & _ & _)|(m & (_ & _ & _ & _ & Hcool) & -> & ->)]; simplify_eq/=.
  unfold isOnCooldown in Hcool. rewrite <- Heq in Hcool.
  destruct Hrem as [(rec & Hg & Ht)|]; [|lia]. rewrite Hg in Hcool. bool_cases. lia.
Qed.
End Service.

(* ------------------------------------------------------------------ *)
(** ** A sample run over the default evidence *)

Definition utc : Z -> Z := fun _ => 0.
#[local] Existing Instance Repository_source.

Definition sample_service : Service (S := Repository) := mkService [] new_repository.
Definition sample_text : jsstr := js "JWT 토큰 유효시간 권장사항이 뭐였죠? access token 만료는요?".
Definition sample_time : Z := 1714521600000.

Definition sample_opinion (s : Service (S := Repository)) (now : Z) : Service * OpinionResult :=
  analyzeAndRespond js_of_Z (EvidenceSource0 := Repository_source utc) s now 0%Q 0%Q (js "room") sample_text.

Lemma speaks_only_with_evidence_witness :
  exists m, es_supported (EvidenceSource := Repository_source utc) new_repository sample_time sample_text m /\
    id (evidence m) = js "owasp-session-jwt".
Proof.
  destruct (sample_opinion sample_service sample_time) as [s' r] eqn:E.
  destruct (speaks_only_with_evidence js_of_Z (EvidenceSource0 := Repository_source utc) sample_service s' sample_time 0%Q 0%Q
    (js "room") sample_text r) as (_ & Hs & _).
  - constructor.
  - exact E.
  - assert (shouldSpeak r = true) as Hr.
    { change r with (s', r).2. rewrite <- E. vm_compute. reflexivity. }
    destruct (Hs Hr) as (m & words & Hsup & _ & _ & He & _). exists m. split; [exact Hsup|].
    assert (id <$> o_evidence r = Some (js "owasp-session-jwt")) as Hid.
    { change r with (s', r).2. rewrite <- E. vm_compute. reflexivity. }
    rewrite He in Hid. by injection Hid.
Defined.

Lemma opinions_are_spaced_witness : 300000 >= OPINION_COOLDOWN_MS.
Proof.
  destruct (o_evidence (sample_opinion sample_service sample_time).2) as [e1|] eqn:E1; [|vm_compute in E1; discriminate].
  destruct (o_evidence (sample_opinion (sample_opinion sample_service sample_time).1 (sample_time + 300000)).2)
    as [e2|] eqn:E2; [|vm_compute in E2; discriminate].
  assert (id e1 = js "owasp-session-jwt") as H1 by (vm_compute in E1; injection E1 as <-; reflexivity).
  assert (id e2 = js "owasp-session-jwt") as H2 by (vm_compute in E2; injection E2 as <-; reflexivity).
  replace 300000 with (sample_time + 300000 - sample_time) by reflexivity.
  apply (opinions_are_spaced js_of_Z (EvidenceSource0 := Repository_source utc) sample_service sample_time
    (sample_time + 300000) 0%Q 0%Q 0%Q 0%Q (js "room") sample_text sample_text [] e1 e2).
  - constructor.
  - exact E1.
  - exact E2.
  - by rewrite H1, H2.
  - simpl. unfold sample_time. lia.
  - constructor.
Defined.
