(* ===== verification/Recording.v ===== *)
(** * Recordings

    [src/recording/recording.service.ts].  Two parts: the table of active
    recordings, whose operations wait for LiveKit's egress service between
    the check and the update, and the metadata of a recording (its chapters),
    kept as JSON text in an object store.

    LiveKit and S3 are outside the program.  The egress service answers a
    start with a new identifier or an error, and a stop with the file
    locations or an error; the world of an execution records which egresses
    run.  The object store is an instance of [ObjectStore], whose laws are
    read-after-write for the key written and no effect on other keys. *)

From Stdlib Require Import ZArith QArith Lia.
From stdpp Require Import base strings option sets list.
From S2P Require Import Prelude JsString JsMap Json Records.

#[local] Open Scope Z_scope.
#[local] Open Scope aura_scope.

(* ------------------------------------------------------------------ *)
(** ** Configuration *)

Record Config := mkConfig {
  egressClient : bool;
  s3Bucket : jsstr;
  s3Region : jsstr;
  s3AccessKey : jsstr;
  s3SecretKey : jsstr;
  recordingLocalPath : jsstr;
  ragApiUrl : jsstr;
}.

Definition s3Prefix : jsstr := js "rooms/".

Definition is_set (s : jsstr) : bool := match s with [] => false | _ => true end.

Definition s3_configured (c : Config) : bool := is_set (s3Bucket c) && is_set (s3AccessKey c) && is_set (s3SecretKey c).

(* ------------------------------------------------------------------ *)
(** ** Active recordings *)

Inductive RecordingStatus := STARTING | RECORDING | STOPPING | COMPLETED | FAILED.

Record Recording := mkRecording { egressId : jsstr; startedAt : Z }.

Abbreviation ActiveRecordings := (jsmap jsstr Recording).

Record RecordingResult := mkResult {
  r_egressId : jsstr; r_fileUrl : option jsstr; r_duration : Z; r_status : RecordingStatus }.

Record RecordingInfo := mkInfo {
  i_egressId : jsstr; i_roomId : jsstr; i_status : RecordingStatus; i_startedAt : Z; i_duration : Z }.

Definition getRecordingS3Path (roomId : jsstr) (now : Z) : jsstr :=
  s3Prefix ++ roomId ++ js "/recordings/" ++ js_of_Z now ++ js ".mp4".

(** Where the egress writes: the bucket or a local directory *)
Inductive Output :=
| S3Output (bucket region filepath : jsstr)
| FileOutput (filepath : jsstr).

Definition recording_output (c : Config) (roomId : jsstr) (now : Z) : Output :=
  if s3_configured c then S3Output (s3Bucket c) (s3Region c) (getRecordingS3Path roomId now)
  else FileOutput ((if is_set (recordingLocalPath c) then recordingLocalPath c else js "/tmp/recordings")
                   ++ js "/" ++ roomId ++ js "/recordings/" ++ js_of_Z now ++ js ".mp4").

(** [startRecording] before the egress service is asked *)
Definition begin_start (c : Config) (active : ActiveRecordings) (roomId : jsstr) (now : Z) : outcome jsstr Output :=
  if negb (egressClient c) then Throw (js "EgressClient not initialized. Check LiveKit credentials.")
  else if map_has active roomId then Throw (js "Room " ++ roomId ++ js " is already being recorded")
  else Return (recording_output c roomId now).

(** [startRecording] after its answer *)
Definition finish_start (active : ActiveRecordings) (roomId : jsstr) (now : Z) (answer : outcome jsstr jsstr)
  : ActiveRecordings * outcome jsstr (jsstr * RecordingStatus) :=
  match answer with
  | Return i => (map_set active roomId (mkRecording i now), Return (i, RECORDING))
  | Throw e => (active, Throw (js "Failed to start recording: " ++ e))
  end.

Definition begin_stop (c : Config) (active : ActiveRecordings) (roomId : jsstr) : outcome jsstr Recording :=
  if negb (egressClient c) then Throw (js "EgressClient not initialized")
  else match map_get active roomId with
       | None => Throw (js "No active recording found for room " ++ roomId)
       | Some recording => Return recording
       end.

Definition duration (now : Z) (r : Recording) : Z := (now - startedAt r) / 1000.

(** The answer to a stop is the list of file locations. *)
Definition finish_stop (active : ActiveRecordings) (roomId : jsstr) (recording : Recording) (now : Z)
    (answer : outcome jsstr (list jsstr)) : ActiveRecordings * outcome jsstr RecordingResult :=
  (map_delete active roomId,
   match answer with
   | Return files => Return (mkResult (egressId recording) (head files) (duration now recording) COMPLETED)
   | Throw e => Throw (js "Failed to stop recording: " ++ e)
   end).

Definition getRecordingStatus (active : ActiveRecordings) (roomId : jsstr) (now : Z) : option RecordingInfo :=
  (fun r => mkInfo (egressId r) roomId RECORDING (startedAt r) (duration now r)) <$> map_get active roomId.

Definition isRecording (active : ActiveRecordings) (roomId : jsstr) : bool := map_has active roomId.

(* ------------------------------------------------------------------ *)
(** ** Executions *)

(** The service, the egresses that run, and the calls that wait.  Of the egress service the
    identifiers it has ever given out are kept, the egresses that ended by themselves (as they
    do when their room closes), and those that a failed call has left behind. *)
Record World := mkWorld {
  active : ActiveRecordings;
  running : list jsstr;
  issued : list jsstr;
  ended : list jsstr;
  orphans : list jsstr;
  starting : list jsstr;
  stopping : list (jsstr * Recording);
}.

#[export] Instance eta_world : Eta World :=
  fun w => mkWorld (active w) (running w) (issued w) (ended w) (orphans w) (starting w) (stopping w).

(** A start that fails, for example because its answer is lost, may have left an egress; of
    a stop that fails it is not known whether it took effect. *)
Inductive Event :=
| BeginStart (roomId : jsstr) (now : Z)
| Started (roomId id : jsstr) (now : Z)
| StartFailed (roomId : jsstr) (e : jsstr) (now : Z) (leaves : option jsstr)
| BeginStop (roomId : jsstr)
| Stopped (roomId : jsstr) (r : Recording) (files : list jsstr) (now : Z)
| StopFailed (roomId : jsstr) (r : Recording) (e : jsstr) (now : Z)
| Ended (id : jsstr).

Fixpoint remove_one {A} `{EqDecision A} (x : A) (l : list A) : list A :=
  match l with
  | [] => []
  | y :: l' => if decide (x = y) then l' else y :: remove_one x l'
  end.

#[export] Instance Recording_eq_dec : EqDecision Recording.
Proof. solve_decision. Defined.

(** A new egress *)
Definition launch (w : World) (id : jsstr) : World := w <| running := running w ++ [id] |> <| issued := issued w ++ [id] |>.

(** [None]: the event cannot happen.  A new egress has an identifier that was
    never given out. *)
Definition step (c : Config) (w : World) (ev : Event) : option World :=
  match ev with
  | BeginStart roomId now =>
    Some match begin_start c (active w) roomId now with
         | Throw _ => w
         | Return _ => w <| starting := starting w ++ [roomId] |>
         end
  | Started roomId id now =>
    if bool_decide (roomId ∈ starting w) && negb (bool_decide (id ∈ issued w)) then
      Some ((launch w id) <| active := (finish_start (active w) roomId now (Return id)).1 |> <| starting := remove_one roomId (starting w) |>)
    else None
  | StartFailed roomId e now leaves =>
    let w' := w <| active := (finish_start (active w) roomId now (Throw e)).1 |> <| starting := remove_one roomId (starting w) |> in
    if negb (bool_decide (roomId ∈ starting w)) then None
    else match leaves with
         | None => Some w'
         | Some id => if bool_decide (id ∈ issued w) then None else Some ((launch w' id) <| orphans := orphans w ++ [id] |>)
         end
  | BeginStop roomId =>
    Some match begin_stop c (active w) roomId with
         | Throw _ => w
         | Return r => w <| stopping := stopping w ++ [(roomId, r)] |>
         end
  | Stopped roomId r files now =>
    if bool_decide ((roomId, r) ∈ stopping w) then
      Some (w <| active := (finish_stop (active w) roomId r now (Return files)).1 |>
              <| running := remove_one (egressId r) (running w) |> <| stopping := remove_one (roomId, r) (stopping w) |>)
    else None
  | StopFailed roomId r e now =>
    if bool_decide ((roomId, r) ∈ stopping w) then
      Some (w <| active := (finish_stop (active w) roomId r now (Throw e)).1 |>
              <| orphans := orphans w ++ [egressId r] |> <| stopping := remove_one (roomId, r) (stopping w) |>)
    else None
  | Ended id =>
    if bool_decide (id ∈ running w) then Some (w <| running := remove_one id (running w) |> <| ended := ended w ++ [id] |>) else None
  end.

Definition run (c : Config) (w : World) (evs : list Event) : option World :=
  foldl (fun o ev => w ← o; step c w ev) (Some w) evs.

Definition initial : World := mkWorld [] [] [] [] [] [] [].

(** *** One call of a room at a time *)

(** A call begins only when no other of its room waits; calls of other rooms may *)
Definition apart (w : World) (ev : Event) : bool :=
  match ev with
  | BeginStart roomId _ | BeginStop roomId => bool_decide (roomId ∉ starting w) && bool_decide (roomId ∉ (stopping w).*1)
  | _ => true
  end.

Definition run_apart (c : Config) (w : World) (evs : list Event) : option World :=
  foldl (fun o ev => w ← o; if apart w ev then step c w ev else None) (Some w) evs.

(** The egresses of the rooms that are marked as recording *)
Definition marked (w : World) : list jsstr := egressId <$> map_values (active w).

(** What is promised: no two rooms share an egress, and the egresses that run are those of
    the marked rooms and those left by failed calls, less those that ended by themselves *)
Record tracked (w : World) : Prop := {
  tr_rooms : map_wf (active w);
  tr_marked : NoDup (marked w);
  tr_running : forall id, id ∈ running w <-> (id ∈ marked w \/ id ∈ orphans w) /\ id ∉ ended w;
}.

(** With it, the state of the egress service and of the calls that wait *)
Record consistent (w : World) : Prop := {
  co_tracked : tracked w;
  co_running : NoDup (running w);
  co_issued : marked w ++ orphans w ++ ended w ⊆ issued w;
  co_orphans : forall id, id ∈ marked w -> id ∉ orphans w;
  co_starting : NoDup (starting w) /\ forall k, k ∈ starting w -> map_get (active w) k = None;
  co_stopping : NoDup (stopping w).*1 /\ forall k r, (k, r) ∈ stopping w -> map_get (active w) k = Some r;
}.

Lemma remove_one_perm {A} `{EqDecision A} (x : A) (l : list A) : x ∈ l -> x :: remove_one x l ≡ₚ l.
Proof.
  induction l as [|y l IH]; [by intros ?%not_elem_of_nil|]. intros [->|Hx]%elem_of_cons; simpl.
  - by rewrite decide_True.
  - case_decide; [by subst|]. rewrite Permutation_swap. by rewrite IH.
Qed.

Lemma elem_of_remove_one {A} `{EqDecision A} (x y : A) (l : list A) : NoDup l -> y ∈ remove_one x l <-> y ∈ l /\ y <> x.
Proof.
  induction 1 as [|z l Hz _ IH]; simpl; [set_solver|]. case_decide as Hx; [subst|]; rewrite ?elem_of_cons, ?IH; split; intros; set_solver.
Qed.

Lemma NoDup_remove_one {A} `{EqDecision A} (x : A) (l : list A) : NoDup l -> NoDup (remove_one x l).
Proof.
  intros H. pose proof H as H'. induction H as [|z l Hz Hl IH]; simpl; [constructor|]. case_decide; [done|].
  constructor; [|auto]. rewrite elem_of_remove_one by done. naive_solver.
Qed.

(** The identifiers of the active recordings after an update *)
Lemma values_set_fresh (m : ActiveRecordings) k r :
  map_get m k = None -> egressId <$> map_values (map_set m k r) ≡ₚ egressId r :: (egressId <$> map_values m).
Proof.
  intros Hn. rewrite map_set_absent by done. unfold map_values. rewrite !fmap_app. simpl.
  by rewrite Permutation_app_comm.
Qed.

Lemma values_delete (m : ActiveRecordings) k r :
  map_wf m -> map_get m k = Some r ->
  egressId r :: (egressId <$> map_values (map_delete m k)) ≡ₚ egressId <$> map_values m.
Proof.
  induction m as [|[k' r'] m IH]; [done|]. intros Hwf Hg. unfold map_wf, map_keys in *. simpl in Hwf, Hg.
  apply NoDup_cons in Hwf as [Hni Hwf]. destruct (decide (k = k')) as [->|Hne].
  - injection Hg as ->. assert (map_delete ((k', r) :: m) k' = m) as ->; [|done].
    unfold map_delete. rewrite filter_cons_False by naive_solver.
    apply (map_delete_absent m k'). destruct (map_get m k') eqn:E; [|done].
    exfalso. apply Hni, map_keys_get. by rewrite E.
  - assert (map_delete ((k', r') :: m) k = (k', r') :: map_delete m k) as ->.
    { unfold map_delete. rewrite filter_cons_True by naive_solver. done. }
    simpl. rewrite Permutation_swap. by rewrite IH.
Qed.

(** The end of a call that waits *)
Lemma stopping_done w roomId r :
  consistent w -> (roomId, r) ∈ stopping w ->
  map_get (active w) roomId = Some r /\ egressId r :: (egressId <$> map_values (map_delete (active w) roomId)) ≡ₚ marked w /\
  NoDup (remove_one (roomId, r) (stopping w)).*1 /\
  forall k r', (k, r') ∈ remove_one (roomId, r) (stopping w) -> map_get (map_delete (active w) roomId) k = Some r'.
Proof.
  intros [[Hm _ _] _ _ _ _ [Hnd Hst]] Hin. pose proof (Hst _ _ Hin) as Hg. split; [done|]. split; [by apply values_delete|].
  pose proof (remove_one_perm _ _ Hin) as Hp. pose proof (fmap_Permutation fst _ _ Hp) as Hf. rewrite <- Hf in Hnd.
  apply NoDup_cons in Hnd as [Hni Hnd]. split; [done|]. intros k r' Hk. assert (k <> roomId) as Hne.
  { intros ->. apply Hni. apply list_elem_of_fmap. by exists (roomId, r'). }
  rewrite map_get_delete_ne by done. apply Hst. rewrite <- Hp. by right.
Qed.

Lemma started_consistent w roomId id now :
  consistent w -> roomId ∈ starting w -> id ∉ issued w ->
  consistent ((launch w id) <| active := map_set (active w) roomId (mkRecording id now) |> <| starting := remove_one roomId (starting w) |>).
Proof.
  intros [[Hm Hnd Hr] Hrn Hi Ho [Hns Hs] [Hnp Hp]] Hin Hf. pose proof (Hs _ Hin) as Hg.
  pose proof (values_set_fresh (active w) roomId (mkRecording id now) Hg) as Hv. cbn [egressId] in Hv.
  assert (forall x, x ∈ marked w \/ x ∈ orphans w \/ x ∈ ended w -> x <> id) as Hne by (intros x Hx ->; apply Hf, Hi; set_solver).
  split; [split|..]; unfold marked in *; simpl; rewrite ?Hv.
  - by apply map_wf_set.
  - constructor; [|done]. intros H. by apply (Hne id); [left|].
  - intros x. rewrite Hv, elem_of_app, list_elem_of_singleton, elem_of_cons, Hr. split; [|naive_solver].
    intros [H| ->]; [naive_solver|]. split; [naive_solver|]. intros H. by apply (Hne id); [right; right|].
  - apply NoDup_app. split; [done|]. split; [|apply NoDup_singleton]. intros x Hx ->%list_elem_of_singleton. apply Hr in Hx as [Hx _]. by apply (Hne id); [naive_solver|].
  - set_solver.
  - intros x. rewrite Hv. intros [->|Hx]%elem_of_cons; [|auto]. intros H. by apply (Hne id); [right; left|].
  - split; [by apply NoDup_remove_one|]. intros k [Hk Hkr]%elem_of_remove_one; [|done]. rewrite map_get_set_ne by done. auto.
  - split; [done|]. intros k r' Hk. rewrite map_get_set_ne; [auto|]. intros ->. apply Hp in Hk. congruence.
Qed.

Lemma orphan_consistent w id : consistent w -> id ∉ issued w -> consistent ((launch w id) <| orphans := orphans w ++ [id] |>).
Proof.
  intros [[Hm Hnd Hr] Hrn Hi Ho Hs Hp] Hf.
  assert (forall x, x ∈ marked w \/ x ∈ orphans w \/ x ∈ ended w -> x <> id) as Hne by (intros x Hx ->; apply Hf, Hi; set_solver).
  split; [split|..]; unfold marked in *; simpl; try done.
  - intros x. rewrite !elem_of_app, !list_elem_of_singleton, Hr. split; [|naive_solver].
    intros [H| ->]; [naive_solver|]. split; [naive_solver|]. intros H. by apply (Hne id); [right; right|].
  - apply NoDup_app. split; [done|]. split; [|apply NoDup_singleton]. intros x Hx ->%list_elem_of_singleton. apply Hr in Hx as [Hx _]. by apply (Hne id); [naive_solver|].
  - set_solver.
  - intros x Hx [H| ->%list_elem_of_singleton]%elem_of_app; [by eapply Ho|]. by apply (Hne id); [left|].
Qed.

Lemma waiting_done_consistent w roomId : consistent w -> roomId ∈ starting w -> consistent (w <| starting := remove_one roomId (starting w) |>).
Proof.
  intros [[Hm Hnd Hr] Hrn Hi Ho [Hns Hs] Hp] Hin. split; [by split|done..| |done]. split; [by apply NoDup_remove_one|].
  intros k [Hk _]%elem_of_remove_one; [|done]. by apply Hs.
Qed.

(** The entry of a stopped recording is deleted; its egress either ended or is left behind *)
Lemma stopped_consistent w roomId r :
  consistent w -> (roomId, r) ∈ stopping w ->
  consistent (w <| active := map_delete (active w) roomId |> <| running := remove_one (egressId r) (running w) |> <| stopping := remove_one (roomId, r) (stopping w) |>) /\
  consistent (w <| active := map_delete (active w) roomId |> <| orphans := orphans w ++ [egressId r] |> <| stopping := remove_one (roomId, r) (stopping w) |>).
Proof.
  intros Hc Hin. destruct (stopping_done w roomId r Hc Hin) as (Hg & Hv & Hnd' & Hst'). destruct Hc as [[Hm Hnd Hr] Hrn Hi Ho [Hns Hs] [Hnp Hp]].
  assert (forall k, k ∈ starting w -> map_get (map_delete (active w) roomId) k = None) as Hs'.
  { intros k Hk. rewrite map_get_delete_ne; [auto|]. intros ->. apply Hs in Hk. congruence. }
  unfold marked in *. set (rest := egressId <$> map_values (map_delete (active w) roomId)) in *.
  pose proof Hnd as Hnd0. rewrite <- Hv in Hnd0. apply NoDup_cons in Hnd0 as [Hni Hndr].
  assert (forall x, x ∈ egressId <$> map_values (active w) <-> x = egressId r \/ x ∈ rest) as He by (intros x; rewrite <- Hv; apply elem_of_cons).
  pose proof (proj2 (He (egressId r)) (or_introl eq_refl)) as Hx.
  split; (split; [split|..]); unfold marked; simpl; fold rest; try done; try (by apply map_wf_delete).
  - intros x. rewrite elem_of_remove_one, Hr, He by done. specialize (Ho _ Hx). naive_solver.
  - by apply NoDup_remove_one.
  - intros x Hx'. apply Hi. rewrite !elem_of_app in *. rewrite He. naive_solver.
  - intros x Hx'. apply Ho, He. by right.
  - intros x. rewrite elem_of_app, list_elem_of_singleton, Hr, He. naive_solver.
  - intros x Hx'. apply Hi. rewrite !elem_of_app, ?list_elem_of_singleton in *. rewrite He. naive_solver.
  - intros x Hx' [H| ->%list_elem_of_singleton]%elem_of_app; [|done]. eapply Ho; [|exact H]. apply He. by right.
Qed.

Lemma ended_consistent w id :
  consistent w -> id ∈ running w -> consistent (w <| running := remove_one id (running w) |> <| ended := ended w ++ [id] |>).
Proof.
  intros [[Hm Hnd Hr] Hrn Hi Ho Hs Hp] Hin. split; [split|..]; unfold marked in *; simpl; try done.
  - intros x. rewrite elem_of_remove_one, Hr, elem_of_app, list_elem_of_singleton by done. naive_solver.
  - by apply NoDup_remove_one.
  - intros x Hx. apply Hi. rewrite !elem_of_app, ?list_elem_of_singleton in *. apply Hr in Hin. naive_solver.
Qed.

Lemma begin_start_free c m roomId now out : begin_start c m roomId now = Return out -> map_get m roomId = None.
Proof. unfold begin_start, map_has. destruct (negb _); [done|]. by destruct (map_get m roomId). Qed.

Lemma step_consistent c w ev w' : consistent w -> apart w ev = true -> step c w ev = Some w' -> consistent w'.
Proof.
  intros Hc Ha. destruct ev as [roomId now|roomId id now|roomId e now leaves|roomId|roomId r files now|roomId r e now|id]; cbn [step apart] in *.
  - rewrite andb_true_iff, !bool_decide_eq_true in Ha. destruct Ha as [Ha _]. intros [= <-].
    destruct (begin_start c (active w) roomId now) eqn:E; [|done]. apply begin_start_free in E. destruct Hc as [[Hm Hnd Hr] Hrn Hi Ho [Hns Hs] Hp].
    split; [by split|done..| |done]; simpl. split; [apply NoDup_app; split; [done|]; split; [set_solver|apply NoDup_singleton]|].
    intros k [Hk| ->%list_elem_of_singleton]%elem_of_app; auto.
  - case_match eqn:E; [|done]. bool_cases. intros [= <-]. by apply started_consistent.
  - case_match eqn:E; [done|]. bool_cases. destruct leaves as [id|].
    + case_bool_decide; [done|]. intros [= <-]. exact (orphan_consistent _ id (waiting_done_consistent w roomId Hc ltac:(done)) ltac:(done)).
    + intros [= <-]. exact (waiting_done_consistent w roomId Hc ltac:(done)).
  - rewrite andb_true_iff, !bool_decide_eq_true in Ha. destruct Ha as [_ Ha]. intros [= <-].
    destruct (begin_stop c (active w) roomId) as [r|] eqn:E; [|done]. destruct Hc as [[Hm Hnd Hr] Hrn Hi Ho Hs [Hnp Hp]].
    assert (map_get (active w) roomId = Some r) as Hg by (unfold begin_stop in E; repeat case_match; congruence).
    split; [by split|done..|]; simpl. split; [rewrite fmap_app; apply NoDup_app; split; [done|]; split; [set_solver|apply NoDup_singleton]|].
    intros k r' [Hk|[= -> ->]%list_elem_of_singleton]%elem_of_app; auto.
  - case_bool_decide; [|done]. intros [= <-]. exact (proj1 (stopped_consistent w roomId r Hc ltac:(done))).
  - case_bool_decide; [|done]. intros [= <-]. exact (proj2 (stopped_consistent w roomId r Hc ltac:(done))).
  - case_bool_decide; [|done]. intros [= <-]. by apply ended_consistent.
Qed.

(** A failed call that leaves an egress behind *)
Definition leaves_behind (id : jsstr) (ev : Event) : Prop :=
  match ev with StartFailed _ _ _ leaves => leaves = Some id | StopFailed _ r _ _ => egressId r = id | _ => False end.

Lemma step_orphans c w ev w' id : step c w ev = Some w' -> id ∈ orphans w' -> id ∈ orphans w \/ leaves_behind id ev.
Proof.
  destruct ev; cbn [step]; repeat case_match; intros ?; simplify_eq; simpl; rewrite ?elem_of_app, ?list_elem_of_singleton; naive_solver.
Qed.

(** C33: no egress is lost but by a failed call.  In every execution in which the calls of one
    room do not overlap - those of other rooms may, and an egress may end by itself at any
    time - no two rooms share an egress, and the egresses that run are exactly those of the
    rooms marked as recording and those left behind by failed calls, less those that have
    ended by themselves: a room stays marked when its egress ends so, until it is stopped.
    An egress is left behind only by a start that failed although it took effect, or by a
    stop that failed. *)
Theorem recordings_tracked (c : Config) (evs : list Event) (w : World) :
  run_apart c initial evs = Some w ->
  tracked w /\ forall id, id ∈ orphans w -> exists ev, ev ∈ evs /\ leaves_behind id ev.
Proof.
  assert (forall l, foldl (fun (o : option World) ev => w ← o; if apart w ev then step c w ev else None) None l = None) as Hnone
    by (intros l; induction l; simpl; auto).
  assert (consistent initial) as Hi by (repeat split; simpl; try constructor; set_solver).
  intros Hrun. enough (consistent w /\ forall id, id ∈ orphans w -> id ∈ orphans initial \/ exists ev, ev ∈ evs /\ leaves_behind id ev) as [[] H].
  { split; [done|]. intros id [Hid|]%H; [by apply not_elem_of_nil in Hid|done]. }
  unfold run_apart in Hrun. revert Hi Hrun. generalize initial. induction evs as [|ev evs IH]; intros w0 Hi; simpl.
  - intros [= <-]. auto.
  - destruct (apart w0 ev) eqn:Ea; [|by rewrite Hnone]. destruct (step c w0 ev) as [w1|] eqn:E; [|by rewrite Hnone]. intros Hrun.
    destruct (IH w1) as [Hc Ho]; [by eapply step_consistent|done|]. split; [done|]. intros id Hid.
    destruct (Ho id Hid) as [H1|(ev' & Hev & Hl)]; [|right; exists ev'; set_solver]. destruct (step_orphans _ _ _ _ _ E H1); [by left|]. right. exists ev. set_solver.
Qed.

Definition sample_config : Config := mkConfig true (js "b") (js "r") (js "k") (js "s") [] [].

(** Two rooms at the same time, of which one closes, a refused start, and a stop that fails *)
Definition sample_events : list Event :=
  [BeginStart (js "a") 0; BeginStart (js "b") 1; Started (js "b") (js "E1") 2; Started (js "a") (js "E2") 3; BeginStart (js "a") 4;
   Ended (js "E1"); BeginStop (js "a"); StopFailed (js "a") (mkRecording (js "E2") 3) (js "timeout") 9000].

Lemma recordings_tracked_witness :
  exists w, run_apart sample_config initial sample_events = Some w /\ tracked w /\ running w = [js "E2"] /\ isRecording (active w) (js "b") = true.
Proof.
  eexists. split; [vm_compute; reflexivity|]. split; [|split; reflexivity].
  eapply (recordings_tracked sample_config sample_events). vm_compute. reflexivity.
Defined.

(** Two overlapping starts of the same room lose an egress.  The check for
    an active recording comes before the wait for the egress service, so both
    calls pass it; the second answer replaces the entry of the first, whose
    egress keeps running while no room refers to it and no later stop of the
    room can reach it. *)
Theorem start_race_leaks (c : Config) (w : World) (roomId i1 i2 : jsstr) (t1 t2 t3 t4 : Z) :
  egressClient c = true -> consistent w -> starting w = [] -> map_get (active w) roomId = None ->
  i1 ∉ issued w -> i2 ∉ issued w -> i1 <> i2 ->
  exists w', run c w [BeginStart roomId t1; BeginStart roomId t2; Started roomId i1 t3; Started roomId i2 t4] = Some w' /\
    i1 ∈ running w' /\ (forall k r, map_get (active w') k = Some r -> egressId r <> i1) /\
    begin_stop c (active w') roomId = Return (mkRecording i2 t4).
Proof.
  intros Hc Hw Hst Hn H1 H2 Hne.
  assert (forall t, begin_start c (active w) roomId t = Return (recording_output c roomId t)) as Hb.
  { intros t. unfold begin_start, map_has. rewrite Hc, Hn. done. }
  unfold run. cbn [foldl mbind option_bind step]. rewrite Hb. simpl. rewrite Hb. cbn [mbind option_bind]. simpl.
  rewrite Hst. cbn [app]. rewrite (bool_decide_eq_true_2 (roomId ∈ [roomId; roomId])) by set_solver.
  cbn [issued]. rewrite (bool_decide_eq_false_2 (i1 ∈ issued w)) by done.
  cbn [andb negb mbind option_bind remove_one starting issued].
  rewrite decide_True by done. rewrite (bool_decide_eq_true_2 (roomId ∈ [roomId])) by set_solver.
  rewrite (bool_decide_eq_false_2 (i2 ∈ issued w ++ [i1])) by set_solver. cbn [andb negb].
  eexists. split; [reflexivity|]. cbn [active running finish_start fst]. split; [set_solver|]. split.
  - intros k r. rewrite !map_get_set. case_decide; [intros [= <-]; simpl; congruence|].
    intros Hg Hr. apply H1, (co_issued _ Hw), elem_of_app. left. apply list_elem_of_fmap. exists r.
    split; [done|]. by eapply map_get_value.
  - unfold begin_stop. rewrite Hc. cbn [negb]. by rewrite map_get_set_eq.
Qed.

Lemma start_race_leaks_witness :
  exists w', run sample_config initial [BeginStart (js "a") 0; BeginStart (js "a") 1; Started (js "a") (js "E1") 2;
    Started (js "a") (js "E2") 3] = Some w' /\ js "E1" ∈ running w'.
Proof.
  destruct (start_race_leaks sample_config initial (js "a") (js "E1") (js "E2") 0 1 2 3) as (w' & Hr & Hin & _).
  - reflexivity.
  - repeat split; simpl; try constructor; set_solver.
  - reflexivity.
  - reflexivity.
  - apply not_elem_of_nil.
  - apply not_elem_of_nil.
  - discriminate.
  - exists w'. split; [exact Hr|exact Hin].
Defined.

(* ------------------------------------------------------------------ *)
(** ** Metadata *)

(** What the service relies on of the bucket: a successful [put] is seen by the
    next [get] of the key, and touches no other key. *)
Class ObjectStore (S : Type) := {
  put : S -> jsstr -> jsstr -> outcome jsstr S;
  get : S -> jsstr -> outcome jsstr jsstr;
  get_put s k body s' : put s k body = Return s' -> get s' k = Return body;
  get_put_other s k k' body s' : put s k body = Return s' -> k' <> k -> get s' k' = get s k';
}.

Section Metadata.
Context {S : Type} `{!ObjectStore S} (c : Config).
(** the text of a number in a template, and of the engine's type errors *)
Context (number_text : Q -> jsstr) (type_error : jsstr).

Definition recordings_path (roomId fileName : jsstr) : jsstr :=
  s3Prefix ++ roomId ++ js "/recordings/" ++ fileName.

Definition getMetadataS3Key (roomId fileName : jsstr) : jsstr := recordings_path roomId fileName ++ js ".meta.json".

Definition s3_url (key : jsstr) : jsstr :=
  js "https://" ++ s3Bucket c ++ js ".s3." ++ s3Region c ++ js ".amazonaws.com/" ++ key.

(** A parsed body is used without checks; [JNull] is [null]. *)
Definition getRecordingMetadata (s : S) (roomId fileName : jsstr) : json :=
  if negb (s3_configured c) then JNull
  else match get s (getMetadataS3Key roomId fileName) with
       | Throw _ => JNull
       | Return [] => JNull
       | Return body => default JNull (parse body)
       end.

Definition saveRecordingMetadata (s : S) (roomId : jsstr) (metadata : json) : S * bool :=
  if negb (s3_configured c) then (s, false)
  else match put s (getMetadataS3Key roomId (to_text number_text (prop metadata (js "fileName")))) (stringify2 metadata) with
       | Return s' => (s', true)
       | Throw _ => (s, false)
       end.

(** An object literal of the service; [undefined] fields leave no trace in the
    stored text, and the start time [NaN] (here [Some None]) is stored as [null]. *)
Definition new_metadata (roomId fileName fileUrl : jsstr) (fileSize : Z) (recordingStartTime : option (option Z)) (now : jsstr) : json :=
  JObj ([(js "roomId", JStr roomId); (js "fileName", JStr fileName); (js "fileUrl", JStr fileUrl);
         (js "fileSize", JNum (inject_Z fileSize))]
        ++ opt_field "recordingStartTime" ((fun t => match t with Some t => JNum (inject_Z t) | None => JNull end) <$> recordingStartTime)
        ++ [(js "chapters", JArr []); (js "createdAt", JStr now); (js "updatedAt", JStr now)]).

Definition createRecordingMetadata (s : S) (roomId fileName fileUrl : jsstr) (fileSize : Z)
    (recordingStartTime : option (option Z)) (now : jsstr) : S * json :=
  let metadata := new_metadata roomId fileName fileUrl fileSize recordingStartTime now in
  ((saveRecordingMetadata s roomId metadata).1, metadata).

(** A chapter; its times come from outside and may be any value or missing. *)
Record VideoChapter := mkChapter { title : jsstr; startTime : option json; endTime : option json }.

Definition chapter_json (ch : VideoChapter) : json :=
  JObj ([(js "title", JStr (title ch))] ++ opt_field "startTime" (startTime ch) ++ opt_field "endTime" (endTime ch)).

Definition chapters_json (chapters : list VideoChapter) : json := JArr (chapter_json <$> chapters).

(** Assignment to a property: on an array the text keeps only the elements, on
    a primitive value it is a type error. *)
Definition set_prop (v : json) (key : jsstr) (x : json) : outcome jsstr json :=
  match v with
  | JObj fs => Return (JObj (map_set fs key x))
  | JArr l => Return (JArr l)
  | _ => Throw type_error
  end.

Definition success_message (n : nat) : jsstr := js_of_Z (Z.of_nat n) ++ js "개 챕터가 저장되었습니다.".

(** [updateRecordingChapters] after it has waited for the stored metadata: [loaded] is what
    was read, [s] the store when it is written, which other requests may have changed since *)
Definition write_chapters (s : S) (loaded : json) (roomId fileName : jsstr) (chapters : list VideoChapter) (now : jsstr)
  : outcome jsstr (S * (bool * jsstr)) :=
  let metadata :=
    if json_truthy (Some loaded) then loaded
    else JObj [(js "roomId", JStr roomId); (js "fileName", JStr fileName);
               (js "fileUrl", JStr (s3_url (recordings_path roomId fileName)));
               (js "fileSize", JNum 0); (js "chapters", JArr []);
               (js "createdAt", JStr now); (js "updatedAt", JStr now)] in
  metadata <-- set_prop metadata (js "chapters") (chapters_json chapters) ;;
  metadata <-- set_prop metadata (js "updatedAt") (JStr now) ;;
  let '(s', success) := saveRecordingMetadata s roomId metadata in
  Return (s', (success, if success then success_message (length chapters) else js "챕터 저장에 실패했습니다.")).

(** The whole update, when no other request changes the object between reading and writing *)
Definition updateRecordingChapters (s : S) (roomId fileName : jsstr) (chapters : list VideoChapter) (now : jsstr)
  : outcome jsstr (S * (bool * jsstr)) :=
  write_chapters s (getRecordingMetadata s roomId fileName) roomId fileName chapters now.

(** [metadata?.chapters || []] *)
Definition getRecordingChapters (s : S) (roomId fileName : jsstr) : json :=
  let chapters := prop (getRecordingMetadata s roomId fileName) (js "chapters") in
  if json_truthy chapters then default (JArr []) chapters else JArr [].

(** *** Chapters from the meeting notes *)

Definition getSectionLabel (section : option json) : jsstr :=
  match section with
  | Some (JStr s) =>
    if bool_decide (s = js "discussion") then js "논의"
    else if bool_decide (s = js "decision") then js "결정"
    else if bool_decide (s = js "action") then js "액션"
    else []
  | _ => []
  end.

(** One element of [data.chapters], with the next one *)
Definition rag_chapter (ch : json) (next : option json) : VideoChapter :=
  mkChapter (js "[" ++ getSectionLabel (prop ch (js "section")) ++ js "] " ++ to_text number_text (prop ch (js "title")))
    (prop ch (js "startTime")) (next ≫= fun n => prop n (js "startTime")).

Fixpoint rag_chapters (arr : list json) : list VideoChapter :=
  match arr with
  | [] => []
  | ch :: arr' => rag_chapter ch (head arr') :: rag_chapters arr'
  end.

(** A property of [null] is read: a type error *)
Definition has_null (arr : list json) : bool := existsb (fun v => match v with JNull => true | _ => false end) arr.

Definition rag_message (data : json) (fallback : jsstr) : option json :=
  let m := prop data (js "message") in if json_truthy m then m else Some (JStr fallback).

Definition is_success (data : json) : bool :=
  match prop data (js "status") with Some (JStr s) => bool_decide (s = js "success") | _ => false end.

Definition is_empty_list (v : option json) : bool :=
  match v with Some (JArr []) => true | _ => false end.

(** The answer of the RAG service is its body or an error. *)
Definition fetchAndSaveChaptersFromRAG (s : S) (roomId fileName : jsstr) (answer : outcome jsstr json) (now : jsstr)
  : S * (bool * list VideoChapter * option json) :=
  let failed e := (s, (false, [], Some (JStr (js "RAG API 호출 실패: " ++ e)))) in
  match answer with
  | Throw e => failed e
  | Return JNull => failed type_error
  | Return data =>
    let arr := prop data (js "chapters") in
    if negb (is_success data) || negb (json_truthy arr) || is_empty_list arr
    then (s, (true, [], rag_message data (js "추출된 챕터가 없습니다.")))
    else match arr with
    | Some (JArr arr) =>
      if has_null arr then failed type_error
      else
        let chapters := rag_chapters arr in
        match updateRecordingChapters s roomId fileName chapters now with
        | Return (s', (success, message)) => (s', (success, chapters, Some (JStr message)))
        | Throw e => failed e
        end
    | _ => failed type_error
    end
  end.

(** *** Upload of a recording made in the browser *)

Definition missing_credentials : jsstr :=
  js "S3 credentials not configured. Check AURA_S3_BUCKET, AWS_ACCESS_KEY_ID_S3/AWS_ACCESS_KEY_ID, AWS_SECRET_ACCESS_KEY_S3/AWS_SECRET_ACCESS_KEY environment variables.".

Record UploadResult := mkUpload { u_fileUrl : jsstr; u_fileName : jsstr; u_fileSize : Z; u_recordingStartTime : option (option Z) }.

Definition uploadClientRecording (s : S) (roomId buffer : jsstr) (size : Z) (recordingStartTime : option (option Z))
    (time : Z) (now : jsstr) : S * outcome jsstr UploadResult :=
  if negb (s3_configured c) then (s, Throw missing_credentials)
  else
    let fileName := js "recording-" ++ js_of_Z time ++ js ".webm" in
    let s3Key := recordings_path roomId fileName in
    match put s s3Key buffer with
    | Throw e => (s, Throw (js "S3 upload failed: " ++ e))
    | Return s1 =>
      let fileUrl := s3_url s3Key in
      let '(s2, _) := createRecordingMetadata s1 roomId fileName fileUrl size recordingStartTime now in
      (s2, Return (mkUpload fileUrl fileName size recordingStartTime))
    end.

(* ------------------------------------------------------------------ *)
(** ** What was saved is loaded *)

Lemma print_not_nil gap indent v : print gap indent v <> [].
Proof. destruct (print_starts gap indent v) as (x & t & -> & _). done. Qed.

Lemma save_load s s' roomId fileName metadata :
  printable metadata -> prop metadata (js "fileName") = Some (JStr fileName) ->
  saveRecordingMetadata s roomId metadata = (s', true) ->
  getRecordingMetadata s' roomId fileName = metadata /\
  (forall k, k <> getMetadataS3Key roomId fileName -> get s' k = get s k).
Proof.
  intros Hp Hf. unfold saveRecordingMetadata, getRecordingMetadata. rewrite Hf. cbn [to_text json_text].
  destruct (s3_configured c); cbn [negb]; [|done].
  destruct (put s _ _) as [s1|] eqn:E; intros [= <-].
  split; [|intros k Hk; by eapply get_put_other].
  rewrite (get_put _ _ _ _ E). pose proof (parse_stringify2 metadata Hp) as Hr.
  pose proof (print_not_nil [32; 32] [] metadata) as Hne. unfold stringify2 in *.
  destruct (print [32; 32] [] metadata); [done|]. by rewrite Hr.
Qed.

Lemma new_object_printable roomId fileName now :
  Forall unit16 roomId -> Forall unit16 fileName -> Forall unit16 now ->
  Forall unit16 (s3Bucket c) -> Forall unit16 (s3Region c) ->
  printable (JObj [(js "roomId", JStr roomId); (js "fileName", JStr fileName);
               (js "fileUrl", JStr (s3_url (recordings_path roomId fileName)));
               (js "fileSize", JNum 0); (js "chapters", JArr []);
               (js "createdAt", JStr now); (js "updatedAt", JStr now)]).
Proof.
  intros Hr Hf Hn Hb Hg. apply printable_obj. split.
  - apply (bool_decide_unpack _). vm_compute. exact I.
  - assert (Forall unit16 (s3_url (recordings_path roomId fileName))) as Hu.
    { unfold s3_url, recordings_path, s3Prefix. rewrite !Forall_app. split_and!; try done; literal_units. }
    repeat (apply Forall_cons; split; [split; [literal_units|first [exact I|assumption|reflexivity]]|]). constructor.
Qed.

Lemma write_chapters_spec (s s' : S) (old : json) (roomId fileName now message : jsstr) (chapters : list VideoChapter) :
  Forall unit16 (roomId ++ fileName ++ now ++ s3Bucket c ++ s3Region c) ->
  printable (chapters_json chapters) -> printable old ->
  json_truthy (Some old) = false \/ prop old (js "fileName") = Some (JStr fileName) ->
  write_chapters s old roomId fileName chapters now = Return (s', (true, message)) ->
  getRecordingChapters s' roomId fileName = chapters_json chapters /\
  (json_truthy (Some old) = true -> forall key, key <> js "chapters" -> key <> js "updatedAt" ->
     prop (getRecordingMetadata s' roomId fileName) key = prop old key) /\
  (forall k, k <> getMetadataS3Key roomId fileName -> get s' k = get s k).
Proof.
  intros Hu Hpc Hpo Hold. rewrite !Forall_app in Hu. destruct Hu as (Hr & Hf & Hn & Hb & Hg).
  unfold write_chapters.
  set (base := if json_truthy (Some old) then old else _).
  assert (exists fs, base = JObj fs /\ printable (JObj fs) /\ map_get fs (js "fileName") = Some (JStr fileName)
    /\ (json_truthy (Some old) = true -> old = JObj fs)) as (fs & -> & Hp & Hfn & Hbase).
  { unfold base. destruct (json_truthy (Some old)) eqn:Et.
    - destruct Hold as [?|Hfn]; [done|]. destruct old as [| | | | |fs]; try done. exists fs. done.
    - eexists. split; [reflexivity|]. split; [by apply new_object_printable|]. split; [vm_compute; reflexivity|done]. }
  assert (printable (JObj (map_set (map_set fs (js "chapters") (chapters_json chapters)) (js "updatedAt") (JStr now)))) as Hpm.
  { apply printable_set; [apply printable_set; [done|literal_units|done]|literal_units|done]. }
  cbn [set_prop outcome_bind].
  set (metadata := JObj (map_set (map_set fs (js "chapters") (chapters_json chapters)) (js "updatedAt") (JStr now))) in *.
  destruct (saveRecordingMetadata s roomId metadata) as [s1 ok] eqn:E. intros [= <- -> _].
  apply (save_load _ _ _ fileName) in E as [Hl Hother]; [|done|].
  2: { cbn [metadata prop]. rewrite !map_get_set_ne by done. done. }
  split; [|split; [|done]].
  - unfold getRecordingChapters. rewrite Hl. cbn [metadata prop].
    rewrite map_get_set_ne by done. rewrite map_get_set_eq. done.
  - intros Ht key H1 H2. rewrite Hl. cbn [metadata prop]. rewrite !map_get_set_ne by done.
    by rewrite (Hbase Ht).
Qed.

(** C34: what an update of the chapters of a recording leaves in the bucket, at the moment
    when its write succeeds and whatever other requests have written since it read the
    stored metadata ([old]): the chapters read back are exactly those of the request, every
    other field but the time of the update is as in [old] when there was metadata, and no
    other object changes.  The times of the chapters and the numbers of [old] are integers
    ([printable]), and [old] names the file it is stored for, since the object is written
    under that name. *)
Theorem chapters_saved (s s' : S) (old : json) (roomId fileName now message : jsstr) (chapters : list VideoChapter) :
  Forall unit16 (roomId ++ fileName ++ now ++ s3Bucket c ++ s3Region c) ->
  printable (chapters_json chapters) -> printable old ->
  json_truthy (Some old) = false \/ prop old (js "fileName") = Some (JStr fileName) ->
  write_chapters s old roomId fileName chapters now = Return (s', (true, message)) ->
  getRecordingChapters s' roomId fileName = chapters_json chapters /\
  (json_truthy (Some old) = true -> forall key, key <> js "chapters" -> key <> js "updatedAt" ->
     prop (getRecordingMetadata s' roomId fileName) key = prop old key) /\
  (forall k, k <> getMetadataS3Key roomId fileName -> get s' k = get s k).
Proof. apply write_chapters_spec. Qed.

(** overlapping updates.  When two updates of the same recording have both read the metadata
    before either is written, both report success and the chapters of the first are gone. *)
Theorem overlapping_update_is_lost (s s1 s2 : S) (roomId fileName now1 now2 m1 m2 : jsstr) (chapters1 chapters2 : list VideoChapter) :
  let old := getRecordingMetadata s roomId fileName in
  Forall unit16 (roomId ++ fileName ++ now2 ++ s3Bucket c ++ s3Region c) ->
  printable (chapters_json chapters2) -> printable old ->
  json_truthy (Some old) = false \/ prop old (js "fileName") = Some (JStr fileName) ->
  write_chapters s old roomId fileName chapters1 now1 = Return (s1, (true, m1)) ->
  write_chapters s1 old roomId fileName chapters2 now2 = Return (s2, (true, m2)) ->
  getRecordingChapters s2 roomId fileName = chapters_json chapters2.
Proof. intros old Hu Hc Ho Hn _ H2. exact (proj1 (write_chapters_spec s1 s2 old roomId fileName now2 m2 chapters2 Hu Hc Ho Hn H2)). Qed.

(** *** Chapters follow each other *)

Lemma rag_chapters_lookup arr i ch :
  rag_chapters arr !! i = Some ch ->
  exists v, arr !! i = Some v /\ ch = rag_chapter v (arr !! (i + 1)%nat).
Proof.
  revert i. induction arr as [|v arr IH]; intros i; [done|]. destruct i as [|i]; simpl.
  - intros [= <-]. exists v. split; [done|]. by destruct arr.
  - apply IH.
Qed.

Lemma length_rag_chapters arr : length (rag_chapters arr) = length arr.
Proof. induction arr; simpl; auto. Qed.

(** The chapters made from the meeting notes cover the recording without
    gaps or overlaps: there is one per note, in order, each begins where its
    note begins and ends where the next one begins, and only the last one is
    open; its title starts with the label of its section. *)
Theorem rag_chapters_contiguous (s s' : S) (roomId fileName now : jsstr) (data : json) (arr : list json)
    (ok : bool) (chapters : list VideoChapter) (message : option json) :
  prop data (js "chapters") = Some (JArr arr) -> arr <> [] -> is_success data = true -> has_null arr = false ->
  fetchAndSaveChaptersFromRAG s roomId fileName (Return data) now = (s', (ok, chapters, message)) ->
  ok = true ->
  length chapters = length arr /\
  (forall i v ch, arr !! i = Some v -> chapters !! i = Some ch ->
     startTime ch = prop v (js "startTime") /\
     starts_with (title ch) (js "[" ++ getSectionLabel (prop v (js "section")) ++ js "] ") = true /\
     endTime ch = (chapters !! (i + 1)%nat ≫= startTime)).
Proof.
  intros Harr Hne Hs Hnull. unfold fetchAndSaveChaptersFromRAG. destruct data as [| | | | |fs]; try done.
  rewrite Harr, Hs, Hnull. destruct arr as [|v0 arr0]; [done|]. cbn [negb orb json_truthy is_empty_list].
  intros Hf Hok. assert (chapters = rag_chapters (v0 :: arr0)) as ->.
  { destruct (updateRecordingChapters _ _ _ _ _) as [[s1 [b m]]|e]; congruence. }
  split; [apply length_rag_chapters|]. intros i v ch Hv Hch.
  apply rag_chapters_lookup in Hch as (v' & Hv' & ->). rewrite Hv in Hv'. injection Hv' as <-.
  split; [done|]. split.
  { apply starts_with_spec. eexists. unfold rag_chapter. cbn [title]. rewrite <- !(assoc_L (++)). reflexivity. }
  cbn [rag_chapter endTime]. destruct (rag_chapters (v0 :: arr0) !! (i + 1)%nat) as [ch'|] eqn:E.
  - apply rag_chapters_lookup in E as (v' & -> & ->). done.
  - apply lookup_ge_None in E. rewrite length_rag_chapters in E. apply lookup_ge_None in E. by rewrite E.
Qed.
End Metadata.

(** *** A bucket in memory *)

#[export] Instance map_store : ObjectStore (jsmap jsstr jsstr).
Proof.
  refine {| put := fun m k body => Return (map_set m k body);
            get := fun m k => match map_get m k with Some b => Return b | None => Throw (js "NoSuchKey") end |}.
  - intros s k body s' [= <-]. by rewrite map_get_set_eq.
  - intros s k k' body s' [= <-] Hne. by rewrite map_get_set_ne by done.
Defined.

Definition integer_text (q : Q) : jsstr := js_of_Z (Qnum q).

Definition sample_chapters : list VideoChapter :=
  [mkChapter (js "[논의] 일정") (Some (JNum 0)) (Some (JNum 90)); mkChapter (js "[결정] 배포") (Some (JNum 90)) None].

Lemma sample_chapters_printable : printable (chapters_json sample_chapters).
Proof.
  apply printable_arr. repeat (apply Forall_cons; split; [apply printable_obj|]); [..|constructor];
    (split; [apply (bool_decide_unpack _); vm_compute; exact I|]);
    repeat (apply Forall_cons; split; [split; [literal_units|first [literal_units|reflexivity]]|]); constructor.
Qed.

Lemma chapters_saved_witness :
  exists s', getRecordingChapters sample_config s' (js "r1") (js "a.webm") = chapters_json sample_chapters.
Proof.
  destruct (write_chapters sample_config integer_text [] ([] : jsmap jsstr jsstr) JNull (js "r1") (js "a.webm")
    sample_chapters (js "2026-01-01T00:00:00.000Z")) as [[s' [ok m]]|e] eqn:E; [|discriminate].
  exists s'.
  refine (proj1 (chapters_saved sample_config integer_text [] ([] : jsmap jsstr jsstr) s' JNull (js "r1") (js "a.webm")
    (js "2026-01-01T00:00:00.000Z") m sample_chapters _ _ _ _ _)).
  - literal_units.
  - apply sample_chapters_printable.
  - exact I.
  - left. reflexivity.
  - rewrite E. assert (ok = true) as -> by (vm_compute in E; congruence). reflexivity.
Defined.

Lemma overlapping_update_is_lost_witness :
  exists s2, getRecordingChapters sample_config s2 (js "r1") (js "a.webm") = chapters_json sample_chapters.
Proof.
  destruct (write_chapters sample_config integer_text [] ([] : jsmap jsstr jsstr) JNull (js "r1") (js "a.webm") [] (js "t1")) as [[s1 [ok1 m1]]|e] eqn:E1; [|discriminate].
  assert (ok1 = true) as -> by (vm_compute in E1; congruence).
  destruct (write_chapters sample_config integer_text [] s1 JNull (js "r1") (js "a.webm") sample_chapters (js "t2")) as [[s2 [ok2 m2]]|e] eqn:E2;
    [|vm_compute in E1; injection E1 as <- <-; discriminate].
  assert (ok2 = true) as -> by (vm_compute in E1; injection E1 as <- <-; vm_compute in E2; congruence). exists s2.
  refine (overlapping_update_is_lost sample_config integer_text [] ([] : jsmap jsstr jsstr) s1 s2 (js "r1") (js "a.webm") (js "t1") (js "t2") m1 m2 []
    sample_chapters _ _ _ _ E1 E2).
  - literal_units.
  - apply sample_chapters_printable.
  - exact I.
  - left. reflexivity.
Defined.

Definition sample_notes : json :=
  JObj [(js "status", JStr (js "success"));
        (js "chapters", JArr [JObj [(js "section", JStr (js "discussion")); (js "title", JStr (js "일정")); (js "startTime", JNum 0)];
                              JObj [(js "section", JStr (js "decision")); (js "title", JStr (js "배포")); (js "startTime", JNum 90)]])].

Lemma rag_chapters_contiguous_witness :
  exists ch, (fetchAndSaveChaptersFromRAG sample_config integer_text [] ([] : jsmap jsstr jsstr) (js "r1") (js "a.webm")
    (Return sample_notes) (js "now")).2.1.2 !! 0%nat = Some ch /\ endTime ch = Some (JNum 90).
Proof.
  destruct (fetchAndSaveChaptersFromRAG sample_config integer_text [] ([] : jsmap jsstr jsstr) (js "r1") (js "a.webm")
    (Return sample_notes) (js "now")) as [s' [[ok chapters] m]] eqn:E.
  assert (ok = true) as -> by (vm_compute in E; congruence).
  destruct (rag_chapters_contiguous sample_config integer_text [] ([] : jsmap jsstr jsstr) s' (js "r1") (js "a.webm")
    (js "now") sample_notes _ true chapters m eq_refl ltac:(discriminate) eq_refl eq_refl E eq_refl) as [Hlen Hch].
  assert (chapters !! 1%nat ≫= startTime = Some (JNum 90)) as H1 by (vm_compute in E; injection E as <- <- <-; reflexivity).
  destruct (chapters !! 0%nat) as [ch|] eqn:E0; [|apply lookup_ge_None in E0; rewrite Hlen in E0; simpl in E0; lia].
  exists ch. split; [done|]. rewrite <- H1. by eapply (Hch 0%nat).
Defined.
