(* ===== verification/Study.v ===== *)
(** * Study mode

    [src/study/study-mode.service.ts]: quizzes made by the language model from
    the conversation, answers with points and streaks, follow-up questions,
    and the final report.

    A context is an object that operations hold on to while they wait for the
    language model, so contexts live in a heap and a room names one by its
    address: a study mode started again while a quiz is being made leaves the
    old object to that quiz.  Each asynchronous operation is split at its
    wait.  The reply of the language model is text that is parsed but not
    checked; fields of a quiz are therefore JSON values that may be missing, and
    points in the reply to a follow-up may be a text or an array: they are compared
    as a number and then joined to the score, which becomes a text.  The text of a
    number is an argument. *)

From Stdlib Require Import ZArith QArith Lia Lqa.
From stdpp Require Import base strings option list.
From S2P Require Import Prelude JsString JsMap Json JsNumber Regex.

#[local] Open Scope Z_scope.

(* ------------------------------------------------------------------ *)
(** ** Data *)

Record StudyQuiz := mkQuiz {
  q_id : jsstr;
  question : option json;
  options : option json;
  correctIndex : option json;
  explanation : option json;
  points : Z;
  q_topic : json;
}.

(** A score is a number, until something that is no number is added *)
Inductive Score := Points (n : Q) | Joined (text : jsstr).

Record StudyParticipant := mkParticipant {
  participantId : jsstr;
  participantName : jsstr;
  score : Score;
  correctAnswers : Z;
  totalAnswers : Z;
  streak : Z;
  lastAnswerCorrect : bool;
}.

Record StudyContext := mkContext {
  isActive : bool;
  startTime : Z;
  c_duration : Z;
  topic : jsstr;
  participants : jsmap jsstr StudyParticipant;
  currentQuiz : option StudyQuiz;
  quizHistory : list StudyQuiz;
  conversationKeywords : list jsstr;
  lastQuizTime : Z;
  quizCount : Z;
  followUpPending : bool;
  followUpQuestion : option json;
}.

Record Service := mkService {
  heap : jsmap nat StudyContext;
  studyContexts : jsmap jsstr nat;
  next : nat;
}.

Definition MIN_QUIZ_INTERVAL_MS : Z := 60000.
Definition MAX_QUIZZES_PER_SESSION : Z := 10.

(** The context of a room, with its address *)
Definition context_of (s : Service) (roomId : jsstr) : option (nat * StudyContext) :=
  a ← map_get (studyContexts s) roomId; c ← map_get (heap s) a; Some (a, c).

Definition update (s : Service) (a : nat) (f : StudyContext -> StudyContext) : Service :=
  match map_get (heap s) a with
  | Some c => mkService (map_set (heap s) a (f c)) (studyContexts s) (next s)
  | None => s
  end.

(* ------------------------------------------------------------------ *)
(** ** Management *)

Definition new_context (topic : jsstr) (durationSeconds now : Z) : StudyContext :=
  mkContext true now durationSeconds topic [] None [] [] 0 0 false None.

Definition startStudyMode (s : Service) (roomId topic : jsstr) (durationSeconds now : Z) : Service :=
  mkService (map_set (heap s) (next s) (new_context topic durationSeconds now))
    (map_set (studyContexts s) roomId (next s)) (S (next s)).

Definition set_active (b : bool) (c : StudyContext) : StudyContext :=
  mkContext b (startTime c) (c_duration c) (topic c) (participants c) (currentQuiz c) (quizHistory c)
    (conversationKeywords c) (lastQuizTime c) (quizCount c) (followUpPending c) (followUpQuestion c).

Definition endStudyMode (s : Service) (roomId : jsstr) : Service :=
  match context_of s roomId with Some (a, _) => update s a (set_active false) | None => s end.

Definition set_participants (ps : jsmap jsstr StudyParticipant) (c : StudyContext) : StudyContext :=
  mkContext (isActive c) (startTime c) (c_duration c) (topic c) ps (currentQuiz c) (quizHistory c)
    (conversationKeywords c) (lastQuizTime c) (quizCount c) (followUpPending c) (followUpQuestion c).

Definition addParticipant (s : Service) (roomId pid name : jsstr) : Service :=
  match context_of s roomId with
  | None => s
  | Some (a, _) =>
    update s a (fun c =>
      if map_has (participants c) pid then c
      else set_participants (map_set (participants c) pid (mkParticipant pid name (Points 0) 0 0 0 false)) c)
  end.

Definition cleanup (s : Service) (roomId : jsstr) : Service :=
  mkService (heap s) (map_delete (studyContexts s) roomId) (next s).

(* ------------------------------------------------------------------ *)
(** ** Quizzes *)

(** The object in the reply: from the first opening to the last closing brace *)
Definition json_in (response : jsstr) : option json :=
  m ← match_text (re (js "\{[\s\S]*\}")) response; Json.parse m.

Definition quiz_format (hint topic_hint : jsstr) : list jsstr :=
  [js "다음 JSON 형식으로만 응답하세요:"; js "{"; jq "  `question`: `문제 내용" ++ hint ++ jq "`,";
   jq "  `options`: [`선택지1`, `선택지2`, `선택지3`, `선택지4`],"; jq "  `correctIndex`: 0,";
   jq "  `explanation`: `정답 해설 (1-2문장)`,"; jq "  `topic`: `" ++ topic_hint ++ jq "`"; js "}"; []; js "규칙:"].

Definition quiz_prompt (c : StudyContext) (recentTranscripts : list jsstr) : jsstr :=
  lines ([js "당신은 스터디 퀴즈 출제자입니다. 다음 대화 내용을 바탕으로 4지선다 퀴즈를 1개 만들어주세요."; [];
          js "주제: " ++ topic c; []; js "최근 대화:"; join nl (slice_last 10 recentTranscripts); []]
         ++ quiz_format [] (js "관련 키워드")
         ++ [js "- 방금 대화에서 언급된 내용 기반"; js "- 정답이 명확해야 함"; js "- 오답도 그럴듯해야 함"; js "- 난이도는 중간"]).

Definition surprise_prompt (c : StudyContext) (keyword : jsstr) : jsstr :=
  lines ([jq "당신은 스터디 퀴즈 출제자입니다. `" ++ keyword ++ jq "` 개념에 대한 4지선다 퀴즈를 만들어주세요."; [];
          js "주제: " ++ topic c; js "키워드: " ++ keyword; []]
         ++ quiz_format (js " (" ++ keyword ++ js " 관련)") keyword
         ++ [js "- " ++ keyword ++ js "의 핵심 개념을 묻는 문제"; js "- 정답이 명확해야 함"; js "- 오답도 그럴듯해야 함"]).

(** [generateQuizFromConversation] up to the request: the context it goes on
    with, and the prompt *)
Definition begin_quiz (s : Service) (roomId : jsstr) (recentTranscripts : list jsstr) (now : Z) : option (nat * jsstr) :=
  '(a, c) ← context_of s roomId;
  if negb (isActive c) then None
  else if now - lastQuizTime c <? MIN_QUIZ_INTERVAL_MS then None
  else if MAX_QUIZZES_PER_SESSION <=? quizCount c then None
  else Some (a, quiz_prompt c recentTranscripts).

Definition begin_surprise (s : Service) (roomId keyword : jsstr) : option (nat * jsstr) :=
  '(a, c) ← context_of s roomId;
  if negb (isActive c) then None else Some (a, surprise_prompt c keyword).

Definition quiz_of (data : json) (topic : json) (now : Z) : StudyQuiz :=
  mkQuiz (js "quiz-" ++ js_of_Z now) (prop data (js "question")) (prop data (js "options"))
    (prop data (js "correctIndex")) (prop data (js "explanation")) 100 topic.

Definition register_quiz (quiz : StudyQuiz) (now : Z) (c : StudyContext) : StudyContext :=
  mkContext (isActive c) (startTime c) (c_duration c) (topic c) (participants c) (Some quiz) (quizHistory c ++ [quiz])
    (conversationKeywords c) now (quizCount c + 1) (followUpPending c) (followUpQuestion c).

(** Writing the question to the log calls a method of strings on it: with any
    other value it throws, after the quiz was registered. *)
Definition loggable (q : StudyQuiz) : bool := match question q with Some (JStr _) => true | _ => false end.

(** The rest of the operation, once the language model has answered *)
Definition finish_with (s : Service) (a : nat) (reply : outcome jsstr jsstr) (quiz_topic : StudyContext -> json -> json)
    (now : Z) : Service * option StudyQuiz :=
  match reply, map_get (heap s) a with
  | Return response, Some c =>
    match json_in response with
    | Some data =>
      let quiz := quiz_of data (quiz_topic c data) now in
      (update s a (register_quiz quiz now), if loggable quiz then Some quiz else None)
    | None => (s, None)
    end
  | _, _ => (s, None)
  end.

(** [quizData.topic || context.topic] *)
Definition topic_or_own (c : StudyContext) (data : json) : json :=
  let t := prop data (js "topic") in if json_truthy t then default JNull t else JStr (topic c).

Definition finish_quiz (s : Service) (a : nat) (reply : outcome jsstr jsstr) (now : Z) : Service * option StudyQuiz :=
  finish_with s a reply topic_or_own now.

Definition finish_surprise (s : Service) (a : nat) (keyword : jsstr) (reply : outcome jsstr jsstr) (now : Z)
  : Service * option StudyQuiz :=
  finish_with s a reply (fun _ _ => JStr keyword) now.

(* ------------------------------------------------------------------ *)
(** ** Answers *)

Definition bonus (streak : Z) : Z := if 3 <=? streak then 50 * (streak - 2) else 0.

Definition is_correct (quiz : StudyQuiz) (answerIndex : Z) : bool :=
  match correctIndex quiz with Some (JNum n) => Qeq_bool (inject_Z answerIndex) n | _ => false end.

Section Scores.
(** [String(n)] for a number *)
Context (number_text : Q -> jsstr).

Definition score_text (s : Score) : jsstr := match s with Points n => number_text n | Joined t => t end.

(** [score += v] *)
Definition plus (s : Score) (v : json) : Score :=
  match s, v with
  | Points n, JNum m => Points (n + m)
  | Points n, JBool b => Points (n + (if b then 1 else 0))
  | Points n, JNull => Points n
  | _, _ => Joined (score_text s ++ json_text number_text v)
  end.

Definition score_answer (quiz : StudyQuiz) (isCorrect : bool) (p : StudyParticipant) : StudyParticipant :=
  if isCorrect then
    let streak' := streak p + 1 in
    let score' := plus (score p) (JNum (inject_Z (points quiz))) in
    mkParticipant (participantId p) (participantName p)
      (if 3 <=? streak' then plus score' (JNum (inject_Z (bonus streak'))) else score')
      (correctAnswers p + 1) (totalAnswers p + 1) streak' true
  else
    mkParticipant (participantId p) (participantName p) (score p) (correctAnswers p) (totalAnswers p + 1) 0 false.

Record AnswerResult := mkAnswer { isCorrect : bool; a_points : Z; a_explanation : option json }.

Definition processAnswer (s : Service) (roomId pid : jsstr) (answerIndex : Z) : Service * option AnswerResult :=
  match context_of s roomId with
  | None => (s, None)
  | Some (a, c) =>
    match currentQuiz c, map_get (participants c) pid with
    | Some quiz, Some p =>
      let correct := is_correct quiz answerIndex in
      let p' := score_answer quiz correct p in
      (update s a (set_participants (map_set (participants c) pid p')),
       Some (mkAnswer correct (if correct then points quiz + bonus (streak p') else 0) (explanation quiz)))
    | _, _ => (s, None)
    end
  end.

(* ------------------------------------------------------------------ *)
(** ** Follow-up questions *)

Record FollowUpResult := mkFollowUp { shouldAsk : option json; f_question : option json; f_context : option json }.

Definition no_follow_up : FollowUpResult := mkFollowUp (Some (JBool false)) (Some (JStr [])) (Some (JStr [])).

Definition followup_prompt (c : StudyContext) (previousQuestion userAnswer : jsstr) (wasCorrect : bool) : jsstr :=
  lines [js "당신은 스터디 진행자입니다. 방금 질문에 대한 후속 질문을 만들어주세요."; [];
    js "이전 질문: " ++ previousQuestion; js "사용자 답변: " ++ userAnswer;
    js "정답 여부: " ++ js (if wasCorrect then "맞음" else "틀림"); js "주제: " ++ topic c; [];
    js (if wasCorrect then "사용자가 정답을 맞췄습니다. 더 심화된 후속 질문을 해주세요."
        else "사용자가 틀렸습니다. 관련된 기본 개념을 확인하는 질문을 해주세요."); [];
    js "다음 JSON 형식으로 응답하세요:"; js "{"; jq "  `shouldAsk`: true/false,"; jq "  `question`: `후속 질문 (1문장)`,";
    jq "  `context`: `질문 의도 설명`"; js "}"; []; js "규칙:"; js "- 자연스럽게 대화를 이어가는 질문";
    js "- 너무 어렵거나 쉽지 않게"; js "- 학습에 도움이 되는 질문"].

Definition begin_followup (s : Service) (roomId previousQuestion userAnswer : jsstr) (wasCorrect : bool)
  : option (nat * jsstr) :=
  '(a, c) ← context_of s roomId;
  if negb (isActive c) then None else Some (a, followup_prompt c previousQuestion userAnswer wasCorrect).

Definition set_followup (pending : bool) (q : option json) (c : StudyContext) : StudyContext :=
  mkContext (isActive c) (startTime c) (c_duration c) (topic c) (participants c) (currentQuiz c) (quizHistory c)
    (conversationKeywords c) (lastQuizTime c) (quizCount c) pending q.

Definition finish_followup (s : Service) (a : nat) (reply : outcome jsstr jsstr) : Service * FollowUpResult :=
  match reply with
  | Throw _ => (s, no_follow_up)
  | Return response =>
    match json_in response with
    | None => (s, no_follow_up)
    | Some result =>
      (if json_truthy (prop result (js "shouldAsk"))
       then update s a (set_followup true (prop result (js "question"))) else s,
       mkFollowUp (prop result (js "shouldAsk")) (prop result (js "question")) (prop result (js "context")))
    end
  end.

Definition evaluation_prompt (c : StudyContext) (question userAnswer : jsstr) : jsstr :=
  lines [js "사용자의 답변을 평가해주세요."; []; js "질문: " ++ question; js "사용자 답변: " ++ userAnswer; js "주제: " ++ topic c; [];
    js "다음 JSON 형식으로 응답하세요:"; js "{"; jq "  `isCorrect`: true/false,";
    jq "  `feedback`: `평가 피드백 (1-2문장, 자연스러운 말투)`,"; jq "  `points`: 0-50"; js "}"; []; js "평가 기준:";
    js "- 완벽하면 50점"; js "- 대체로 맞으면 30점"; js "- 부분적으로 맞으면 10점"; js "- 틀리면 0점"].

Record Evaluation := mkEvaluation { e_isCorrect : option json; feedback : option json; e_points : option json }.

Definition evaluation (feedback : string) : Evaluation :=
  mkEvaluation (Some (JBool false)) (Some (JStr (js feedback))) (Some (JNum 0)).

Definition add_score (v : json) (p : StudyParticipant) : StudyParticipant :=
  mkParticipant (participantId p) (participantName p) (plus (score p) v) (correctAnswers p) (totalAnswers p)
    (streak p) (lastAnswerCorrect p).

(** The last entry of the map, in the order of joining *)
Fixpoint reward_last (v : json) (ps : jsmap jsstr StudyParticipant) : jsmap jsstr StudyParticipant :=
  match ps with
  | [] => []
  | [(k, p)] => [(k, add_score v p)]
  | e :: ps' => e :: reward_last v ps'
  end.

(** [result.points > 0] *)
Definition positive (v : option json) : option json := if ngt (to_number number_text v) (Finite 0) then v else None.

Definition begin_evaluation (s : Service) (roomId question userAnswer : jsstr) : option (nat * jsstr) :=
  '(a, c) ← context_of s roomId; Some (a, evaluation_prompt c question userAnswer).

Definition finish_evaluation (s : Service) (a : nat) (reply : outcome jsstr jsstr) : Service * Evaluation :=
  match reply with
  | Throw _ => (s, evaluation "평가 중 오류가 발생했습니다.")
  | Return response =>
    match match_text (re (js "\{[\s\S]*\}")) response with
    | None => (s, evaluation "답변을 평가할 수 없습니다.")
    | Some text =>
      match Json.parse text with
      | None => (s, evaluation "평가 중 오류가 발생했습니다.")
      | Some result =>
        (update s a (fun c =>
           set_followup false None
             match positive (prop result (js "points")) with
             | Some v => set_participants (reward_last v (participants c)) c
             | None => c
             end),
         mkEvaluation (prop result (js "isCorrect")) (prop result (js "feedback")) (prop result (js "points")))
      end
    end
  end.

(* ------------------------------------------------------------------ *)
(** ** Interventions *)

Definition difficultyMarkers : list jsstr :=
  js <$> ["어렵"; "복잡"; "헷갈"; "모르겠"; "이해가 안"; "뭐지"; "뭐야"; "설명해"; "알려줘"; "가르쳐"; "정확히"; "차이가"; "왜"].

Definition technical_term : regex :=
  re (js "[A-Z][a-zA-Z]+|[가-힣]{2,}(?:알고리즘|모델|패턴|구조|메모리|프로세스|스레드|함수|클래스|인터페이스|프로토콜)").

Definition detectDifficultKeyword (transcript : jsstr) : option jsstr :=
  if existsb (includes transcript) difficultyMarkers then match_text technical_term transcript else None.

Record Intervention := mkIntervention { i_should : bool; keyword : option jsstr; reason : jsstr }.

Definition shouldIntervene (s : Service) (roomId transcript : jsstr) : Intervention :=
  match context_of s roomId with
  | Some (_, c) =>
    if negb (isActive c) then mkIntervention false None []
    else match detectDifficultKeyword transcript with
         | Some k => if (match k with [] => false | _ => true end)
                     then mkIntervention true (Some k) (dq ++ k ++ dq ++ js "에 대해 어려워하시는 것 같습니다. 설명해드릴까요?")
                     else mkIntervention false None []
         | None => mkIntervention false None []
         end
  | None => mkIntervention false None []
  end.

(* ------------------------------------------------------------------ *)
(** ** Report *)

Record Report := mkReport {
  r_title : jsstr; r_duration : jsstr; r_participants : list StudyParticipant; r_quizzes : list StudyQuiz; r_summary : jsstr }.

(** [b.score - a.score] decides; it is [NaN], which counts as no difference, when a
    score is a text that is no number *)
Definition score_number (s : Score) : number := match s with Points n => Finite n | Joined t => string_to_number t end.

Definition by_score (a b : StudyParticipant) : bool := negb (ngt (nsub (score_number (score b)) (score_number (score a))) (Finite 0)).

Definition accuracy (p : StudyParticipant) : Q :=
  if 0 <? totalAnswers p then (inject_Z (correctAnswers p) / inject_Z (totalAnswers p))%Q else 0%Q.

Definition avgCorrect (ps : list StudyParticipant) : Q :=
  match ps with [] => 0%Q | _ => (Qsum (accuracy <$> ps) / inject_Z (Z.of_nat (length ps)))%Q end.

Definition generateSummaryText (c : StudyContext) (ps : list StudyParticipant) : jsstr :=
  topic c ++ js " 스터디 완료. 총 " ++ js_of_Z (Z.of_nat (length (quizHistory c))) ++ js "문제 출제, 평균 정답률 "
  ++ js_of_Z (math_round (avgCorrect ps * 100)%Q) ++ js "%. "
  ++ match ps with
     | winner :: _ => js "우승: " ++ participantName winner ++ js " (" ++ score_text (score winner) ++ js "점)"
     | [] => []
     end.

Definition generateReport (s : Service) (roomId : jsstr) (now : Z) : option Report :=
  '(_, c) ← context_of s roomId;
  let durationMs := now - startTime c in
  let ps := ssort by_score (map_values (participants c)) in
  Some (mkReport (topic c)
    (js_of_Z (durationMs / 60000) ++ js "분 " ++ js_of_Z (Z.rem durationMs 60000 / 1000) ++ js "초")
    ps (quizHistory c) (generateSummaryText c ps)).

(* ------------------------------------------------------------------ *)
(** ** Executions *)

(** What can happen, in any order.  A request to the language model is answered
    later, at the address it was made for. *)
Inductive Event :=
| EStart (roomId topic : jsstr) (durationSeconds now : Z)
| EEnd (roomId : jsstr)
| EJoin (roomId pid name : jsstr)
| EQuizReply (a : nat) (reply : outcome jsstr jsstr) (now : Z)
| ESurpriseReply (a : nat) (keyword : jsstr) (reply : outcome jsstr jsstr) (now : Z)
| EAnswer (roomId pid : jsstr) (answerIndex : Z)
| EFollowUpReply (a : nat) (reply : outcome jsstr jsstr)
| EEvaluationReply (a : nat) (reply : outcome jsstr jsstr)
| ECleanup (roomId : jsstr).

Definition step (s : Service) (ev : Event) : Service :=
  match ev with
  | EStart roomId topic d now => startStudyMode s roomId topic d now
  | EEnd roomId => endStudyMode s roomId
  | EJoin roomId pid name => addParticipant s roomId pid name
  | EQuizReply a reply now => (finish_quiz s a reply now).1
  | ESurpriseReply a k reply now => (finish_surprise s a k reply now).1
  | EAnswer roomId pid i => (processAnswer s roomId pid i).1
  | EFollowUpReply a reply => (finish_followup s a reply).1
  | EEvaluationReply a reply => (finish_evaluation s a reply).1
  | ECleanup roomId => cleanup s roomId
  end.

Definition initial : Service := mkService [] [] 0.
Definition run_events (evs : list Event) : Service := foldl step initial evs.

(** *** The invariant *)

(** The points of a reply are a text, an array or an object *)
Definition text_points (ev : Event) : bool :=
  match ev with
  | EEvaluationReply _ (Return response) =>
    match json_in response ≫= fun result => prop result (js "points") with Some (JStr _ | JArr _ | JObj _) => true | _ => false end
  | _ => false
  end.

(** [texts] says whether such points may have come *)
Record participant_wf (texts : bool) (p : StudyParticipant) : Prop := {
  wf_streak : 0 <= streak p <= correctAnswers p;
  wf_correct : correctAnswers p <= totalAnswers p;
  wf_last : lastAnswerCorrect p = true <-> 0 < streak p;
  wf_score : match score p with Points n => (inject_Z (100 * correctAnswers p) <= n)%Q | Joined _ => texts = true end;
}.

Record context_wf (texts : bool) (c : StudyContext) : Prop := {
  wf_count : quizCount c = Z.of_nat (length (quizHistory c));
  wf_current : currentQuiz c = last (quizHistory c);
  wf_points : Forall (fun q => points q = 100) (quizHistory c);
  wf_participants : Forall (participant_wf texts) (map_values (participants c));
  wf_keys : Forall (fun e => participantId e.2 = e.1) (participants c);
  wf_followup : followUpPending c = false -> followUpQuestion c = None;
}.

Definition service_wf (texts : bool) (s : Service) : Prop := Forall (context_wf texts) (map_values (heap s)).

Lemma study_update_wf texts s a f :
  service_wf texts s -> (forall c, context_wf texts c -> context_wf texts (f c)) -> service_wf texts (update s a f).
Proof.
  intros Hwf Hf. unfold update. destruct (map_get (heap s) a) as [c|] eqn:E; [|done].
  apply map_set_values_Forall; [done|]. apply Hf. by eapply map_get_Forall.
Qed.

Lemma context_of_wf texts s roomId a c : service_wf texts s -> context_of s roomId = Some (a, c) -> context_wf texts c.
Proof.
  unfold context_of. intros Hwf. destruct (map_get (studyContexts s) roomId) as [a'|]; simpl; [|done].
  destruct (map_get (heap s) a') as [c'|] eqn:E; simpl; [|done]. intros [= <- <-]. by eapply map_get_Forall.
Qed.

Lemma bonus_nonneg n : 0 <= bonus n.
Proof. unfold bonus. case_match; bool_cases; lia. Qed.

Lemma score_answer_wf texts quiz b p : points quiz = 100 -> participant_wf texts p -> participant_wf texts (score_answer quiz b p).
Proof.
  intros Hq [Hs Hc Hl Hsc]. destruct b; simpl; split; simpl; try done; try lia.
  rewrite Hq. replace (100 * (correctAnswers p + 1)) with (100 * correctAnswers p + 100) by lia.
  rewrite inject_Z_plus. pose proof (bonus_nonneg (streak p + 1)) as Hb. rewrite Zle_Qle in Hb. change (inject_Z 0) with 0%Q in Hb.
  destruct (score p) as [n|t]; simpl; destruct (3 <=? streak p + 1); simpl; done || lra.
Qed.

(** A change of a participant keeps the keys. *)
Lemma map_set_keys_wf (ps : jsmap jsstr StudyParticipant) k p :
  Forall (fun e => participantId e.2 = e.1) ps -> participantId p = k ->
  Forall (fun e => participantId e.2 = e.1) (map_set ps k p).
Proof.
  intros H Hp. induction H as [|[k' p'] ps He Hps IH]; simpl; [by repeat constructor|].
  case_decide as Hk; simpl in He; constructor; simpl; try done; congruence.
Qed.

Lemma reward_last_Forall (P : jsstr * StudyParticipant -> Prop) v ps :
  (forall k p, P (k, p) -> P (k, add_score v p)) -> Forall P ps -> Forall P (reward_last v ps).
Proof.
  intros HP H. induction H as [|[k p] ps Hp Hps IH]; [constructor|]. simpl. destruct ps; [|by constructor].
  constructor; [auto|constructor].
Qed.

Lemma positive_Some v w : positive v = Some w -> v = Some w /\ ngt (to_number number_text (Some w)) (Finite 0) = true.
Proof. unfold positive. destruct (ngt _ _) eqn:E; [|done]. by intros ->. Qed.

(** Adding points that are greater than zero *)
Lemma plus_wf (texts : bool) c s v :
  ngt (to_number number_text (Some v)) (Finite 0) = true -> (match v with JStr _ | JArr _ | JObj _ => true | _ => false end = true -> texts = true) ->
  match s with Points n => (c <= n)%Q | Joined _ => texts = true end -> match plus s v with Points n => (c <= n)%Q | Joined _ => texts = true end.
Proof.
  intros Hv Ht Hs. destruct s as [n|t], v as [|b|m|t'|l|l]; simpl in *; auto.
  - destruct b; lra.
  - apply Qlt_bool_iff in Hv. lra.
Qed.

Lemma reward_last_wf (texts : bool) v ps :
  ngt (to_number number_text (Some v)) (Finite 0) = true -> (match v with JStr _ | JArr _ | JObj _ => true | _ => false end = true -> texts = true) ->
  Forall (participant_wf texts) (map_values ps) -> Forall (participant_wf texts) (map_values (reward_last v ps)).
Proof.
  intros Hv Ht. unfold map_values. rewrite !Forall_fmap. apply reward_last_Forall.
  intros k p [Hs Hc Hl Hsc]. split; simpl in *; try done. by apply plus_wf.
Qed.

Lemma register_quiz_wf texts quiz now c : points quiz = 100 -> context_wf texts c -> context_wf texts (register_quiz quiz now c).
Proof.
  intros Hq [Hc Hcur Hp Hps Hk Hf]. split; simpl; try done.
  - rewrite Hc, length_app. simpl. lia.
  - by rewrite last_snoc.
  - apply Forall_app. auto.
Qed.

Lemma finish_with_wf texts s a reply f now : service_wf texts s -> service_wf texts (finish_with s a reply f now).1.
Proof.
  intros Hwf. unfold finish_with. destruct reply as [response|]; [|done].
  destruct (map_get (heap s) a) as [c|]; [|done]. destruct (json_in response) as [data|]; [|done].
  apply study_update_wf; [done|]. intros c' Hc'. by apply register_quiz_wf.
Qed.

Lemma study_participants_wf texts ps c :
  context_wf texts c -> Forall (participant_wf texts) (map_values ps) -> Forall (fun e => participantId e.2 = e.1) ps ->
  context_wf texts (set_participants ps c).
Proof. intros [Hc Hcur Hp Hps Hk Hf] H1 H2. by split. Qed.

Lemma set_followup_wf texts b q c : context_wf texts c -> (b = false -> q = None) -> context_wf texts (set_followup b q c).
Proof. intros [Hc Hcur Hp Hps Hk Hf] H. by split. Qed.

Lemma processAnswer_wf texts s roomId pid i : service_wf texts s -> service_wf texts (processAnswer s roomId pid i).1.
Proof.
  intros Hwf. unfold processAnswer. destruct (context_of s roomId) as [[a c]|] eqn:E; [|done].
  pose proof (context_of_wf _ _ _ _ _ Hwf E) as Hc.
  destruct (currentQuiz c) as [quiz|] eqn:Eq; [|done]. destruct (map_get (participants c) pid) as [p|] eqn:Ep; [|done].
  simpl. apply study_update_wf; [done|]. intros c' Hc'.
  assert (points quiz = 100) as Hq.
  { destruct Hc as [_ Hcur Hp _ _ _]. rewrite Hcur in Eq. apply last_Some_elem_of in Eq.
    rewrite Forall_forall in Hp. by apply Hp. }
  apply study_participants_wf; [done| |].
  - apply map_set_values_Forall; [apply Hc|]. apply score_answer_wf; [done|]. eapply map_get_Forall; [apply Hc|done].
  - apply map_set_keys_wf; [apply Hc|]. destruct Hc as [_ _ _ _ Hk _]. apply map_get_elem in Ep.
    rewrite Forall_forall in Hk. specialize (Hk _ Ep). simpl in Hk. by destruct (is_correct quiz i).
Qed.

Lemma study_step_wf texts s ev : (text_points ev = true -> texts = true) -> service_wf texts s -> service_wf texts (step s ev).
Proof.
  intros Hev Hwf. destruct ev as [roomId t d now|roomId|roomId pid name|a reply now|a k reply now|roomId pid i|a reply|a reply|roomId];
    simpl; try by apply finish_with_wf.
  - apply map_set_values_Forall; [done|]. split; simpl; try done; constructor.
  - unfold endStudyMode. destruct (context_of s roomId) as [[a c]|]; [|done].
    apply study_update_wf; [done|]. intros c' []. by split.
  - unfold addParticipant. destruct (context_of s roomId) as [[a c]|]; [|done].
    apply study_update_wf; [done|]. intros c' Hc'. case_match; [done|].
    apply study_participants_wf; [done| |apply map_set_keys_wf; [apply Hc'|done]].
    apply map_set_values_Forall; [apply Hc'|]. split; simpl; first [lia|discriminate|split; [done|lia]].
  - by apply processAnswer_wf.
  - unfold finish_followup. repeat case_match; simpl; try done. apply study_update_wf; [done|]. intros c' Hc'. by apply set_followup_wf.
  - unfold finish_evaluation. destruct reply as [response|]; [|done]. cbn [text_points] in Hev. unfold json_in in Hev.
    destruct (match_text _ response) as [text|]; [|done]. simpl in Hev. destruct (Json.parse text) as [result|]; [|done]. simpl in Hev.
    apply study_update_wf; [done|]. intros c' Hc'. apply set_followup_wf; [|done].
    destruct (positive _) as [v|] eqn:Ev; [|done]. apply positive_Some in Ev as [Ev Hpos]. rewrite Ev in Hev. apply study_participants_wf; [done| |].
    + apply reward_last_wf; [done| |apply Hc']. intros Hv. apply Hev. by destruct v.
    + apply reward_last_Forall; [done|apply Hc'].
  - done.
Qed.

(** C32: In every execution, however the replies of the language model are
    delayed and interleaved, each study context is consistent: the number of
    quizzes is the length of the history and the current quiz is its last
    entry, every participant is filed under the own identifier with streak,
    correct and total answers in order, the streak is positive exactly after a
    correct answer, a score that is a number is at least 100 per correct answer, and
    no follow-up question is kept when none is pending.  Every score is a number,
    unless the language model has given the points of a follow-up as a text or in
    an array: such points are joined to the score, which is a text from then on. *)
Theorem study_invariant (evs : list Event) :
  Forall (context_wf (existsb text_points evs)) (map_values (heap (run_events evs))).
Proof.
  set (texts := existsb text_points evs). assert (Forall (fun ev => text_points ev = true -> texts = true) evs) as Hevs.
  { apply Forall_forall. intros ev Hin Hev. apply existsb_exists. exists ev. by rewrite <- list_elem_of_In. }
  clearbody texts. change (service_wf texts (run_events evs)). unfold run_events.
  assert (service_wf texts initial) as Hi by constructor. revert Hi. generalize initial.
  induction Hevs as [|ev evs Hev _ IH]; intros s Hs; [done|]. apply IH. by apply study_step_wf.
Qed.

(* ------------------------------------------------------------------ *)
(** ** Streaks *)

Definition participant_of (s : Service) (roomId pid : jsstr) : option StudyParticipant :=
  '(_, c) ← context_of s roomId; map_get (participants c) pid.

Fixpoint answer_times (n : nat) (s : Service) (roomId pid : jsstr) (i : Z) : Service * Z :=
  match n with
  | O => (s, 0)
  | S n' =>
    let '(s', total) := answer_times n' s roomId pid i in
    let '(s'', r) := processAnswer s' roomId pid i in
    (s'', total + match r with Some r => a_points r | None => 0 end)
  end.

(** The context of a room after an update at its address *)
Lemma context_of_update s roomId a c f :
  context_of s roomId = Some (a, c) -> context_of (update s a f) roomId = Some (a, f c).
Proof.
  unfold context_of, update. destruct (map_get (studyContexts s) roomId) as [a'|] eqn:Ea; simpl; [|done].
  destruct (map_get (heap s) a') as [c'|] eqn:Ec; simpl; [|done]. intros [= -> ->].
  rewrite Ec. simpl. rewrite Ea. simpl. by rewrite map_get_set_eq.
Qed.

(** Points and bonuses for [n] right answers in a row *)
Definition streak_points (pts n : Z) : Z := pts * n + 25 * Z.max 0 (n - 1) * Z.max 0 (n - 2).

Lemma streak_points_0 pts : streak_points pts 0 = 0.
Proof. unfold streak_points. rewrite Z.mul_0_r. reflexivity. Qed.

Lemma streak_points_step pts n :
  0 <= n -> streak_points pts (n + 1) = streak_points pts n + pts + bonus (n + 1).
Proof.
  intros Hn. unfold streak_points, bonus. destruct (Z.leb_spec 3 (n + 1)).
  - rewrite !Z.max_r by lia. ring.
  - assert (n = 0 \/ n = 1) as [->| ->] by lia; simpl; lia.
Qed.

Lemma score_answer_points quiz p x :
  score p = Points x ->
  exists x', score (score_answer quiz true p) = Points x' /\ (x' == x + inject_Z (points quiz) + inject_Z (bonus (streak p + 1)))%Q.
Proof.
  intros Hx. simpl. rewrite Hx. unfold bonus. destruct (3 <=? streak p + 1); simpl; eexists; (split; [reflexivity|]); [reflexivity|].
  change (inject_Z 0) with 0%Q. lra.
Qed.

(** Right answers in a row: the [n]-th answer of a streak of right answers
    to one quiz gives the quiz's points and, from the third on, a bonus that
    grows by 50; together [100 n + 25 (n-1) (n-2)] for a quiz of 100 points.
    The points reported to the participant add up to the change of the score.
    The same quiz can be answered any number of times. *)
Theorem streak_score (s : Service) (roomId pid : jsstr) (a : nat) (c : StudyContext) (quiz : StudyQuiz)
    (p : StudyParticipant) (x : Q) (i : Z) (n : nat) :
  context_of s roomId = Some (a, c) -> currentQuiz c = Some quiz -> map_get (participants c) pid = Some p ->
  score p = Points x -> streak p = 0 -> is_correct quiz i = true ->
  exists p' x', score p' = Points x' /\ participant_of (answer_times n s roomId pid i).1 roomId pid = Some p' /\
    streak p' = Z.of_nat n /\ correctAnswers p' = correctAnswers p + Z.of_nat n /\
    (x' == x + inject_Z (streak_points (points quiz) (Z.of_nat n)))%Q /\
    (answer_times n s roomId pid i).2 = streak_points (points quiz) (Z.of_nat n).
Proof.
  intros Hctx Hq Hp Hx Hst Hi.
  assert (exists c' p' x', score p' = Points x' /\ context_of (answer_times n s roomId pid i).1 roomId = Some (a, c') /\
    currentQuiz c' = Some quiz /\ map_get (participants c') pid = Some p' /\
    streak p' = Z.of_nat n /\ correctAnswers p' = correctAnswers p + Z.of_nat n /\
    (x' == x + inject_Z (streak_points (points quiz) (Z.of_nat n)))%Q /\
    (answer_times n s roomId pid i).2 = streak_points (points quiz) (Z.of_nat n)) as
    (c' & p' & x' & Hx' & Hc' & _ & Hp' & H).
  { induction n as [|n (c' & p' & x' & Hx' & Hc' & Hq' & Hp' & Hs' & Hn' & Hsc & Htot)].
    - exists c, p, x. change (Z.of_nat 0) with 0. rewrite streak_points_0. cbn [answer_times fst snd].
      split_and!; try done; try lia. change (inject_Z 0) with 0%Q. lra.
    - simpl answer_times. destruct (answer_times n s roomId pid i) as [s1 total]. simpl in Hc', Htot.
      unfold processAnswer. rewrite Hc', Hq', Hp', Hi. cbn [fst snd].
      destruct (score_answer_points quiz p' x' Hx') as (x2 & Hx2 & Ex2).
      exists (set_participants (map_set (participants c') pid (score_answer quiz true p')) c'), (score_answer quiz true p'), x2.
      split; [exact Hx2|].
      rewrite (context_of_update s1 roomId a c') by done. cbn [currentQuiz participants set_participants].
      rewrite map_get_set_eq. simpl. replace (Z.of_nat (S n)) with (Z.of_nat n + 1) by lia.
      rewrite streak_points_step by lia. rewrite Hs', Hn', Htot. split_and!; try done; try lia.
      rewrite Ex2, Hs', !inject_Z_plus, Hsc. lra. }
  exists p', x'. split; [done|]. split; [|done]. unfold participant_of. rewrite Hc'. done.
Qed.

(* ------------------------------------------------------------------ *)
(** ** Follow-up points *)

Lemma reward_last_app n ps k p : reward_last n (ps ++ [(k, p)]) = ps ++ [(k, add_score n p)].
Proof.
  induction ps as [|[k' p'] ps IH]; [done|]. rewrite <- app_comm_cons. simpl.
  rewrite IH. destruct (ps ++ [(k, p)]) eqn:E; [by destruct ps|]. done.
Qed.

(** The points for an answer to a follow-up question go to the participant
    who joined last, whoever gave the answer: the operation is not told who
    answered, and takes the last entry of the map of participants. *)
Theorem followup_rewards_last_joined (s : Service) (roomId : jsstr) (a : nat) (c : StudyContext)
    (ps : list (jsstr * StudyParticipant)) (k : jsstr) (p : StudyParticipant) (response : jsstr) (result v : json) :
  context_of s roomId = Some (a, c) -> participants c = ps ++ [(k, p)] ->
  json_in response = Some result -> prop result (js "points") = Some v -> ngt (to_number number_text (Some v)) (Finite 0) = true ->
  exists c', context_of (finish_evaluation s a (Return response)).1 roomId = Some (a, c') /\
    participants c' = ps ++ [(k, add_score v p)] /\ followUpPending c' = false /\ followUpQuestion c' = None.
Proof.
  intros Hc Hps Hj Hn Hpos. unfold finish_evaluation. unfold json_in in Hj.
  destruct (match_text _ response) as [text|]; simpl in Hj; [|done]. rewrite Hj. cbn [fst].
  eexists. split; [by apply context_of_update|]. rewrite Hn. unfold positive. rewrite Hpos. cbn [participants set_followup set_participants followUpPending followUpQuestion].
  rewrite Hps, reward_last_app. done.
Qed.

(** Surprise quizzes have no limit: any number of them can be made in a
    session, at the same instant. *)
Lemma surprise_quizzes_unlimited (s : Service) (roomId keyword response : jsstr) (a : nat) (c : StudyContext)
    (result : json) (now : Z) (n : nat) :
  context_of s roomId = Some (a, c) -> isActive c = true -> json_in response = Some result ->
  exists c', context_of (Nat.iter n (fun s => (finish_surprise s a keyword (Return response) now).1) s) roomId = Some (a, c') /\
    quizCount c' = quizCount c + Z.of_nat n /\ isActive c' = true.
Proof.
  intros Hc Ha Hj. induction n as [|n (c' & Hc' & Hn & Hb)].
  - exists c. split_and!; [done|simpl; lia|done].
  - simpl Nat.iter. set (s1 := Nat.iter n _ s) in *.
    assert (map_get (heap s1) a = Some c') as Hg.
    { unfold context_of in Hc'. destruct (map_get (studyContexts s1) roomId) as [a'|]; simpl in Hc'; [|done].
      destruct (map_get (heap s1) a') eqn:E; simpl in Hc'; [|done]. by injection Hc' as -> ->. }
    exists (register_quiz (quiz_of result (JStr keyword) now) now c').
    unfold finish_surprise, finish_with. rewrite Hg, Hj. cbn [fst].
    split; [by apply context_of_update|]. cbn [register_quiz quizCount isActive]. split; [lia|done].
Qed.
End Scores.

(* ------------------------------------------------------------------ *)
(** ** Witnesses *)

(** The text of an integer *)
Definition int_text (q : Q) : jsstr := js_of_Z (Qnum q).

(** A service with one quiz and two participants *)
Definition sample_quiz_reply : jsstr := jq "{`question`: `TCP?`, `options`: [`a`, `b`], `correctIndex`: 1}".
Definition sample_service : Service :=
  run_events int_text [EStart (js "r") (js "네트워크") 300 0; EJoin (js "r") (js "p1") (js "Kim"); EJoin (js "r") (js "p2") (js "Lee");
              EQuizReply 0 (Return sample_quiz_reply) 60000].

Lemma streak_score_witness :
  exists p x, participant_of (answer_times int_text 4 sample_service (js "r") (js "p1") 1).1 (js "r") (js "p1") = Some p /\
    score p = Points x /\ (x == 550)%Q.
Proof.
  destruct (context_of sample_service (js "r")) as [[a c]|] eqn:E; [|vm_compute in E; discriminate].
  destruct (currentQuiz c) as [quiz|] eqn:Eq; [|vm_compute in E; injection E as <- <-; discriminate].
  destruct (map_get (participants c) (js "p1")) as [p|] eqn:Ep; [|vm_compute in E; injection E as <- <-; discriminate].
  assert (streak p = 0 /\ is_correct quiz 1 = true /\ score p = Points 0 /\ points quiz = 100) as (H1 & H2 & H3 & H4).
  { vm_compute in E. injection E as <- <-. vm_compute in Eq, Ep. injection Eq as <-. injection Ep as <-.
    split_and!; vm_compute; reflexivity. }
  destruct (streak_score int_text sample_service (js "r") (js "p1") a c quiz p 0 1 4 E Eq Ep H3 H1 H2) as (p' & x' & Hx' & Hp' & _ & _ & Hs & _).
  exists p', x'. split; [exact Hp'|]. split; [exact Hx'|]. rewrite Hs, H4. reflexivity.
Defined.

Lemma followup_rewards_last_joined_witness :
  exists c', context_of (finish_evaluation int_text sample_service 0 (Return (jq "{`points`: 30}"))).1 (js "r") = Some (0%nat, c') /\
    score <$> map_get (participants c') (js "p2") = Some (Points 30).
Proof.
  destruct (context_of sample_service (js "r")) as [[a c]|] eqn:E; [|vm_compute in E; discriminate].
  destruct (participants c) as [|e1 [|[k2 p2] [|]]] eqn:Ep; try (vm_compute in E; injection E as <- <-; discriminate).
  destruct (followup_rewards_last_joined int_text sample_service (js "r") a c [e1] k2 p2 (jq "{`points`: 30}")
    (JObj [(js "points", JNum 30)]) (JNum 30) E Ep) as (c' & Hc' & Hp & _).
  - vm_compute. reflexivity.
  - vm_compute. reflexivity.
  - reflexivity.
  - vm_compute in E. injection E as <- <-. exists c'. split; [exact Hc'|]. rewrite Hp.
    vm_compute in Ep. injection Ep as <- <- <-. vm_compute. reflexivity.
Defined.

(** Points as a text: the score of ten and five points more reads 105 *)
Example text_points_are_joined :
  let s := run_events int_text [EStart (js "r") (js "t") 300 0; EJoin (js "r") (js "p1") (js "Kim"); EEvaluationReply 0 (Return (jq "{`points`: 10}"));
                                EEvaluationReply 0 (Return (jq "{`points`: `5`}"))] in
  score <$> participant_of s (js "r") (js "p1") = Some (Joined (js "105")).
Proof. vm_compute. reflexivity. Qed.
