(* ===== verification/Timeline.v ===== *)
(** * The meeting timeline

    [src/livekit/timeline.service.ts]: every utterance is corrected by the
    language model, which is shown what was said in the room in the last
    minute, and sent to the clients.

    The buffer of a room is an array that is shared: [cleanExpiredContext]
    makes a new array and keeps a reference to it over the wait for the
    language model, while [addToContext] pushes into the array the map holds
    by then.  Arrays live in a heap.  An utterance is split at its wait, so
    utterances overlap. *)

From Stdlib Require Import ZArith QArith Lia.
From stdpp Require Import base strings option sets list.
From S2P Require Import Prelude JsString JsMap Json Regex.

#[local] Open Scope Z_scope.

Record BufferedTranscript := mkEntry { speaker : jsstr; text : json; timestamp : Z }.

Record Service := mkService {
  heap : jsmap nat (list BufferedTranscript);
  contextBuffers : jsmap jsstr nat;
  next : nat;
}.

Definition BUFFER_DURATION_MS : Z := 60 * 1000.

(** [this.contextBuffers.get(roomId) || []] *)
Definition buffer_of (s : Service) (roomId : jsstr) : list BufferedTranscript :=
  default [] (a ← map_get (contextBuffers s) roomId; map_get (heap s) a).

Definition recent (now : Z) (e : BufferedTranscript) : bool := now - timestamp e <? BUFFER_DURATION_MS.

(** The address of the new array is the result. *)
Definition cleanExpiredContext (s : Service) (roomId : jsstr) (now : Z) : Service * nat :=
  (mkService (map_set (heap s) (next s) (List.filter (recent now) (buffer_of s roomId)))
     (map_set (contextBuffers s) roomId (next s)) (S (next s)), next s).

Definition addToContext (s : Service) (roomId speaker : jsstr) (text : json) (now : Z) : Service :=
  let e := mkEntry speaker text now in
  match map_get (contextBuffers s) roomId with
  | Some a => mkService (map_set (heap s) a (buffer_of s roomId ++ [e])) (contextBuffers s) (next s)
  | None => mkService (map_set (heap s) (next s) [e]) (map_set (contextBuffers s) roomId (next s)) (S (next s))
  end.

Definition clearBuffer (s : Service) (roomId : jsstr) : Service :=
  mkService (heap s) (map_delete (contextBuffers s) roomId) (next s).

Section Texts.
Context (number_text : Q -> jsstr).

Definition formatContext (buffer : list BufferedTranscript) : jsstr :=
  join nl ((fun e => speaker e ++ js ": " ++ json_text number_text (text e)) <$> buffer).

(** The request of [processTranscript] *)
Definition transcript_prompt (transcript context : jsstr) : jsstr :=
  let contextSection :=
    match context with
    | [] => []
    | _ => lines [js "## 이전 대화 컨텍스트 (참고용, 수정하지 말 것)"; context; []; []]
    end in
  lines [
    js "다음은 회의 중 음성인식(STT) 결과입니다.";
    js "두 가지 작업을 수행하세요:";
    [];
    js "1. STT 오인식을 교정하여 자연스러운 문장으로 다듬기";
    js "2. 문장에서 중요 키워드 최대 5개 추출";
    [];
    contextSection ++ js "## STT 정제 규칙";
    js "- STT 오인식 교정 (기술 용어, 외래어 등)";
    js "- 불필요한 추임새 제거 (음, 어, 그...)";
    js "- 원래 의미를 유지하면서 자연스럽게 수정";
    js "- 이전 대화 컨텍스트를 참고하여 일관된 용어 사용";
    js "- 맥락상 불완전한 문장이면 자연스럽게 보완";
    [];
    js "## STT 오인식 교정 예시";
    [];
    js "### 기술 용어";
    js "- 유아이/유아이엑스/유아이 유엑스/유아이유엑스/UI UX/유 아이 유 엑스 → UI/UX";
    js "- 유아이 고도화/유아이엑스 고도화 → UI/UX 고도화";
    js "- 리액트/리엑트 → React";
    js "- 타입스크립트 → TypeScript";
    js "- 도커/독커/독거 → Docker";
    js "- 쿠버네티스/후보네티스 → Kubernetes";
    js "- 웹소켓 → WebSocket";
    js "- 에이피아이 → API";
    js "- 엘엘엠 → LLM";
    js "- 지피티 → GPT";
    js "- 유즈메모/유저메모/유스메모 → useMemo";
    js "- 유즈이펙트/유스이펙트 → useEffect";
    js "- 프론트엔드 → Frontend";
    js "- 라이브킷 → LiveKit";
    js "- 클로바/글로바/클로버 → Clova";
    js "- 깃허브/깃헙/기트허브 → GitHub";
    js "- 슬랙/슬렉/스랙 → Slack";
    js "- 스크럼/스크런/스크롬 → 스크럼";
    js "- 이알디/ERD → ERD";
    js "- 플로우차트/플로차트/플로우 차트 → 플로우차트";
    js "- 시퀀스/시컨스/씨퀀스 → 시퀀스 다이어그램";
    js "- 아키텍처/아키택처/아키텍쳐 → 아키텍처";
    [];
    js "### 서비스 용어";
    js "- 헤이록/헤이록생/회이록 → 회의록";
    js "- 청여자/참야자 → 참여자";
    js "- 진행자/진행차 → 진행자";
    js "- 액션아이템/액션 아이템/액숀아이템 → 액션 아이템";
    js "- 타임라인/타이라인/타임 라인 → 타임라인";
    js "- 북마크/북막/북말크 → 북마크";
    js "- 캘린더/캘런더/켈린더 → 캘린더";
    js "- 회의상태바/회의 상태바/상태바 → 회의 상태바";
    js "- 화면분석/화면 분석/화면분석기능 → 화면 분석";
    js "- 화면공유/화면 공유 → 화면 공유";
    js "- 포스터세션/포스터 세션 → 포스터 세션";
    [];
    js "### 일반 용어";
    js "- 고도와/고도아 → 고도화";
    js "- 인식을/인식율 → 인식률";
    js "- 생선 속도/성공 속도 → 생성 속도";
    js "- 비동작 → 비동기";
    js "- 콜백/퀄백 → callback";
    js "- 시연/시언 → 시연";
    js "- 격차로/격자로 → 격자";
    js "- 맞춤와/맞춤아 → 맞춤화";
    [];
    js "### 참여자 이름";
    js "- 태은/태운/테은 → 태은";
    js "- 동규/동구/동귀 → 동규";
    js "- 지웅/지응/지웅이 → 지웅";
    js "- 명기/명기님/명끼 → 명기";
    js "- 멘토/멘터/맨토 → 멘토";
    [];
    js "## 키워드 추출 규칙";
    js "- 문장의 핵심 개념을 나타내는 명사/용어만 추출";
    js "- 최대 5개까지만 (중요도 순)";
    js "- 의미 없는 일반 단어 제외 (있다, 하다, 것, 등)";
    js "- 키워드가 없으면 빈 배열";
    [];
    js "## 정제할 STT 원본 (이것만 정제)";
    transcript;
    [];
    js "## 출력 형식 (JSON만 출력, 다른 설명 없이)";
    jq "{`text`: `정제된 문장`, `keywords`: [`키워드1`, `키워드2`]}"].

Record ProcessedTranscript := mkProcessed { refinedText : json; p_keywords : list json }.

(** What [processTranscript] makes of the reply *)
Definition process_reply (transcript : jsstr) (reply : outcome jsstr jsstr) : ProcessedTranscript :=
  let original := mkProcessed (JStr transcript) [] in
  match reply with
  | Throw _ => original
  | Return result =>
    match match_text (re (js "\{[\s\S]*\}")) result ≫= Json.parse with
    | Some parsed =>
      mkProcessed
        (let t := prop parsed (js "text") in if json_truthy t then default JNull t else JStr transcript)
        (match prop parsed (js "keywords") with Some (JArr l) => take 5 l | _ => [] end)
    | None => original
    end
  end.

(** An utterance that waits for its correction *)
Record Pending := mkPending {
  w_roomId : jsstr;
  w_speaker : jsstr;
  w_transcript : jsstr;
  validContext : nat;
  w_prompt : jsstr;
}.

(** [sendTranscript] up to the request; [None] for texts of at most three
    characters *)
Definition begin_send (s : Service) (roomId transcript speaker : jsstr) (now : Z) : option (Service * Pending) :=
  if (length (trim transcript) <=? 3)%nat then None
  else
    let '(s', a) := cleanExpiredContext s roomId now in
    Some (s', mkPending roomId speaker (trim transcript) a
                (transcript_prompt (trim transcript) (formatContext (default [] (map_get (heap s') a))))).

Record Message := mkMessage {
  m_speaker : jsstr;
  m_text : json;
  m_keywords : list json;
  originalText : jsstr;
  m_timestamp : Z;
  m_roomId : jsstr;
  contextSize : nat;
}.

(** The rest of [sendTranscript], with the message it publishes *)
Definition finish_send (s : Service) (p : Pending) (reply : outcome jsstr jsstr) (now : Z) : Service * Message :=
  let r := process_reply (w_transcript p) reply in
  let s' := addToContext s (w_roomId p) (w_speaker p) (refinedText r) now in
  (s', mkMessage (w_speaker p) (refinedText r) (p_keywords r) (w_transcript p) now (w_roomId p)
         (length (default [] (map_get (heap s') (validContext p))))).

(* ------------------------------------------------------------------ *)
(** ** Executions *)

Inductive Event :=
| Begin (roomId transcript speaker : jsstr) (now : Z)
| Finish (i : nat) (reply : outcome jsstr jsstr) (now : Z)
| Clear (roomId : jsstr).

(** The service, the utterances that wait, and all utterances of each room
    since its buffer was last cleared *)
Record World := mkWorld {
  svc : Service;
  pendings : list Pending;
  history : jsmap jsstr (list BufferedTranscript);
}.

Definition history_of (w : World) (roomId : jsstr) : list BufferedTranscript := default [] (map_get (history w) roomId).

Definition wstep (w : World) (ev : Event) : World :=
  match ev with
  | Begin roomId transcript speaker now =>
    match begin_send (svc w) roomId transcript speaker now with
    | Some (s', p) => mkWorld s' (pendings w ++ [p]) (history w)
    | None => w
    end
  | Finish i reply now =>
    match pendings w !! i with
    | Some p =>
      mkWorld (finish_send (svc w) p reply now).1 (delete i (pendings w))
        (map_set (history w) (w_roomId p) (history_of w (w_roomId p)
           ++ [mkEntry (w_speaker p) (refinedText (process_reply (w_transcript p) reply)) now]))
    | None => w
    end
  | Clear roomId => mkWorld (clearBuffer (svc w) roomId) (pendings w) (map_delete (history w) roomId)
  end.

Definition initial : World := mkWorld (mkService [] [] 0) [] [].
Definition run_events (evs : list Event) : World := foldl wstep initial evs.

Definition event_time (ev : Event) : option Z :=
  match ev with Begin _ _ _ now | Finish _ _ now => Some now | Clear _ => None end.

(** Times do not decrease. *)
Fixpoint clocked (t : Z) (evs : list Event) : Prop :=
  match evs with
  | [] => True
  | ev :: evs' => match event_time ev with Some u => t <= u /\ clocked u evs' | None => clocked t evs' end
  end.

(** *** The invariant *)

(** Each room has an array of its own. *)
Record service_wf (s : Service) : Prop := {
  wf_bound : forall r a, map_get (contextBuffers s) r = Some a -> (a < next s)%nat;
  wf_inj : forall r r' a, map_get (contextBuffers s) r = Some a -> map_get (contextBuffers s) r' = Some a -> r = r';
  wf_heap : forall r a, map_get (contextBuffers s) r = Some a -> is_Some (map_get (heap s) a);
}.

(** From time [t] on, the buffer and the history agree on what is recent. *)
Definition agrees (w : World) (t : Z) : Prop :=
  forall r u, t <= u ->
  List.filter (recent u) (buffer_of (svc w) r) = List.filter (recent u) (history_of w r).

Lemma recent_mono t u e : t <= u -> recent u e = true -> recent t e = true.
Proof. unfold recent. intros Hle H. bool_cases. lia. Qed.

Lemma filter_recent t u l : t <= u -> List.filter (recent u) (List.filter (recent t) l) = List.filter (recent u) l.
Proof.
  intros Hle. induction l as [|e l IH]; [done|]. simpl. destruct (recent t e) eqn:Et; simpl; rewrite IH; [done|].
  destruct (recent u e) eqn:Eu; [|done]. apply (recent_mono t) in Eu; [congruence|done].
Qed.

Lemma clean_buffer s r now r' :
  service_wf s ->
  buffer_of (cleanExpiredContext s r now).1 r' =
    if decide (r = r') then List.filter (recent now) (buffer_of s r) else buffer_of s r'.
Proof.
  intros [Hb Hi Hh]. unfold buffer_of at 1, cleanExpiredContext. simpl. rewrite map_get_set. case_decide; subst; simpl.
  - by rewrite map_get_set_eq.
  - unfold buffer_of. destruct (map_get (contextBuffers s) r') as [a|] eqn:E; simpl; [|done].
    rewrite map_get_set_ne; [done|]. apply Hb in E. lia.
Qed.

Lemma clean_wf s r now : service_wf s -> service_wf (cleanExpiredContext s r now).1.
Proof.
  intros [Hb Hi Hh]. split; simpl.
  - intros r' a. rewrite map_get_set. case_decide; [intros [= <-]; lia|]. intros Hx%Hb. lia.
  - intros r1 r2 a. rewrite !map_get_set. repeat case_decide; subst; try done.
    + intros [= <-] Hx%Hb. lia.
    + intros Hx%Hb [= <-]. lia.
    + apply Hi.
  - intros r' a. rewrite map_get_set. case_decide; [intros [= <-]; rewrite map_get_set_eq; by eexists|].
    intros Hx. rewrite map_get_set_ne; [by eapply Hh|]. apply Hb in Hx. lia.
Qed.

Lemma add_buffer s r sp tx now r' :
  service_wf s ->
  buffer_of (addToContext s r sp tx now) r' =
    if decide (r = r') then buffer_of s r ++ [mkEntry sp tx now] else buffer_of s r'.
Proof.
  intros [Hb Hi Hh]. unfold addToContext. destruct (map_get (contextBuffers s) r) as [a|] eqn:Ea.
  - unfold buffer_of at 1. simpl. case_decide; subst.
    + rewrite Ea. simpl. by rewrite map_get_set_eq.
    + unfold buffer_of. destruct (map_get (contextBuffers s) r') as [a'|] eqn:E; simpl; [|done].
      rewrite map_get_set_ne; [done|]. intros ->. eauto.
  - unfold buffer_of at 1. simpl. rewrite map_get_set. case_decide; subst; simpl.
    + rewrite map_get_set_eq. unfold buffer_of. by rewrite Ea.
    + unfold buffer_of. destruct (map_get (contextBuffers s) r') as [a'|] eqn:E; simpl; [|done].
      rewrite map_get_set_ne; [done|]. apply Hb in E. lia.
Qed.

Lemma add_wf s r sp tx now : service_wf s -> service_wf (addToContext s r sp tx now).
Proof.
  intros [Hb Hi Hh]. unfold addToContext. destruct (map_get (contextBuffers s) r) as [a|] eqn:Ea; split; simpl; try done.
  - intros r' a' H. rewrite map_get_set. case_decide; [by eexists|]. by eapply Hh.
  - intros r' a. rewrite map_get_set. case_decide; [intros [= <-]; lia|]. intros Hx%Hb. lia.
  - intros r1 r2 a. rewrite !map_get_set. repeat case_decide; subst; try done.
    + intros [= <-] Hx%Hb. lia.
    + intros Hx%Hb [= <-]. lia.
    + apply Hi.
  - intros r' a. rewrite map_get_set. case_decide; [intros [= <-]; rewrite map_get_set_eq; by eexists|].
    intros Hx. rewrite map_get_set_ne; [by eapply Hh|]. apply Hb in Hx. lia.
Qed.

Lemma clear_wf s r : service_wf s -> service_wf (clearBuffer s r).
Proof.
  assert (forall r' a, map_get (map_delete (contextBuffers s) r) r' = Some a -> map_get (contextBuffers s) r' = Some a) as H.
  { intros r' a. destruct (decide (r = r')) as [->|]; [by rewrite map_get_delete_eq|by rewrite map_get_delete_ne]. }
  intros [Hb Hi Hh]. split; simpl; eauto.
Qed.

Lemma clear_buffer s r r' : buffer_of (clearBuffer s r) r' = if decide (r = r') then [] else buffer_of s r'.
Proof.
  unfold buffer_of. simpl. case_decide; subst; [by rewrite map_get_delete_eq|by rewrite map_get_delete_ne].
Qed.

Definition good (w : World) (t : Z) : Prop := service_wf (svc w) /\ agrees w t.

Lemma wstep_good w t ev :
  good w t -> (forall u, event_time ev = Some u -> t <= u) -> good (wstep w ev) (default t (event_time ev)).
Proof.
  intros [Hwf Ha] Ht. destruct ev as [r tr sp now|i reply now|r]; simpl.
  - specialize (Ht now eq_refl). unfold begin_send.
    destruct (length (trim tr) <=? 3)%nat; [split; [done|intros r' u Hu; apply Ha; lia]|].
    split; simpl; [by apply (clean_wf (svc w) r now)|]. intros r' u Hu. simpl.
    change (mkService _ _ _) with (cleanExpiredContext (svc w) r now).1. rewrite clean_buffer by done.
    case_decide; subst; [rewrite filter_recent by done|]; apply Ha; lia.
  - specialize (Ht now eq_refl). destruct (pendings w !! i) as [p|]; [|split; [done|intros r' u Hu; apply Ha; lia]].
    split; simpl; [by apply add_wf|]. intros r' u Hu. simpl. rewrite add_buffer by done.
    unfold history_of at 1. simpl. rewrite map_get_set. case_decide; subst; simpl; [|apply Ha; lia].
    rewrite !List.filter_app, Ha by lia. done.
  - split; simpl; [by apply clear_wf|]. intros r' u Hu. simpl. rewrite clear_buffer. unfold history_of. simpl.
    case_decide; subst; [by rewrite map_get_delete_eq|]. rewrite map_get_delete_ne by done. by apply Ha.
Qed.

(** C35: The language model is shown the last minute.  When an utterance begins,
    whatever other utterances of whatever rooms are being corrected, the
    context in its request is made of exactly the corrected utterances of the
    room of the last sixty seconds, in order. *)
Theorem context_is_recent_history (evs : list Event) (roomId transcript speaker : jsstr) (now t0 : Z) s' p :
  clocked t0 (evs ++ [Begin roomId transcript speaker now]) ->
  begin_send (svc (run_events evs)) roomId transcript speaker now = Some (s', p) ->
  w_prompt p = transcript_prompt (trim transcript)
    (formatContext (List.filter (recent now) (history_of (run_events evs) roomId))).
Proof.
  intros Hclk.
  assert (exists t, good (run_events evs) t /\ t <= now) as (t & [Hwf Ha] & Hle).
  { unfold run_events. assert (good initial t0) as Hg by (split; [split; done|intros r u Hu; done]).
    revert Hg Hclk. generalize initial. revert t0.
    induction evs as [|ev evs IH]; intros t w Hg Hclk; simpl in Hclk.
    - exists t. tauto.
    - simpl. apply (IH (default t (event_time ev))); [|by destruct (event_time ev); simpl; tauto].
      apply wstep_good; [done|]. intros u Hu. rewrite Hu in Hclk. tauto. }
  unfold begin_send. case_match; [done|]. intros [= <- <-]. cbn [w_prompt]. do 2 f_equal.
  cbn [heap]. rewrite map_get_set_eq. simpl. by apply Ha.
Qed.

Lemma add_after_clean s roomId t sp tx u :
  service_wf s ->
  length (default [] (map_get (heap (addToContext (cleanExpiredContext s roomId t).1 roomId sp tx u)) (next s))) =
    S (length (List.filter (recent t) (buffer_of s roomId))).
Proof.
  intros Hwf. set (s1 := (cleanExpiredContext s roomId t).1).
  assert (map_get (contextBuffers s1) roomId = Some (next s)) as Ha by apply map_get_set_eq.
  assert (buffer_of s1 roomId = List.filter (recent t) (buffer_of s roomId)) as Hbuf.
  { unfold s1. rewrite clean_buffer, decide_True by done. done. }
  unfold addToContext. rewrite Ha. cbn [heap]. rewrite map_get_set_eq. cbn [default from_option id].
  rewrite length_app, Hbuf. simpl. lia.
Qed.

(** The size of the context in the message is not the number of utterances
    the language model was shown but one more: it is read from the shared
    array after the utterance itself was pushed into it. *)
Theorem context_size_off_by_one (s s' : Service) (p : Pending) (roomId transcript speaker : jsstr)
    (reply : outcome jsstr jsstr) (t u : Z) :
  service_wf s -> begin_send s roomId transcript speaker t = Some (s', p) ->
  contextSize (finish_send s' p reply u).2 = S (length (List.filter (recent t) (buffer_of s roomId))).
Proof.
  intros Hwf. unfold begin_send. case_match; [done|]. intros [= <- <-].
  apply add_after_clean, Hwf.
Qed.
End Texts.

Definition no_number (q : Q) : jsstr := [].

Definition sample_events : list Event :=
  [Begin (js "r") (js "안녕하세요") (js "Kim") 1000; Begin (js "r") (js "반갑습니다") (js "Lee") 1500;
   Finish 0 (Return (jq "{`text`: `안녕하세요.`, `keywords`: []}")) 2000; Finish 0 (Throw []) 2500].

Lemma context_is_recent_history_witness :
  exists s' p, begin_send no_number (svc (run_events no_number sample_events)) (js "r") (js "시작합시다") (js "Kim") 61500 = Some (s', p) /\
    w_prompt p = transcript_prompt (js "시작합시다")
      (formatContext no_number (List.filter (recent 61500) (history_of (run_events no_number sample_events) (js "r")))).
Proof.
  destruct (begin_send no_number (svc (run_events no_number sample_events)) (js "r") (js "시작합시다") (js "Kim") 61500)
    as [[s' p]|] eqn:E; [|vm_compute in E; discriminate].
  exists s', p. split; [reflexivity|].
  rewrite (context_is_recent_history no_number sample_events (js "r") (js "시작합시다") (js "Kim") 61500 0 s' p); [| |exact E].
  - replace (trim (js "시작합시다")) with (js "시작합시다") by (vm_compute; reflexivity). reflexivity.
  - simpl. lia.
Defined.

Lemma context_size_off_by_one_witness :
  exists s' p, begin_send no_number (svc initial) (js "r") (js "시작합시다") (js "Kim") 5 = Some (s', p) /\
    contextSize (finish_send s' p (Throw []) 7).2 = 1%nat.
Proof.
  destruct (begin_send no_number (svc initial) (js "r") (js "시작합시다") (js "Kim") 5)
    as [[s' p]|] eqn:E; [|vm_compute in E; discriminate].
  exists s', p. split; [reflexivity|].
  exact (context_size_off_by_one no_number (svc initial) s' p (js "r") (js "시작합시다") (js "Kim") (Throw []) 5 7
    ltac:(split; done) E).
Defined.
