(* ===== verification/Proactive.v ===== *)
(** * Proactive insights

    [src/agent/proactive/proactive-analysis.service.ts] and
    [proactive.interface.ts]: the language model is shown the screen texts and
    the recent conversation of a room, and what it suggests passes a filter on
    confidence, on a cool-down per type of insight and on the number per
    analysis.

    What the model replies is only assumed to be text: elements of the array
    may be anything JSON has.  The cool-down map is keyed by whatever the field
    [type] holds; a type that is an object or an array is a new key each time,
    so that entries for such types are never found again and are left out.
    [hashTexts] takes the digest function as an argument. *)

From Stdlib Require Import ZArith QArith Lia.
From stdpp Require Import base countable strings option sets list.
From S2P Require Import Prelude JsString JsMap Regex Json JsNumber.

#[local] Open Scope Z_scope.

Record ProactiveConfig := mkConfig {
  enabled : bool;
  analysisIntervalMs : Z;
  minConfidenceThreshold : Q;
  cooldownMs : Z;
  maxInsightsPerAnalysis : nat;
}.

Definition DEFAULT_PROACTIVE_CONFIG : ProactiveConfig := mkConfig true 8000 70 60000 2.

Record AnalysisContext := mkContext {
  screenTexts : list jsstr;
  recentConversation : list jsstr;
  roomTopic : option jsstr;
}.

(* ------------------------------------------------------------------ *)
(** ** The analysis *)

(** What the cool-down map compares: [None] for objects and arrays *)
Inductive tkey := KUndefined | KNull | KBool (b : bool) | KNum (q : Q) | KStr (s : jsstr).

#[local] Instance Q_eq_dec : EqDecision Q.
Proof. solve_decision. Defined.

#[export] Instance tkey_eq_dec : EqDecision tkey.
Proof. solve_decision. Defined.

#[export] Instance tkey_countable : Countable tkey.
Proof.
  refine (inj_countable'
    (fun k => match k with
              | KUndefined => inl (inl tt) | KNull => inl (inr tt) | KBool b => inr (inl b)
              | KNum q => inr (inr (inl (Qnum q, Qden q))) | KStr s => inr (inr (inr s))
              end)
    (fun c => match c with
              | inl (inl tt) => KUndefined | inl (inr tt) => KNull | inr (inl b) => KBool b
              | inr (inr (inl (n, d))) => KNum (n # d) | inr (inr (inr s)) => KStr s
              end) _).
  by intros [| | |[]|].
Defined.

Definition key_of (v : option json) : option tkey :=
  match v with
  | None => Some KUndefined
  | Some JNull => Some KNull
  | Some (JBool b) => Some (KBool b)
  | Some (JNum q) => Some (KNum (Qred q))
  | Some (JStr s) => Some (KStr s)
  | Some (JArr _) | Some (JObj _) => None
  end.

Section Service.
Context (number_text : Q -> jsstr).

(** The cool-down map *)
Definition Service := jsmap tkey Z.

Definition config : ProactiveConfig := DEFAULT_PROACTIVE_CONFIG.

Definition screen_section (texts : list jsstr) : jsstr :=
  match texts with
  | [] => js "(화면 텍스트 없음)"
  | _ => join (nl ++ nl)
           (imap (fun i text => js "[화면 " ++ js_of_Z (Z.of_nat i + 1) ++ js "]" ++ nl ++ slice_to 2000 text)
              (slice_last 3 texts))
  end.

Definition conversation_section (turns : list jsstr) : jsstr :=
  match turns with [] => js "(최근 발화 없음)" | _ => join nl (slice_last 5 turns) end.

Definition topic_section (topic : option jsstr) : jsstr :=
  match topic with Some ((_ :: _) as t) => js "[회의 주제]: " ++ t ++ nl | _ => [] end.

Definition buildAnalysisPrompt (c : AnalysisContext) : jsstr :=
  let screenSection := screen_section (screenTexts c) in
  let conversationSection := conversation_section (recentConversation c) in
  let topicSection := topic_section (roomTopic c) in
  lines [
    js "[역할]";
    js "당신은 화상회의에 참여 중인 AI 비서입니다.";
    js "사용자가 공유한 화면과 대화를 실시간으로 모니터링하고, 사용자에게 도움이 될 만한 정보를 자발적으로 제안합니다.";
    [];
    js "[핵심 원칙]";
    js "당신의 목표는 사용자가 요청하기 전에 먼저 유용한 정보를 제공하는 것입니다.";
    js "화면에 보이는 내용과 대화 맥락을 종합적으로 분석하여, 사용자에게 가치 있는 인사이트를 발견하세요.";
    [];
    topicSection;
    [];
    js "[공유된 화면 텍스트]";
    screenSection;
    [];
    js "[최근 대화]";
    conversationSection;
    [];
    js "[인사이트 발견 가이드]";
    js "화면과 대화를 분석하여 다음과 같은 상황에서 인사이트를 제공하세요:";
    [];
    js "**정보 제공이 유용한 상황:**";
    js "- 사용자가 무언가를 찾거나 판단하려는 것 같을 때 (관련 정보 제공)";
    js "- 화면에 분석/요약이 도움될 데이터가 있을 때 (핵심 요약)";
    js "- 사용자가 질문하거나 고민하는 것 같을 때 (답변이나 관점 제공)";
    js "- 화면 내용에 대해 추가 맥락이 도움될 때 (배경 지식, 관련 정보)";
    js "- 현재 논의 주제에 대한 보충 정보가 있을 때";
    js "- 사용자가 놓치고 있는 중요한 포인트가 있을 때";
    js "- 데이터나 콘텐츠에 대한 분석/해석이 유용할 때";
    [];
    js "**반드시 제안해야 하는 상황:**";
    js "- 코드 에러, 버그, 성능 이슈가 보일 때";
    js "- 민감 정보(API 키, 비밀번호, 개인정보)가 노출되어 있을 때";
    js "- 사용자가 명백히 잘못된 정보를 믿고 있을 때";
    js "- 더 효율적인 방법이나 도구가 있을 때";
    [];
    js "**타입 지정:**";
    js "상황에 맞는 type을 자유롭게 지정하세요:";
    js "- insight: 일반적인 인사이트, 분석, 요약";
    js "- suggestion: 제안, 추천";
    js "- answer: 질문에 대한 답변";
    js "- warning: 경고, 주의사항";
    js "- tip: 팁, 더 나은 방법";
    js "- info: 추가 정보, 배경 지식";
    js "- 기타 상황에 맞는 type 자유롭게 사용";
    [];
    js "[응답 규칙]";
    js "- 신뢰도 70% 이상인 경우만 제안";
    js "- 제목 20자 이내, 본문 3문장 이내";
    js "- 구체적이고 실행 가능한 내용";
    js "- 최대 2개까지";
    [];
    js "[응답 형식]";
    js "반드시 JSON 배열로만 응답. 설명 없이 JSON만.";
    js "확실하지 않으면 빈 배열 [] 반환.";
    [];
    js "형식:";
    js "[";
    js "  {";
    jq "    `type`: `상황에 맞는 타입`,";
    jq "    `title`: `간결한 제목`,";
    jq "    `content`: `화면과 대화 맥락을 기반으로 한 유용한 정보`,";
    jq "    `confidence`: 70-100";
    js "  }";
    js "]";
    [];
    js "인사이트가 없으면: []"].

(** [/```(?:json)?\s*([\s\S]*?)```/] *)
Definition code_block : regex := re (js "```(?:json)?\s*([\s\S]*?)```").
Definition array_literal : regex := re (js "\[[\s\S]*\]").

Definition extractJSON (text : jsstr) : jsstr :=
  match exec code_block text with
  | Some groups => trim (default (js "undefined") (groups 1%nat))
  | None => default (trim text) (match_text array_literal text)
  end.

(** [{...insight, timestamp}] *)
Definition spread (v : json) : list (jsstr * json) :=
  match v with
  | JObj fs => fs
  | JArr l => imap (fun i x => (js_of_Z (Z.of_nat i), x)) l
  | JStr s => imap (fun i c => (js_of_Z (Z.of_nat i), JStr [c])) s
  | _ => []
  end.

Definition stamped (now : Z) (v : json) : json := JObj (map_set (spread v) (js "timestamp") (JNum (inject_Z now))).

(** [callLLM] after the request: the reply is the text of the first block
    that has one.  A text that does not parse gives no insights. *)
Definition reply_insights (text : option jsstr) (now : Z) : list json :=
  match text with
  | None | Some [] => []
  | Some t => match Json.parse (extractJSON t) with Some (JArr l) => stamped now <$> l | _ => [] end
  end.

Definition insight_key (insight : json) : option tkey := key_of (prop insight (js "type")).

Definition unconfident (insight : json) : bool :=
  nlt (to_number number_text (prop insight (js "confidence"))) (Finite (minConfidenceThreshold config)).

(** [this.insightCooldowns.get(insight.type) || 0] *)
Definition last_time (s : Service) (k : option tkey) : Z := default 0 (k ≫= map_get s).

Definition set_time (s : Service) (k : option tkey) (now : Z) : Service :=
  match k with Some k => map_set s k now | None => s end.

Fixpoint filter_loop (now : Z) (s : Service) (filtered : list json) (insights : list json) : Service * list json :=
  match insights with
  | [] => (s, filtered)
  | insight :: rest =>
    if unconfident insight then filter_loop now s filtered rest
    else if now - last_time s (insight_key insight) <? cooldownMs config then filter_loop now s filtered rest
    else
      let filtered' := filtered ++ [insight] in
      let s' := set_time s (insight_key insight) now in
      if (maxInsightsPerAnalysis config <=? length filtered')%nat then (s', filtered')
      else filter_loop now s' filtered' rest
  end.

Definition filterInsights (s : Service) (insights : list json) (now : Z) : Service * list json :=
  filter_loop now s [] insights.

(** [analyze] up to the request; [None] when there is nothing to analyse *)
Definition begin_analyze (c : AnalysisContext) : option jsstr :=
  match screenTexts c, recentConversation c with
  | [], [] => None
  | _, _ => Some (buildAnalysisPrompt c)
  end.

(** The rest of [analyze] *)
Definition finish_analyze (s : Service) (reply : outcome jsstr (option jsstr)) (now : Z) : Service * list json :=
  match reply with
  | Throw _ => (s, [])
  | Return text => filterInsights s (reply_insights text now) now
  end.

Definition hashTexts (md5_hex : jsstr -> jsstr) (texts : list jsstr) : jsstr :=
  slice_to 16 (md5_hex (join (js "||") texts)).

Definition clearCooldowns (s : Service) : Service := [].

Definition getConfig : ProactiveConfig := config.

(* ------------------------------------------------------------------ *)
(** ** What the filter lets through *)

(** Confident and not cooling down when the analysis ends *)
Definition eligible (s : Service) (now : Z) (insight : json) : bool :=
  negb (unconfident insight) && negb (now - last_time s (insight_key insight) <? cooldownMs config).

(** The first insight of each type; types that are objects are all different *)
Fixpoint first_of_type (seen : list tkey) (l : list json) : list json :=
  match l with
  | [] => []
  | insight :: l' =>
    match insight_key insight with
    | Some k => if decide (k ∈ seen) then first_of_type seen l' else insight :: first_of_type (k :: seen) l'
    | None => insight :: first_of_type seen l'
    end
  end.

(** The state of the loop, against the state at its start *)
Definition marked (s0 s : Service) (now : Z) (seen : list tkey) : Prop :=
  forall k, map_get s k = if decide (k ∈ seen) then Some now else map_get s0 k.

Lemma marked_set s0 s now seen k : marked s0 s now seen -> marked s0 (map_set s k now) now (k :: seen).
Proof.
  intros H k'. rewrite map_get_set. destruct (decide (k = k')) as [->|Hne].
  - rewrite decide_True by set_solver. done.
  - rewrite H. repeat case_decide; set_solver.
Qed.

Lemma marked_last s0 s now seen key :
  marked s0 s now seen ->
  last_time s key = match key with
                    | Some k => if decide (k ∈ seen) then now else last_time s0 key
                    | None => last_time s0 key
                    end.
Proof. intros H. destruct key as [k|]; [|done]. unfold last_time. simpl. rewrite H. by case_decide. Qed.

Lemma cooling_now now : (now - now <? cooldownMs config) = true.
Proof. apply Z.ltb_lt. simpl. lia. Qed.

(** What one element does, against the state at the start *)
Lemma filter_step s0 s now seen insight :
  marked s0 s now seen ->
  let key := insight_key insight in
  (unconfident insight = true \/ (now - last_time s key <? cooldownMs config) = true ->
   forall l, first_of_type seen (List.filter (eligible s0 now) (insight :: l)) =
             first_of_type seen (List.filter (eligible s0 now) l)) /\
  (unconfident insight = false -> (now - last_time s key <? cooldownMs config) = false ->
   exists seen', marked s0 (set_time s key now) now seen' /\ seen' = option_list key ++ seen /\
   forall l, first_of_type seen (List.filter (eligible s0 now) (insight :: l)) =
             insight :: first_of_type seen' (List.filter (eligible s0 now) l)).
Proof.
  intros Hm key. pose proof (marked_last s0 s now seen key Hm) as Hl. cbn [List.filter]. split.
  - intros Hskip l. unfold eligible at 1. destruct (unconfident insight); [done|]. destruct Hskip as [|Hc]; [done|].
    fold key. destruct (now - last_time s0 key <? cooldownMs config) eqn:E0; [done|]. cbn [negb andb first_of_type].
    fold key. destruct key as [k|] eqn:Ek; rewrite Hl in Hc; [|congruence]. case_decide; [done|congruence].
  - intros Hu Hc. exists (option_list key ++ seen). unfold eligible at 1. rewrite Hu. fold key.
    split; [destruct key; simpl; [by apply marked_set|done]|split; [done|]]. intros l.
    destruct key as [k|] eqn:Ek; rewrite Hl in Hc.
    + case_decide; [by rewrite cooling_now in Hc|]. rewrite Hc. cbn [negb andb first_of_type]. fold key. rewrite Ek.
      by rewrite decide_False.
    + rewrite Hc. cbn [negb andb first_of_type]. fold key. by rewrite Ek.
Qed.

Lemma filter_loop_spec now s0 s seen filtered l :
  marked s0 s now seen -> (length filtered < maxInsightsPerAnalysis config)%nat ->
  let picked := take (maxInsightsPerAnalysis config - length filtered)
                  (first_of_type seen (List.filter (eligible s0 now) l)) in
  (filter_loop now s filtered l).2 = filtered ++ picked /\
  exists seen', marked s0 (filter_loop now s filtered l).1 now seen' /\
    forall k, k ∈ seen' <-> k ∈ omap insight_key picked \/ k ∈ seen.
Proof.
  revert s seen filtered. induction l as [|insight l IH]; intros s seen filtered Hm Hlen picked; subst picked.
  - cbn [List.filter first_of_type]. rewrite take_nil, app_nil_r. split; [done|]. exists seen. set_solver.
  - destruct (filter_step s0 s now seen insight Hm) as [Hskip Hkeep]. cbn [filter_loop].
    destruct (unconfident insight) eqn:Eu; [rewrite Hskip by auto; by apply IH|].
    destruct (now - last_time s (insight_key insight) <? cooldownMs config) eqn:Ec;
      [rewrite Hskip by auto; by apply IH|].
    destruct (Hkeep eq_refl eq_refl) as (seen' & Hm' & Hs & Htail). rewrite Htail. clear Hskip Hkeep Htail.
    pose proof (length_app filtered [insight]) as Ha. simpl in Ha. rewrite Nat.add_1_r in Ha.
    destruct (maxInsightsPerAnalysis config - length filtered)%nat as [|m] eqn:Em; [lia|].
    rewrite firstn_cons. destruct (maxInsightsPerAnalysis config <=? length (filtered ++ [insight]))%nat eqn:El.
    + apply Nat.leb_le in El. replace m with O by lia. split; [done|]. exists seen'. split; [done|].
      intros k. rewrite Hs. cbn. destruct (insight_key insight); cbn; set_solver.
    + apply Nat.leb_gt in El.
      destruct (IH _ seen' (filtered ++ [insight]) Hm' El) as [H1 (seen'' & H2 & H3)].
      replace (maxInsightsPerAnalysis config - length (filtered ++ [insight]))%nat with m in H1, H3 by lia.
      rewrite H1, <-(assoc_L (++)). split; [done|]. exists seen''. split; [done|].
      intros k. rewrite H3, Hs. cbn [omap list_omap]. destruct (insight_key insight); cbn; set_solver.
Qed.

Lemma insight_filter_facts (s : Service) (insights : list json) (now : Z) :
  let shown := take 2 (first_of_type [] (List.filter (eligible s now) insights)) in
  (filterInsights s insights now).2 = shown /\
  forall k, map_get (filterInsights s insights now).1 k =
    if decide (k ∈ omap insight_key shown) then Some now else map_get s k.
Proof.
  intros shown. destruct (filter_loop_spec now s s [] [] insights) as [H1 (seen & H2 & H3)].
  - intros k. by rewrite decide_False by set_solver.
  - simpl. lia.
  - split; [exact H1|]. intros k. unfold filterInsights. rewrite H2.
    repeat case_decide; try done; exfalso; revert H; rewrite H3 in *; set_solver.
Qed.

(** C36: The insights shown after an analysis are the first two of those that
    are confident enough and whose type was not shown in the last minute,
    taking only the first of each type; and exactly their types start to cool
    down. *)
Theorem insight_filter_spec (s : Service) (insights : list json) (now : Z) :
  let shown := take 2 (first_of_type [] (List.filter (eligible s now) insights)) in
  (filterInsights s insights now).2 = shown /\
  forall k, map_get (filterInsights s insights now).1 k =
    if decide (k ∈ omap insight_key shown) then Some now else map_get s k.
Proof. apply insight_filter_facts. Qed.

(* ------------------------------------------------------------------ *)
(** ** Executions *)

(** The analyses of all rooms end in some order; the end of the screen mode
    of any room clears the cool-downs. *)
Inductive Event :=
| Analysed (reply : outcome jsstr (option jsstr)) (now : Z)
| Cleared.

Definition step (s : Service) (ev : Event) : Service :=
  match ev with
  | Analysed reply now => (finish_analyze s reply now).1
  | Cleared => clearCooldowns s
  end.

Definition run_events (evs : list Event) : Service := foldl step [] evs.

Lemma first_of_type_sub seen l insight : insight ∈ first_of_type seen l -> insight ∈ l.
Proof.
  revert seen. induction l as [|x l IH]; intros seen; simpl; [done|].
  destruct (insight_key x); [case_decide|]; rewrite ?elem_of_cons; naive_solver.
Qed.

Lemma filter_shown s insights now insight :
  insight ∈ (filterInsights s insights now).2 -> eligible s now insight = true.
Proof.
  destruct (insight_filter_facts s insights now) as [-> _]. intros Hin.
  apply (subseteq_take 2 _ insight) in Hin. apply first_of_type_sub, elem_of_bfilter in Hin. tauto.
Qed.

Lemma filter_times s insights now k t :
  map_get s k = Some t -> exists t', t <= t' /\ map_get (filterInsights s insights now).1 k = Some t'.
Proof.
  intros Ht. destruct (insight_filter_facts s insights now) as [Hshown ->]. case_decide as Hk; [|by exists t].
  exists now. split; [|done]. rewrite <-Hshown in Hk. apply list_elem_of_omap in Hk as (i & Hi & Hkey).
  apply filter_shown in Hi. unfold eligible in Hi. rewrite Hkey in Hi. unfold last_time in Hi. simpl in Hi.
  rewrite Ht in Hi. simpl in Hi. bool_cases. lia.
Qed.

Lemma run_times evs s k t :
  Cleared ∉ evs -> map_get s k = Some t -> exists t', t <= t' /\ map_get (foldl step s evs) k = Some t'.
Proof.
  revert s t. induction evs as [|ev evs IH]; intros s t Hc Ht; simpl; [by exists t|].
  apply not_elem_of_cons in Hc as [Hev Hc]. destruct ev as [reply now|]; [|done].
  assert (exists t1, t <= t1 /\ map_get (step s (Analysed reply now)) k = Some t1) as (t1 & Hle & H1).
  { destruct reply as [text|e]; simpl; [by apply filter_times|by exists t]. }
  destruct (IH _ _ Hc H1) as (t2 & ? & ?). exists t2. split; [lia|done].
Qed.

(** Insights of one type are at least a minute apart.  Whatever analyses of
    whatever rooms end in between, when two insights of the same type are
    shown and the cool-downs were not cleared between them, sixty seconds have
    passed. *)
Theorem insights_are_spaced (evs1 evs2 : list Event) reply1 reply2 (t1 t2 : Z) (i1 i2 : json) (k : tkey) :
  let s1 := run_events evs1 in
  let s2 := run_events (evs1 ++ Analysed reply1 t1 :: evs2) in
  Cleared ∉ evs2 ->
  i1 ∈ (finish_analyze s1 reply1 t1).2 -> i2 ∈ (finish_analyze s2 reply2 t2).2 ->
  insight_key i1 = Some k -> insight_key i2 = Some k ->
  60000 <= t2 - t1.
Proof.
  intros s1 s2 Hc Hi1 Hi2 Hk1 Hk2. destruct reply1 as [text1|e], reply2 as [text2|e']; simpl in Hi1, Hi2; try set_solver.
  assert (map_get (step s1 (Analysed (Return text1) t1)) k = Some t1) as H1.
  { simpl. destruct (insight_filter_facts s1 (reply_insights text1 t1) t1) as [Hshown ->].
    rewrite <-Hshown, decide_True; [done|]. apply list_elem_of_omap. eauto. }
  destruct (run_times evs2 _ k t1 Hc H1) as (t & Hle & Ht).
  assert (map_get s2 k = Some t) as Hs2 by (unfold s2, run_events; rewrite foldl_app; exact Ht).
  apply filter_shown in Hi2. unfold eligible in Hi2. rewrite Hk2 in Hi2. unfold last_time in Hi2. simpl in Hi2.
  rewrite Hs2 in Hi2. simpl in Hi2. bool_cases. lia.
Qed.
End Service.

(** *** Concrete executions *)

Definition no_number (q : Q) : jsstr := [].

Definition sample_reply : outcome jsstr (option jsstr) :=
  Return (Some (js "```json" ++ nl ++ jq "[{`type`: `tip`, `confidence`: 90}, {`type`: `tip`}, {`type`: `info`, `confidence`: `69`}]"
                ++ nl ++ js "```")).

(** An insight without a confidence passes the threshold. *)
Example missing_confidence_passes :
  (finish_analyze no_number [] (Return (Some (jq "[{`type`: `tip`}]"))) 100000).2 =
    [JObj [(js "type", JStr (js "tip")); (js "timestamp", JNum 100000)]].
Proof. vm_compute. reflexivity. Qed.

(** The end of the screen mode of one room lifts the cool-down of another. *)
Example clear_lifts_cooldown :
  length (finish_analyze no_number (run_events no_number [Analysed sample_reply 100000]) sample_reply 101000).2 = 0%nat /\
  length (finish_analyze no_number (run_events no_number [Analysed sample_reply 100000; Cleared]) sample_reply 101000).2 = 1%nat.
Proof. vm_compute. split; reflexivity. Qed.

Lemma insights_are_spaced_witness :
  60000 <= 160000 - 100000.
Proof.
  refine (insights_are_spaced no_number [] [Analysed sample_reply 120000] sample_reply sample_reply 100000 160000
    (JObj [(js "type", JStr (js "tip")); (js "confidence", JNum 90); (js "timestamp", JNum 100000)])
    (JObj [(js "type", JStr (js "tip")); (js "confidence", JNum 90); (js "timestamp", JNum 160000)])
    (KStr (js "tip")) _ _ _ _ _).
  - rewrite list_elem_of_singleton. discriminate.
  - vm_compute. left.
  - vm_compute. left.
  - vm_compute. reflexivity.
  - vm_compute. reflexivity.
Defined.
