(* ===== verification/Room.v ===== *)
(** * The state of a bot in a room

    The types at the head of [src/livekit/voice-bot.service.ts] and the context
    that [startBot] creates.  The handles of the room and of the audio source
    are not part of it; of an interval it says whether it is set.  All parts of
    the voice bot work on this record. *)

From Stdlib Require Import ZArith QArith Lia.
From stdpp Require Import base strings option list.
From S2P Require Import Prelude JsString JsMap Records.

#[local] Open Scope Z_scope.

Inductive BotState := SLEEP | ARMED | SPEAKING.

#[export] Instance BotState_eq_dec : EqDecision BotState.
Proof. solve_decision. Defined.

Inductive role := user | assistant.

#[export] Instance role_eq_dec : EqDecision role.
Proof. solve_decision. Defined.

Record ConversationTurn := mkTurn {
  turn_role : role;
  content : jsstr;
  turn_timestamp : Z;
  turn_speaker : option jsstr;
}.

Record ParticipantSpeakingStats := mkStats {
  participantId : jsstr;
  participantName : jsstr;
  speakingDurationMs : Z;
  speakingCount : Z;
  lastSpokenAt : Z;
}.

Inductive DiagramType := flowchart | sequence | erd | architecture.

#[export] Instance DiagramType_eq_dec : EqDecision DiagramType.
Proof. solve_decision. Defined.

Record DiagramStatement := mkStatement {
  st_speaker : jsstr;
  st_text : jsstr;
  st_keywords : list jsstr;
  st_timestamp : Z;
}.

Record DiagramContext := mkDiagram {
  dc_keywords : list jsstr;
  statements : list DiagramStatement;
  lastUpdated : Z;
}.

Record DiagramContexts := mkDiagrams {
  dc_flowchart : DiagramContext;
  dc_sequence : DiagramContext;
  dc_erd : DiagramContext;
  dc_architecture : DiagramContext;
}.

Record ScreenCapture := mkCapture {
  captureId : Z;
  extractedText : jsstr;
  captureIndex : Z;
  capture_timestamp : Z;
}.

Record VisionRequest := mkVision { v_requestId : Z; v_userQuestion : jsstr; v_userId : jsstr }.

Record FlowNode := mkNode { node_id : jsstr; node_content : jsstr; nodeType : jsstr; depth : Z; branch : Z }.
Record FlowEdge := mkEdge { from : jsstr; to : jsstr; label : option jsstr }.
Record FlowchartContext := mkFlowchart { nodes : list FlowNode; edges : list FlowEdge; fc_summary : jsstr }.

Record DiagramExplanation := mkExplanation { types : list jsstr; mermaidCodes : jsmap jsstr jsstr }.

Record MeetingContext := mkMeeting {
  meetingTitle : jsstr;
  mc_summary : jsstr;
  keyDecisions : list jsstr;
  actionItems : list jsstr;
  date : jsstr;
}.

Record ProactiveState := mkProactive {
  pa_enabled : bool;
  lastAnalysisTime : Z;
  lastScreenTextHash : jsstr;
  lastConversationHash : jsstr;
  analysisTimer : bool;
}.

Definition createEmptyDiagramContexts : DiagramContexts :=
  let createEmpty := mkDiagram [] [] 0 in
  mkDiagrams createEmpty createEmpty createEmpty createEmpty.

Record RoomContext := mkRoom {
  isPublishing : bool;
  shouldInterrupt : bool;
  currentRequestId : Z;
  botState : BotState;
  lastInteractionTime : Z;
  lastSttTimeByUser : jsmap jsstr Z;
  lastResponseTime : Z;
  lastSpeechTime : Z;
  speakingStartTime : Z;
  activeUserId : option jsstr;
  hasActiveScreenShare : bool;
  isVisionMode : bool;
  pendingVisionRequest : option VisionRequest;
  ideaModeActive : bool;
  lastIdeaModeChange : Z;
  conversationHistory : list ConversationTurn;
  isInFollowUpWindow : bool;
  followUpExpiresAt : Z;
  lastBotQuestion : option jsstr;
  eventStormModeActive : bool;
  eventStormInitiator : option jsstr;
  eventStormOpenTime : Z;
  lastEventStormStart : Z;
  lastEventStormEnd : Z;
  isDddProcessing : bool;
  lastDddText : jsstr;
  flowchartModeActive : bool;
  flowchartInitiator : option jsstr;
  flowchartOpenTime : Z;
  flowchartContext : option FlowchartContext;
  designModeActive : bool;
  designModeOpenTime : Z;
  pendingDiagramExplanation : option DiagramExplanation;
  previousMeetingContext : option MeetingContext;
  greetingDone : bool;
  isContinuedMeeting : bool;
  aiMuted : bool;
  perplexityModeActive : bool;
  hostOnlyMode : bool;
  hostIdentities : list jsstr;
  wakeWordEnabled : bool;
  speakingEnabled : bool;
  publishingStartTime : Z;
  roomTopic : option jsstr;
  participantSpeakingStats : jsmap jsstr ParticipantSpeakingStats;
  statsUpdateInterval : bool;
  dominantAlertSent : bool;
  timelineStartTime : Z;
  screenUnderstandingMode : bool;
  screenContextHistory : list ScreenCapture;
  screenContextStartTime : Z;
  proactiveAnalysis : ProactiveState;
  standbyMode : bool;
  diagramContexts : DiagramContexts;
  shutdownTimeout : bool;
}.

#[export] Instance eta_room : Eta RoomContext := fun c =>
  mkRoom
    (isPublishing c) (shouldInterrupt c) (currentRequestId c) (botState c) (lastInteractionTime c)
    (lastSttTimeByUser c) (lastResponseTime c) (lastSpeechTime c) (speakingStartTime c) (activeUserId c)
    (hasActiveScreenShare c) (isVisionMode c) (pendingVisionRequest c) (ideaModeActive c)
    (lastIdeaModeChange c) (conversationHistory c) (isInFollowUpWindow c) (followUpExpiresAt c)
    (lastBotQuestion c) (eventStormModeActive c) (eventStormInitiator c) (eventStormOpenTime c)
    (lastEventStormStart c) (lastEventStormEnd c) (isDddProcessing c) (lastDddText c) (flowchartModeActive c)
    (flowchartInitiator c) (flowchartOpenTime c) (flowchartContext c) (designModeActive c)
    (designModeOpenTime c) (pendingDiagramExplanation c) (previousMeetingContext c) (greetingDone c)
    (isContinuedMeeting c) (aiMuted c) (perplexityModeActive c) (hostOnlyMode c) (hostIdentities c)
    (wakeWordEnabled c) (speakingEnabled c) (publishingStartTime c) (roomTopic c) (participantSpeakingStats c)
    (statsUpdateInterval c) (dominantAlertSent c) (timelineStartTime c) (screenUnderstandingMode c)
    (screenContextHistory c) (screenContextStartTime c) (proactiveAnalysis c) (standbyMode c)
    (diagramContexts c) (shutdownTimeout c).

(** The context a new bot starts with *)
Definition initial_context (topic : option jsstr) (now : Z) : RoomContext := {|
  isPublishing := false; shouldInterrupt := false; currentRequestId := 0; botState := SLEEP;
  lastInteractionTime := now; lastSttTimeByUser := []; lastResponseTime := 0; lastSpeechTime := 0;
  speakingStartTime := 0; activeUserId := None; hasActiveScreenShare := false; isVisionMode := false;
  pendingVisionRequest := None; ideaModeActive := false; lastIdeaModeChange := 0; conversationHistory := [];
  isInFollowUpWindow := false; followUpExpiresAt := 0; lastBotQuestion := None; eventStormModeActive := false;
  eventStormInitiator := None; eventStormOpenTime := 0; lastEventStormStart := 0; lastEventStormEnd := 0;
  isDddProcessing := false; lastDddText := []; flowchartModeActive := false; flowchartInitiator := None;
  flowchartOpenTime := 0; flowchartContext := None; designModeActive := false; designModeOpenTime := 0;
  pendingDiagramExplanation := None; previousMeetingContext := None; greetingDone := false;
  isContinuedMeeting := false; aiMuted := false; perplexityModeActive := false; hostOnlyMode := true;
  hostIdentities := []; wakeWordEnabled := false; speakingEnabled := false; publishingStartTime := 0;
  roomTopic := topic; participantSpeakingStats := []; statsUpdateInterval := false; dominantAlertSent := false;
  timelineStartTime := now; screenUnderstandingMode := false; screenContextHistory := [];
  screenContextStartTime := 0; proactiveAnalysis := (mkProactive false 0 [] [] false); standbyMode := false;
  diagramContexts := createEmptyDiagramContexts; shutdownTimeout := false
|}.

(** [this.activeRooms] *)
Definition Rooms := jsmap jsstr RoomContext.

Definition STOP_WORDS : list jsstr := js <$> ["멈춰"; "그만"; "스톱"; "중지"].
Definition ARMED_TIMEOUT_MS : Z := 30000.
Definition MAX_CONVERSATION_TURNS : nat := 30.
Definition CONVERSATION_EXPIRE_MS : Z := 300000.

(** [context.hostIdentities.size > 0] *)
Definition has_hosts (c : RoomContext) : bool := match hostIdentities c with [] => false | _ => true end.
