(* ===== verification/Vad.v ===== *)
(** * Turn detection

    [handleAudioTrack] of [src/livekit/voice-bot.service.ts]: one loop per
    audio track reads frames of 16-bit samples, measures the background noise
    for three seconds, adapts its thresholds to the speaker, cuts the stream
    into utterances and hands them to the speech pipeline.  It shares the
    context of the room with all other tracks and with the bot's answers.

    A frame is the list of its samples, two bytes each.  [Date.now()] is read
    several times per frame; the model takes one time per frame.  The square
    root, the logarithm and the power function on finite numbers are arguments
    (the language leaves their precision to the implementation). *)

From Stdlib Require Import ZArith QArith Qminmax Qabs Lia Lqa.
From stdpp Require Import base strings option sorting sets list.
From S2P Require Import Prelude JsString JsMap JsNumber Records Room.

#[local] Open Scope Z_scope.

Definition Frame := list Z.

Definition bytes (f : Frame) : Z := 2 * Z.of_nat (length f).

Definition CALIBRATION_DURATION : Z := 3000.
Definition PRE_BUFFER_FRAMES : nat := 15.
Definition SILENCE_THRESHOLD : nat := 50.
Definition MIN_AUDIO_LENGTH : Z := 16000.
Definition MAX_AUDIO_LENGTH : Z := 192000.
Definition MIN_VOICE_FRAMES : nat := 8.
Definition BARGE_IN_DECIBEL_THRESHOLD : number := Finite (-20).
Definition STRONG_VOICE_THRESHOLD : number := Finite (-24).
Definition STT_COOLDOWN_MS : Z := 1200.
Definition NOISE_UPDATE_ALPHA : Q := 5 # 100.
Definition VOICE_MARGIN_DB : number := Finite 10.
Definition SPEAKER_UPDATE_ALPHA : Q := 15 # 100.
Definition MIN_SPEAKER_SAMPLES : nat := 3.
Definition PUBLISHING_TIMEOUT_MS : Z := 60000.
Definition BARGE_IN_GRACE_PERIOD_MS : Z := 500.

(** The local variables of the loop *)
Record Track := mkTrack {
  isCalibrating : bool;
  calibrationSamples : list number;
  calibrationStartTime : Z;
  audioBuffer : list Frame;
  silenceCount : nat;
  voiceCount : nat;
  preBuffer : list Frame;
  isRecording : bool;
  speechStartTime : option Z;
  MIN_DECIBEL_THRESHOLD : number;
  VOICE_AMPLITUDE_THRESHOLD : number;
  backgroundNoiseDB : number;
  speakerVoiceDB : number;
  speakerSampleCount : nat;
}.

#[export] Instance eta_track : Eta Track := fun t =>
  mkTrack (isCalibrating t) (calibrationSamples t) (calibrationStartTime t) (audioBuffer t) (silenceCount t)
    (voiceCount t) (preBuffer t) (isRecording t) (speechStartTime t) (MIN_DECIBEL_THRESHOLD t)
    (VOICE_AMPLITUDE_THRESHOLD t) (backgroundNoiseDB t) (speakerVoiceDB t) (speakerSampleCount t).

Definition new_track (now : Z) : Track :=
  mkTrack true [] now [] 0 0 [] false None (Finite (-45)) (Finite 500) (Finite (-60)) (Finite (-30)) 0.

(** What [processAndRespond] is called with *)
Record Utterance := mkUtterance { fullAudio : Frame; capturedStartTime : option Z }.

Section Loop.
Context (sqrt log10 pow10 : Q -> Q).

Definition rms (samples : Frame) : number :=
  math_sqrt sqrt (ndiv (of_Z (foldl (fun sum s => sum + s * s) 0 samples)) (of_Z (Z.of_nat (length samples)))).

Definition decibel (samples : Frame) : number :=
  nmul (Finite 20) (math_log10 log10 (ndiv (rms samples) (Finite 32768))).

Definition avgAmplitude (samples : Frame) : number :=
  ndiv (of_Z (foldl (fun sum s => sum + Z.abs s) 0 samples)) (of_Z (Z.of_nat (length samples))).

(** [Math.max(300, Math.min(800, 32768 * Math.pow(10, db / 20) * factor))] *)
Definition amplitude_threshold (db : number) (factor : Q) : number :=
  nmax (Finite 300) (nmin (Finite 800)
    (nmul (nmul (Finite 32768) (math_pow10 pow10 (ndiv db (Finite 20)))) (Finite factor))).

(** *** Calibration and adaptation *)

Definition end_calibration (t : Track) : Track :=
  match calibrationSamples t with
  | [] => t <| isCalibrating := false |>
  | samples =>
    let noise := ndiv (nsum samples) (of_Z (Z.of_nat (length samples))) in
    t <| backgroundNoiseDB := noise |>
      <| MIN_DECIBEL_THRESHOLD := nadd noise VOICE_MARGIN_DB |>
      <| VOICE_AMPLITUDE_THRESHOLD := amplitude_threshold noise 3 |>
      <| isCalibrating := false |>
  end.

(** The calibration block, and whether the loop goes on with this frame *)
Definition calibrate (t : Track) (db : number) (now : Z) : Track * bool :=
  if negb (isCalibrating t) then (t, true)
  else if now - calibrationStartTime t <? CALIBRATION_DURATION then
    ((if ngt db (Finite (-90)) && nlt db (Finite 0)
      then t <| calibrationSamples := calibrationSamples t ++ [db] |> else t), false)
  else (end_calibration t, true).

Definition mix (old new : number) (alpha : Q) : number :=
  nadd (nmul old (Finite (1 - alpha))) (nmul new (Finite alpha)).

Definition update_noise (t : Track) (db : number) : Track :=
  if nlt db (nsub (MIN_DECIBEL_THRESHOLD t) (Finite 5))
  then t <| backgroundNoiseDB := mix (backgroundNoiseDB t) db NOISE_UPDATE_ALPHA |> else t.

Definition is_voice (t : Track) (amp db : number) : bool :=
  ngt amp (VOICE_AMPLITUDE_THRESHOLD t) && ngt db (MIN_DECIBEL_THRESHOLD t).

Definition optimalThreshold (t : Track) : number :=
  nadd (backgroundNoiseDB t) (nmul (nsub (speakerVoiceDB t) (backgroundNoiseDB t)) (Finite (3 # 10))).

Definition adapt_threshold (t : Track) : Track :=
  if ngt (nabs (nsub (optimalThreshold t) (MIN_DECIBEL_THRESHOLD t))) (Finite 2)
  then t <| MIN_DECIBEL_THRESHOLD := optimalThreshold t |>
         <| VOICE_AMPLITUDE_THRESHOLD := amplitude_threshold (optimalThreshold t) (3 # 2) |>
  else t.

Definition learn_speaker (t : Track) (db : number) : Track :=
  let t1 := t <| speakerVoiceDB := mix (speakerVoiceDB t) db SPEAKER_UPDATE_ALPHA |>
              <| speakerSampleCount := S (speakerSampleCount t) |> in
  if (MIN_SPEAKER_SAMPLES <=? speakerSampleCount t1)%nat then adapt_threshold t1 else t1.

(** *** The bot's own speech *)

Definition publishing_timeout (c : RoomContext) (now : Z) : RoomContext :=
  if isPublishing c && (0 <? publishingStartTime c) && (PUBLISHING_TIMEOUT_MS <? now - publishingStartTime c)
  then c <| isPublishing := false |> <| publishingStartTime := 0 |> else c.

Definition barge_in (c : RoomContext) (t : Track) (userId : jsstr) (isVoice : bool) (db : number) (now : Z) : RoomContext :=
  if now - speakingStartTime c <? BARGE_IN_GRACE_PERIOD_MS then c
  else if isVoice && (MIN_VOICE_FRAMES <=? voiceCount t)%nat && negb (shouldInterrupt c)
          && ngt db BARGE_IN_DECIBEL_THRESHOLD
          && match activeUserId c with None => true | Some a => bool_decide (a = userId) end
  then c <| shouldInterrupt := true |> else c.

(** *** Collecting an utterance *)

Definition push_pre (pre : list Frame) (f : Frame) : list Frame :=
  let pre := pre ++ [f] in if (PRE_BUFFER_FRAMES <? length pre)%nat then tail pre else pre.

Definition vad (t : Track) (f : Frame) (isVoice weak strong : bool) (now : Z) : Track :=
  if isVoice then
    let t := t <| voiceCount := S (voiceCount t) |> in
    let t := if strong then t <| silenceCount := 0%nat |> else t in
    let t := if negb (isRecording t) && (2 <=? voiceCount t)%nat
             then t <| isRecording := true |> <| speechStartTime := Some now |>
                    <| audioBuffer := audioBuffer t ++ preBuffer t |> <| preBuffer := [] |>
             else t in
    t <| audioBuffer := audioBuffer t ++ [f] |>
  else if weak then
    (if isRecording t then t <| audioBuffer := audioBuffer t ++ [f] |>
     else t <| preBuffer := push_pre (preBuffer t) f |>)
    <| silenceCount := S (silenceCount t) |>
  else
    (if isRecording t then t else t <| preBuffer := push_pre (preBuffer t) f |>)
    <| silenceCount := S (silenceCount t) |> <| voiceCount := 0%nat |>.

Definition totalLength (t : Track) : Z := foldl (fun sum b => sum + bytes b) 0 (audioBuffer t).

Definition shouldProcess (t : Track) : bool :=
  ((SILENCE_THRESHOLD <? silenceCount t)%nat && (MIN_AUDIO_LENGTH <? totalLength t)) || (MAX_AUDIO_LENGTH <? totalLength t).

Definition reset_utterance (t : Track) : Track :=
  t <| audioBuffer := [] |> <| silenceCount := 0%nat |> <| voiceCount := 0%nat |> <| isRecording := false |>
    <| speechStartTime := None |> <| preBuffer := [] |>.

(** The end of an utterance: the request, if there is one *)
Definition dispatch (oc : option RoomContext) (t : Track) (userId : jsstr) (now : Z)
  : option RoomContext * Track * option Utterance :=
  if shouldProcess t && (MIN_AUDIO_LENGTH <? totalLength t) then
    let audio := concat (audioBuffer t) in
    let t' := reset_utterance t in
    if ngt (decibel audio) (nsub (MIN_DECIBEL_THRESHOLD t) (Finite 5)) then
      match oc with
      | None => (oc, t', None)
      | Some c =>
        if now - default 0 (map_get (lastSttTimeByUser c) userId) <? STT_COOLDOWN_MS then (oc, t', None)
        else (Some (c <| lastSttTimeByUser := map_set (lastSttTimeByUser c) userId now |>), t',
              Some (mkUtterance audio (speechStartTime t)))
      end
    else (oc, t', None)
  else (oc, t, None).

(** *** One frame *)

Definition on_frame (oc : option RoomContext) (t : Track) (userId : jsstr) (f : Frame) (now : Z)
  : option RoomContext * Track * option Utterance :=
  let db := decibel f in
  let amp := avgAmplitude f in
  let '(t, go_on) := calibrate t db now in
  if negb go_on then (oc, t, None)
  else
    let t := update_noise t db in
    let isVoice := is_voice t amp db in
    let t := if isVoice then learn_speaker t db else t in
    let oc := (fun c => publishing_timeout c now) <$> oc in
    match oc with
    | Some c =>
      if isPublishing c then
        if decide (botState c = SPEAKING) then (Some (barge_in c t userId isVoice db now), t, None) else (oc, t, None)
      else
        let t' := vad t f isVoice (ngt amp (Finite 150) && ngt db (Finite (-55))) (ngt db STRONG_VOICE_THRESHOLD) now in
        let c' := if isVoice && (MIN_VOICE_FRAMES <=? voiceCount t')%nat then c <| lastInteractionTime := now |> else c in
        dispatch (Some c') t' userId now
    | None =>
      let t' := vad t f isVoice (ngt amp (Finite 150) && ngt db (Finite (-55))) (ngt db STRONG_VOICE_THRESHOLD) now in
      dispatch None t' userId now
    end.

(* ------------------------------------------------------------------ *)
(** ** Executions of one track *)

(** The other tracks and the bot change the context between two frames; the
    context is given with each frame. *)
Definition Step : Type := option RoomContext * Frame * Z.

Definition track_step (userId : jsstr) (t : Track) (s : Step) : option RoomContext * Track * option Utterance :=
  let '(oc, f, now) := s in on_frame oc t userId f now.

Fixpoint run_track (userId : jsstr) (t : Track) (l : list Step) : Track * list Utterance :=
  match l with
  | [] => (t, [])
  | s :: l' =>
    let '(_, t1, u) := track_step userId t s in
    let '(t2, us) := run_track userId t1 l' in
    (t2, option_list u ++ us)
  end.

(** *** What a frame does to the buffers *)

Definition audio_part (t : Track) :=
  (audioBuffer t, silenceCount t, voiceCount t, preBuffer t, isRecording t, speechStartTime t).

Lemma calibrate_audio t db now : audio_part (calibrate t db now).1 = audio_part t.
Proof.
  unfold calibrate, end_calibration. destruct (negb (isCalibrating t)); [done|].
  destruct (_ <? _); [by destruct (_ && _)|]. by destruct (calibrationSamples t).
Qed.

Lemma calibrate_done t db now : (calibrate t db now).2 = true -> isCalibrating (calibrate t db now).1 = false.
Proof.
  unfold calibrate, end_calibration. destruct (isCalibrating t) eqn:E; simpl; [|done].
  destruct (_ <? _); [done|]. intros _. by destruct (calibrationSamples t).
Qed.

Lemma update_noise_audio t db : audio_part (update_noise t db) = audio_part t.
Proof. unfold update_noise. by destruct (nlt _ _). Qed.

Lemma learn_audio t db : audio_part (learn_speaker t db) = audio_part t.
Proof. unfold learn_speaker, adapt_threshold. destruct (_ <=? _)%nat; [|done]. by destruct (ngt _ _). Qed.

(** A frame leaves the buffers as they are, or is collected. *)
Lemma on_frame_cases oc t userId f now :
  exists t1 oc', audio_part t1 = audio_part t /\
    option_map lastSttTimeByUser oc' = option_map lastSttTimeByUser oc /\
    (on_frame oc t userId f now = (oc', t1, None) \/
     exists isVoice weak strong,
       on_frame oc t userId f now = dispatch oc' (vad t1 f isVoice weak strong now) userId now).
Proof.
  unfold on_frame. pose proof (calibrate_audio t (decibel f) now) as Hcal.
  destruct (calibrate t (decibel f) now) as [tc go_on]. simpl in Hcal. destruct go_on; simpl; [|exists tc, oc; eauto].
  set (t2 := if is_voice _ _ _ then _ else _). exists t2.
  assert (audio_part t2 = audio_part t) as Ha.
  { unfold t2. destruct (is_voice _ _ _); rewrite ?learn_audio, update_noise_audio; done. }
  destruct oc as [c|]; simpl; [|exists None; eauto 10].
  assert (lastSttTimeByUser (publishing_timeout c now) = lastSttTimeByUser c) as Hs
    by (unfold publishing_timeout; by destruct (_ && _)).
  destruct (isPublishing _).
  - destruct (decide _); eexists; (split; [done|]); (split; [|left; reflexivity]); simpl; [|by rewrite Hs].
    rewrite <-Hs. unfold barge_in. destruct (_ <? _); [done|]. by destruct (_ && _).
  - eexists; split; [done|]; split; [|right; do 3 eexists; reflexivity]. simpl. rewrite <-Hs. by destruct (_ && _).
Qed.

(** *** Bounds *)

Definition total (l : list Frame) : Z := foldl (fun sum b => sum + bytes b) 0 l.

Lemma total_acc l n : foldl (fun sum b => sum + bytes b) n l = n + total l.
Proof.
  revert n. induction l as [|f l IH]; intros n; unfold total; simpl; [lia|]. rewrite IH, (IH (0 + bytes f)). lia.
Qed.

Lemma total_cons f l : total (f :: l) = bytes f + total l.
Proof. unfold total at 1. simpl. rewrite total_acc. lia. Qed.

Lemma total_app l1 l2 : total (l1 ++ l2) = total l1 + total l2.
Proof. induction l1 as [|f l1 IH]; simpl; [done|]. rewrite !total_cons, IH. lia. Qed.

Lemma bytes_concat l : bytes (concat l) = total l.
Proof.
  induction l as [|f l IH]; [done|]. rewrite total_cons, <-IH. unfold bytes. simpl. rewrite length_app. lia.
Qed.

Lemma total_bound F l : Forall (fun f => bytes f <= F) l -> total l <= Z.of_nat (length l) * F.
Proof. induction 1 as [|f l Hf Hl IH]; [done|]. rewrite total_cons. simpl length. lia. Qed.

(** Between two frames the collected audio is at most six seconds, and the
    frames kept from before an utterance are at most fifteen. *)
Record track_inv (F : Z) (t : Track) : Prop := {
  inv_total : total (audioBuffer t) <= MAX_AUDIO_LENGTH;
  inv_pre : (length (preBuffer t) <= PRE_BUFFER_FRAMES)%nat;
  inv_frames : Forall (fun f => bytes f <= F) (preBuffer t);
}.

Lemma push_pre_spec F pre f :
  (length pre <= PRE_BUFFER_FRAMES)%nat -> Forall (fun f => bytes f <= F) pre -> bytes f <= F ->
  (length (push_pre pre f) <= PRE_BUFFER_FRAMES)%nat /\ Forall (fun f => bytes f <= F) (push_pre pre f).
Proof.
  intros Hlen Hall Hf. unfold push_pre.
  assert (Forall (fun f => bytes f <= F) (pre ++ [f])) as H by (apply Forall_app; auto).
  assert (length (pre ++ [f]) = S (length pre)) as Hl by (rewrite length_app; simpl; lia).
  destruct (pre ++ [f]) as [|x l]; [done|]. simpl in Hl. apply Forall_cons in H as [Hx H].
  case_match eqn:E; bool_cases; simpl; split; auto; simpl in *; unfold PRE_BUFFER_FRAMES in *; lia.
Qed.

(** What the VAD adds to the collected audio in one frame *)
Lemma vad_spec F t f isVoice weak strong now :
  track_inv F t -> bytes f <= F -> 0 <= F ->
  let t' := vad t f isVoice weak strong now in
  total (audioBuffer t') <= MAX_AUDIO_LENGTH + 16 * F /\
  (length (preBuffer t') <= PRE_BUFFER_FRAMES)%nat /\ Forall (fun f => bytes f <= F) (preBuffer t').
Proof.
  intros [Ht Hp Hf] Hb HF. simpl. destruct (push_pre_spec F (preBuffer t) f Hp Hf Hb) as [Hp' Hf'].
  pose proof (total_bound F _ Hf) as Hpre.
  assert (Z.of_nat (length (preBuffer t)) * F <= 15 * F) by (unfold PRE_BUFFER_FRAMES in Hp; nia).
  assert (total [f] = bytes f) as Hone by (rewrite total_cons; unfold total; simpl; lia).
  unfold vad. destruct isVoice; [|destruct weak].
  - destruct strong; simpl; (destruct (negb (isRecording t) && _); simpl; rewrite ?total_app, ?Hone;
      (split; [lia|]); [split; [lia|constructor]|done]).
  - destruct (isRecording t); simpl; rewrite ?total_app, ?Hone; (split; [lia|]); auto.
  - destruct (isRecording t); simpl; (split; [lia|]); auto.
Qed.

Lemma dispatch_spec F oc t userId now :
  total (audioBuffer t) <= MAX_AUDIO_LENGTH + 16 * F ->
  (length (preBuffer t) <= PRE_BUFFER_FRAMES)%nat -> Forall (fun f => bytes f <= F) (preBuffer t) ->
  let r := dispatch oc t userId now in
  track_inv F r.1.2 /\
  (forall u, r.2 = Some u -> MIN_AUDIO_LENGTH < bytes (fullAudio u) <= MAX_AUDIO_LENGTH + 16 * F).
Proof.
  intros Ht Hp Hf. simpl. unfold dispatch, shouldProcess, totalLength. fold (total (audioBuffer t)).
  assert (track_inv F (reset_utterance t)) as Hreset by (split; simpl; [done|lia|constructor]).
  destruct (MIN_AUDIO_LENGTH <? total (audioBuffer t)) eqn:Emin.
  - rewrite !andb_true_r. destruct ((SILENCE_THRESHOLD <? silenceCount t)%nat || (MAX_AUDIO_LENGTH <? total (audioBuffer t))) eqn:Ego.
    + destruct (ngt _ _); [|done]. destruct oc as [c|]; [|done]. destruct (now - _ <? STT_COOLDOWN_MS); [done|]. simpl.
      split; [done|]. intros u [= <-]. simpl. rewrite bytes_concat. bool_cases. lia.
    + split; [|done]. apply orb_false_iff in Ego as [_ Ego]. bool_cases. by split.
  - rewrite !andb_false_r. simpl. destruct (_ <? _) eqn:Emax; simpl; (split; [|done]); bool_cases;
      split; try done; unfold MAX_AUDIO_LENGTH, MIN_AUDIO_LENGTH in *; lia.
Qed.

Lemma audio_part_inv F t t' : audio_part t = audio_part t' -> track_inv F t' -> track_inv F t.
Proof. unfold audio_part. intros [= E1 _ _ E2 _ _] [H1 H2 H3]. split; congruence. Qed.

Lemma on_frame_inv F oc t userId f now :
  track_inv F t -> bytes f <= F -> 0 <= F ->
  let r := on_frame oc t userId f now in
  track_inv F r.1.2 /\
  (forall u, r.2 = Some u -> MIN_AUDIO_LENGTH < bytes (fullAudio u) <= MAX_AUDIO_LENGTH + 16 * F).
Proof.
  intros Hinv Hf HF. destruct (on_frame_cases oc t userId f now) as (t1 & oc' & Ha & _ & [->|(v & w & st & ->)]);
    apply (audio_part_inv F) in Ha; try done.
  destruct (vad_spec F t1 f v w st now Ha Hf HF) as (H1 & H2 & H3). by apply dispatch_spec.
Qed.

(** Audio buffers are bounded.  Whatever is heard and however the context
    changes in between, a track never holds more than six seconds of an
    utterance nor more than fifteen frames of the time before it, and every
    utterance handed to speech recognition is longer than half a second and at
    most sixteen frames longer than six seconds. *)
Theorem audio_is_bounded (userId : jsstr) (start F : Z) (steps : list Step) :
  0 <= F -> Forall (fun s => bytes s.1.2 <= F) steps ->
  let '(t, utterances) := run_track userId (new_track start) steps in
  totalLength t <= MAX_AUDIO_LENGTH /\ (length (preBuffer t) <= PRE_BUFFER_FRAMES)%nat /\
  Forall (fun u => MIN_AUDIO_LENGTH < bytes (fullAudio u) <= MAX_AUDIO_LENGTH + 16 * F) utterances.
Proof.
  intros HF. assert (track_inv F (new_track start)) as Hinv by (split; simpl; [done|lia|constructor]).
  revert Hinv. generalize (new_track start). induction steps as [|[[oc f] now] l IH]; intros t Hinv Hall; cbn [run_track].
  - destruct Hinv. split; [done|]. split; [done|constructor].
  - apply Forall_cons in Hall as [Hf Hall]. simpl in Hf.
    destruct (on_frame_inv F oc t userId f now Hinv Hf HF) as [Hinv' Hu]. cbn [track_step].
    destruct (on_frame oc t userId f now) as [[oc' t'] u]. simpl in Hinv', Hu. specialize (IH t' Hinv' Hall).
    destruct (run_track userId t' l) as [t2 us]. destruct IH as (H1 & H2 & H3). split; [done|]. split; [done|].
    apply Forall_app. split; [|done]. destruct u as [u|]; [|constructor]. apply Forall_singleton. by apply Hu.
Qed.

(** *** Interrupting the bot *)

(** A response is being published, and not for so long that the mark is reset.  The
    alert of a timer is spoken without that mark. *)
Definition publishes (c : RoomContext) (now : Z) : bool := isPublishing (publishing_timeout c now).

Lemma publishing_timeout_interrupt c now : shouldInterrupt (publishing_timeout c now) = shouldInterrupt c.
Proof. unfold publishing_timeout. by destruct (_ && _). Qed.

Lemma dispatch_interrupt oc t userId now c :
  oc = Some c -> exists c' t' u, dispatch oc t userId now = (Some c', t', u) /\ shouldInterrupt c' = shouldInterrupt c.
Proof. intros ->. unfold dispatch. cbv zeta. repeat case_match; eexists _, _, _; (split; [reflexivity|]); reflexivity. Qed.

(** A frame while a response is published is not counted; a frame interrupts only then,
    and only after enough counted frames *)
Lemma on_frame_interrupt c t userId f now :
  exists c' t' u, on_frame (Some c) t userId f now = (Some c', t', u) /\
    (publishes c now = true -> voiceCount t' = voiceCount t /\ u = None) /\
    ((voiceCount t < MIN_VOICE_FRAMES)%nat -> shouldInterrupt c' = shouldInterrupt c).
Proof.
  unfold on_frame, publishes. pose proof (calibrate_audio t (decibel f) now) as Hcal.
  destruct (calibrate t (decibel f) now) as [tc go_on]. simpl in Hcal.
  assert (voiceCount tc = voiceCount t) as Hv by (by injection Hcal). destruct go_on; simpl; [|by eexists _, _, _].
  rewrite <- (publishing_timeout_interrupt c now). set (c1 := publishing_timeout c now). clearbody c1.
  set (t2 := if is_voice _ _ _ then _ else _).
  assert (audio_part t2 = audio_part tc) as Ha.
  { unfold t2. destruct (is_voice _ _ _); rewrite ?learn_audio, update_noise_audio; done. }
  assert (voiceCount t2 = voiceCount t) as Hv2 by (rewrite <-Hv; by injection Ha).
  destruct (isPublishing c1).
  - destruct (decide _); eexists _, _, _; (split; [reflexivity|]); split; auto. intros Hlt. unfold barge_in.
    destruct (now - _ <? _); [done|]. destruct (is_voice _ _ _ && _ && _ && _ && _) eqn:E; [|done].
    bool_cases. rewrite Hv2 in *. lia.
  - match goal with |- context [dispatch (Some ?c2) ?t3 _ _] => destruct (dispatch_interrupt (Some c2) t3 userId now c2 eq_refl) as (c' & t' & u & -> & Hi) end.
    eexists _, _, _. split; [reflexivity|]. split; [done|]. intros _. rewrite Hi. by destruct (_ && _).
Qed.

(** C22: Who was silent cannot interrupt.  While a response is published - until 60 s after
    its start, when the mark is reset - the frames of a participant make no utterance and
    are not counted; one with fewer than eight counted voice frames when it began does not
    interrupt it, however loud the frames that follow and however many.  When no response
    is published (for the alert of a timer, which is spoken without the mark, and after
    the 60 s) frames are counted, but the next one does not interrupt either. *)
Theorem silent_user_cannot_interrupt (userId : jsstr) (t : Track) (before : list Step) :
  (voiceCount t < MIN_VOICE_FRAMES)%nat ->
  Forall (fun s => exists c, s.1.1 = Some c /\ publishes c s.2 = true) before ->
  let '(t', utterances) := run_track userId t before in
  utterances = [] /\ voiceCount t' = voiceCount t /\
  forall c f now, exists c' t'' u, track_step userId t' (Some c, f, now) = (Some c', t'', u) /\ shouldInterrupt c' = shouldInterrupt c.
Proof.
  intros Hv Hall. revert t Hv. induction Hall as [|[[oc g] u] l (c1 & Hc & Hs1) Hl IH]; intros t Hv; cbn [run_track].
  - split; [done|]. split; [done|]. intros c f now. destruct (on_frame_interrupt c t userId f now) as (c' & t' & u & H & _ & Hi). eauto 6.
  - simpl in Hc, Hs1. subst oc. cbn [track_step]. destruct (on_frame_interrupt c1 t userId g u) as (c' & t' & w & -> & Hp & _).
    destruct (Hp Hs1) as [Hv' ->]. specialize (IH t'). rewrite Hv' in IH. specialize (IH Hv). by destruct (run_track userId t' l).
Qed.

(** *** Adaptation to the speaker *)

Definition low (x : number) : Prop := match x with Finite _ => True | Infinite b => b = true | NotANumber => False end.

Lemma ndiv_count q n : ndiv (Finite q) (of_Z (Z.of_nat (S n))) = Finite (q / inject_Z (Z.of_nat (S n))).
Proof.
  unfold ndiv, of_Z. destruct (Qeq_bool _ 0) eqn:E; [|done]. apply Qeq_bool_eq in E. unfold Qeq in E. simpl in E. lia.
Qed.

Lemma decibel_shape f : low (decibel f) \/ decibel f = NotANumber.
Proof.
  unfold decibel, rms. destruct f as [|x f]; [by right|]. set (sum := foldl _ _ _). cbn [length].
  change (of_Z sum) with (Finite (inject_Z sum)). rewrite ndiv_count. cbn [math_sqrt].
  destruct (Qlt_bool _ 0); [right; reflexivity|]. cbn [ndiv].
  change (Qeq_bool 32768 0) with false. cbn [math_log10].
  destruct (Qlt_bool 0 _); [by left|]. destruct (Qlt_bool _ 0); [right|left]; reflexivity.
Qed.

Lemma zero_frame_decibel n : (forall q, q == 0 -> sqrt q == 0)%Q -> decibel (replicate (S n) 0) = Infinite true.
Proof.
  intros Hsqrt. unfold decibel, rms.
  assert (foldl (fun sum s : Z => sum + s * s) 0 (replicate (S n) 0) = 0) as ->
    by (induction n as [|n IH]; [done|exact IH]).
  rewrite length_replicate. unfold of_Z at 1. rewrite ndiv_count.
  set (q := (inject_Z 0 / inject_Z (Z.of_nat (S n)))%Q). assert (q == 0)%Q as Hq.
  { unfold q, Qdiv. change (inject_Z 0) with 0%Q. apply Qmult_0_l. }
  unfold math_sqrt. destruct (Qlt_bool q 0) eqn:E1; [apply Qlt_bool_iff in E1; lra|]. simpl.
  specialize (Hsqrt q Hq). assert (sqrt q / 32768 == 0)%Q as Hd by (rewrite Hsqrt; reflexivity).
  unfold math_log10. destruct (Qlt_bool 0 _) eqn:E2; [apply Qlt_bool_iff in E2; lra|].
  destruct (Qlt_bool (sqrt q / 32768) 0) eqn:E3; [apply Qlt_bool_iff in E3; lra|]. reflexivity.
Qed.

(** Levels: thresholds are finite, the noise is finite or minus infinity *)
Record levels_ok (t : Track) : Prop := {
  ok_samples : Forall is_finite (calibrationSamples t);
  ok_threshold : is_finite (MIN_DECIBEL_THRESHOLD t);
  ok_noise : low (backgroundNoiseDB t);
  ok_speaker : is_finite (speakerVoiceDB t);
}.

Lemma nsum_finite l : Forall is_finite l -> is_finite (nsum l).
Proof.
  intros H. unfold nsum. assert (is_finite (Finite 0)) as H0 by done. revert H0. generalize (Finite 0).
  induction H as [|x l Hx Hl IH]; intros n Hn; simpl; [done|]. apply IH. by destruct n, x.
Qed.

Lemma calibrate_ok t db now : low db \/ db = NotANumber -> levels_ok t -> levels_ok (calibrate t db now).1.
Proof.
  intros Hdb [Hs Ht Hn Hv]. unfold calibrate. destruct (negb (isCalibrating t)); [done|].
  destruct (_ <? _).
  - destruct (ngt db _ && _) eqn:E; [|done]. split; simpl; try done. apply Forall_app. split; [done|].
    apply Forall_singleton. destruct db as [q|b|]; [done| |naive_solver]. destruct Hdb as [->|]; [|done]. done.
  - unfold end_calibration. pose proof (nsum_finite _ Hs) as Hsum.
    destruct (calibrationSamples t) as [|x l] eqn:El; simpl; [by split; simpl; rewrite ?El|].
    assert (is_finite (ndiv (nsum (x :: l)) (of_Z (Z.of_nat (length (x :: l)))))) as Hnoise.
    { destruct (nsum (x :: l)); [|done..]. cbn [length]. by rewrite ndiv_count. }
    split; simpl; rewrite ?El; try done; by destruct (ndiv (nsum (x :: l)) _).
Qed.

Lemma mix_low old new alpha : (0 < alpha < 1)%Q -> low old -> low new -> low (mix old new alpha).
Proof.
  intros Ha. unfold mix, nmul, sign. assert (Qlt_bool (1 - alpha) 0 = false) as -> by (apply Qlt_bool_false; lra).
  assert (Qlt_bool 0 (1 - alpha) = true) as -> by (apply Qlt_bool_iff; lra).
  assert (Qlt_bool alpha 0 = false) as -> by (apply Qlt_bool_false; lra).
  assert (Qlt_bool 0 alpha = true) as -> by (apply Qlt_bool_iff; lra).
  destruct old as [p|[]|], new as [q|[]|]; simpl; naive_solver.
Qed.

Lemma nlt_not_nan x y : nlt x y = true -> x <> NotANumber /\ y <> NotANumber.
Proof. by destruct x, y. Qed.

Lemma update_noise_ok t db : low db \/ db = NotANumber -> levels_ok t -> levels_ok (update_noise t db).
Proof.
  intros Hdb [Hs Ht Hn Hv]. unfold update_noise. destruct (nlt _ _) eqn:E; [|done].
  apply nlt_not_nan in E as [Hne _]. split; simpl; try done. apply mix_low; [unfold NOISE_UPDATE_ALPHA; lra|done|naive_solver].
Qed.

(** A frame taken as voice has a finite level. *)
Lemma is_voice_finite t amp db :
  low db \/ db = NotANumber -> levels_ok t -> is_voice t amp db = true -> is_finite db.
Proof.
  intros Hdb [_ Ht _ _] Hv. unfold is_voice in Hv. apply andb_true_iff in Hv as [_ Hv].
  destruct (MIN_DECIBEL_THRESHOLD t); [|done..]. destruct db as [|[]|]; try done. naive_solver.
Qed.

Lemma learn_ok t db : is_finite db -> levels_ok t -> levels_ok (learn_speaker t db).
Proof.
  intros Hdb [Hs Ht Hn Hv]. unfold learn_speaker.
  set (t1 := set_field speakerSampleCount _ _).
  assert (levels_ok t1) as H1 by (split; simpl; try done; by destruct (speakerVoiceDB t), db).
  destruct (_ <=? _)%nat; [|done]. unfold adapt_threshold. destruct (ngt _ _) eqn:E; [|done].
  destruct H1 as [Hs1 Ht1 Hn1 Hv1]. split; simpl; try done. revert E. unfold optimalThreshold.
  generalize dependent t1. intros t1 ? Ht1 Hn1 Hv1 E.
  destruct (MIN_DECIBEL_THRESHOLD t1), (backgroundNoiseDB t1) as [|[]|], (speakerVoiceDB t1); try done; by vm_compute in E.
Qed.

(** The track after the adaptation to a frame *)
Definition heard (t : Track) (f : Frame) (now : Z) : Track * bool :=
  let '(tc, go_on) := calibrate t (decibel f) now in
  if go_on then
    let tn := update_noise tc (decibel f) in
    (if is_voice tn (avgAmplitude f) (decibel f) then learn_speaker tn (decibel f) else tn, true)
  else (tc, false).

Definition level_part (t : Track) :=
  (isCalibrating t, calibrationSamples t, MIN_DECIBEL_THRESHOLD t, VOICE_AMPLITUDE_THRESHOLD t, backgroundNoiseDB t, speakerVoiceDB t).

Lemma vad_level t f isVoice weak strong now : level_part (vad t f isVoice weak strong now) = level_part t.
Proof.
  unfold vad. destruct isVoice; [|destruct weak; by destruct (isRecording t)].
  destruct strong; simpl; by destruct (negb (isRecording t) && _).
Qed.

Lemma dispatch_level oc t userId now : level_part (dispatch oc t userId now).1.2 = level_part t.
Proof.
  unfold dispatch. destruct (_ && _); [|done]. destruct (ngt _ _); [|done]. destruct oc; [|done]. by destruct (_ <? _).
Qed.

Lemma on_frame_level oc t userId f now : level_part (on_frame oc t userId f now).1.2 = level_part (heard t f now).1.
Proof.
  unfold on_frame, heard. destruct (calibrate t (decibel f) now) as [tc go_on]. destruct go_on; simpl; [|done].
  destruct oc as [c|]; simpl; [|by rewrite dispatch_level, vad_level].
  destruct (isPublishing _); [by destruct (decide _)|]. by rewrite dispatch_level, vad_level.
Qed.

Lemma level_part_ok t t' : level_part t = level_part t' -> levels_ok t' -> levels_ok t.
Proof. unfold level_part. intros [= _ E1 E2 _ E3 E4] []. split; congruence. Qed.

Lemma heard_ok t f now : levels_ok t -> levels_ok (heard t f now).1.
Proof.
  intros Hok. unfold heard. pose proof (decibel_shape f) as Hdb.
  pose proof (calibrate_ok t (decibel f) now Hdb Hok) as Hc.
  destruct (calibrate t (decibel f) now) as [tc go_on]. destruct go_on; simpl; [|done].
  pose proof (update_noise_ok tc (decibel f) Hdb Hc) as Hn. destruct (is_voice _ _ _) eqn:Ev; [|done].
  apply learn_ok; [|done]. by eapply is_voice_finite.
Qed.

(** The noise level is minus infinity. *)
Record deaf (t : Track) : Prop := {
  deaf_ok : levels_ok t;
  deaf_noise : backgroundNoiseDB t = Infinite true;
  deaf_done : isCalibrating t = false;
}.

Definition thresholds (t : Track) : number * number := (MIN_DECIBEL_THRESHOLD t, VOICE_AMPLITUDE_THRESHOLD t).

Lemma mix_minus_infinity new : low new -> mix (Infinite true) new NOISE_UPDATE_ALPHA = Infinite true.
Proof. by destruct new as [|[]|]. Qed.

Lemma update_noise_deaf t db :
  low db \/ db = NotANumber -> deaf t -> deaf (update_noise t db) /\ thresholds (update_noise t db) = thresholds t.
Proof.
  intros Hdb [Hok Hn Hc]. pose proof (update_noise_ok t db Hdb Hok) as Hok'. revert Hok'. unfold update_noise.
  destruct (nlt _ _) eqn:E; intros Hok'; [|done]. apply nlt_not_nan in E as [Hne _].
  split; [split; [done| |done]|done]. simpl. rewrite Hn. apply mix_minus_infinity. naive_solver.
Qed.

Lemma learn_deaf t db :
  is_finite db -> deaf t -> deaf (learn_speaker t db) /\ thresholds (learn_speaker t db) = thresholds t.
Proof.
  intros Hdb [Hok Hn Hc]. pose proof (learn_ok t db Hdb Hok) as Hok'. revert Hok'. unfold learn_speaker.
  set (t1 := set_field speakerSampleCount _ _).
  assert (is_finite (speakerVoiceDB t1)) as Hs by (destruct Hok; simpl; by destruct (speakerVoiceDB t), db).
  assert (backgroundNoiseDB t1 = Infinite true) as Hn1 by done.
  assert (thresholds t1 = thresholds t /\ isCalibrating t1 = false) as [Ht Hc1] by done. clearbody t1.
  destruct (_ <=? _)%nat; [|intros ?; done]. unfold adapt_threshold.
  assert (optimalThreshold t1 = NotANumber) as ->.
  { unfold optimalThreshold. rewrite Hn1. by destruct (speakerVoiceDB t1). }
  simpl. intros ?; done.
Qed.

Lemma heard_deaf t f now : deaf t -> deaf (heard t f now).1 /\ thresholds (heard t f now).1 = thresholds t.
Proof.
  intros Hd. unfold heard, calibrate. rewrite (deaf_done _ Hd). simpl. pose proof (decibel_shape f) as Hdb.
  destruct (update_noise_deaf t (decibel f) Hdb Hd) as [Hn <-]. destruct (is_voice _ _ _) eqn:Ev; [|done].
  apply learn_deaf; [|done]. eapply is_voice_finite; [done|apply deaf_ok, Hn|exact Ev].
Qed.

Lemma level_part_deaf t t' : level_part t = level_part t' -> deaf t' -> deaf t /\ thresholds t = thresholds t'.
Proof.
  intros E [Hok Hn Hc]. pose proof (level_part_ok t t' E Hok) as Hok'. unfold level_part in E. injection E as E1 E2 E3 E4 E5 E6.
  split; [split; [done|congruence..]|]. unfold thresholds. congruence.
Qed.

Lemma run_deaf userId t l : deaf t -> thresholds (run_track userId t l).1 = thresholds t.
Proof.
  revert t. induction l as [|[[oc f] now] l IH]; intros t Hd; cbn [run_track track_step]; [done|].
  destruct (heard_deaf t f now Hd) as [Hd1 Ht1].
  destruct (level_part_deaf _ _ (on_frame_level oc t userId f now) Hd1) as [Hd2 Ht2].
  destruct (on_frame oc t userId f now) as [[oc' t'] u]. simpl in Hd2, Ht2. specialize (IH t' Hd2).
  destruct (run_track userId t' l) as [t2 us]. simpl in *. congruence.
Qed.

Lemma run_ok userId t l : levels_ok t -> levels_ok (run_track userId t l).1.
Proof.
  revert t. induction l as [|[[oc f] now] l IH]; intros t Hok; cbn [run_track track_step]; [done|].
  pose proof (level_part_ok _ _ (on_frame_level oc t userId f now) (heard_ok t f now Hok)) as Hok'.
  destruct (on_frame oc t userId f now) as [[oc' t'] u]. specialize (IH t' Hok'). by destruct (run_track userId t' l).
Qed.

Lemma heard_zero t n now :
  (forall q, q == 0 -> sqrt q == 0)%Q -> levels_ok t -> isCalibrating t = false ->
  deaf (heard t (replicate (S n) 0) now).1 /\ thresholds (heard t (replicate (S n) 0) now).1 = thresholds t.
Proof.
  intros Hsqrt Hok Hc. pose proof (heard_ok t (replicate (S n) 0) now Hok) as Hok'. revert Hok'.
  unfold heard, calibrate. rewrite Hc, zero_frame_decibel by done. cbn [negb].
  destruct Hok as [_ Ht Hn _]. destruct (MIN_DECIBEL_THRESHOLD t) as [thr| |] eqn:Et; [|done..].
  unfold update_noise. rewrite Et. cbn [nsub nopp nadd nlt].
  unfold is_voice. cbn [set_field MIN_DECIBEL_THRESHOLD VOICE_AMPLITUDE_THRESHOLD]. rewrite Et. cbn [ngt nlt]. rewrite andb_false_r.
  intros Hok'. split; [split; [done| |exact Hc]|unfold thresholds; simpl; by rewrite Et]. simpl.
  by destruct (backgroundNoiseDB t) as [|[]|].
Qed.

(** One silent frame ends the adaptation.  A frame of zero samples, which a
    muted microphone sends, has the level minus infinity; once it has entered
    the average of the background noise the thresholds of the track never
    change again, whatever is heard afterwards. *)
Theorem zero_frame_stops_adaptation (userId : jsstr) (start : Z) (before after : list Step) (oc : option RoomContext) (n : nat) (now : Z) :
  (forall q, q == 0 -> sqrt q == 0)%Q ->
  isCalibrating (run_track userId (new_track start) before).1 = false ->
  thresholds (run_track userId (new_track start) (before ++ (oc, replicate (S n) 0, now) :: after)).1 =
  thresholds (run_track userId (new_track start) before).1.
Proof.
  intros Hsqrt. assert (levels_ok (new_track start)) as Hok by (split; simpl; constructor).
  revert Hok. generalize (new_track start). induction before as [|[[oc' f] u] l IH]; intros t Hok Hc.
  - cbn [app run_track track_step]. cbn [run_track] in Hc. simpl in Hc. destruct (heard_zero t n now Hsqrt Hok Hc) as [Hd Ht].
    destruct (level_part_deaf _ _ (on_frame_level oc t userId _ now) Hd) as [Hd2 Ht2].
    destruct (on_frame oc t userId (replicate (S n) 0) now) as [[oc' t'] u]. simpl in Hd2, Ht2.
    pose proof (run_deaf userId t' after Hd2) as Hr. destruct (run_track userId t' after). simpl in *. congruence.
  - revert Hc. cbn [app run_track track_step].
    pose proof (level_part_ok _ _ (on_frame_level oc' t userId f u) (heard_ok t f u Hok)) as Hok'.
    destruct (on_frame oc' t userId f u) as [[oc2 t'] w]. simpl in Hok'. specialize (IH t' Hok').
    destruct (run_track userId t' (l ++ _)), (run_track userId t' l). exact IH.
Qed.

(** *** The order of an utterance *)

(** The beginning of an utterance is not in the order it was spoken.  The
    first voice frame enters the buffer at once; the frames kept from before
    it are appended behind it when the second voice frame arrives. *)
Theorem pre_buffer_after_first_frame (t : Track) (v1 v2 : Frame) (weak1 strong1 weak2 strong2 : bool) (now1 now2 : Z) :
  isRecording t = false -> voiceCount t = 0%nat -> audioBuffer t = [] ->
  audioBuffer (vad (vad t v1 true weak1 strong1 now1) v2 true weak2 strong2 now2) = [v1] ++ preBuffer t ++ [v2].
Proof.
  intros Hr Hv Ha. destruct t. simpl in Hr, Hv, Ha. subst. by destruct strong1, strong2.
Qed.

(* ------------------------------------------------------------------ *)
(** ** All tracks of a room *)

(** Frames of the tracks in any order; what else happens in the room does not
    touch the times of the last requests. *)
Inductive RoomEvent :=
| Heard (track : nat) (f : Frame) (now : Z)
| Elsewhere (change : RoomContext -> RoomContext).

Record RoomWorld := mkRoomWorld {
  context : RoomContext;
  tracks : list (jsstr * Track);
  requests : list (jsstr * Z);
}.

Definition room_step (w : RoomWorld) (ev : RoomEvent) : RoomWorld :=
  match ev with
  | Heard i f now =>
    match tracks w !! i with
    | None => w
    | Some (userId, t) =>
      let '(oc, t', u) := on_frame (Some (context w)) t userId f now in
      mkRoomWorld (default (context w) oc) (<[i := (userId, t')]> (tracks w))
        (match u with Some _ => requests w ++ [(userId, now)] | None => requests w end)
    end
  | Elsewhere change =>
    mkRoomWorld ((change (context w)) <| lastSttTimeByUser := lastSttTimeByUser (context w) |>) (tracks w) (requests w)
  end.

Definition apart (r1 r2 : jsstr * Z) : Prop := r1.1 = r2.1 -> STT_COOLDOWN_MS <= r2.2 - r1.2.

(** The map is not behind the requests. *)
Record requests_ok (w : RoomWorld) : Prop := {
  ok_known : forall userId t, (userId, t) ∈ requests w ->
    exists t', map_get (lastSttTimeByUser (context w)) userId = Some t' /\ t <= t';
  ok_apart : StronglySorted apart (requests w);
}.

(** A frame that makes a request finds the user's last one long enough ago. *)
Lemma on_frame_request c t userId f now oc t' u :
  on_frame (Some c) t userId f now = (oc, t', u) ->
  exists c', oc = Some c' /\
  match u with
  | None => lastSttTimeByUser c' = lastSttTimeByUser c
  | Some _ => STT_COOLDOWN_MS <= now - default 0 (map_get (lastSttTimeByUser c) userId) /\
              lastSttTimeByUser c' = map_set (lastSttTimeByUser c) userId now
  end.
Proof.
  destruct (on_frame_cases (Some c) t userId f now) as (t1 & oc' & _ & Hs & Hcase). intros Heq.
  destruct oc' as [c'|]; [|done]. simpl in Hs. injection Hs as Hs. rewrite Heq in Hcase. clear Heq.
  destruct Hcase as [[= -> -> ->]|(v & wk & st & Heq)]; [eauto|]. revert Heq. unfold dispatch.
  destruct (_ && (MIN_AUDIO_LENGTH <? _)); [|intros [= -> -> ->]; eauto].
  destruct (ngt _ _); [|intros [= -> -> ->]; eauto].
  destruct (now - _ <? _) eqn:E; intros [= -> -> ->]; [eauto|]. eexists. split; [reflexivity|]. simpl. rewrite <-Hs.
  bool_cases. done.
Qed.

Lemma room_step_ok w ev : requests_ok w -> requests_ok (room_step w ev).
Proof.
  intros [Hk Ha]. destruct ev as [i f now|change]; simpl; [|by split].
  destruct (tracks w !! i) as [[userId t]|]; [|by split].
  destruct (on_frame (Some (context w)) t userId f now) as [[oc t'] u] eqn:Hf.
  apply on_frame_request in Hf as (c' & -> & Hu). destruct u as [u|]; [|split; simpl; [by rewrite Hu|done]].
  destruct Hu as [Hle Hset].
  assert (forall v, (userId, v) ∈ requests w -> STT_COOLDOWN_MS <= now - v) as Hlast.
  { intros v Hin. destruct (Hk _ _ Hin) as (v' & Hv' & ?). rewrite Hv' in Hle. simpl in Hle. lia. }
  split; simpl.
  - intros x v. rewrite Hset, elem_of_app, list_elem_of_singleton, map_get_set. intros [Hin|[= -> ->]].
    + case_decide; [subst|by apply Hk]. exists now. split; [done|]. apply Hlast in Hin. unfold STT_COOLDOWN_MS in Hin. lia.
    + rewrite decide_True by done. by exists now.
  - apply StronglySorted_app_2; [|done|repeat constructor].
    intros [x v] y Hin ->%list_elem_of_singleton. unfold apart. simpl. intros ->. by apply Hlast.
Qed.

(** One request per user and 1.2 seconds.  Whatever the tracks of a room hear
    and whatever else happens in the room, two utterances of the same user are
    sent to speech recognition at least 1.2 seconds apart, also when the user
    has several tracks. *)
Theorem requests_are_spaced (c : RoomContext) (ts : list (jsstr * Track)) (evs : list RoomEvent) (i j : nat) (userId : jsstr) (t1 t2 : Z) :
  let w := foldl room_step (mkRoomWorld c ts []) evs in
  (i < j)%nat -> requests w !! i = Some (userId, t1) -> requests w !! j = Some (userId, t2) -> 1200 <= t2 - t1.
Proof.
  intros w Hij H1 H2. assert (requests_ok w) as [_ Ha].
  { unfold w. assert (requests_ok (mkRoomWorld c ts [])) as H0 by (split; [set_solver|constructor]).
    clear -H0. revert H0. generalize (mkRoomWorld c ts []).
    induction evs as [|ev evs IH]; intros w Hw; simpl; [done|]. by apply IH, room_step_ok. }
  exact (StronglySorted_lookup apart _ i j _ _ Ha Hij H1 H2 eq_refl).
Qed.

End Loop.

(* ------------------------------------------------------------------ *)
(** ** Concrete executions *)

(** Rough stand-ins for the functions of the runtime *)
Definition sample_sqrt (q : Q) : Q := inject_Z (Z.sqrt (math_floor q)).
Definition sample_log10 (q : Q) : Q := inject_Z (Z.log2 (math_floor (q * 1000000)%Q)) * (3 # 10) - 6.
Definition sample_pow10 (q : Q) : Q := 1.

Lemma sample_sqrt_zero q : (q == 0 -> sample_sqrt q == 0)%Q.
Proof.
  intros Hq. unfold sample_sqrt. assert (math_floor q = 0) as ->; [|reflexivity].
  unfold math_floor. unfold Qeq in Hq. simpl in Hq. assert (Qnum q = 0) as -> by lia. done.
Qed.

Definition quiet : Frame := replicate 4 20.
Definition loud : Frame := replicate 4 8000.
Definition shout : Frame := replicate 4 20000.

Definition idle_context : RoomContext := initial_context None 0.
Definition speaking_context : RoomContext :=
  idle_context <| isPublishing := true |> <| botState := SPEAKING |> <| publishingStartTime := 4000 |> <| speakingStartTime := 4000 |>.

Definition calibrated : list Step := (fun i => (Some idle_context, quiet, Z.of_nat i * 500)) <$> seq 0 7.

Lemma audio_is_bounded_witness :
  let '(t, utterances) := run_track sample_sqrt sample_log10 sample_pow10 (js "kim") (new_track 0) (calibrated ++ replicate 20 (Some idle_context, loud, 3010)) in
  totalLength t <= MAX_AUDIO_LENGTH /\ (length (preBuffer t) <= PRE_BUFFER_FRAMES)%nat /\
  Forall (fun u => MIN_AUDIO_LENGTH < bytes (fullAudio u) <= MAX_AUDIO_LENGTH + 16 * 8) utterances.
Proof.
  apply (audio_is_bounded sample_sqrt sample_log10 sample_pow10 (js "kim") 0 8); [lia|].
  apply (bool_decide_unpack _). vm_compute. exact I.
Defined.

Lemma silent_user_cannot_interrupt_witness :
  exists c' t'' u, track_step sample_sqrt sample_log10 sample_pow10 (js "kim")
    (run_track sample_sqrt sample_log10 sample_pow10 (js "kim") (new_track 0) (replicate 20 (Some speaking_context, shout, 5000))).1
    (Some speaking_context, shout, 6000) = (Some c', t'', u) /\ shouldInterrupt c' = false.
Proof.
  pose proof (silent_user_cannot_interrupt sample_sqrt sample_log10 sample_pow10 (js "kim") (new_track 0)
    (replicate 20 (Some speaking_context, shout, 5000))) as H.
  destruct (run_track _ _ _ _ _ _) as [t' us]. destruct H as (_ & _ & H).
  - simpl. unfold MIN_VOICE_FRAMES. lia.
  - apply Forall_replicate. exists speaking_context. split; reflexivity.
  - exact (H speaking_context shout 6000).
Defined.

Lemma zero_frame_stops_adaptation_witness :
  thresholds (run_track sample_sqrt sample_log10 sample_pow10 (js "kim") (new_track 0)
    (calibrated ++ (None, replicate 4 0, 3100) :: replicate 10 (Some idle_context, loud, 3200))).1 =
  thresholds (run_track sample_sqrt sample_log10 sample_pow10 (js "kim") (new_track 0) calibrated).1.
Proof.
  apply (zero_frame_stops_adaptation sample_sqrt sample_log10 sample_pow10 (js "kim") 0 calibrated
    (replicate 10 (Some idle_context, loud, 3200)) None 3 3100 sample_sqrt_zero).
  vm_compute. reflexivity.
Defined.

Lemma pre_buffer_after_first_frame_witness :
  audioBuffer (vad (vad ((new_track 0) <| preBuffer := [quiet] |>) loud true false true 10) shout true false true 20) =
    [loud; quiet; shout].
Proof.
  exact (pre_buffer_after_first_frame ((new_track 0) <| preBuffer := [quiet] |>) loud shout false true false true 10 20
    eq_refl eq_refl eq_refl).
Defined.

(** Two tracks of one user, each one frame before the end of an utterance *)
Definition ending_track : Track :=
  (new_track 0) <| isCalibrating := false |> <| audioBuffer := [replicate (Z.to_nat 8001) 20000] |> <| silenceCount := 50%nat |>.
Definition pause : Frame := [0].

Lemma requests_are_spaced_witness : 1200 <= 7600 - 5600.
Proof.
  assert (requests (foldl (room_step sample_sqrt sample_log10 sample_pow10)
    (mkRoomWorld idle_context [(js "kim", ending_track); (js "kim", ending_track)] [])
    [Heard 0 pause 5600; Heard 1 pause 7600]) = [(js "kim", 5600); (js "kim", 7600)]) as H by (vm_compute; reflexivity).
  refine (requests_are_spaced sample_sqrt sample_log10 sample_pow10 idle_context _ _ 0 1 (js "kim") 5600 7600 _ _ _).
  - lia.
  - rewrite H. reflexivity.
  - rewrite H. reflexivity.
Defined.
