(* ===== verification/Memory.v ===== *)
(** * What the bot remembers of a room

    Parts of [src/livekit/voice-bot.service.ts]: the conversation history, the
    texts captured from a shared screen, the analysis that runs over both, and
    the summary of the previous meeting.

    The history and the captures are fields of the context of the room.  The
    locale's time format is an argument. *)

From Stdlib Require Import ZArith QArith Lia.
From stdpp Require Import base strings option sorting sets list.
From S2P Require Import Prelude JsString JsMap Regex Records Room Proactive.

#[local] Open Scope Z_scope.

(* ------------------------------------------------------------------ *)
(** ** Conversation history *)

Definition wake_prefix : regex := re_i (js "^(아우라야?|헤이\s*아우라|오케이\s*아우라)\s*").

Definition fillerPatterns : list regex := re <$> [
  js "^(음+|어+|아+|으+|에+|응+|네+|예+|야+)[\.\?\!]*$";
  js "^(음+|어+|아+|으+)[\s\.\,]*$";
  js "^(그+|저+|이+)[\s\.\,]*$";
  js "^[\.\?\!\,\s]+$"].

Definition cleanForHistory (text : jsstr) : jsstr :=
  match text with
  | [] => []
  | _ =>
    let cleaned := trim (replace_all wake_prefix [] text) in
    if existsb (fun p => test p cleaned) fillerPatterns then [] else cleaned
  end.

Example cleanForHistory_ex :
  cleanForHistory (js "아우라야 음...") = [] /\ cleanForHistory (js "헤이 아우라 날씨 어때?") = js "날씨 어때?".
Proof. vm_compute. split; reflexivity. Qed.

Definition fresh_turn (now : Z) (t : ConversationTurn) : bool := now - turn_timestamp t <? CONVERSATION_EXPIRE_MS.

(** A turn that is pushed when its text has at least three characters *)
Definition push_turn (r : role) (cleaned : jsstr) (now : Z) (speaker : option jsstr) : list ConversationTurn :=
  if (3 <=? length cleaned)%nat then [mkTurn r cleaned now speaker] else [].

(** At most thirty turns of each side *)
Definition trim_history (history : list ConversationTurn) : list ConversationTurn :=
  if (MAX_CONVERSATION_TURNS * 2 <? length history)%nat
  then slice_last (MAX_CONVERSATION_TURNS * 2) history else history.

Definition updateConversationHistory (c : RoomContext) (userMessage botResponse userId : jsstr) (now : Z) : RoomContext :=
  let kept := List.filter (fresh_turn now) (conversationHistory c) in
  let history := kept ++ push_turn user (cleanForHistory userMessage) now (Some userId)
                      ++ push_turn assistant (cleanForHistory botResponse) now None in
  c <| conversationHistory := trim_history history |>.

Definition role_name (r : role) : jsstr := match r with user => js "참여자" | assistant => js "아우라" end.

Definition buildConversationContext (history : list ConversationTurn) (currentText : jsstr) : jsstr :=
  concat ((fun t => role_name (turn_role t) ++ js ": " ++ content t ++ nl) <$> slice_last 5 history)
  ++ js "참여자: " ++ currentText.

(** The last statement of [processHostQuery] *)
Definition push_host_query (c : RoomContext) (query hostIdentity : jsstr) (now : Z) : RoomContext :=
  c <| conversationHistory := conversationHistory c ++ [mkTurn user query now (Some hostIdentity)] |>.

(* ------------------------------------------------------------------ *)
(** ** Captures of a shared screen *)

Definition MAX_SCREEN_CAPTURES : nat := 24.

Definition room_missing : bool * jsstr := (false, js "방을 찾을 수 없습니다").

Definition startProactiveAnalysis (c : RoomContext) : RoomContext :=
  if pa_enabled (proactiveAnalysis c) then c
  else c <| proactiveAnalysis := mkProactive true 0 [] [] true |>.

(** The cool-downs of the insights are shared by all rooms. *)
Definition stopProactiveAnalysis (c : RoomContext) (cooldowns : Proactive.Service) : RoomContext * Proactive.Service :=
  let p := proactiveAnalysis c in
  if negb (pa_enabled p) then (c, cooldowns)
  else (c <| proactiveAnalysis := mkProactive false (lastAnalysisTime p) (lastScreenTextHash p) (lastConversationHash p) false |>,
        clearCooldowns cooldowns).

Definition add_capture (c : RoomContext) (capture : ScreenCapture) (now : Z) : RoomContext :=
  let h := screenContextHistory c in
  let h := if (MAX_SCREEN_CAPTURES <=? length h)%nat then tail h else h in
  startProactiveAnalysis
    (c <| screenContextHistory := h ++ [capture] |> <| screenUnderstandingMode := true |>
       <| screenContextStartTime := if screenContextStartTime c =? 0 then now else screenContextStartTime c |>).

Definition addScreenContext (rooms : Rooms) (roomId : jsstr) (capture : ScreenCapture) (now : Z) : Rooms * (bool * jsstr) :=
  match map_get rooms roomId with
  | None => (rooms, room_missing)
  | Some c => (map_set rooms roomId (add_capture c capture now), (true, js "화면 컨텍스트 추가됨"))
  end.

Definition clearScreenContext (rooms : Rooms) (cooldowns : Proactive.Service) (roomId : jsstr)
  : Rooms * Proactive.Service * (bool * jsstr) :=
  match map_get rooms roomId with
  | None => (rooms, cooldowns, room_missing)
  | Some c =>
    let '(c, cooldowns) := stopProactiveAnalysis c cooldowns in
    (map_set rooms roomId (c <| screenContextHistory := [] |> <| screenUnderstandingMode := false |>
                             <| screenContextStartTime := 0 |>),
     cooldowns, (true, js "화면 컨텍스트 초기화됨"))
  end.

Definition hasScreenContext (rooms : Rooms) (roomId : jsstr) : bool :=
  match map_get rooms roomId with
  | Some c => match screenContextHistory c with [] => false | _ => true end
  | None => false
  end.

Definition getScreenContextStatus (rooms : Rooms) (roomId : jsstr) : bool * nat * nat :=
  match map_get rooms roomId with
  | None => (false, 0%nat, 0%nat)
  | Some c => (screenUnderstandingMode c, length (screenContextHistory c),
               foldl (fun sum x => (sum + length (extractedText x))%nat) 0%nat (screenContextHistory c))
  end.

Section Prompts.
Context (localeTime : Z -> jsstr).

Definition capture_text (x : ScreenCapture) : jsstr :=
  js "--- [캡처 " ++ js_of_Z (captureIndex x + 1) ++ js "] " ++ localeTime (capture_timestamp x) ++ js " ---" ++ nl
  ++ match trim (extractedText x) with [] => js "(텍스트 없음)" | t => t end ++ nl ++ nl.

Definition buildScreenContextPrompt (rooms : Rooms) (roomId : jsstr) (now : Z) : jsstr :=
  match map_get rooms roomId with
  | None => []
  | Some c =>
    match screenContextHistory c with
    | [] => []
    | captures =>
      let duration := if screenContextStartTime c =? 0 then 0
                      else math_round ((now - screenContextStartTime c) # 1000) in
      nl ++ js "[화면 컨텍스트 - " ++ js_of_Z (Z.of_nat (length captures)) ++ js "회 캡처, " ++ js_of_Z duration
      ++ js "초간 수집]" ++ nl
      ++ js "사용자가 공유한 화면에서 추출한 텍스트입니다. 질문에 답할 때 이 정보를 참고하세요." ++ nl ++ nl
      ++ concat (capture_text <$> captures)
    end
  end.
End Prompts.

(* ------------------------------------------------------------------ *)
(** ** The periodic analysis *)

Section Analysis.
Context (md5_hex : jsstr -> jsstr) (number_text : Q -> jsstr).

Definition recent_screen (c : RoomContext) : list jsstr := extractedText <$> slice_last 3 (screenContextHistory c).

Definition recent_conversation (c : RoomContext) : list jsstr :=
  (fun t => (if decide (turn_role t = user) then js "사용자" else js "아우라") ++ js ": " ++ content t)
    <$> slice_last 5 (conversationHistory c).

(** [runProactiveAnalysis] up to the request: the context of the room and, when
    something is to be analysed, what *)
Definition begin_analysis (c : RoomContext) (now : Z) : RoomContext * option AnalysisContext :=
  let p := proactiveAnalysis c in
  if negb (pa_enabled p) || negb (screenUnderstandingMode c) then (c, None)
  else
    let screenHash := hashTexts md5_hex (recent_screen c) in
    let conversationHash := hashTexts md5_hex (recent_conversation c) in
    if bool_decide (screenHash = lastScreenTextHash p) && bool_decide (conversationHash = lastConversationHash p) then (c, None)
    else (c <| proactiveAnalysis := mkProactive true now screenHash conversationHash (analysisTimer p) |>,
          Some (mkContext (recent_screen c) (recent_conversation c) (Room.roomTopic c))).

(** [analyze] and what is sent to the room; the request was made when there
    was something to analyse *)
Definition finish_analysis (cooldowns : Proactive.Service) (a : AnalysisContext)
    (reply : outcome jsstr (option jsstr)) (now : Z) : Proactive.Service * list Json.json :=
  match begin_analyze a with
  | None => (cooldowns, [])
  | Some _ => finish_analyze number_text cooldowns reply now
  end.
End Analysis.

(* ------------------------------------------------------------------ *)
(** ** The previous meeting *)

Definition setPreviousMeetingContext (rooms : Rooms) (roomId : jsstr) (m : MeetingContext) : Rooms * bool :=
  match map_get rooms roomId with
  | None => (rooms, false)
  | Some c => (map_set rooms roomId (c <| previousMeetingContext := Some m |>), true)
  end.

Definition getPreviousMeetingContext (rooms : Rooms) (roomId : jsstr) : option MeetingContext :=
  map_get rooms roomId ≫= previousMeetingContext.

Definition numbered (l : list jsstr) : jsstr :=
  concat (imap (fun i x => js_of_Z (Z.of_nat i + 1) ++ js ". " ++ x ++ nl) l).

Definition formatPreviousMeetingBriefing (rooms : Rooms) (roomId : jsstr) : jsstr :=
  match getPreviousMeetingContext rooms roomId with
  | None => js "이전 회의 정보가 없습니다."
  | Some m =>
    js "지난 " ++ date m ++ js "에 진행한 " ++ dq ++ meetingTitle m ++ dq ++ js " 회의 내용을 브리핑 드리겠습니다." ++ nl ++ nl
    ++ mc_summary m ++ nl ++ nl
    ++ match keyDecisions m with [] => [] | l => js "주요 결정사항:" ++ nl ++ numbered l ++ nl end
    ++ match actionItems m with [] => [] | l => js "액션 아이템:" ++ nl ++ numbered l end
  end.

(* ------------------------------------------------------------------ *)
(** ** Properties *)

(** A history in the order of its times *)
Definition chronological (h : list ConversationTurn) : Prop :=
  StronglySorted (fun a b => turn_timestamp a <= turn_timestamp b) h.

Definition not_after (now : Z) (h : list ConversationTurn) : Prop := Forall (fun t => turn_timestamp t <= now) h.

Lemma push_turn_Forall (P : ConversationTurn -> Prop) r cleaned now speaker :
  ((3 <= length cleaned)%nat -> P (mkTurn r cleaned now speaker)) -> Forall P (push_turn r cleaned now speaker).
Proof. intros H. unfold push_turn. case_match; bool_cases; auto. Qed.

Lemma push_turn_length r cleaned now speaker : (length (push_turn r cleaned now speaker) <= 1)%nat.
Proof. unfold push_turn. case_match; simpl; lia. Qed.

Lemma chronological_app h1 h2 now :
  chronological h1 -> not_after now h1 -> Forall (fun t => turn_timestamp t = now) h2 -> chronological (h1 ++ h2).
Proof.
  intros H1 Hn H2. apply StronglySorted_app_2; [|done|].
  - intros x y Hx Hy. rewrite Forall_forall in H2. unfold not_after in Hn. rewrite Forall_forall in Hn.
    rewrite (H2 y Hy). by apply Hn.
  - clear -H2. induction H2 as [|x l Hx Hl IH]; constructor; [done|].
    eapply Forall_impl; [exact Hl|]. simpl. intros y Hy. lia.
Qed.

Lemma StronglySorted_suffix {A} (R : A -> A -> Prop) (l l' : list A) : l' `suffix_of` l -> StronglySorted R l -> StronglySorted R l'.
Proof. intros [k ->]. apply StronglySorted_app_1_r. Qed.

Lemma chronological_filter p h : chronological h -> chronological (List.filter p h).
Proof.
  induction h as [|t h IH]; simpl; [done|]. intros [Hh Ht]%StronglySorted_inv. destruct (p t); [|auto].
  constructor; [by apply IH|]. eapply Forall_sublist; [apply bfilter_sublist|done].
Qed.

Record history_inv (now : Z) (h : list ConversationTurn) : Prop := {
  hi_order : chronological h;
  hi_past : not_after now h;
}.

Lemma update_history_inv c userMessage botResponse userId now now' :
  history_inv now (conversationHistory c) -> now <= now' ->
  let h := conversationHistory (updateConversationHistory c userMessage botResponse userId now') in
  history_inv now' h /\ (length h <= 60)%nat /\ Forall (fun t => fresh_turn now' t = true) h.
Proof.
  intros [Ho Hp] Hle. simpl. set (kept := List.filter (fresh_turn now') (conversationHistory c)).
  set (added := push_turn user _ _ _ ++ push_turn assistant _ _ _).
  assert (Forall (fun t => turn_timestamp t = now') added) as Hadd
    by (apply Forall_app; split; by apply push_turn_Forall).
  assert (not_after now' kept) as Hkept.
  { eapply Forall_sublist; [apply bfilter_sublist|]. eapply Forall_impl; [exact Hp|]. simpl. lia. }
  assert (history_inv now' (kept ++ added) /\ Forall (fun t => fresh_turn now' t = true) (kept ++ added)) as [[Ho' Hp'] Hf'].
  { split; [split|].
    - apply (chronological_app kept added now'); [by apply chronological_filter|done|done].
    - apply Forall_app. split; [done|]. eapply Forall_impl; [exact Hadd|]. simpl. lia.
    - apply Forall_app. split.
      + apply Forall_forall. intros x Hx. apply elem_of_bfilter in Hx. tauto.
      + eapply Forall_impl; [exact Hadd|]. intros x Hx. unfold fresh_turn. rewrite Hx. apply Z.ltb_lt. rewrite Z.sub_diag. done. }
  set (h := trim_history (kept ++ added)).
  assert (h `suffix_of` kept ++ added /\ (length h <= 60)%nat) as [Hsuf Hlen].
  { unfold h, trim_history. destruct (_ <? _)%nat eqn:E.
    - split; [apply slice_last_suffix|apply length_slice_last].
    - bool_cases. split; [done|]. unfold MAX_CONVERSATION_TURNS in E. lia. }
  assert (forall P, Forall P (kept ++ added) -> Forall P h) as Hsub
    by (intros P HP; destruct Hsuf as [k Hk]; rewrite Hk in HP; by apply Forall_app in HP as [_ HP]).
  split; [split; [by eapply StronglySorted_suffix|by apply Hsub]|]. split; [done|by apply Hsub].
Qed.

Inductive HistoryEvent :=
| Answered (userMessage botResponse userId : jsstr) (now : Z)
| HostAsked (query hostIdentity : jsstr) (now : Z).

Definition history_time (ev : HistoryEvent) : Z := match ev with Answered _ _ _ now | HostAsked _ _ now => now end.

Definition history_step (c : RoomContext) (ev : HistoryEvent) : RoomContext :=
  match ev with
  | Answered u b userId now => updateConversationHistory c u b userId now
  | HostAsked q h now => push_host_query c q h now
  end.

Lemma history_step_inv c ev now :
  history_inv now (conversationHistory c) -> now <= history_time ev ->
  history_inv (history_time ev) (conversationHistory (history_step c ev)).
Proof.
  destruct ev as [u b userId now'|q h now']; intros Hinv Hle; simpl in Hle.
  - by apply (update_history_inv c u b userId now now').
  - destruct Hinv as [Ho Hp]. simpl.
    assert (not_after now' (conversationHistory c)) as Hp' by (eapply Forall_impl; [exact Hp|simpl; lia]).
    split; [by apply (chronological_app _ _ now'); [| |repeat constructor]|].
    apply Forall_app. split; [done|]. by apply Forall_singleton.
Qed.

(** The history is short and recent.  When times do not go back, the
    conversation history is always in chronological order, and right after an
    answer it has at most sixty turns, all of the last five minutes. *)
Theorem history_is_recent (c : RoomContext) (evs : list HistoryEvent) (u b userId : jsstr) (now : Z) :
  conversationHistory c = [] -> StronglySorted (fun a b => history_time a <= history_time b) (evs ++ [Answered u b userId now]) ->
  let h := conversationHistory (foldl history_step c (evs ++ [Answered u b userId now])) in
  chronological h /\ (length h <= 60)%nat /\ Forall (fun t => now - turn_timestamp t < CONVERSATION_EXPIRE_MS) h.
Proof.
  intros Hc Hsort. rewrite foldl_app. simpl.
  assert (exists t, history_inv t (conversationHistory (foldl history_step c evs)) /\ t <= now) as (t & Hinv & Hle).
  { assert (forall t, history_inv t (conversationHistory c)) as H0 by (intros t; rewrite Hc; split; constructor).
    clear Hc. destruct evs as [|ev evs]; [exists now; auto with lia|]. simpl in Hsort |- *.
    specialize (H0 (history_time ev)). revert c H0. revert Hsort. generalize dependent ev.
    induction evs as [|ev' evs IH]; intros ev Hsort c H0; simpl in *.
    - apply StronglySorted_inv in Hsort as [_ Hh]. apply Forall_cons in Hh as [Hh _]. simpl in Hh.
      exists (history_time ev). split; [by apply (history_step_inv c ev (history_time ev))|done].
    - apply StronglySorted_inv in Hsort as [Hs Hh]. apply Forall_cons in Hh as [Hle _].
      apply (IH ev' Hs (history_step c ev)).
      destruct (history_step_inv c ev (history_time ev) H0) as [Ho Hp]; [lia|]. split; [done|].
      eapply Forall_impl; [exact Hp|]. simpl. lia. }
  destruct (update_history_inv _ u b userId t now Hinv Hle) as ([Ho _] & Hlen & Hf).
  split; [exact Ho|]. split; [exact Hlen|]. eapply Forall_impl; [exact Hf|]. simpl. intros x Hx.
  unfold fresh_turn in Hx. by bool_cases.
Qed.

Lemma slice_last_snoc {A} (n : nat) (l : list A) (x : A) :
  (if (S n <=? length (slice_last (S n) l))%nat then tail (slice_last (S n) l) else slice_last (S n) l) ++ [x] =
  slice_last (S n) (l ++ [x]).
Proof.
  unfold slice_last. rewrite length_drop, length_app. simpl length.
  assert (forall k : list A, tail k = drop 1 k) as Htail by (by intros []).
  destruct (S n <=? _)%nat eqn:E; bool_cases.
  - rewrite Htail, drop_drop, drop_app_le by lia. do 2 f_equal. lia.
  - rewrite drop_app_le by lia. do 2 f_equal. lia.
Qed.

(** At most twenty-four captures are kept, always the last ones that were
    added, in order; and the analysis runs as long as there are any. *)
Theorem captures_are_the_last (c : RoomContext) (captures : list (ScreenCapture * Z)) :
  screenContextHistory c = [] ->
  let c' := foldl (fun c x => add_capture c x.1 x.2) c captures in
  screenContextHistory c' = slice_last 24 captures.*1 /\
  (captures <> [] -> screenUnderstandingMode c' = true /\ pa_enabled (proactiveAnalysis c') = true).
Proof.
  intros Hc. simpl. induction captures as [|[x t] l IH] using rev_ind; [done|].
  rewrite foldl_app. simpl. destruct IH as [IH _]. split.
  - transitivity ((if (MAX_SCREEN_CAPTURES <=? length (slice_last 24 l.*1))%nat then tail (slice_last 24 l.*1)
                   else slice_last 24 l.*1) ++ [x]).
    { rewrite <-IH. unfold add_capture, startProactiveAnalysis. simpl. by destruct (pa_enabled _). }
    rewrite fmap_app. apply slice_last_snoc.
  - intros _. unfold add_capture, startProactiveAnalysis. simpl. by destruct (pa_enabled _) eqn:E.
Qed.

(** An analysis is made only when the texts of the screen or of the
    conversation changed since the last one. *)
Lemma analysis_only_on_change md5_hex c now now' a :
  (begin_analysis md5_hex c now).2 = Some a ->
  (begin_analysis md5_hex (begin_analysis md5_hex c now).1 now').2 = None.
Proof.
  unfold begin_analysis at 1 3. destruct (_ || _) eqn:E1; [done|]. destruct (_ && _); [done|]. intros _. simpl.
  unfold begin_analysis. simpl. apply orb_false_iff in E1 as [_ ->]. simpl. rewrite !bool_decide_eq_true_2 by done. done.
Qed.

(** *** Concrete inputs *)

Lemma history_is_recent_witness :
  let h := conversationHistory (foldl history_step (initial_context None 0)
    ([Answered (js "아우라야 날씨 어때?") (js "맑아요.") (js "kim") 1000; HostAsked (js "요약?") (js "host") 400000]
     ++ [Answered (js "고마워요") (js "네!") (js "kim") 401000])) in
  chronological h /\ (length h <= 60)%nat /\ Forall (fun t => 401000 - turn_timestamp t < CONVERSATION_EXPIRE_MS) h.
Proof.
  apply history_is_recent; [reflexivity|]. repeat constructor; simpl; lia.
Defined.

Lemma captures_are_the_last_witness :
  screenContextHistory (foldl (fun c x => add_capture c x.1 x.2) (initial_context None 0)
    ((fun i => (mkCapture i (js "t") i i, i)) <$> seqZ 0 30)) = (fun i => mkCapture i (js "t") i i) <$> seqZ 6 24.
Proof.
  pose proof (captures_are_the_last (initial_context None 0) ((fun i => (mkCapture i (js "t") i i, i)) <$> seqZ 0 30) eq_refl) as [H _].
  rewrite H. vm_compute. reflexivity.
Defined.
