(* ===== verification/Diagram.v ===== *)
(** * Diagrams from the conversation

    Parts of [src/livekit/voice-bot.service.ts]: which statements are sent to
    the retrieval server and collected per type of diagram, the transcripts
    made from them, and the texts that describe the design boards to the
    language model. *)

From Stdlib Require Import ZArith QArith Lia.
From stdpp Require Import base strings option sorting sets list.
From S2P Require Import Prelude JsString JsMap Records Room.

#[local] Open Scope Z_scope.

(* ------------------------------------------------------------------ *)
(** ** Keywords *)

Definition DIAGRAM_KEYWORDS (type : DiagramType) : list jsstr :=
  js <$> match type with
  | flowchart => [
      "먼저"; "그 다음"; "그리고"; "마지막으로"; "최종적으로"; "첫 번째"; "두 번째"; "세 번째";
      "만약"; "~하면"; "~할 경우"; "아니면"; "그렇지 않으면"; "반복"; "계속"; "~할 때까지";
      "단계"; "과정"; "절차"; "순서"; "흐름"; "워크플로우"; "시작"; "종료"; "처리"; "검증"; "확인"; "저장"; "전송"]
  | sequence => [
      "API"; "호출"; "요청"; "응답"; "request"; "response"; "프론트엔드"; "백엔드"; "서버"; "클라이언트"; "데이터베이스";
      "전송"; "수신"; "반환"; "리턴"; "콜백"; "callback"; "다음"; "그 후"; "이후"; "완료되면"; "성공하면"; "실패하면";
      "GET"; "POST"; "PUT"; "DELETE"; "PATCH"]
  | erd => [
      "테이블"; "엔티티"; "entity"; "table"; "관계"; "참조"; "외래키"; "foreign key"; "일대다"; "다대다"; "일대일";
      "필드"; "컬럼"; "column"; "속성"; "attribute"; "데이터"; "모델"; "model"; "스키마"; "schema";
      "저장"; "조회"; "수정"; "삭제"; "생성"]
  | architecture => [
      "아키텍처"; "구조"; "설계"; "시스템"; "컴포넌트"; "모듈"; "서비스"; "레이어"; "layer";
      "마이크로서비스"; "모놀리식"; "MVC"; "MVP"; "MVVM"; "서버"; "클라우드"; "AWS"; "GCP"; "Azure"; "컨테이너"; "도커";
      "연동"; "통합"; "인터페이스"; "게이트웨이"]
  end.

Definition all_types : list DiagramType := [flowchart; sequence; erd; architecture].

(** The keywords of a type that occur in a text, whatever their case *)
Definition matched (type : DiagramType) (text : jsstr) : list jsstr :=
  List.filter (fun keyword => includes (to_lower text) (to_lower keyword)) (DIAGRAM_KEYWORDS type).

Definition detectDiagramKeywords (text : jsstr) : list (DiagramType * list jsstr) :=
  omap (fun type => match matched type text with [] => None | l => Some (type, l) end) all_types.

Definition context_of (d : DiagramContexts) (type : DiagramType) : DiagramContext :=
  match type with
  | flowchart => dc_flowchart d | sequence => dc_sequence d | erd => dc_erd d | architecture => dc_architecture d
  end.

Definition set_context (d : DiagramContexts) (type : DiagramType) (x : DiagramContext) : DiagramContexts :=
  match type with
  | flowchart => mkDiagrams x (dc_sequence d) (dc_erd d) (dc_architecture d)
  | sequence => mkDiagrams (dc_flowchart d) x (dc_erd d) (dc_architecture d)
  | erd => mkDiagrams (dc_flowchart d) (dc_sequence d) x (dc_architecture d)
  | architecture => mkDiagrams (dc_flowchart d) (dc_sequence d) (dc_erd d) x
  end.

(** [Array.from(new Set([...old, ...new]))] *)
Definition add_new (old : list jsstr) (k : jsstr) : list jsstr := if decide (k ∈ old) then old else old ++ [k].
Definition union_keywords (old new : list jsstr) : list jsstr := foldl add_new [] (old ++ new).

Definition update_context (text speaker : jsstr) (now : Z) (d : DiagramContexts) (m : DiagramType * list jsstr) : DiagramContexts :=
  let x := context_of d m.1 in
  set_context d m.1 (mkDiagram (union_keywords (dc_keywords x) m.2)
                       (statements x ++ [mkStatement speaker text m.2 now]) now).

Definition update_diagrams (d : DiagramContexts) (text speaker : jsstr) (now : Z) : DiagramContexts :=
  foldl (update_context text speaker now) d (detectDiagramKeywords text).

Definition updateDiagramContexts (rooms : Rooms) (roomId text speaker : jsstr) (now : Z) : Rooms :=
  match map_get rooms roomId with
  | None => rooms
  | Some c => map_set rooms roomId (c <| diagramContexts := update_diagrams (diagramContexts c) text speaker now |>)
  end.

Definition getDiagramContexts (rooms : Rooms) (roomId : jsstr) : option DiagramContexts :=
  diagramContexts <$> map_get rooms roomId.

Record Summary := mkSummary { hasContent : bool; s_keywords : list jsstr; statementCount : nat; s_lastUpdated : Z }.

Definition getDiagramContextsSummary (rooms : Rooms) (roomId : jsstr) : option (list (DiagramType * Summary)) :=
  (fun d => (fun type =>
     let x := context_of d type in
     (type, mkSummary (match statements x with [] => false | _ => true end) (take 10 (dc_keywords x))
              (length (statements x)) (lastUpdated x))) <$> all_types) <$> getDiagramContexts rooms roomId.

Definition statement_line (s : DiagramStatement) : jsstr :=
  js "[" ++ st_speaker s ++ js "] " ++ st_text s ++ js " (키워드: " ++ join (js ", ") (st_keywords s) ++ js ")".

Definition earlier (a b : DiagramStatement) : bool := st_timestamp a <=? st_timestamp b.

Definition buildFocusedTranscript (rooms : Rooms) (roomId : jsstr) (type : DiagramType) : option jsstr :=
  d ← getDiagramContexts rooms roomId;
  match statements (context_of d type) with
  | [] => None
  | l => Some (join nl (statement_line <$> ssort earlier l))
  end.

(* ------------------------------------------------------------------ *)
(** ** Statements for the retrieval server *)

Definition fillerWords : list jsstr := js <$> [
  "음"; "어"; "아"; "네"; "응"; "예"; "오케이"; "그래"; "하하"; "뭐"; "에"; "으"; "아아"; "어어"; "음음"; "으으";
  "에에"; "네네"; "응응"; "예예"; "ㅋㅋ"; "ㅋㅋㅋ"; "흠"; "허"; "헐"].

(** [/[\s,.\?\!…]/] *)
Definition is_separator (c : Z) : bool :=
  is_space c || (c =? 44) || (c =? 46) || (c =? 63) || (c =? 33) || (c =? 8230).

(** Words between runs of separators *)
Definition words_of (text : jsstr) : list jsstr :=
  List.filter (fun w => match w with [] => false | _ => true end) (split_on is_separator (trim text)).

Definition meaningfulWords (text : jsstr) : list jsstr :=
  List.filter (fun w => negb (bool_decide (to_lower w ∈ fillerWords))) (words_of text).

(** The guards of [sendToRagForEmbedding] *)
Definition embeddable (text : jsstr) : bool :=
  negb (length (trim text) <=? 3)%nat && negb (length (meaningfulWords text) =? 0)%nat
  && negb (length (concat (meaningfulWords text)) <=? 2)%nat.

Record Statement := mkSent { sent_text : jsstr; sent_speaker : jsstr; sent_start : option Z; sent_end : option Q }.

(** The rooms, and what is sent to the server without waiting *)
Definition sendToRagForEmbedding (rooms : Rooms) (roomId text speaker : jsstr) (startTime : option Z) (endTime : option Q) (now : Z)
  : Rooms * option Statement :=
  if embeddable text
  then (updateDiagramContexts rooms roomId text speaker now, Some (mkSent text speaker startTime endTime))
  else (rooms, None).

(* ------------------------------------------------------------------ *)
(** ** Boards *)

Definition diagramKeywords : list jsstr := js <$> [
  "플로우차트"; "flowchart"; "흐름도"; "순서도"; "erd"; "이알디"; "엔티티"; "테이블"; "데이터베이스"; "db"; "시퀀스"; "sequence";
  "상호작용"; "아키텍처"; "architecture"; "구조"; "다이어그램"; "차트"; "그림"; "도표"; "도식"; "설계"; "모델"; "스키마"; "관계";
  "설명"; "분석"; "의미"; "뜻"; "내용"; "노드"; "엣지"; "연결"; "화살표"; "박스"; "프로세스"; "단계"; "흐름"; "분기";
  "수정"; "변경"; "추가"; "삭제"; "편집"; "이게 뭐야"; "뭘 의미"; "어떤 의미"; "왜 이렇게"].

Definition isDiagramRelatedQuestion (transcript : jsstr) : bool :=
  existsb (fun keyword => includes (to_lower transcript) (to_lower keyword)) diagramKeywords.

(** The contents of the nodes of a type *)
Definition contents_of (f : FlowchartContext) (type : string) : list jsstr :=
  node_content <$> List.filter (fun n => bool_decide (nodeType n = js type)) (nodes f).

Definition find_node (f : FlowchartContext) (id : jsstr) : option FlowNode :=
  find_first (fun n => bool_decide (node_id n = id)) (nodes f).

Definition flow_line (f : FlowchartContext) (e : FlowEdge) : option jsstr :=
  a ← find_node f (from e); b ← find_node f (to e);
  Some (js "  " ++ dq ++ node_content a ++ dq ++ js " → " ++ dq ++ node_content b ++ dq
        ++ match label e with Some ((_ :: _) as l) => js " (" ++ l ++ js ")" | _ => [] end).

Definition section_line (title : jsstr) (l : list jsstr) : jsstr :=
  match l with [] => [] | _ => title ++ join (js ", ") l ++ nl end.

Definition buildFlowchartContextPrompt (f : FlowchartContext) : jsstr :=
  let flows := omap (flow_line f) (edges f) in
  js "=== 현재 플로우차트 화면 ===" ++ nl ++ fc_summary f ++ nl ++ nl
  ++ section_line (js "[시작점] ") (contents_of f "start")
  ++ section_line (js "[처리 단계] ") (contents_of f "process")
  ++ section_line (js "[분기 조건] ") (contents_of f "decision")
  ++ section_line (js "[입출력] ") (contents_of f "io")
  ++ section_line (js "[종료점] ") (contents_of f "end")
  ++ match flows with [] => [] | _ => nl ++ js "[흐름]" ++ nl ++ join nl flows ++ nl end.

(** The context of a question about the design board *)
Definition explanation_part (x : DiagramExplanation) (type : jsstr) : jsstr :=
  match map_get (mermaidCodes x) type with
  | Some ((_ :: _) as code) => js "[" ++ type ++ js "]" ++ nl ++ slice_to 500 code ++ nl ++ nl
  | _ => []
  end.

Definition design_board_context (x : option DiagramExplanation) : jsstr :=
  js "=== 현재 설계 보드 상태 ===" ++ nl
  ++ match x with
     | None => []
     | Some x => js "생성된 다이어그램: " ++ join (js ", ") (types x) ++ nl ++ nl ++ concat (explanation_part x <$> types x)
     end.

(* ------------------------------------------------------------------ *)
(** ** Properties *)

Definition statement_of (type : DiagramType) (text speaker : jsstr) (now : Z) : list DiagramStatement :=
  match matched type text with [] => [] | l => [mkStatement speaker text l now] end.

Lemma context_of_set d type type' x :
  context_of (set_context d type x) type' = if decide (type = type') then x else context_of d type'.
Proof. by destruct type, type'. Qed.

Lemma fold_update_statements text speaker now type l d :
  NoDup l.*1 ->
  statements (context_of (foldl (update_context text speaker now) d l) type) =
  statements (context_of d type) ++ (m ← List.filter (fun m => bool_decide (m.1 = type)) l; [mkStatement speaker text m.2 now]).
Proof.
  revert d. induction l as [|[t ks] l IH]; intros d Hnd; simpl; [by rewrite app_nil_r|].
  apply NoDup_cons in Hnd as [Hnot Hnd]. rewrite IH by done. unfold update_context. simpl. rewrite context_of_set.
  destruct (decide (t = type)) as [->|Hne].
  - rewrite bool_decide_eq_true_2 by done. simpl. rewrite <-(assoc_L (++)). done.
  - by rewrite bool_decide_eq_false_2 by done.
Qed.

Lemma detect_types text : NoDup (detectDiagramKeywords text).*1.
Proof.
  unfold detectDiagramKeywords. assert (NoDup all_types) as Hnd by (apply (bool_decide_unpack _); vm_compute; exact I).
  revert Hnd. generalize all_types. intros l. induction l as [|t l IH]; simpl; [intros; constructor|].
  intros [Hnot Hnd]%NoDup_cons. specialize (IH Hnd). destruct (matched t text); [done|]. simpl. constructor; [|done].
  rewrite list_elem_of_fmap. intros ([t' ks] & -> & Hin). apply list_elem_of_omap in Hin as (x & Hx & Heq).
  simpl in Hnot. destruct (matched x text); [done|]. injection Heq as <- <-. done.
Qed.

Lemma detect_filter type text :
  List.filter (fun m => bool_decide (m.1 = type)) (detectDiagramKeywords text) =
  match matched type text with [] => [] | l => [(type, l)] end.
Proof.
  unfold detectDiagramKeywords, all_types. cbn [omap list_omap].
  destruct type; destruct (matched flowchart text), (matched sequence text), (matched erd text), (matched architecture text); reflexivity.
Qed.

Lemma update_diagrams_statements d text speaker now type :
  statements (context_of (update_diagrams d text speaker now) type) =
  statements (context_of d type) ++ statement_of type text speaker now.
Proof.
  unfold update_diagrams. rewrite fold_update_statements by apply detect_types. f_equal. rewrite detect_filter.
  unfold statement_of. by destruct (matched type text).
Qed.

Lemma add_new_nodup l k : NoDup l -> NoDup (add_new l k).
Proof.
  intros H. unfold add_new. case_decide; [done|]. apply NoDup_app. split; [done|]. split; [|apply NoDup_singleton].
  intros x Hx ->%list_elem_of_singleton. done.
Qed.

Lemma union_keywords_nodup old new : NoDup (union_keywords old new).
Proof.
  unfold union_keywords. assert (NoDup ([] : list jsstr)) as H by constructor. revert H. generalize ([] : list jsstr).
  induction (old ++ new) as [|k l IH]; intros acc H; simpl; [done|]. by apply IH, add_new_nodup.
Qed.

(** A statement in the room: its text, who said it and when *)
Definition Said : Type := jsstr * jsstr * Z.

Definition say (roomId : jsstr) (rooms : Rooms) (s : Said) : Rooms :=
  let '(text, speaker, now) := s in (sendToRagForEmbedding rooms roomId text speaker None None now).1.

(** What a diagram of a type is made from *)
Definition relevant (type : DiagramType) (said : list Said) : list DiagramStatement :=
  '(text, speaker, now) ← said; if embeddable text then statement_of type text speaker now else [].

Lemma say_contexts roomId rooms c said type :
  map_get rooms roomId = Some c ->
  exists c', map_get (foldl (say roomId) rooms said) roomId = Some c' /\
    statements (context_of (diagramContexts c') type) = statements (context_of (diagramContexts c) type) ++ relevant type said.
Proof.
  revert rooms c. induction said as [|[[text speaker] now] said IH]; intros rooms c Hc; cbn [foldl].
  - exists c. split; [done|]. by rewrite app_nil_r.
  - cbn [say]. unfold sendToRagForEmbedding, relevant. cbn [mbind list_bind]. fold (relevant type said).
    destruct (embeddable text); [|rewrite app_nil_l; by apply IH].
    unfold updateDiagramContexts. cbn [fst]. rewrite Hc.
    destruct (IH _ _ (map_get_set_eq rooms roomId (c <| diagramContexts := update_diagrams (diagramContexts c) text speaker now |>)))
      as (c' & H1 & H2). exists c'. split; [exact H1|]. rewrite H2. cbn [set_field diagramContexts].
    rewrite update_diagrams_statements, <-(assoc_L (++)). done.
Qed.

Lemma relevant_sorted type said :
  StronglySorted (fun a b : Said => a.2 <= b.2) said -> StronglySorted (fun a b => earlier a b = true) (relevant type said).
Proof.
  assert (forall t l, Forall (fun b : Said => t <= b.2) l -> Forall (fun s => t <= st_timestamp s) (relevant type l)) as Hall.
  { intros t l. induction 1 as [|[[text speaker] now] l Hx Hl IH]; [constructor|].
    unfold relevant. cbn [mbind list_bind]. fold (relevant type l). apply Forall_app. split; [|done].
    destruct (embeddable text); [|constructor]. unfold statement_of. destruct (matched type text); [constructor|].
    apply Forall_singleton. exact Hx. }
  induction 1 as [|[[text speaker] now] l Hl IH Hx]; [constructor|].
  unfold relevant. cbn [mbind list_bind]. fold (relevant type l). apply Hall in Hx. simpl in Hx.
  destruct (embeddable text); [|done]. unfold statement_of. destruct (matched type text); [done|].
  cbn [app]. constructor; [done|]. eapply Forall_impl; [exact Hx|]. intros y Hy. unfold earlier. apply Z.leb_le. exact Hy.
Qed.

(** C37: Diagrams are drawn from what was said about them.  When times do not go
    back, the transcript for a type of diagram has exactly the statements that
    were sent to the retrieval server and mention a keyword of the type, in
    the order they were made, each with its keywords; there is none when
    nobody mentioned one. *)
Theorem focused_transcript_spec (rooms : Rooms) (roomId : jsstr) (c : RoomContext) (said : list Said) (type : DiagramType) :
  map_get rooms roomId = Some c -> diagramContexts c = createEmptyDiagramContexts ->
  StronglySorted (fun a b : Said => a.2 <= b.2) said ->
  buildFocusedTranscript (foldl (say roomId) rooms said) roomId type =
  match relevant type said with [] => None | l => Some (join nl (statement_line <$> l)) end.
Proof.
  intros Hc He Hs. destruct (say_contexts roomId rooms c said type Hc) as (c' & H1 & H2).
  unfold buildFocusedTranscript, getDiagramContexts. rewrite H1. cbn [fmap option_fmap option_map mbind option_bind].
  rewrite H2, He. replace (statements (context_of createEmptyDiagramContexts type)) with (@nil DiagramStatement) by (by destruct type).
  rewrite app_nil_l. destruct (relevant type said) as [|s l] eqn:E; [done|]. rewrite <-E.
  rewrite ssort_id; [done|]. by apply relevant_sorted.
Qed.

Lemma focused_transcript_spec_witness :
  buildFocusedTranscript (foldl (say (js "r")) [(js "r", initial_context None 0)]
    [(js "먼저 로그인을 처리하고 API를 호출합니다", js "kim", 1); (js "네", js "lee", 2); (js "테이블을 수정하자", js "lee", 3)])
    (js "r") erd = Some (js "[lee] 테이블을 수정하자 (키워드: 테이블, 수정)").
Proof.
  rewrite (focused_transcript_spec [(js "r", initial_context None 0)] (js "r") (initial_context None 0)
    [(js "먼저 로그인을 처리하고 API를 호출합니다", js "kim", 1); (js "네", js "lee", 2); (js "테이블을 수정하자", js "lee", 3)] erd).
  - vm_compute. reflexivity.
  - vm_compute. reflexivity.
  - reflexivity.
  - repeat constructor; simpl; lia.
Defined.
