(* ===== verification/Stats.v ===== *)
(** * Coaching of the hosts

    The periodic checks of [src/livekit/voice-bot.service.ts] whose results go
    to the hosts of a room: who has been silent, how the speaking time is
    divided, what the meeting is about.

    A tick of an interval is a function of the context, the time and what the
    awaited calls answer; the callback of the silence check stops when a
    message cannot be sent, as its exception leaves the loop. *)

From Stdlib Require Import ZArith QArith Lia Lqa.
From stdpp Require Import base strings option sorting sets list.
From S2P Require Import Prelude JsString JsMap Json Regex Records Room.

#[local] Open Scope Z_scope.

(* ------------------------------------------------------------------ *)
(** ** Speaking time *)

Definition updateParticipantSpeakingStats (c : RoomContext) (id name : jsstr) (durationMs now : Z) : RoomContext :=
  let stats := participantSpeakingStats c in
  let entry := match map_get stats id with
    | Some e => mkStats (participantId e) (participantName e) (speakingDurationMs e + durationMs) (speakingCount e + 1) now
    | None => mkStats id name durationMs 1 now
    end in
  c <| participantSpeakingStats := map_set stats id entry |>.

(** One line of the message; the ratio in hundredths *)
Record StatsLine := mkLine { l_id : jsstr; l_name : jsstr; l_duration : Z; l_count : Z; speakingRatio : Z }.

Definition total_duration (l : list ParticipantSpeakingStats) : Z := foldl (fun sum s => sum + speakingDurationMs s) 0 l.

(** [Math.round(ratio * 100)] *)
Definition ratio_percent (duration total : Z) : Z :=
  if 0 <? total then math_round (inject_Z duration / inject_Z total * 100)%Q else 0.

Definition more_speech (a b : StatsLine) : bool := l_duration b <=? l_duration a.

Definition stats_lines (l : list ParticipantSpeakingStats) : list StatsLine :=
  let total := total_duration l in
  ssort more_speech
    ((fun s => mkLine (participantId s) (participantName s) (speakingDurationMs s) (speakingCount s)
                 (ratio_percent (speakingDurationMs s) total)) <$> l).

Record StatsMessage := mkStatsMessage { stats : list StatsLine; totalDurationMs : Z; stats_timestamp : Z }.
Record DominantAlert := mkDominant { d_id : jsstr; d_name : jsstr; d_ratio : Z; d_timestamp : Z }.

Definition DOMINANT_PERCENT : Z := 60.

(** A tick up to the first message *)
Definition begin_stats_tick (c : RoomContext) (now : Z) : option StatsMessage :=
  if negb (hostOnlyMode c) || negb (has_hosts c) then None
  else match participantSpeakingStats c with
       | [] => None
       | _ => let l := map_values (participantSpeakingStats c) in
              Some (mkStatsMessage (stats_lines l) (total_duration l) now)
       end.

(** The rest of the tick, with the alert that reached the hosts; whether the two
    messages can be sent is an argument *)
Definition finish_stats_tick (c : RoomContext) (m : StatsMessage) (stats_sent alert_sent : bool) (now : Z)
  : RoomContext * option DominantAlert :=
  if negb stats_sent then (c, None)
  else match stats m with
       | top :: _ :: _ =>
         if negb (dominantAlertSent c) && (DOMINANT_PERCENT <=? speakingRatio top) then
           let alert := mkDominant (l_id top) (l_name top) (speakingRatio top) now in
           if negb alert_sent then (c, None)
           else
             let c := c <| dominantAlertSent := true |> in
             (if speakingRatio top <? DOMINANT_PERCENT - 10 then c <| dominantAlertSent := false |> else c, Some alert)
         else if dominantAlertSent c && (speakingRatio top <? DOMINANT_PERCENT - 10)
         then (c <| dominantAlertSent := false |>, None)
         else (c, None)
       | _ => (c, None)
       end.

(* ------------------------------------------------------------------ *)
(** ** The topic of the meeting *)

Record Report := mkReport { success : bool; reportContent : option jsstr }.

Definition topic_prompt (reportContent : jsstr) : jsstr :=
  lines [
    js "다음 회의 중간 보고서에서 핵심 논점 1개를 추출하세요.";
    [];
    js "보고서:";
    slice_to 1000 reportContent;
    [];
    js "응답 형식 (JSON만, 다른 텍스트 없이):";
    jq "{`topic`: `논점 제목 (5단어 이내)`, `summary`: `핵심 내용 요약 (1-2문장)`}"].

(** The tick after the report arrived: the new [lastReportHash], and the request
    to the language model *)
Definition topic_request (lastReportHash : jsstr) (answer : outcome jsstr Report) : jsstr * option jsstr :=
  match answer with
  | Return (mkReport true (Some ((_ :: _) as content))) =>
    let hash := slice_to 100 content in
    if decide (hash = lastReportHash) then (lastReportHash, None) else (hash, Some (topic_prompt content))
  | _ => (lastReportHash, None)
  end.

(** What is sent to the hosts when the language model has answered *)
Definition topic_message (c : RoomContext) (answer : outcome jsstr jsstr) : option (json * json) :=
  match answer with
  | Throw _ => None
  | Return response =>
    parsed ← match_text (re (js "\{[\s\S]*?\}")) response ≫= Json.parse;
    let topic := prop parsed (js "topic") in
    let summary := prop parsed (js "summary") in
    if json_truthy topic && json_truthy summary && hostOnlyMode c && has_hosts c
    then Some (default JNull topic, default JNull summary) else None
  end.

(* ------------------------------------------------------------------ *)
(** ** Silent participants *)

Definition SILENT_THRESHOLD_MS : Z := 60 * 1000.

Record Participant := mkParticipant { identity : jsstr; name : jsstr }.

(** The variables of the checker *)
Record Silence := mkSilence { alreadyAlerted : list jsstr; participantJoinTime : jsmap jsstr Z }.

Record SilentAlert := mkSilent { a_id : jsstr; a_name : jsstr; silentDurationMs : Z; silentMinutes : Z; a_timestamp : Z }.

(** [sendSilentParticipantAlert], up to the message *)
Definition sendSilentParticipantAlert (c : RoomContext) (id name : jsstr) (duration now : Z) : option SilentAlert :=
  if negb (hostOnlyMode c) || negb (has_hosts c) then None
  else Some (mkSilent id name duration (duration / 60000) now).

Definition add_alerted (l : list jsstr) (id : jsstr) : list jsstr := if decide (id ∈ l) then l else l ++ [id].
Definition remove_alerted (l : list jsstr) (id : jsstr) : list jsstr := filter (fun x => x <> id) l.

(** [silentDuration] of a participant who has been seen *)
Definition silent_for (c : RoomContext) (joined : jsmap jsstr Z) (id : jsstr) (now : Z) : Z :=
  let lastSttTime := default 0 (map_get (lastSttTimeByUser c) id) in
  let joinTime := match map_get joined id with Some 0 | None => now | Some t => t end in
  now - (if 0 <? lastSttTime then lastSttTime else joinTime).

Definition spoke_recently (c : RoomContext) (id : jsstr) (now : Z) : bool :=
  let lastSttTime := default 0 (map_get (lastSttTimeByUser c) id) in
  (0 <? lastSttTime) && (now - lastSttTime <? SILENT_THRESHOLD_MS).

Definition reset_if_spoke (c : RoomContext) (alerted : list jsstr) (id : jsstr) (now : Z) : list jsstr :=
  if spoke_recently c id now then remove_alerted alerted id else alerted.

Section Silence.
(** Whether a message about a participant can be sent *)
Context (can_send : jsstr -> bool).

(** The loop over the participants, with the alerts that reached the hosts *)
Fixpoint silent_loop (c : RoomContext) (now : Z) (s : Silence) (ps : list Participant) : Silence * list SilentAlert :=
  match ps with
  | [] => (s, [])
  | p :: ps' =>
    let id := identity p in
    if starts_with id (js "ai-bot") || bool_decide (id ∈ hostIdentities c) then silent_loop c now s ps'
    else
      let joined := if map_has (participantJoinTime s) id then participantJoinTime s
                    else map_set (participantJoinTime s) id now in
      let duration := silent_for c joined id now in
      if (SILENT_THRESHOLD_MS <=? duration) && negb (bool_decide (id ∈ alreadyAlerted s)) then
        let pname := match name p with [] => id | n => n end in
        let alert := option_list (sendSilentParticipantAlert c id pname duration now) in
        if negb (can_send id) then (mkSilence (alreadyAlerted s) joined, [])
        else
          let s' := mkSilence (reset_if_spoke c (add_alerted (alreadyAlerted s) id) id now) joined in
          let '(s'', alerts) := silent_loop c now s' ps' in (s'', alert ++ alerts)
      else silent_loop c now (mkSilence (reset_if_spoke c (alreadyAlerted s) id now) joined) ps'
  end.

Definition silent_tick (c : RoomContext) (now : Z) (s : Silence) (ps : list Participant) : Silence * list SilentAlert :=
  if negb (hostOnlyMode c) || negb (has_hosts c) then (s, []) else silent_loop c now s ps.

(** *** Alerts are not repeated *)

Definition alerted (s : Silence) (id : jsstr) : Prop := id ∈ alreadyAlerted s.

Lemma elem_add_alerted l id x : x ∈ add_alerted l id <-> x ∈ l \/ x = id.
Proof. unfold add_alerted. case_decide; set_solver. Qed.

Lemma elem_reset c l id now x :
  x ∈ reset_if_spoke c l id now <-> x ∈ l /\ (x = id -> spoke_recently c id now = false).
Proof.
  unfold reset_if_spoke, remove_alerted. destruct (spoke_recently c id now).
  - rewrite list_elem_of_filter. naive_solver.
  - naive_solver.
Qed.

(** Who has been silent for a minute did not speak recently. *)
Lemma silent_not_recent c joined id now :
  SILENT_THRESHOLD_MS <= silent_for c joined id now -> spoke_recently c id now = false.
Proof.
  unfold silent_for, spoke_recently. destruct (0 <? default 0 _); simpl; [|done]. intros H. apply Z.ltb_ge. lia.
Qed.

(** One run of the loop, for one participant *)
Lemma silent_loop_spec c now s ps id :
  let '(s', alerts) := silent_loop c now s ps in
  (alerted s id -> spoke_recently c id now = false -> alerted s' id /\ id ∉ a_id <$> alerts) /\
  (id ∈ a_id <$> alerts -> alerted s' id /\ spoke_recently c id now = false).
Proof.
  revert s. induction ps as [|p ps IH]; intros s; simpl; [set_solver|].
  destruct (_ || _); [apply IH|].
  set (joined := if map_has _ _ then _ else _).
  destruct ((SILENT_THRESHOLD_MS <=? _) && _) eqn:E.
  - apply andb_true_iff in E as [Hd Hn]. apply Z.leb_le, silent_not_recent in Hd. bool_cases.
    destruct (can_send (identity p)); simpl; [|set_solver].
    set (s1 := mkSilence _ _). specialize (IH s1). destruct (silent_loop c now s1 ps) as [s2 alerts].
    destruct IH as [IH1 IH2]. assert (forall x, alerted s1 x <-> alerted s x \/ x = identity p) as Hs1.
    { intros x. unfold alerted, s1. simpl. rewrite elem_reset, elem_add_alerted. naive_solver. }
    assert (a_id <$> option_list (sendSilentParticipantAlert c (identity p) (match name p with [] => identity p | n => n end)
             (silent_for c joined (identity p) now) now) ⊆ [identity p]) as Hsub
      by (unfold sendSilentParticipantAlert; destruct (_ || _); set_solver).
    rewrite fmap_app. split.
    + intros Ha Hr. destruct (IH1 ltac:(apply Hs1; auto) Hr) as [Ha' Hnot]. split; [done|].
      rewrite elem_of_app. intros [Hin|Hin]; [|done]. apply Hsub, list_elem_of_singleton in Hin as ->. done.
    + rewrite elem_of_app. intros [Hin|Hin]; [|auto]. apply Hsub, list_elem_of_singleton in Hin as ->.
      split; [|done]. apply IH1; [apply Hs1; auto|done].
  - set (s1 := mkSilence _ _). specialize (IH s1). destruct (silent_loop c now s1 ps) as [s2 alerts].
    destruct IH as [IH1 IH2]. split; [|done]. intros Ha Hr. apply IH1; [|done]. unfold alerted, s1. simpl.
    apply elem_reset. split; [done|]. by intros ->.
Qed.
End Silence.

(** Ticks of the checker: the context, the time, the participants and which
    messages can be sent *)
Record Tick := mkTick { t_context : RoomContext; t_now : Z; t_participants : list Participant; t_can_send : jsstr -> bool }.

Definition run_tick (s : Silence) (t : Tick) : Silence * list SilentAlert :=
  silent_tick (t_can_send t) (t_context t) (t_now t) s (t_participants t).

Definition run_ticks (s : Silence) (l : list Tick) : Silence := foldl (fun s t => (run_tick s t).1) s l.

Lemma run_tick_spec s t id :
  let '(s', alerts) := run_tick s t in
  (alerted s id -> spoke_recently (t_context t) id (t_now t) = false -> alerted s' id /\ id ∉ a_id <$> alerts) /\
  (id ∈ a_id <$> alerts -> alerted s' id /\ spoke_recently (t_context t) id (t_now t) = false).
Proof. unfold run_tick, silent_tick. destruct (_ || _); [simpl; set_solver|]. apply silent_loop_spec. Qed.

Lemma run_ticks_alerted s l id :
  alerted s id -> Forall (fun t => spoke_recently (t_context t) id (t_now t) = false) l -> alerted (run_ticks s l) id.
Proof.
  intros Ha Hall. revert s Ha. induction Hall as [|t l Ht Hl IH]; intros s Ha; [done|].
  unfold run_ticks. simpl. apply IH. pose proof (run_tick_spec s t id) as H. destruct (run_tick s t) as [s' al]. simpl. destruct H as [H _]. by destruct (H Ha Ht).
Qed.

(** A silent participant is reported once.  Two reports about the same
    participant are only made when a check between them saw that the
    participant had spoken in the last minute. *)
Theorem silence_reported_once (s : Silence) (first : Tick) (between : list Tick) (second : Tick) (id : jsstr) :
  let s1 := (run_tick s first).1 in
  let s2 := run_ticks s1 between in
  id ∈ a_id <$> (run_tick s first).2 -> id ∈ a_id <$> (run_tick s2 second).2 ->
  Exists (fun t => spoke_recently (t_context t) id (t_now t) = true) between.
Proof.
  intros s1 s2 H1 H2. destruct (decide (Exists (fun t => spoke_recently (t_context t) id (t_now t) = true) between)) as [|Hno]; [done|].
  exfalso. apply not_Exists_Forall in Hno; [|apply _].
  assert (Forall (fun t => spoke_recently (t_context t) id (t_now t) = false) between) as Hb
    by (eapply Forall_impl; [exact Hno|]; intros t Ht; by apply not_true_iff_false).
  assert (alerted s1 id) as Ha by (pose proof (run_tick_spec s first id) as H; unfold s1; destruct (run_tick s first); by apply H).
  pose proof (run_ticks_alerted s1 between id Ha Hb) as Ha2. fold s2 in Ha2.
  pose proof (run_tick_spec s2 second id) as H. destruct (run_tick s2 second) as [s3 alerts]. destruct H as [HA HB].
  destruct (HB H2) as [_ Hrec]. by apply HA in Ha2 as [_ Ha2].
Qed.

(** *** A dominant speaker is reported once *)

Record StatsTick := mkStatsTick { st_context : RoomContext; st_message : StatsMessage; st_sent : bool; st_alerted : bool; st_now : Z }.

(** The flag is written by the tick alone. *)
Definition run_stats (flag : bool) (t : StatsTick) : bool * option DominantAlert :=
  let '(c, alert) := finish_stats_tick ((st_context t) <| dominantAlertSent := flag |>) (st_message t) (st_sent t) (st_alerted t) (st_now t) in
  (dominantAlertSent c, alert).

(** The one who spoke most of at least two spoke less than half the time. *)
Definition balanced (t : StatsTick) : bool :=
  match stats (st_message t) with top :: _ :: _ => speakingRatio top <? 50 | _ => false end.

Lemma run_stats_spec flag t :
  ((run_stats flag t).2 <> None -> flag = false /\ (run_stats flag t).1 = true) /\
  (flag = true -> balanced t = false -> (run_stats flag t).1 = true).
Proof.
  unfold run_stats, finish_stats_tick, balanced. destruct (st_sent t); simpl; [|naive_solver].
  destruct (stats (st_message t)) as [|top [|]]; [naive_solver..|].
  change (DOMINANT_PERCENT - 10) with 50. unfold DOMINANT_PERCENT. destruct flag; simpl.
  - destruct (speakingRatio top <? 50); simpl; naive_solver.
  - destruct (60 <=? _) eqn:E; simpl; [|naive_solver]. destruct (st_alerted t); simpl; [|naive_solver].
    bool_cases. replace (speakingRatio top <? 50) with false by lia. naive_solver.
Qed.

(** A dominant speaker is reported once.  Between two reports that reached
    the hosts there is a check at which nobody had half of the speaking time. *)
Theorem dominance_reported_once (flag : bool) (first : StatsTick) (between : list StatsTick) (second : StatsTick) :
  let f1 := (run_stats flag first).1 in
  let f2 := foldl (fun f t => (run_stats f t).1) f1 between in
  (run_stats flag first).2 <> None -> (run_stats f2 second).2 <> None ->
  Exists (fun t => balanced t = true) between.
Proof.
  intros f1 f2 H1 H2. destruct (decide (Exists (fun t => balanced t = true) between)) as [|Hno]; [done|]. exfalso.
  apply not_Exists_Forall in Hno; [|apply _].
  assert (f1 = true) as Hf1 by (by apply run_stats_spec in H1 as [_ ?]).
  assert (f2 = true) as Hf2.
  { unfold f2. revert Hf1. generalize f1. clear -Hno. induction Hno as [|t l Ht Hl IH]; intros f Hf; simpl; [done|].
    apply IH. apply run_stats_spec; [done|]. by apply not_true_iff_false. }
  apply run_stats_spec in H2 as [Hf _]. congruence.
Qed.

(** Ratios are percentages. *)
Lemma ratio_percent_bounds (l : list ParticipantSpeakingStats) s :
  Forall (fun s => 0 <= speakingDurationMs s) l -> s ∈ l -> 0 <= ratio_percent (speakingDurationMs s) (total_duration l) <= 100.
Proof.
  intros Hall Hin. assert (0 <= speakingDurationMs s <= total_duration l) as Hs.
  { assert (forall n l, foldl (fun sum s => sum + speakingDurationMs s) n l = n + total_duration l) as Hacc.
    { intros n l'. unfold total_duration. revert n. induction l' as [|x l' IH]; intros n; simpl; [lia|]. rewrite IH, (IH (0 + _)). lia. }
    assert (forall l, Forall (fun s => 0 <= speakingDurationMs s) l -> 0 <= total_duration l) as Hpos.
    { intros l'. induction 1 as [|x l' Hx Hl IH]; [done|]. unfold total_duration. simpl. rewrite Hacc. lia. }
    induction Hin as [x l'|x y l' Hin IH]; apply Forall_cons in Hall as [Hx Hall]; unfold total_duration; simpl; rewrite Hacc.
    - specialize (Hpos _ Hall). lia.
    - specialize (IH Hall). lia. }
  unfold ratio_percent, math_round. destruct (0 <? total_duration l) eqn:E; [|lia]. bool_cases.
  assert (0 < inject_Z (total_duration l))%Q by (change 0%Q with (inject_Z 0); by rewrite <-Zlt_Qlt).
  assert (0 <= inject_Z (speakingDurationMs s) / inject_Z (total_duration l) <= 1)%Q as [H0 H1].
  { split.
    - apply Qle_shift_div_l; [done|]. rewrite Qmult_0_l. change 0%Q with (inject_Z 0). rewrite <-Zle_Qle. lia.
    - apply Qle_shift_div_r; [done|]. rewrite Qmult_1_l. rewrite <-Zle_Qle. lia. }
  split.
  - apply math_floor_le. change (inject_Z 0) with 0%Q. lra.
  - apply Z.lt_succ_r. apply math_floor_lt. change (inject_Z (Z.succ 100)) with (101 # 1)%Q. lra.
Qed.

(** *** Concrete ticks *)

Definition coached : RoomContext := (initial_context None 0) <| hostIdentities := [js "host"] |>.
Definition kim : Participant := mkParticipant (js "kim") (js "Kim").
Definition tick_at (c : RoomContext) (now : Z) : Tick := mkTick c now [kim] (fun _ => true).

Lemma silence_reported_once_witness :
  Exists (fun t => spoke_recently (t_context t) (js "kim") (t_now t) = true)
    [tick_at (coached <| lastSttTimeByUser := [(js "kim", 100000)] |>) 120000].
Proof.
  apply (silence_reported_once (mkSilence [] [(js "kim", 1000)]) (tick_at coached 90000)
    [tick_at (coached <| lastSttTimeByUser := [(js "kim", 100000)] |>) 120000]
    (tick_at (coached <| lastSttTimeByUser := [(js "kim", 100000)] |>) 165000) (js "kim")).
  - apply (bool_decide_unpack _). vm_compute. exact I.
  - apply (bool_decide_unpack _). vm_compute. exact I.
Defined.

Definition sample_stats (p q now : Z) : StatsTick :=
  mkStatsTick coached (mkStatsMessage [mkLine (js "kim") (js "Kim") p 1 p; mkLine (js "lee") (js "Lee") q 1 q] 100 now) true true now.

Lemma dominance_reported_once_witness :
  Exists (fun t => balanced t = true) [sample_stats 49 48 20000].
Proof.
  apply (dominance_reported_once false (sample_stats 70 30 10000) [sample_stats 49 48 20000] (sample_stats 60 40 30000)).
  - vm_compute. discriminate.
  - vm_compute. discriminate.
Defined.
