(* ===== verification/Audio.v ===== *)
(** * Audio data

    [publishAudio], [createWavHeader] and [saveDebugAudio] of
    [src/livekit/voice-bot.service.ts]: speech is cut into frames of 480
    samples of 16 bits, and an utterance can be written to a file with a
    header.  A buffer is the list of its bytes, each from 0 to 255. *)

From Stdlib Require Import ZArith Lia.
From stdpp Require Import base strings option list.
From S2P Require Import Prelude JsString.

#[local] Open Scope Z_scope.

Definition Buffer := list Z.
Definition is_byte (b : Z) : Prop := 0 <= b < 256.

Definition FRAME_SIZE : nat := 480.
Definition BYTES_PER_SAMPLE : nat := 2.
Definition FRAME_BYTES : nat := FRAME_SIZE * BYTES_PER_SAMPLE.
Definition FRAME_DURATION_MS : Z := 30.

(** A two's complement number of 16 bits *)
Definition int16 (lo hi : Z) : Z := let u := Z.lor lo (Z.shiftl hi 8) in if u <? 32768 then u else u - 65536.

(** [buffer.readInt16LE(i)] for an offset within the buffer *)
Definition readInt16LE (b : Buffer) (i : nat) : Z := int16 (nth i b 0) (nth (S i) b 0).

(** One frame: the samples of the chunk, then zeros *)
Definition frame_at (b : Buffer) (offset : nat) : list Z :=
  let chunkEnd := Nat.min (offset + FRAME_BYTES) (length b) in
  let numSamples := ((chunkEnd - offset) / BYTES_PER_SAMPLE)%nat in
  ((fun j => readInt16LE b (offset + j * BYTES_PER_SAMPLE)) <$> seq 0 (Nat.min numSamples FRAME_SIZE))
  ++ replicate (FRAME_SIZE - Nat.min numSamples FRAME_SIZE) 0.

(** [while (offset < pcmBuffer.length)]; the fuel is the number of rounds *)
Fixpoint frames_from (fuel : nat) (b : Buffer) (offset : nat) : list (list Z) :=
  match fuel with
  | O => []
  | S f => if (offset <? length b)%nat then frame_at b offset :: frames_from f b (offset + FRAME_BYTES) else []
  end.

Definition pcm_frames (b : Buffer) : list (list Z) := frames_from (length b) b 0.

(** [Math.max(1, 30 - (actualTime - expectedTime + 30))]: the wait before frame
    [frameIndex] when the first was sent at [startTime] *)
Definition nextDelay (frameIndex : nat) (startTime now : Z) : Z :=
  let expectedTime := Z.of_nat frameIndex * FRAME_DURATION_MS in
  let actualTime := now - startTime in
  Z.max 1 (FRAME_DURATION_MS - (actualTime - expectedTime + FRAME_DURATION_MS)).

(* ------------------------------------------------------------------ *)
(** ** WAV files *)

Definition le16 (v : Z) : Buffer := [Z.land v 255; Z.land (Z.shiftr v 8) 255].
Definition le32 (v : Z) : Buffer := le16 (Z.land v 65535) ++ le16 (Z.land (Z.shiftr v 16) 65535).

Definition range_error : jsstr := js "ERR_OUT_OF_RANGE".
Definition writeUInt16LE (v : Z) : outcome jsstr Buffer := if (0 <=? v) && (v <? 65536) then Return (le16 v) else Throw range_error.
Definition writeUInt32LE (v : Z) : outcome jsstr Buffer := if (0 <=? v) && (v <? 4294967296) then Return (le32 v) else Throw range_error.

(** Sizes are whole bytes: [bitsPerSample] is a multiple of eight. *)
Definition createWavHeader (dataLength sampleRate channels bitsPerSample : Z) : outcome jsstr Buffer :=
  (let byteRate := sampleRate * channels * (bitsPerSample / 8) in
   let blockAlign := channels * (bitsPerSample / 8) in
   size <-- writeUInt32LE (36 + dataLength) ;;
   subchunk <-- writeUInt32LE 16 ;;
   format <-- writeUInt16LE 1 ;;
   ch <-- writeUInt16LE channels ;;
   rate <-- writeUInt32LE sampleRate ;;
   bytes <-- writeUInt32LE byteRate ;;
   align <-- writeUInt16LE blockAlign ;;
   bits <-- writeUInt16LE bitsPerSample ;;
   data <-- writeUInt32LE dataLength ;;
   Return (js "RIFF" ++ size ++ js "WAVE" ++ js "fmt " ++ subchunk ++ format ++ ch ++ rate ++ bytes ++ align ++ bits
           ++ js "data" ++ data))%aura.

(** The contents of the file [saveDebugAudio] writes *)
Definition debug_wav (audio : Buffer) : outcome jsstr Buffer :=
  (header <-- createWavHeader (Z.of_nat (length audio)) 16000 1 16 ;; Return (header ++ audio))%aura.

(* ------------------------------------------------------------------ *)
(** ** Properties *)

(** The samples of a buffer; a last odd byte is not one *)
Fixpoint samples (b : Buffer) : list Z :=
  match b with
  | lo :: hi :: b' => int16 lo hi :: samples b'
  | _ => []
  end.

Lemma list_pair_ind {A} (P : list A -> Prop) :
  P [] -> (forall x, P [x]) -> (forall x y l, P l -> P (x :: y :: l)) -> forall l, P l.
Proof. intros H0 H1 H2. fix IH 1. intros [|x [|y l]]; [exact H0|apply H1|apply H2, IH]. Qed.

Lemma length_samples b : length (samples b) = (length b / 2)%nat.
Proof.
  induction b as [| |lo hi b IH] using list_pair_ind; [done|done|]. cbn [samples length]. rewrite IH.
  replace (S (S (length b))) with (length b + 1 * 2)%nat by lia. rewrite Nat.div_add by lia. lia.
Qed.

Lemma lookup_samples b j : (j < length b / 2)%nat -> samples b !! j = Some (readInt16LE b (j * 2)).
Proof.
  revert j. induction b as [|x|lo hi b IH] using list_pair_ind; intros j Hj; [simpl in Hj; lia|simpl in Hj; lia|].
  destruct j as [|j]; [done|]. cbn [samples]. rewrite lookup_cons. rewrite IH; [done|].
  cbn [length] in Hj. replace (S (S (length b))) with (length b + 1 * 2)%nat in Hj by lia.
  rewrite Nat.div_add in Hj by lia. lia.
Qed.

Lemma samples_seq b n : (n <= length b / 2)%nat -> (fun j => readInt16LE b (j * 2)) <$> seq 0 n = take n (samples b).
Proof.
  intros Hn. apply list_eq. intros i. rewrite list_lookup_fmap. destruct (decide (i < n)%nat) as [Hi|Hi].
  - rewrite lookup_seq_lt, lookup_take_lt, lookup_samples by lia. done.
  - rewrite lookup_seq_ge, lookup_take_ge by lia. done.
Qed.

Lemma readInt16LE_drop b k i : readInt16LE (drop k b) i = readInt16LE b (k + i).
Proof.
  assert (forall (l : list Z) m i, nth i (drop m l) 0 = nth (m + i) l 0) as Hn.
  { induction l as [|x l IH]; intros [|m] j; [done|by destruct j|done|apply IH]. }
  unfold readInt16LE. rewrite !Hn. do 2 f_equal; lia.
Qed.

Lemma frame_at_spec b offset :
  let d := drop offset b in
  frame_at b offset = take 480 (samples d) ++ replicate (480 - length (samples d)) 0.
Proof.
  intros d. unfold frame_at, FRAME_BYTES, FRAME_SIZE, BYTES_PER_SAMPLE.
  assert (((Nat.min (offset + 480 * 2) (length b) - offset) / 2)%nat = Nat.min 480 (length d / 2)) as ->.
  { unfold d. rewrite length_drop. replace (Nat.min (offset + 480 * 2) (length b) - offset)%nat with (Nat.min 960 (length b - offset)) by lia.
    destruct (Nat.min_spec 960 (length b - offset)) as [[H ->]|[H ->]].
    - symmetry. apply Nat.min_l. apply (Nat.Div0.div_le_mono 960 _ 2). lia.
    - symmetry. apply Nat.min_r. apply (Nat.Div0.div_le_mono _ 960 2). lia. }
  rewrite (Nat.min_l (Nat.min 480 _) 480) by lia. f_equal.
  - erewrite list_fmap_ext by (intros i x _; rewrite <-readInt16LE_drop; reflexivity). fold d.
    rewrite samples_seq by lia. rewrite <-length_samples. destruct (Nat.min_spec 480 (length (samples d))) as [[H ->]|[H ->]]; [done|].
    rewrite !take_ge; [done|lia|lia].
  - f_equal. rewrite length_samples. lia.
Qed.

Lemma samples_drop b k : samples (drop (2 * k) b) = drop k (samples b).
Proof.
  revert b. induction k as [|k IH]; intros b; [done|]. replace (2 * S k)%nat with (S (S (2 * k))) by lia.
  destruct b as [|lo [|hi b]]; [by rewrite !drop_nil|rewrite drop_ge by (simpl; lia); reflexivity|]. cbn [drop samples]. apply IH.
Qed.

Lemma frames_spec fuel b offset :
  (length b - offset <= fuel)%nat ->
  let l := frames_from fuel b offset in
  Forall (fun f => length f = 480%nat) l /\
  exists n, (n <= 480)%nat /\ concat l = samples (drop offset b) ++ replicate n 0.
Proof.
  revert offset. induction fuel as [|fuel IH]; intros offset Hf.
  - rewrite drop_ge by lia. split; [constructor|]. exists 0%nat. auto with lia.
  - cbn [frames_from]. destruct (offset <? length b)%nat eqn:E; bool_cases.
    2: { rewrite drop_ge by lia. split; [constructor|]. exists 0%nat. auto with lia. }
    destruct (IH (offset + FRAME_BYTES)%nat) as [IH1 (n & Hn & IH2)]; [unfold FRAME_BYTES, FRAME_SIZE, BYTES_PER_SAMPLE; lia|].
    rewrite frame_at_spec. set (d := drop offset b) in *. split.
    + constructor; [|done]. rewrite length_app, length_take, length_replicate. lia.
    + cbn [concat]. rewrite IH2. change FRAME_BYTES with (2 * 480)%nat. rewrite <-drop_drop. fold d. rewrite samples_drop.
      destruct (decide (480 <= length (samples d))%nat) as [Hle|Hgt].
      * replace (480 - length (samples d))%nat with 0%nat by lia. cbn [replicate]. rewrite app_nil_r, app_assoc, take_drop. eauto.
      * assert (drop 480 (samples d) = []) as Hd by (apply drop_ge; lia). rewrite Hd, (take_ge (samples d)) by lia. rewrite app_nil_l.
        (* no frame follows a short one *)
        exists (480 - length (samples d) + n)%nat. rewrite replicate_add, app_assoc. split; [|done].
        assert (frames_from fuel b (offset + 2 * 480) = []) as Hnil.
        { destruct fuel; [done|]. cbn [frames_from]. destruct (_ <? _)%nat eqn:E2; [|done]. bool_cases.
          exfalso. apply Hgt. rewrite length_samples. unfold d. rewrite length_drop.
          apply (Nat.Div0.div_le_mono 960 _ 2). lia. }
        change FRAME_BYTES with (2 * 480)%nat in IH2. rewrite Hnil in IH2. apply (f_equal length) in IH2.
        rewrite length_app, length_replicate in IH2. simpl in IH2. lia.
Qed.

(** Speech is sent completely.  The frames are all of 480 samples, and their
    samples are those of the audio in order, followed by fewer than 481 zeros;
    only a last odd byte is lost. *)
Theorem frames_are_the_audio (b : Buffer) :
  Forall (fun f => length f = 480%nat) (pcm_frames b) /\
  exists n, (n <= 480)%nat /\ concat (pcm_frames b) = samples b ++ replicate n 0.
Proof. apply (frames_spec (length b) b 0). lia. Qed.

(** *** The header *)

Definition read16 (b : Buffer) (i : nat) : Z := nth i b 0 + 256 * nth (S i) b 0.
Definition read32 (b : Buffer) (i : nat) : Z := read16 b i + 65536 * read16 b (S (S i)).

Lemma low_bits v n : 0 <= n -> Z.land v (Z.ones n) = v mod 2 ^ n.
Proof. intros Hn. by apply Z.land_ones. Qed.

Lemma le16_value v : 0 <= v < 65536 -> le16 v = [v mod 256; v / 256].
Proof.
  intros Hv. unfold le16. change 255 with (Z.ones 8). rewrite !low_bits by lia. rewrite Z.shiftr_div_pow2 by lia.
  change (2 ^ 8) with 256. rewrite (Z.mod_small (v / 256)); [done|]. split; [by apply Z.div_pos; lia|apply Z.div_lt_upper_bound; lia].
Qed.

Lemma le32_value v : 0 <= v < 4294967296 -> le32 v = le16 (v mod 65536) ++ le16 (v / 65536).
Proof.
  intros Hv. unfold le32. change 65535 with (Z.ones 16). rewrite !low_bits by lia. rewrite Z.shiftr_div_pow2 by lia.
  change (2 ^ 16) with 65536. rewrite (Z.mod_small (v / 65536)); [done|]. split; [by apply Z.div_pos; lia|apply Z.div_lt_upper_bound; lia].
Qed.

Lemma read16_le16 v l1 l2 : 0 <= v < 65536 -> read16 (l1 ++ le16 v ++ l2) (length l1) = v.
Proof.
  intros Hv. rewrite le16_value by done. unfold read16.
  rewrite !(app_nth2 l1 ([v mod 256; v / 256] ++ l2)) by lia. rewrite Nat.sub_diag.
  replace (S (length l1) - length l1)%nat with 1%nat by lia. cbn [nth app]. pose proof (Z.div_mod v 256 ltac:(lia)). lia.
Qed.

Lemma read32_le32 v l1 l2 : 0 <= v < 4294967296 -> read32 (l1 ++ le32 v ++ l2) (length l1) = v.
Proof.
  intros Hv. rewrite le32_value by done. unfold read32.
  assert (0 <= v mod 65536 < 65536) as Hm by (apply Z.mod_pos_bound; lia).
  assert (0 <= v / 65536 < 65536) as Hd by (split; [apply Z.div_pos; lia|apply Z.div_lt_upper_bound; lia]).
  rewrite <-(app_assoc (le16 (v mod 65536))). rewrite read16_le16 by done.
  replace (S (S (length l1))) with (length (l1 ++ le16 (v mod 65536))) by (rewrite length_app, le16_value by done; simpl; lia).
  rewrite (app_assoc l1). rewrite read16_le16 by done. pose proof (Z.div_mod v 65536 ltac:(lia)). lia.
Qed.

Lemma createWavHeader_ok dataLength sampleRate channels :
  0 <= dataLength < 4294967260 -> 0 <= channels <= 255 -> 0 <= sampleRate -> sampleRate * channels * 2 < 4294967296 -> sampleRate < 4294967296 ->
  createWavHeader dataLength sampleRate channels 16 =
  Return (js "RIFF" ++ le32 (36 + dataLength) ++ js "WAVE" ++ js "fmt " ++ le32 16 ++ le16 1 ++ le16 channels ++ le32 sampleRate
          ++ le32 (sampleRate * channels * 2) ++ le16 (channels * 2) ++ le16 16 ++ js "data" ++ le32 dataLength).
Proof.
  intros Hd Hc Hs Hb Hr. unfold createWavHeader, writeUInt16LE, writeUInt32LE. change (16 / 8) with 2.
  assert (0 <= sampleRate * channels) by nia.
  z_decide. reflexivity.
Qed.

(** A file that is written can be read.  For every utterance below four
    gigabytes the file of [saveDebugAudio] begins with the 44 bytes of a header
    that gives back, at the standard offsets, the sizes of the file and of the
    data, PCM, one channel of 16000 samples of 16 bits per second, and the
    audio follows unchanged. *)
Theorem wav_roundtrip (audio : Buffer) :
  Z.of_nat (length audio) < 4294967260 ->
  exists file, debug_wav audio = Return file /\
    take 4 file = js "RIFF" /\ read32 file 4 = Z.of_nat (length file) - 8 /\ take 8 (drop 8 file) = js "WAVEfmt " /\
    read32 file 16 = 16 /\ read16 file 20 = 1 /\ read16 file 22 = 1 /\ read32 file 24 = 16000 /\ read32 file 28 = 32000 /\
    read16 file 32 = 2 /\ read16 file 34 = 16 /\ take 4 (drop 36 file) = js "data" /\
    read32 file 40 = Z.of_nat (length audio) /\ drop 44 file = audio.
Proof.
  intros Hlen. set (n := Z.of_nat (length audio)) in *. assert (0 <= n) as Hn by lia. unfold debug_wav. fold n.
  rewrite (createWavHeader_ok n 16000 1) by lia. cbn [outcome_bind].
  set (pre := js "WAVE" ++ js "fmt " ++ le32 16 ++ le16 1 ++ le16 1 ++ le32 16000 ++ le32 (16000 * 1 * 2) ++ le16 (1 * 2) ++ le16 16 ++ js "data").
  assert (length pre = 32%nat) as Hpre by reflexivity.
  assert (forall v, length (le32 v) = 4%nat) as Hl by reflexivity.
  assert ((js "RIFF" ++ le32 (36 + n) ++ js "WAVE" ++ js "fmt " ++ le32 16 ++ le16 1 ++ le16 1 ++ le32 16000 ++ le32 (16000 * 1 * 2)
    ++ le16 (1 * 2) ++ le16 16 ++ js "data" ++ le32 n) = js "RIFF" ++ le32 (36 + n) ++ pre ++ le32 n) as ->
    by (unfold pre; by rewrite <-!app_assoc).
  eexists. split; [reflexivity|].
  assert (read32 ((js "RIFF" ++ le32 (36 + n) ++ pre ++ le32 n) ++ audio) 4 = 36 + n) as H4.
  { rewrite <-!app_assoc. apply (read32_le32 (36 + n) (js "RIFF")). lia. }
  assert (read32 ((js "RIFF" ++ le32 (36 + n) ++ pre ++ le32 n) ++ audio) 40 = n) as H40.
  { replace ((js "RIFF" ++ le32 (36 + n) ++ pre ++ le32 n) ++ audio) with ((js "RIFF" ++ le32 (36 + n) ++ pre) ++ le32 n ++ audio)
      by (by rewrite <-!app_assoc).
    change 40%nat with (length (js "RIFF" ++ le32 (36 + n) ++ pre)). apply read32_le32. lia. }
  rewrite H4, H40. repeat split; try reflexivity.
  rewrite !length_app, Hpre, !Hl. change (length (js "RIFF")) with 4%nat. lia.
Qed.

Lemma wav_roundtrip_witness : exists file, debug_wav [1; 2; 3; 4] = Return file /\ read32 file 40 = 4 /\ drop 44 file = [1; 2; 3; 4].
Proof.
  destruct (wav_roundtrip [1; 2; 3; 4]) as (file & H & Hall); [simpl; lia|]. exists file. split; [exact H|]. tauto.
Defined.
