(* ===== verification/Async.v ===== *)
(** * Asynchronous programs

    A small language for [async] functions over a shared state: synchronous
    code reads the clock and the state and writes the state; an awaited
    operation gives up control until it is answered, with a value or with an
    exception.  Exceptions, [try], [catch] and [finally] are those of the
    language.

    [exec] says how a function can end when other functions change the state
    while it waits; [run_with] computes one of these executions.
    [wp] is the weakest precondition of an execution, with rules for the
    constructs. *)

From Stdlib Require Import ZArith.
From stdpp Require Import base strings option list.
From S2P Require Import Prelude JsString.

#[local] Open Scope Z_scope.

Section Programs.
Context {State : Type} {Eff : Type -> Type}.

Inductive prog (A : Type) : Type :=
| Ret (a : A)
| Raise (message : jsstr)
| Get (k : Z -> State -> prog A)
| Put (s : State) (p : prog A)
| Await (R : Type) (e : Eff R) (k : outcome jsstr R -> prog A).
#[global] Arguments Ret {A} a.
#[global] Arguments Raise {A} message.
#[global] Arguments Get {A} k.
#[global] Arguments Put {A} s p.
#[global] Arguments Await {A R} e k.

Fixpoint bind {A B} (p : prog A) (f : A -> prog B) : prog B :=
  match p with
  | Ret a => f a
  | Raise m => Raise m
  | Get k => Get (fun t s => bind (k t s) f)
  | Put s p => Put s (bind p f)
  | Await e k => Await e (fun r => bind (k r) f)
  end.

(** [try { p } catch (error) { h(error) }] *)
Fixpoint try_catch {A} (p : prog A) (h : jsstr -> prog A) : prog A :=
  match p with
  | Ret a => Ret a
  | Raise m => h m
  | Get k => Get (fun t s => try_catch (k t s) h)
  | Put s p => Put s (try_catch p h)
  | Await e k => Await e (fun r => try_catch (k r) h)
  end.

(** [try { p } finally { q }] *)
Fixpoint finally {A} (p : prog A) (q : prog unit) : prog A :=
  match p with
  | Ret a => bind q (fun _ => Ret a)
  | Raise m => bind q (fun _ => Raise m)
  | Get k => Get (fun t s => finally (k t s) q)
  | Put s p => Put s (finally p q)
  | Await e k => Await e (fun r => finally (k r) q)
  end.

(** [await e] *)
Definition await {R} (e : Eff R) : prog R :=
  Await e (fun r => match r with Return x => Ret x | Throw m => Raise m end).

Definition now : prog Z := Get (fun t _ => Ret t).
Definition get : prog State := Get (fun _ s => Ret s).
Definition modify (f : Z -> State -> State) : prog unit := Get (fun t s => Put (f t s) (Ret tt)).

(** *** Executions *)

(** An execution in which the others change the state only as [Rely] allows *)
Inductive exec {A} (Rely : State -> State -> Prop) : State -> prog A -> State -> outcome jsstr A -> Prop :=
| exec_ret s a : exec Rely s (Ret a) s (Return a)
| exec_raise s m : exec Rely s (Raise m) s (Throw m)
| exec_get t s k s' o : exec Rely s (k t s) s' o -> exec Rely s (Get k) s' o
| exec_put s s1 p s' o : exec Rely s1 p s' o -> exec Rely s (Put s1 p) s' o
| exec_await R (e : Eff R) k r s s1 s' o :
    Rely s s1 -> exec Rely s1 (k r) s' o -> exec Rely s (Await e k) s' o.

(** One execution: the times and the answers are given by the number of waits
    before, and so is what the others do during a wait *)
Fixpoint run_with {A} (clock : nat -> Z) (answer : forall R, nat -> Eff R -> outcome jsstr R) (others : nat -> State -> State)
  (n : nat) (s : State) (p : prog A) : State * outcome jsstr A :=
  match p with
  | Ret a => (s, Return a)
  | Raise m => (s, Throw m)
  | Get k => run_with clock answer others n s (k (clock n) s)
  | Put s' p => run_with clock answer others n s' p
  | Await e k => run_with clock answer others (S n) (others n s) (k (answer _ n e))
  end.

Lemma run_with_exec {A} Rely clock answer others n s (p : prog A) :
  (forall n s, Rely s (others n s)) ->
  exec Rely s p (run_with clock answer others n s p).1 (run_with clock answer others n s p).2.
Proof.
  intros Hrely. revert n s. induction p as [a|m|k IH|s1 p IH|R e k IH]; intros n s; simpl; try constructor; auto.
  - econstructor. apply IH.
  - econstructor; [apply Hrely|apply IH].
Qed.

Lemma exec_bind {A B} Rely (p : prog A) (f : A -> prog B) s s1 s' a o :
  exec Rely s p s1 (Return a) -> exec Rely s1 (f a) s' o -> exec Rely s (bind p f) s' o.
Proof.
  intros Hp Hf. remember (Return a) as r eqn:Hr. induction Hp; simplify_eq; [exact Hf|..].
  - eapply exec_get. eauto.
  - eapply exec_put. eauto.
  - eapply exec_await; eauto.
Qed.

Lemma exec_try {A} Rely (p : prog A) h s s' a : exec Rely s p s' (Return a) -> exec Rely s (try_catch p h) s' (Return a).
Proof.
  intros Hp. remember (Return a) as r eqn:Hr. induction Hp; simplify_eq; [constructor|..].
  - eapply exec_get. eauto.
  - eapply exec_put. eauto.
  - eapply exec_await; eauto.
Qed.

Lemma exec_catch {A} Rely (p : prog A) h s s1 s' m o :
  exec Rely s p s1 (Throw m) -> exec Rely s1 (h m) s' o -> exec Rely s (try_catch p h) s' o.
Proof.
  intros Hp Hh. remember (Throw m) as r eqn:Hr. induction Hp; simplify_eq; [exact Hh|..].
  - eapply exec_get. eauto.
  - eapply exec_put. eauto.
  - eapply exec_await; eauto.
Qed.

Lemma exec_finally {A} Rely (p : prog A) (q : prog unit) s s1 s' o u :
  exec Rely s p s1 o -> exec Rely s1 q s' (Return u) -> exec Rely s (finally p q) s' o.
Proof.
  intros Hp Hq. induction Hp; simpl.
  - eapply exec_bind; [exact Hq|constructor].
  - eapply exec_bind; [exact Hq|constructor].
  - eapply exec_get. eauto.
  - eapply exec_put. eauto.
  - eapply exec_await; eauto.
Qed.

Lemma exec_modify Rely f t s : exec Rely s (modify f) (f t s) (Return tt).
Proof. apply (exec_get _ t), exec_put, exec_ret. Qed.

Lemma exec_await_return {R} Rely (e : Eff R) x s s' : Rely s s' -> exec Rely s (await e) s' (Return x).
Proof. intros H. apply (exec_await _ _ _ _ (Return x) _ s'); [done|constructor]. Qed.

(** *** Weakest preconditions *)

Fixpoint wp {A} (Rely : State -> State -> Prop) (p : prog A) (Q : outcome jsstr A -> State -> Prop) (s : State) : Prop :=
  match p with
  | Ret a => Q (Return a) s
  | Raise m => Q (Throw m) s
  | Get k => forall t, wp Rely (k t s) Q s
  | Put s' p => wp Rely p Q s'
  | Await e k => forall r s', Rely s s' -> wp Rely (k r) Q s'
  end.

Lemma wp_sound {A} Rely (p : prog A) Q s s' o : wp Rely p Q s -> exec Rely s p s' o -> Q o s'.
Proof. intros Hwp Hex. induction Hex; simpl in Hwp; eauto. Qed.

Lemma wp_mono {A} Rely (p : prog A) (Q1 Q2 : outcome jsstr A -> State -> Prop) s :
  (forall o s, Q1 o s -> Q2 o s) -> wp Rely p Q1 s -> wp Rely p Q2 s.
Proof.
  intros HQ. revert s. induction p as [a|m|k IH|s1 p IH|R e k IH]; intros s; simpl; eauto.
Qed.

Lemma wp_bind {A B} Rely (p : prog A) (f : A -> prog B) Q s :
  wp Rely p (fun o s => match o with Return a => wp Rely (f a) Q s | Throw m => Q (Throw m) s end) s ->
  wp Rely (bind p f) Q s.
Proof. revert s. induction p as [a|m|k IH|s1 p IH|R e k IH]; intros s; simpl; eauto. Qed.

Lemma wp_try {A} Rely (p : prog A) (h : jsstr -> prog A) Q s :
  wp Rely p (fun o s => match o with Return a => Q (Return a) s | Throw m => wp Rely (h m) Q s end) s ->
  wp Rely (try_catch p h) Q s.
Proof. revert s. induction p as [a|m|k IH|s1 p IH|R e k IH]; intros s; simpl; eauto. Qed.

Lemma wp_finally {A} Rely (p : prog A) (q : prog unit) Q s :
  wp Rely p (fun o s => wp Rely q (fun o' s => match o' with Return _ => Q o s | Throw m => Q (Throw m) s end) s) s ->
  wp Rely (finally p q) Q s.
Proof.
  revert s. induction p as [a|m|k IH|s1 p IH|R e k IH]; intros s; simpl; eauto.
  - intros H. apply wp_bind. eapply wp_mono; [|exact H]. by intros [|] ?.
  - intros H. apply wp_bind. eapply wp_mono; [|exact H]. by intros [|] ?.
Qed.

Lemma wp_await {R} Rely (e : Eff R) Q s :
  (forall r s', Rely s s' -> Q r s') -> wp Rely (await e) Q s.
Proof. intros H r s' Hs. destruct r; simpl; auto. Qed.

Lemma wp_modify Rely f Q s : (forall t, Q (Return tt) (f t s)) -> wp Rely (modify f) Q s.
Proof. intros H t. apply H. Qed.

(** *** Invariants of a function *)

(** Every write of [p] satisfies [I], in states in which [I] held when they were
    last read. *)
Fixpoint keeps {A} (I : State -> Prop) (p : prog A) : Prop :=
  match p with
  | Ret _ | Raise _ => True
  | Get k => forall t s, I s -> keeps I (k t s)
  | Put s p => I s /\ keeps I p
  | Await e k => forall r, keeps I (k r)
  end.

Lemma keeps_wp {A} Rely I (p : prog A) s :
  (forall s s', Rely s s' -> I s -> I s') -> keeps I p -> I s -> wp Rely p (fun _ s' => I s') s.
Proof.
  intros Hrely. revert s. induction p as [a|m|k IH|s1 p IH|R e k IH]; intros s; simpl; intros Hk Hs; eauto.
  destruct Hk. auto.
Qed.

Lemma keeps_exec {A} Rely I (p : prog A) s s' o :
  (forall s s', Rely s s' -> I s -> I s') -> keeps I p -> I s -> exec Rely s p s' o -> I s'.
Proof. intros Hrely Hk Hs Hex. exact (wp_sound _ _ _ _ _ _ (keeps_wp _ _ _ _ Hrely Hk Hs) Hex). Qed.

Lemma keeps_bind {A B} I (p : prog A) (f : A -> prog B) : keeps I p -> (forall a, keeps I (f a)) -> keeps I (bind p f).
Proof. intros Hp Hf. induction p; simpl in *; naive_solver. Qed.

Lemma keeps_try {A} I (p : prog A) (h : jsstr -> prog A) : keeps I p -> (forall m, keeps I (h m)) -> keeps I (try_catch p h).
Proof. intros Hp Hf. induction p; simpl in *; naive_solver. Qed.

Lemma keeps_finally {A} I (p : prog A) (q : prog unit) : keeps I p -> keeps I q -> keeps I (finally p q).
Proof. intros Hp Hq. induction p; simpl in *; try naive_solver; by apply keeps_bind. Qed.

Lemma keeps_await {R} I (e : Eff R) : keeps I (await e).
Proof. intros [|]; exact Logic.I. Qed.

Lemma keeps_modify I f : (forall t s, I s -> I (f t s)) -> keeps I (modify f).
Proof. intros H t s Hs. split; [auto|exact Logic.I]. Qed.

End Programs.

Declare Scope prog_scope.
Delimit Scope prog_scope with prog.
Notation "x <- p ;; q" := (bind p (fun x => q)) (at level 100, p at next level, right associativity) : prog_scope.
Notation "p ;;; q" := (bind p (fun _ => q)) (at level 100, right associativity) : prog_scope.

Create HintDb keeps.
#[export] Hint Resolve keeps_await : keeps.
