(* ===== verification/Pool.v ===== *)
(** * Calls that overlap

    Programs of [Async] that run at the same time on one state: a call runs up to
    its first wait, and the answer to a wait runs it up to the next one.  [pool_step]
    is one turn of the event loop.

    A flag that programs set while they are busy and reset at their end is never
    left set: [flag_has_owner] shows this for programs that set it only in front of
    a [try] whose [finally] resets it. *)

From Stdlib Require Import ZArith.
From stdpp Require Import base strings option list.
From S2P Require Import Prelude JsString Async.

#[local] Open Scope Z_scope.

Section Pool.
Context {State : Type} {Eff : Type -> Type} {A : Type}.
Abbreviation prog := (@Async.prog State Eff).

(** Synchronous code, up to the next wait or the end *)
Fixpoint segment (t : Z) (s : State) (p : prog A) : State * prog A :=
  match p with
  | Get k => segment t s (k t s)
  | Put s' p => segment t s' p
  | _ => (s, p)
  end.

(** A call, and the answer to the wait of the [i]-th call; [answer] gives an answer
    to every effect *)
Inductive PoolEvent :=
| Call (t : Z) (p : prog A)
| Resume (t : Z) (i : nat) (answer : forall R, Eff R -> outcome jsstr R).

Definition pool_step (c : State * list (prog A)) (e : PoolEvent) : State * list (prog A) :=
  match e with
  | Call t p => let '(s, p') := segment t c.1 p in (s, c.2 ++ [p'])
  | Resume t i answer =>
    match c.2 !! i with
    | Some (Await e k) => let '(s, p') := segment t c.1 (k (answer _ e)) in (s, <[i := p']> c.2)
    | _ => c
    end
  end.

Definition is_done (p : prog A) : bool := match p with Ret _ | Raise _ => true | _ => false end.

(** A piece of a program that keeps an invariant *)
Lemma segment_keeps (I : State -> Prop) t s (p : prog A) : keeps I p -> I s -> I (segment t s p).1 /\ keeps I (segment t s p).2.
Proof. revert s. induction p as [a|m|k IH|s1 p IH|R e k IH]; intros s Hp Hs; cbn in *; auto. destruct Hp. auto. Qed.

(* ------------------------------------------------------------------ *)
(** ** Flags *)

Context (flag : State -> bool).

(** Whatever the others do, the program ends with the flag reset *)
Definition frees (p : prog A) (s : State) : Prop := wp (fun _ _ => True) p (fun _ s' => flag s' = false) s.

(** A call that waits and will reset the flag *)
Definition owner (p : prog A) : Prop :=
  match p with Await e k => forall r s, frees (k r) s | _ => False end.

(** A piece of the program that began with the flag at [b] leaves it set only if it
    was set or the program is its owner then *)
Fixpoint tame (b : bool) (p : prog A) (s : State) : Prop :=
  match p with
  | Ret _ | Raise _ => flag s = true -> b = true
  | Get k => forall t, tame b (k t s) s
  | Put s' p => tame b p s'
  | Await e k => (flag s = true -> b = true \/ owner (Await e k)) /\ forall r s', tame (flag s') (k r) s'
  end.

Definition waits_tamely (p : prog A) : Prop :=
  match p with Await e k => forall r s, tame (flag s) (k r) s | _ => True end.

Definition owned (c : State * list (prog A)) : Prop :=
  (flag c.1 = true -> exists p, p ∈ c.2 /\ owner p) /\ Forall waits_tamely c.2.

Lemma segment_tame b t s p :
  tame b p s -> let '(s', p') := segment t s p in (flag s' = true -> b = true \/ owner p') /\ waits_tamely p'.
Proof.
  revert s. induction p as [a|m|k IH|s1 p IH|R e k IH]; intros s; cbn [tame segment].
  - intros H. split; [|done]. auto.
  - intros H. split; [|done]. auto.
  - intros H. apply IH, H.
  - apply IH.
  - intros [H1 H2]. split; [exact H1|exact H2].
Qed.

Lemma segment_frees t s p : frees p s -> let '(s', p') := segment t s p in flag s' = true -> owner p'.
Proof.
  unfold frees. revert s. induction p as [a|m|k IH|s1 p IH|R e k IH]; intros s; cbn [wp segment].
  - intros H H'. congruence.
  - intros H H'. congruence.
  - intros H. apply IH, H.
  - apply IH.
  - intros H _ r s'. by apply (H r s').
Qed.

(** Calls that are tame from every state *)
Definition tame_event (e : PoolEvent) : Prop := match e with Call _ p => forall s, tame (flag s) p s | Resume _ _ _ => True end.

Lemma pool_step_owned c e : tame_event e -> owned c -> owned (pool_step c e).
Proof.
  intros He [Hf Hw]. destruct c as [s ps]. cbn [fst snd] in *. destruct e as [t p|t i answer]; cbn [pool_step fst snd].
  - pose proof (segment_tame _ t s p (He s)) as H. destruct (segment t s p) as [s' p']. destruct H as [H1 H2]. split; cbn [fst snd].
    + intros [Hb|Ho]%H1; [destruct (Hf Hb) as (q & Hq & Hoq); exists q; split; [apply elem_of_app; by left|done]|].
      exists p'. split; [apply elem_of_app; right; left|done].
    + apply Forall_app. split; [done|]. by constructor.
  - destruct (ps !! i) as [[a|m|k|s1 p|R e k]|] eqn:Ei; try (split; done).
    pose proof (proj1 (Forall_lookup _ _) Hw i _ Ei) as Ht. cbn in Ht. specialize (Ht (answer R e) s).
    pose proof (segment_tame _ t s _ Ht) as H. pose proof (segment_frees t s (k (answer R e))) as Hfr.
    destruct (segment t s (k (answer R e))) as [s' p']. destruct H as [H1 H2]. pose proof (lookup_lt_Some _ _ _ Ei) as Hi. split; cbn [fst snd].
    + intros Hs'. assert (owner p' \/ flag s = true) as [Ho|Hb] by (destruct (H1 Hs'); auto).
      { exists p'. split; [|done]. by apply list_elem_of_insert. }
      destruct (Hf Hb) as (q & Hq & Hoq). apply list_elem_of_lookup in Hq as [j Hj]. destruct (decide (i = j)) as [Hij|Hij].
      * subst j. assert (Some q = Some (Await e k)) as [= ->] by exact (eq_trans (eq_sym Hj) Ei). exists p'. split; [by apply list_elem_of_insert|]. apply Hfr; [|done]. apply Hoq.
      * exists q. split; [|done]. apply list_elem_of_lookup. exists j. by rewrite list_lookup_insert_ne.
    + by apply Forall_insert.
Qed.

(** When a flag is set, a call that will reset it is on its way *)
Lemma flag_has_owner s events :
  flag s = false -> Forall tame_event events -> owned (foldl pool_step (s, []) events).
Proof.
  intros Hs He. assert (owned (s, [])) as H by (split; [cbn; congruence|constructor]). revert H. generalize (s, @nil (prog A)).
  induction He as [|e es He Hes IH]; intros c Hc; [done|]. apply IH. by apply pool_step_owned.
Qed.

(** *** Rules *)

(** Programs that never change the flag *)
Fixpoint quiet {B} (p : prog B) (s : State) : Prop :=
  match p with
  | Ret _ | Raise _ => True
  | Get k => forall t, quiet (k t s) s
  | Put s' p => flag s' = flag s /\ quiet p s'
  | Await e k => forall r s', quiet (k r) s'
  end.

Lemma tame_quiet_bind {B} b (p : prog B) (f : B -> prog A) s :
  flag s = b -> quiet p s -> (forall a s, tame (flag s) (f a) s) -> tame b (bind p f) s.
Proof.
  intros <- Hq Hf. revert s Hq. induction p as [a|m|k IH|s1 p IH|R e k IH]; intros s Hq; cbn in *; auto.
  destruct Hq as [Hs Hq]. rewrite <- Hs. by apply IH.
Qed.

Lemma tame_quiet (p : prog A) s : quiet p s -> tame (flag s) p s.
Proof.
  revert s. induction p as [a|m|k IH|s1 p IH|R e k IH]; intros s Hq; cbn in *; auto. destruct Hq as [Hs Hq]. rewrite <- Hs. by apply IH.
Qed.

(** [finally] resets the flag, whatever comes before *)
Lemma finally_frees (p : prog A) f s : (forall t s, flag (f t s) = false) -> frees (finally p (modify f)) s.
Proof.
  intros Hf. apply wp_finally. apply (wp_mono _ _ (fun _ _ => True)).
  - intros o s' _. apply wp_modify. intros t. apply Hf.
  - revert s. induction p as [a|m|k IH|s1 p IH|R e k IH]; intros s; cbn; auto.
Qed.

Lemma finally_tame b (p : prog A) f s : (forall t s, flag (f t s) = false) -> tame b (finally p (modify f)) s.
Proof.
  intros Hf. revert b s. induction p as [a|m|k IH|s1 p IH|R e k IH]; intros b s; cbn; auto.
  - intros t H. rewrite Hf in H. done.
  - intros t H. rewrite Hf in H. done.
  - split; [|auto]. intros _. right. intros r s'. by apply finally_frees.
Qed.
End Pool.

Section QuietRules.
Context {State : Type} {Eff : Type -> Type} (flag : State -> bool).
Abbreviation prog := (@Async.prog State Eff).

Lemma quiet_bind {A B} (p : prog A) (f : A -> prog B) s : quiet flag p s -> (forall a s, quiet flag (f a) s) -> quiet flag (bind p f) s.
Proof. revert s. induction p as [a|m|k IH|s1 p IH|R e k IH]; intros s Hp Hf; cbn in *; auto. destruct Hp. auto. Qed.

Lemma quiet_try {A} (p : prog A) h s : quiet flag p s -> (forall m s, quiet flag (h m) s) -> quiet flag (try_catch p h) s.
Proof. revert s. induction p as [a|m|k IH|s1 p IH|R e k IH]; intros s Hp Hf; cbn in *; auto. destruct Hp. auto. Qed.

Lemma quiet_await {R} (e : Eff R) s : quiet flag (await e) s.
Proof. by intros [|] ?. Qed.

Lemma quiet_modify f s : (forall t s, flag (f t s) = flag s) -> quiet flag (modify f : prog unit) s.
Proof. intros H t. split; [apply H|done]. Qed.
End QuietRules.

#[export] Hint Resolve quiet_await : keeps.
