(* ===== verification/Bot.v ===== *)
(** * The bot's actions

    What the handlers of [src/livekit/voice-bot.service.ts] share: the state
    they work on, the operations they wait for, and sending messages, speaking,
    alerts of the timer, greeting, and the handlers of the screen analysis.

    Handlers are programs of [Async] over the state of one room.  Operations of
    other services and of the room connection are effects; messages are the
    JSON values that are encoded.  What was sent and spoken is recorded in the
    state, messages when the call is made. *)

From Stdlib Require Import ZArith QArith Lia.
From stdpp Require Import base strings option list.
From S2P Require Import Prelude JsString JsMap Json Records Regex IntentTables Intent Timer Room Stats Memory Diagram Audio Async.

#[local] Open Scope Z_scope.
#[local] Open Scope prog_scope.

(* ------------------------------------------------------------------ *)
(** ** State and effects *)

Inductive Output :=
| Sent (message : json) (destination : option (list jsstr))
| Played (frame : list Z)
| Embedded (s : Statement)
| OnTimeline (text userId : jsstr)
| ToPerplexity (userId text : jsstr).

(** One room: its context, whether it is registered in [activeRooms], its lock,
    the timers, and what was sent and handed to other services *)
Record Bot := mkBot {
  ctx : RoomContext;
  active : bool;
  processingLock : bool;
  timers : Timer.World;
  outs : list Output;
}.

#[export] Instance eta_bot : Eta Bot := fun b => mkBot (ctx b) (active b) (processingLock b) (timers b) (outs b).

Record OpinionReply := mkReply { r_shouldSpeak : bool; r_response : option jsstr; r_evidence : option json }.

Record VoiceIntent := mkVoiceIntent {
  vi_shouldRespond : bool; vi_correctedText : jsstr; vi_searchKeyword : option jsstr; vi_category : option jsstr }.

Record SearchPlan := mkPlan { query : jsstr; plan_category : option jsstr }.

Record RagSource := mkSource { source_text : jsstr; source_speaker : option jsstr }.
Record LlmResult := mkLlm { llm_text : jsstr; searchResults : list json; ragSources : list RagSource }.

Record Decision := mkDecision { tool : jsstr; params : json }.
Record ToolResult := mkTool { tool_results : list json; tool_data : json }.

Record EventResult := mkEvent { ev_success : bool; successCount : Z; ev_json : json }.

Record VisionAnalysis := mkAnalysis { analysisType : jsstr; va_text : jsstr }.

Inductive Eff : Type -> Type :=
| PublishData (message : json) (destination : option (list jsstr)) : Eff unit
| SynthesizePcm (message : jsstr) : Eff Buffer
| Sleep (ms : Z) : Eff unit
| Transcribe (audio : Buffer) : Eff (jsstr * jsstr)
| PerplexityTranscript (userId text : jsstr) : Eff (option jsstr)
| AnswerWithContext (question context topic : jsstr) : Eff jsstr
| SendMessagePure (prompt : jsstr) (maxTokens : Z) : Eff jsstr
| AnalyzeOpinion (text userId : jsstr) : Eff OpinionReply
| ProcessVoiceIntent (transcript : jsstr) : Eff VoiceIntent
| BuildSearchPlan (text : jsstr) : Eff SearchPlan
| SendMessage (text : jsstr) (domain : option SearchDomain) : Eff (option LlmResult)
| SendMessageFailsFirst : Eff bool
| SendMessageRest : Eff LlmResult
| GetRouteInfo (result : json) : Eff (option json)
| Decide (text : jsstr) (history : list ConversationTurn) (screen : jsstr) : Eff Decision
| ExecuteTool (d : Decision) (text : jsstr) : Eff ToolResult
| GenerateResponse (text : jsstr) (d : Decision) (r : ToolResult) (history : list ConversationTurn) (screen : jsstr) : Eff jsstr
| FindCommonFreeSlots (userIds : list jsstr) : Eff (list jsstr)
| AddEventToUsers (userIds : list jsstr) (title date time : jsstr) : Eff EventResult
| RagQuestion (question : jsstr) : Eff (option jsstr)
| AnalyzeScreen (image question : jsstr) : Eff VisionAnalysis
| RagSources (question : jsstr) : Eff (list RagSource)
| TimesOut (ms : Z) : Eff bool
| PerplexityReport (message : json) : Eff (option (json * option jsstr))
| ImportModule : Eff unit
| RagDisconnect : Eff unit
| RoomDisconnect : Eff unit.

Abbreviation program := (prog (State := Bot) (Eff := Eff)).

Definition upd (f : RoomContext -> RoomContext) : program unit := modify (fun _ b => b <| ctx := f (ctx b) |>).
Definition upd_t (f : Z -> RoomContext -> RoomContext) : program unit := modify (fun t b => b <| ctx := f t (ctx b) |>).
Definition room : program RoomContext := b <- get ;; Ret (ctx b).
Definition emit (o : Output) : program unit := modify (fun _ b => b <| outs := outs b ++ [o] |>).
Definition when (c : bool) (p : program unit) : program unit := if c then p else Ret tt.

Definition jobj (fields : list (string * json)) : json := JObj ((fun f => (js f.1, f.2)) <$> fields).
Definition jtime (t : Z) : json := JNum (inject_Z t).
Definition jstr (s : string) : json := JStr (js s).

(** [await room.localParticipant.publishData(encode(message), {destination})] *)
Definition publish (message : json) (destination : option (list jsstr)) : program unit :=
  emit (Sent message destination) ;;; await (PublishData message destination).

(* ------------------------------------------------------------------ *)
(** ** Messages and speech *)

Definition state_message (state : string) (transcript response : option jsstr) (t : Z) : json :=
  JObj ([(js "type", jstr "AI_STATE"); (js "state", jstr state)]
        ++ opt_field "transcript" (JStr <$> transcript) ++ opt_field "response" (JStr <$> response)
        ++ [(js "timestamp", jtime t)]).

Definition broadcastAiState (state : string) (transcript response : option jsstr) : program unit :=
  b <- get ;;
  if active b then t <- now ;; publish (state_message state transcript response t) None else Ret tt.

(** [this.broadcastAiState(roomId, state, {transcript}).catch(() => {})], which is
    not waited for *)
Definition announce (state : string) (transcript : jsstr) : program unit :=
  b <- get ;;
  if active b then t <- now ;; emit (Sent (state_message state (Some transcript) None t) None) else Ret tt.

Definition sendTextCardToHost (message : jsstr) : program unit :=
  c <- room ;;
  if has_hosts c then
    t <- now ;;
    publish (jobj [("type", jstr "AI_TEXT_RESPONSE"); ("text", JStr message); ("timestamp", jtime t)]) (Some (hostIdentities c))
  else Ret tt.

(** [publishAudio]: the frames one after the other, each after a wait, until all
    are sent or the bot is interrupted *)
Fixpoint send_frames (index : nat) (startTime : Z) (frames : list (list Z)) : program unit :=
  b <- get ;;
  if active b && shouldInterrupt (ctx b) then upd (fun c => c <| shouldInterrupt := false |>)
  else match frames with
       | [] => Ret tt
       | f :: rest =>
         emit (Played f) ;;;
         match rest with
         | [] => Ret tt
         | _ => t <- now ;; await (Sleep (nextDelay (S index) startTime t)) ;;; send_frames (S index) startTime rest
         end
       end.

Definition publishAudio (pcm : Buffer) : program unit :=
  t <- now ;; send_frames 0 t (pcm_frames pcm).

(** The silent variants of [speakAndPublish].  The return to the idle state after
    the reading time is a separate event. *)
Definition show_text (message : jsstr) : program unit :=
  broadcastAiState "speaking" None (Some message) ;;; sendTextCardToHost message.

(** [options.skipTextCard] is only read in a branch that is never reached: it
    requires that speaking is disabled after the case in which it is has
    returned. *)
Definition speakAndPublish (requestId : Z) (message : jsstr) : program unit :=
  c <- room ;;
  if aiMuted c then Ret tt
  else if negb (speakingEnabled c) then show_text message
  else
    pcm <- await (SynthesizePcm message) ;;
    upd_t (fun t c => c <| speakingStartTime := t |>) ;;;
    c <- room ;;
    if negb (currentRequestId c =? requestId) && negb (currentRequestId c =? 0) then Ret tt
    else
      upd (fun c => c <| shouldInterrupt := false |>) ;;;
      broadcastAiState "speaking" None (Some message) ;;;
      publishAudio pcm ;;;
      broadcastAiState "idle" None None.

Definition set_state (s : BotState) : program unit := upd (fun c => c <| botState := s |>).
Definition responded : program unit := upd_t (fun t c => c <| lastResponseTime := t |>).

(** The state while and after a spoken answer *)
Definition speak_then (after : BotState) (requestId : Z) (message : jsstr) : program unit :=
  set_state SPEAKING ;;; speakAndPublish requestId message ;;; set_state after ;;; responded.

Definition greetOnJoin : program unit :=
  b <- get ;;
  if negb (active b) then Ret tt
  else if aiMuted (ctx b) then Ret tt
  else
    let greeting := if isContinuedMeeting (ctx b) then js "안녕하세요! 아우라예요. 이전 회의 액션 아이템을 확인해주세요."
                    else js "안녕하세요. 아우라에요. 회의 시작할게요." in
    try_catch
      (set_state SPEAKING ;;;
       pcm <- await (SynthesizePcm greeting) ;;
       match pcm with [] => Ret tt | _ => publishAudio pcm end ;;;
       set_state SLEEP ;;; responded)
      (fun _ => set_state SLEEP).

(* ------------------------------------------------------------------ *)
(** ** The timer *)

Definition timer_fields (t : TimerData) : json :=
  jobj [("targetMinutes", jtime (targetMinutes t)); ("warningMinutes", jtime (warningMinutes t));
        ("remainingSeconds", jtime (remainingSeconds t)); ("timerState", JStr (state_name (timerState t)))].

(** The callback given to [setTimerNotifyCallback], for the bot's room *)
Definition timer_notification (e : TimerEvent) (data : TimerData) : program unit :=
  b <- get ;;
  if negb (active b) then Ret tt
  else
    try_catch
      (publish (jobj [("type", jstr "TIMER_ALERT"); ("event", jstr (match e with ev_warning => "warning" | ev_ended => "ended" end));
                      ("data", timer_fields data)]) None ;;;
       c <- room ;;
       if aiMuted c then Ret tt
       else
         let message := match e with
           | ev_warning => js "회의 종료 " ++ js_of_Z (warningMinutes data) ++ js "분 전입니다."
           | ev_ended => js "회의 시간이 종료되었습니다."
           end in
         upd (fun c => c <| currentRequestId := currentRequestId c + 1 |>) ;;;
         c <- room ;;
         set_state SPEAKING ;;;
         speakAndPublish (currentRequestId c) message ;;;
         set_state ARMED)
      (fun _ => Ret tt).

(** A call of the timer module *)
Definition timer_call (f : Z -> Timer.World -> option TimerData * Timer.World) : program (option TimerData) :=
  Get (fun t b => let '(r, w) := f t (timers b) in Put (b <| timers := w |>) (Ret r)).

Definition timer_update (action : jsstr) (result : option TimerData) : json :=
  jobj [("type", jstr "TIMER_UPDATE"); ("action", JStr action);
        ("data", match result with Some t => timer_fields t | None => JNull end)].

(** [Math.max(1, Math.floor(minutes * 0.15))] *)
Definition default_warning (minutes : Z) : Z := Z.max 1 (math_floor (inject_Z minutes * (15 # 100))%Q).

(** [handleTimerCommand], the command of a client; [None] for an unknown action *)
Definition run_timer_command (roomId action : jsstr) (minutes warningMinutes : option Z) : option (program (option TimerData)) :=
  if decide (action = js "start") then
    let target := or_default minutes 30 in
    let warn := or_default warningMinutes (default_warning target) in
    Some (timer_call (fun t w => let '(d, w) := startTimer roomId target warn t w in (Some d, w)))
  else if decide (action = js "pause") then Some (timer_call (fun _ w => pauseTimer roomId w))
  else if decide (action = js "resume") then Some (timer_call (fun t w => resumeTimer roomId t w))
  else if decide (action = js "extend") then Some (timer_call (fun t w => extendTimer roomId (or_default minutes 10) t w))
  else if decide (action = js "stop") then Some (timer_call (fun _ w => stopTimer roomId w))
  else if decide (action = js "status") then Some (timer_call (fun _ w => (getTimerStatus roomId w, w)))
  else None.

Definition handleTimerCommand (roomId action : jsstr) (minutes warningMinutes : option Z) : program unit :=
  b <- get ;;
  if negb (active b) then Ret tt
  else
    await ImportModule ;;;
    match run_timer_command roomId action minutes warningMinutes with
    | None => Ret tt
    | Some call => result <- call ;; try_catch (publish (timer_update action result) None) (fun _ => Ret tt)
    end.
