(* ===== verification/Handlers.v ===== *)
(** * Handlers of a room

    Handlers of [src/livekit/voice-bot.service.ts] beside the spoken pipeline:
    the analysis of a shared screen on request, the explanation of generated
    diagrams, questions of a host, opinions, ideas, the armed timeout, standby
    and the end of a bot. *)

From Stdlib Require Import ZArith QArith Lia.
From stdpp Require Import base strings option list.
From S2P Require Import Prelude JsString JsMap Json Records Regex Room Memory Diagram Async Bot.

#[local] Open Scope Z_scope.
#[local] Open Scope prog_scope.

(* ------------------------------------------------------------------ *)
(** ** Screen analysis on request *)

Definition sendVisionCaptureRequest (requestId : Z) (userQuestion userId : jsstr) : program unit :=
  b <- get ;;
  if negb (active b) then Ret tt
  else
    upd (fun c => c <| pendingVisionRequest := Some (mkVision requestId userQuestion userId) |> <| isVisionMode := true |>) ;;;
    t <- now ;;
    publish (jobj [("type", jstr "vision_capture_request"); ("requestId", jtime requestId); ("timestamp", jtime t)]) None.

Definition resetVisionState (c : RoomContext) : RoomContext :=
  c <| botState := SLEEP |> <| isVisionMode := false |> <| pendingVisionRequest := None |>.

(** A request is pending and was made less than ten seconds ago. *)
Definition vision_busy (c : RoomContext) (now : Z) : bool :=
  isVisionMode c && match pendingVisionRequest c with Some r => now - v_requestId r <? 10000 | None => false end.

Definition processVisionIntent (userQuestion userId : jsstr) : program bool :=
  b <- get ;;
  if negb (active b) then Ret false
  else if negb (hasActiveScreenShare (ctx b)) then Ret false
  else
    t <- now ;;
    if vision_busy (ctx b) t then Ret false
    else
      upd (fun c => if isVisionMode c && match pendingVisionRequest c with Some _ => true | None => false end
                    then c <| isVisionMode := false |> <| pendingVisionRequest := None |> else c) ;;;
      sendVisionCaptureRequest t userQuestion userId ;;;
      Ret true.

(** [for (i = 0; i < 20 && locked; i++) await sleep(100)] *)
Fixpoint wait_for_lock (n : nat) : program unit :=
  match n with
  | O => Ret tt
  | S n => b <- get ;; if processingLock b then await (Sleep 100) ;;; wait_for_lock n else Ret tt
  end.

Definition set_lock (l : bool) : program unit := modify (fun _ b => b <| processingLock := l |>).

Definition publishing (on : bool) : program unit :=
  upd_t (fun t c => c <| isPublishing := on |> <| publishingStartTime := if on then t else 0 |>).

Section Vision.
(** [visionService.validateAndCompressImage]; [None] for an invalid image *)
Context (validateImage : jsstr -> option jsstr).

Definition vision_answer (requestId : Z) (image question : jsstr) (random : Q) : program unit :=
  match validateImage image with
  | None => speakAndPublish requestId (js "화면을 캡처하는데 문제가 있어요. 다시 한번 말씀해주세요.")
  | Some compressed =>
    upd_t (fun t c => c <| botState := SPEAKING |> <| speakingStartTime := t |>) ;;;
    c <- room ;;
    when (negb (hostOnlyMode c))
      (let phrases := js <$> ["잠깐 볼게요~"; "한번 볼게요"; "잠깐만요~"] in
       speakAndPublish requestId (default [] (phrases !! Z.to_nat (math_floor (random * 3)%Q)))) ;;;
    result <- await (AnalyzeScreen compressed question) ;;
    publish (jobj [("type", jstr "vision_result"); ("requestId", jtime requestId);
                   ("analysisType", JStr (analysisType result)); ("text", JStr (va_text result))]) None ;;;
    speakAndPublish requestId (va_text result)
  end.

Definition vision_cleanup : program unit :=
  upd resetVisionState ;;;
  upd_t (fun t c => c <| lastResponseTime := t |> <| lastSpeechTime := t |> <| isPublishing := false |> <| publishingStartTime := 0 |>) ;;;
  set_lock false.

Definition handleVisionCaptureResponse (messageRequestId : Z) (image : jsstr) (random : Q) : program unit :=
  b <- get ;;
  match (if active b then pendingVisionRequest (ctx b) else None) with
  | None => Ret tt
  | Some r =>
    let requestId := v_requestId r in
    if negb (messageRequestId =? requestId) then Ret tt
    else
      wait_for_lock 20 ;;;
      b <- get ;;
      if processingLock b then upd resetVisionState
      else
        set_lock true ;;; publishing true ;;;
        upd (fun c => c <| currentRequestId := requestId |>) ;;;
        finally
          (try_catch (vision_answer requestId image (v_userQuestion r) random)
             (fun _ => try_catch (speakAndPublish requestId (js "화면 분석 중에 문제가 생겼어요. 다시 한번 해볼게요."))
                         (fun _ => Ret tt)))
          vision_cleanup
  end.
End Vision.

(* ------------------------------------------------------------------ *)
(** ** Generated diagrams *)

Definition typeLabel (type : jsstr) : jsstr :=
  if decide (type = js "flowchart") then js "플로우차트"
  else if decide (type = js "erd") then js "ERD"
  else if decide (type = js "sequence") then js "시퀀스 다이어그램"
  else if decide (type = js "architecture") then js "아키텍처 다이어그램"
  else type.

Definition explain_prompt (type code : jsstr) : jsstr :=
  lines [
    js "다음 " ++ typeLabel type ++ js " 다이어그램을 2문장으로 아주 간결하게 설명해주세요. 기술적인 내용 위주로 말해주세요.";
    [];
    js "다이어그램 코드:";
    slice_to 500 code;
    [];
    js "설명:"].

Definition explain_message (labels explanation : jsstr) : jsstr :=
  js "회의 내용을 분석해서 " ++ labels ++ js "를 생성했어요."
  ++ match trim explanation with [] => [] | e => js " " ++ e end
  ++ js " 다이어그램에 대해 더 궁금한 게 있으시면 질문해주세요.".

(** [types] has at least one element. *)
Definition explainGeneratedDiagrams (types : list jsstr) (mermaidCodes : jsmap jsstr jsstr) : program unit :=
  b <- get ;;
  if negb (active b) || negb (designModeActive (ctx b)) then Ret tt
  else if isPublishing (ctx b) then Ret tt
  else
    requestId <- now ;;
    upd (fun c => c <| currentRequestId := requestId |>) ;;;
    finally
      (try_catch
         (publishing true ;;; set_state SPEAKING ;;;
          let first := default [] (head types) in
          explanation <- match map_get mermaidCodes first with
                         | Some ((_ :: _) as code) => await (SendMessagePure (explain_prompt first code) 150)
                         | _ => Ret []
                         end ;;
          speakAndPublish requestId (explain_message (join (js ", ") (typeLabel <$> types)) explanation) ;;;
          set_state ARMED ;;; responded)
         (fun _ => Ret tt))
      (publishing false).

(* ------------------------------------------------------------------ *)
(** ** Questions of a host, opinions, ideas *)

Definition processHostQuery (question hostIdentity : jsstr) : program unit :=
  b <- get ;;
  if negb (active b) then Ret tt
  else
    try_catch
      (answer <- await (RagQuestion question) ;;
       match answer with
       | Some ((_ :: _) as a) => sendTextCardToHost a
       | _ =>
         a <- await (SendMessagePure (js "질문: " ++ question ++ nl ++ nl ++ js "간결하고 명확하게 한국어로 답변해주세요.") 500) ;;
         sendTextCardToHost a
       end ;;;
       upd_t (fun t c => push_host_query c question hostIdentity t))
      (fun _ => sendTextCardToHost (js "죄송해요, 잠시 문제가 생겼어요.")).

Section Opinion.
(** [opinionService.isEnabled()] *)
Context (opinions_enabled : bool).

Definition checkAndOfferOpinion (requestId : Z) (currentText userId : jsstr) : program bool :=
  if negb opinions_enabled then Ret false
  else
    c <- room ;;
    let context := buildConversationContext (conversationHistory c) currentText in
    if (length context <? 20)%nat then Ret false
    else
      try_catch
        (result <- await (AnalyzeOpinion context userId) ;;
         match r_shouldSpeak result, r_response result with
         | true, Some ((_ :: _) as response) =>
           speak_then SLEEP requestId response ;;;
           match r_evidence result with Some e => publish e None | None => Ret tt end ;;;
           Ret true
         | _, _ => Ret false
         end)
        (fun _ => Ret false).
End Opinion.

Definition skipPatterns : regex :=
  re_i (js "^(안녕|네|응|어|음|아|예|오케이|ㅇㅇ|ㅋ+|하하|그래|알겠|뭐지|뭐야|아아|으으|에에)[\.\?\!]?$").

Definition extractIdeaContent (transcript : jsstr) : jsstr :=
  let text := trim transcript in
  let text := replace_all (re_i (js "^(아우라야?|아우라|오라야?)\s*")) [] text in
  let text := replace_all (re (js "[\?\!\.]+$")) [] text in
  let text := replace_all (re (js "(은|는)?\s*(어때|어떨까|어떨까요|어때요|좋을까|좋겠다|하면|해볼까|해보자|하자)\s*$")) [] text in
  let text := replace_all (re (js "\s*(아이디어|생각|의견)\s*$")) [] text in
  let text := replace_all (re (js "^(그|저|이|그러면|아|어|음|근데|그래서|그런데)\s+")) [] text in
  let text := replace_all (re (js "\s+(을|를|이|가|은|는|의|에|로|으로)\s*$")) [] text in
  trim text.

Example extractIdeaContent_ex :
  extractIdeaContent (js "아우라야 다크모드를 추가하면 어떨까?") = js "다크모드를 추가하면" /\
  extractIdeaContent (js "근데 알림 기능 아이디어") = js "알림 기능".
Proof. vm_compute. split; reflexivity. Qed.

(** The content of the note, when there is to be one *)
Definition idea_of (transcript : jsstr) : option jsstr :=
  if (length transcript <=? 3)%nat then None
  else if test skipPatterns (trim transcript) then None
  else let content := extractIdeaContent transcript in
       if (length content <? 2)%nat then None else Some (slice_to 15 content).

(** The random part of the identifier is an argument. *)
Definition detectAndBroadcastIdea (transcript userId suffix : jsstr) : program unit :=
  match idea_of transcript with
  | None => Ret tt
  | Some content =>
    t <- now ;;
    publish (jobj [("type", jstr "NEW_IDEA");
                   ("idea", jobj [("id", JStr (js "idea-" ++ js_of_Z t ++ js "-" ++ suffix)); ("content", JStr content);
                                  ("author", JStr (match userId with [] => js "익명" | u => u end))])]) None
  end.

(* ------------------------------------------------------------------ *)
(** ** Reports of the Perplexity mode *)

(** The answer of the session to a message: an action, with a text or without *)
Definition perplexity_action (action : json) (response : option jsstr) : program unit :=
  t <- now ;;
  publish (jobj [("type", jstr "ACTION"); ("payload", action); ("senderId", jstr "ai-bot"); ("timestamp", jtime t)]) None ;;;
  match response with
  | Some ((_ :: _) as text) =>
    upd (fun c => c <| currentRequestId := currentRequestId c + 1 |>) ;;;
    c <- room ;;
    publishing true ;;; set_state SPEAKING ;;;
    finally (speakAndPublish (currentRequestId c) text) (publishing false ;;; set_state SLEEP)
  | _ => Ret tt
  end.

Definition is_transcript (message : json) : bool := match prop message (js "type") with Some (JStr t) => bool_decide (t = js "TRANSCRIPT") | _ => false end.

Definition handlePerplexityMessage (message : json) : program unit :=
  b <- get ;;
  if negb (active b) || negb (perplexityModeActive (ctx b)) then Ret tt
  else
    let isSpeakingOrPublishing := bool_decide (botState (ctx b) = SPEAKING) || isPublishing (ctx b) in
    if isSpeakingOrPublishing && negb (is_transcript message) then Ret tt
    else
      try_catch
        (result <- await (PerplexityReport message) ;;
         if isSpeakingOrPublishing then Ret tt
         else match result with
              | Some (action, response) => perplexity_action action response
              | None => Ret tt
              end)
        (fun _ => publishing false).

(* ------------------------------------------------------------------ *)
(** ** The life of a bot *)

(** One tick of [startArmedTimeoutChecker] *)
Definition armed_timeout_tick (c : RoomContext) (now : Z) : RoomContext :=
  if bool_decide (botState c = ARMED) && (ARMED_TIMEOUT_MS <? now - lastInteractionTime c)
  then c <| botState := SLEEP |> <| activeUserId := None |> else c.

Definition enterStandbyMode : program unit :=
  b <- get ;;
  if negb (active b) then Ret tt
  else if standbyMode (ctx b) then Ret tt
  else upd (fun c =>
    let p := proactiveAnalysis c in
    c <| standbyMode := true |> <| statsUpdateInterval := false |>
      <| proactiveAnalysis := mkProactive (pa_enabled p) (lastAnalysisTime p) (lastScreenTextHash p) (lastConversationHash p) false |>
      <| botState := SLEEP |>).

Definition stopBot : program unit :=
  b <- get ;;
  if active b then
    try_catch (await RagDisconnect) (fun _ => Ret tt) ;;;
    await RoomDisconnect ;;;
    modify (fun _ b => b <| active := false |>)
  else Ret tt.
