(* ===== verification/Respond.v ===== *)
(** * The spoken pipeline

    [processAndRespond] of [src/livekit/voice-bot.service.ts] and what it calls:
    an utterance is transcribed, recorded, classified and answered.  The
    handler runs once per utterance; several run at the same time on the
    context of the room.

    The intent classifier is that of [Intent], the timers are those of
    [Timer].  The participants of the room, the formatting of dates and the
    draws of [Math.random] are arguments.  The copy of the audio on disk for
    debugging is left out.

    While the language model is asked, a phrase is spoken when the answer takes
    more than 700 ms ([thinkingTask]).  When the request fails before the phrase
    is over the handler goes on and the rest of the phrase runs beside it, like
    the other handlers of the room; otherwise the answer is awaited after the
    phrase. *)

From Stdlib Require Import ZArith QArith Lia.
From stdpp Require Import base strings option list.
From S2P Require Import Prelude JsString JsMap Json Records Regex IntentTables Intent Timer Room Stats Memory Diagram Audio Async Bot Handlers.

#[local] Open Scope Z_scope.
#[local] Open Scope prog_scope.

Definition RESPONSE_COOLDOWN_MS : Z := 3000.

(* ------------------------------------------------------------------ *)
(** ** Texts *)

Definition category_text (c : option Category) : option jsstr := category_name <$> c.

Definition ambiguousPatterns : list regex := re <$> [
  js "전에|아까|방금|이전|지난번|저번"; js "그거|그게|이거|저거"; js "했(던|었|는)|말(했|한)"; js "뭐라고|뭐라|뭔가"].

Definition plainCategories : list jsstr := js <$> ["날씨"; "맛집"; "카페"; "술집"; "뉴스"; "주식"; "스포츠"].

Definition long_keyword (k : option jsstr) (n : nat) : bool := match k with Some k => (n <=? length k)%nat | None => false end.

Definition shouldUseAgentMode (text : jsstr) (i : IntentAnalysis) : bool :=
  if existsb (fun p => test p text) ambiguousPatterns then true
  else if match category_text (category i) with Some c => bool_decide (c ∈ plainCategories) | None => false end then false
  else if hasCommandWord i then false
  else if long_keyword (extractedKeyword i) 3 then false
  else negb (is_some (category i)) && negb (long_keyword (extractedKeyword i) 1).

Definition phrases_for (category : option jsstr) : list jsstr :=
  let c := default [] category in
  js <$> (if decide (c = js "날씨") then ["어 잠깐만요~"; "날씨 볼게요~"]
          else if decide (c ∈ js <$> ["카페"; "맛집"; "술집"; "분식"; "치킨"; "피자"; "빵집"; "디저트"; "쇼핑"])
          then ["어디 좋을까... 잠깐만요"; "음 찾아볼게요~"; "어 잠깐요~"]
          else if decide (c ∈ js <$> ["뉴스"; "주식"; "스포츠"]) then ["어 잠깐 볼게요~"; "음..."]
          else if decide (c = js "백과") then ["음 그거..."; "어 잠깐만요~"]
          else ["음..."; "어 잠깐요~"; "잠깐만요~"]).

(** [l[Math.floor(Math.random() * l.length)]] *)
Definition pick (l : list jsstr) (random : Q) : jsstr :=
  default [] (l !! Z.to_nat (math_floor (random * inject_Z (Z.of_nat (length l)))%Q)).

Definition timelineTranscript (raw : jsstr) : jsstr :=
  let t := replace_all (re_i (js "아우라(야|나|요)?")) [] raw in
  let t := replace_all (re_i (js "오우라(야)?")) [] t in
  let t := replace_all (re_i (js "어우라(야)?")) [] t in
  let t := replace_all (re_i (js "헤이\s*아우라")) [] t in
  trim (replace_all (re (js "\s+")) (js " ") t).

(** [(audioBuffer.length / (16000 * 2)) * 1000] *)
Definition audio_ms (audio : Buffer) : Q := (inject_Z (Z.of_nat (length audio)) / 32000 * 1000)%Q.

Definition has_stop_word (i : IntentAnalysis) : bool :=
  existsb (fun w => includes (to_lower (normalizedText i)) (to_lower w)) STOP_WORDS.

(** A question or a command *)
Definition is_request (i : IntentAnalysis) (searchKeyword : option jsstr) : bool :=
  isQuestionIntent i || hasCommandWord i || hasRequestPattern i || long_keyword searchKeyword 2.

(* ------------------------------------------------------------------ *)
(** ** The timer by voice *)

Definition voice_timer_call (roomId : jsstr) (t : TimerIntent) : program (option TimerData) :=
  match timerAction t with
  | start => let target := or_default (timerMinutes t) 30 in
             timer_call (fun now w => let '(d, w) := startTimer roomId target (default_warning target) now w in (Some d, w))
  | pause => timer_call (fun _ w => pauseTimer roomId w)
  | resume => timer_call (fun now w => resumeTimer roomId now w)
  | extend => timer_call (fun now w => extendTimer roomId (or_default (timerMinutes t) 10) now w)
  | stop => timer_call (fun _ w => stopTimer roomId w)
  | status => timer_call (fun _ w => (getTimerStatus roomId w, w))
  end.

Definition voice_timer_message (t : TimerIntent) (r : option TimerData) : jsstr :=
  match timerAction t with
  | start => let target := or_default (timerMinutes t) 30 in
             js_of_Z target ++ js "분 타이머를 시작합니다. " ++ js_of_Z (default_warning target) ++ js "분 전에 알림을 드릴게요."
  | pause => when_some r (js "타이머를 일시정지했습니다.") (js "실행 중인 타이머가 없습니다.")
  | resume => when_some r (js "타이머를 재개합니다.") (js "일시정지된 타이머가 없습니다.")
  | extend => when_some r (js_of_Z (or_default (timerMinutes t) 10) ++ js "분 연장했습니다.") (js "타이머가 없습니다.")
  | stop => when_some r (js "타이머를 중지했습니다.") (js "타이머가 없습니다.")
  | status => match r with
              | Some d => js "현재 " ++ js_of_Z (remainingSeconds d / 60) ++ js "분 " ++ js_of_Z (Z.rem (remainingSeconds d) 60) ++ js "초 남았습니다."
              | None => js "설정된 타이머가 없습니다."
              end
  end.

Definition timer_branch (roomId : jsstr) (requestId : Z) (t : TimerIntent) : program unit :=
  try_catch
    (await ImportModule ;;;
     result <- voice_timer_call roomId t ;;
     publish (timer_update (timer_action_name (timerAction t)) result) None ;;;
     speak_then ARMED requestId (voice_timer_message t result))
    (fun _ => speakAndPublish requestId (js "타이머 처리 중 오류가 발생했습니다.") ;;; set_state ARMED).

(* ------------------------------------------------------------------ *)
(** ** The calendar by voice *)

(** Formats of the runtime; the first throws for a text that is no date *)
Record DateFormats := mkFormats {
  isoDate : jsstr -> outcome jsstr jsstr;
  timeText : jsstr -> jsstr;
  localeDate : jsstr -> jsstr;
  localeClock : jsstr -> jsstr;
}.

Definition is_bot (identity : jsstr) : bool := starts_with identity (js "ai-bot").

(** [userIds]: the participants and the bot's own identity *)
Definition calendar_users (remote : list jsstr) (own : jsstr) : list jsstr :=
  let participants := List.filter (fun p => negb (is_bot p)) remote ++ [own] in
  List.filter (fun p => negb (length p =? 0)%nat && negb (is_bot p)) participants.

Definition first_part (identity : jsstr) : jsstr := default [] (head (split_char 95 identity)).

Definition lift {A} (o : outcome jsstr A) : program A := match o with Return a => Ret a | Throw m => Raise m end.

Definition calendar_branch (formats : DateFormats) (remote : list jsstr) (own : jsstr) (requestId : Z) : program unit :=
  try_catch
    (let users := calendar_users remote own in
     let count := js_of_Z (Z.of_nat (length users)) in
     let userIds := first_part <$> users in
     set_state SPEAKING ;;;
     speakAndPublish requestId (count ++ js "명의 참여자 일정을 분석하고 일정을 생성하겠습니다.") ;;;
     slots <- await (FindCommonFreeSlots userIds) ;;
     match slots with
     | [] =>
       speakAndPublish requestId (count ++ js "명의 일정을 확인했지만, 공통으로 비어 있는 시간을 찾지 못했습니다.") ;;;
       set_state ARMED ;;; responded
     | slot :: _ =>
       date <- lift (isoDate formats slot) ;;
       c <- room ;;
       let topic := match Room.roomTopic c with Some ((_ :: _) as t) => t | _ => js "팀 미팅" end in
       result <- await (AddEventToUsers userIds topic date (timeText formats slot)) ;;
       speakAndPublish requestId
         (if ev_success result then
            localeDate formats slot ++ js " " ++ localeClock formats slot ++ js "에 " ++ dq ++ topic ++ dq ++ js " 일정을 생성했습니다. "
            ++ js_of_Z (successCount result) ++ js "명의 캘린더에 추가되었습니다."
          else js "일정 생성에 실패했습니다. Google 캘린더 연동을 확인해주세요.") ;;;
       set_state ARMED ;;; responded ;;;
       publish (jobj [("type", jstr "CALENDAR_EVENT_CREATED");
                      ("event", jobj [("title", JStr topic); ("date", JStr date); ("time", JStr (timeText formats slot)); ("durationMinutes", JNum 60)]);
                      ("participantCount", jtime (Z.of_nat (length users))); ("result", ev_json result)]) None
     end)
    (fun _ =>
       speakAndPublish requestId (js "죄송합니다. 일정 생성 중 오류가 발생했습니다. Google 캘린더 연동이 필요할 수 있습니다.") ;;;
       set_state ARMED).

(* ------------------------------------------------------------------ *)
(** ** Answers *)

Definition to_sleep : program unit := upd (fun c => c <| botState := SLEEP |> <| activeUserId := None |>).

Definition search_answer (text categoryText : jsstr) (results : list json) : json :=
  jobj [("type", jstr "search_answer"); ("text", JStr text); ("category", JStr categoryText); ("results", JArr results)].

(** [activeRooms], of which a handler sees its own room *)
Definition rooms_of (roomId : jsstr) (b : Bot) : Rooms := if active b then map_set [] roomId (ctx b) else [].

Definition processWithAgent (timeText : Z -> jsstr) (roomId : jsstr) (requestId : Z) (text userId : jsstr) : program unit :=
  try_catch
    (c <- room ;;
     let history := conversationHistory c in
     s <- Get (fun t b => Ret (buildScreenContextPrompt timeText (rooms_of roomId b) roomId t)) ;;
     d <- await (Decide text history s) ;;
     r <- await (ExecuteTool d text) ;;
     response <- await (GenerateResponse text d r history s) ;;
     c <- room ;;
     if negb (currentRequestId c =? requestId) then Ret tt
     else
       upd_t (fun t c => updateConversationHistory c text response userId t) ;;;
       match tool_results r with
       | [] => Ret tt
       | l => publish (search_answer response (if decide (tool d = js "search_local") then js "장소" else js "검색") l) None
       end ;;;
       upd (fun c => c <| shouldInterrupt := false |>) ;;;
       set_state SPEAKING ;;; speakAndPublish requestId response ;;;
       to_sleep ;;; responded)
    (fun _ =>
       set_state SPEAKING ;;;
       speakAndPublish requestId (js "죄송해요, 잠시 문제가 생겼어요.") ;;;
       to_sleep).

Definition documents_message (text : jsstr) (sources : list RagSource) (t : Z) : json :=
  jobj [("type", jstr "AI_DOCUMENT_SHOW"); ("keyword", JStr (slice_to 30 text));
        ("documents", JArr (imap (fun idx src =>
           jobj [("id", JStr (js "doc-" ++ js_of_Z t ++ js "-" ++ js_of_Z (Z.of_nat idx))); ("pageNumber", jtime (Z.of_nat idx + 1));
                 ("content", JStr (source_text src));
                 ("sourceFile", JStr (match source_speaker src with Some ((_ :: _) as p) => p ++ js "의 발언" | _ => js "회의 기록" end));
                 ("relevance", JStr (dq ++ slice_to 20 text ++ js "..." ++ dq ++ js " 질문에 대한 관련 내용"));
                 ("highlights", JArr [jobj [("text", JStr (slice_to 200 (source_text src))); ("color", jstr "#fef08a")]])]) sources))].

(** The messages with the results of a search and with the sources *)
Definition publish_results (text finalResponse : jsstr) (cat : option jsstr) (r : LlmResult) : program unit :=
  match searchResults r with
  | [] => Ret tt
  | primary :: _ =>
    route <- await (GetRouteInfo primary) ;;
    c <- room ;;
    t <- now ;;
    publish (JObj ([(js "type", jstr (if hostOnlyMode c then "AI_TEXT_RESPONSE" else "search_answer")); (js "text", JStr finalResponse);
                    (js "category", match cat with Some x => JStr x | None => JNull end); (js "results", JArr (searchResults r))]
                   ++ opt_field "route" route ++ [(js "timestamp", jtime t)]))
      (if hostOnlyMode c && has_hosts c then Some (hostIdentities c) else None)
  end ;;;
  match ragSources r with
  | [] => Ret tt
  | sources => t <- now ;; publish (documents_message text sources t) None
  end.

(** What remains of [thinkingTask] once the phrase is to be spoken.  A failure of
    the speech is an unhandled rejection when it comes before the answer. *)
Definition thinkingTask (requestId : Z) (phrase : jsstr) : program unit :=
  speakAndPublish requestId phrase ;;; set_state ARMED.

(** The request to the language model.  [None] means no answer within 700 ms,
    which is only noticed when the answers are not for the hosts alone.  The
    result says whether the thinking phrase was spoken. *)
Definition ask_llm (requestId : Z) (text : jsstr) (domain : option SearchDomain) (phrase : jsstr) : program (bool * LlmResult) :=
  c <- room ;;
  first <- await (SendMessage text domain) ;;
  match first with
  | Some r => Ret (false, r)
  | None =>
    if hostOnlyMode c then r <- await SendMessageRest ;; Ret (false, r)
    else
      c <- room ;;
      if negb (currentRequestId c =? requestId) then r <- await SendMessageRest ;; Ret (false, r)
      else
        set_state SPEAKING ;;;
        failed <- await SendMessageFailsFirst ;;
        if failed : bool then Raise (js "LLM")
        else thinkingTask requestId phrase ;;; r <- await SendMessageRest ;; Ret (true, r)
  end.

Definition connectors : list jsstr := js <$> [EmptyString; "아 "; "어 "].

(** What the classifier, or the language model in its place, says of an utterance *)
Record Heard := mkHeard { shouldRespond : bool; processedText : jsstr; searchKeyword : option jsstr; heard_category : option jsstr }.

(** The draws of [Math.random] and what is known of the room's connection *)
Record Ambient := mkAmbient {
  random1 : Q; random2 : Q; suffix : jsstr;
  remoteParticipants : list jsstr; localIdentity : jsstr; participantName_of : jsstr -> jsstr;
  formats : DateFormats; captureTime : Z -> jsstr; opinions : bool;
}.

Definition answer_question (a : Ambient) (requestId : Z) (i : IntentAnalysis) (h : Heard) : program unit :=
  let text := processedText h in
  cat <- (if long_keyword (searchKeyword h) 2 then Ret (heard_category h)
          else p <- await (BuildSearchPlan text) ;;
               Ret (match plan_category p with Some ((_ :: _) as x) => Some x | _ => heard_category h end)) ;;
  announce "processing" text ;;;
  answer <- ask_llm requestId text (searchDomain i) (pick (phrases_for cat) (random1 a)) ;;
  c <- room ;;
  if negb (currentRequestId c =? requestId) then Ret tt
  else
    let r := answer.2 in
    let finalResponse := if answer.1 : bool then pick connectors (random2 a) ++ trim (llm_text r) else llm_text r in
    publish_results text finalResponse cat r ;;;
    upd (fun c => c <| shouldInterrupt := false |>) ;;;
    set_state SPEAKING ;;; speakAndPublish requestId finalResponse ;;;
    to_sleep ;;; responded.

(* ------------------------------------------------------------------ *)
(** ** The states of the bot *)

(** Step 7: an armed bot *)
Definition armed_branch (roomId : jsstr) (a : Ambient) (requestId : Z) (userId : jsstr) (i : IntentAnalysis) (h : Heard) : program unit :=
  c <- room ;;
  if match activeUserId c with Some ((_ :: _) as u) => negb (bool_decide (u = userId)) | _ => false end then Ret tt
  else if negb (shouldRespond h) && negb (isBotRelated i) then Ret tt
  else if negb (is_request i (searchKeyword h)) then Ret tt
  else
    upd_t (fun t c => c <| lastInteractionTime := t |>) ;;;
    announce "listening" (processedText h) ;;;
    if shouldUseAgentMode (processedText h) i then processWithAgent (captureTime a) roomId requestId (processedText h) userId
    else answer_question a requestId i h.

(** Step 4: the wake word, and the correction by the language model *)
Definition hear (transcript : jsstr) (i : IntentAnalysis) : program Heard :=
  c <- room ;;
  let shouldRespond := isCallIntent i && wakeWordEnabled c in
  if negb shouldRespond && needsLlmCorrection i then
    v <- await (ProcessVoiceIntent transcript) ;;
    Ret (mkHeard (vi_shouldRespond v) (vi_correctedText v) (vi_searchKeyword v) (vi_category v))
  else Ret (mkHeard shouldRespond (normalizedText i) (extractedKeyword i) (category_text (category i))).

(** Steps 5 to 7: the rest by the state of the bot *)
Definition by_state (roomId : jsstr) (a : Ambient) (requestId : Z) (userId : jsstr) (i : IntentAnalysis) (h : Heard) : program unit :=
  c <- room ;;
  match botState c with
  | SLEEP =>
    if perplexityModeActive c && negb (shouldRespond h) then Ret tt
    else if negb (shouldRespond h) then
      _ <- checkAndOfferOpinion (opinions a) requestId (processedText h) userId ;; Ret tt
    else
      upd_t (fun t c => c <| botState := ARMED |> <| activeUserId := Some userId |> <| lastInteractionTime := t |>) ;;;
      if negb (is_request i (searchKeyword h)) then speak_then ARMED requestId (js "네, 무엇을 도와드릴까요?")
      else armed_branch roomId a requestId userId i h
  | SPEAKING => Ret tt
  | ARMED => armed_branch roomId a requestId userId i h
  end.

(* ------------------------------------------------------------------ *)
(** ** The handler *)

Definition open_idea_board (requestId : Z) : program unit :=
  publish (jobj [("type", jstr "OPEN_IDEA_BOARD")]) None ;;;
  speak_then ARMED requestId (js "아이디어 보드를 열었습니다. 아이디어를 말씀해주세요!").

Definition open_flowchart_board (requestId : Z) (userId : jsstr) : program unit :=
  upd_t (fun t c => c <| flowchartInitiator := Some userId |> <| flowchartModeActive := true |> <| flowchartOpenTime := t |>) ;;;
  publish (jobj [("type", jstr "OPEN_FLOWCHART_BOARD"); ("initiator", JStr userId)]) None ;;;
  speak_then ARMED requestId (js "설계 보드를 열었습니다.").

(** Steps 3.6 to 3.8 and what follows *)
Definition command_branch (roomId : jsstr) (a : Ambient) (requestId : Z) (userId transcript : jsstr) (i : IntentAnalysis) : program unit :=
  if isCallIntent i && isIdeaBoardIntent i then open_idea_board requestId
  else if isCallIntent i && isFlowchartIntent i then open_flowchart_board requestId userId
  else if isCallIntent i && isCalendarIntent i
  then calendar_branch (formats a) (remoteParticipants a) (localIdentity a) requestId
  else match timer i with
       | Some t => if isCallIntent i then timer_branch roomId requestId t
                   else h <- hear transcript i ;; by_state roomId a requestId userId i h
       | None => h <- hear transcript i ;; by_state roomId a requestId userId i h
       end.

(** Steps 2 to 3.5: the general mode *)
Definition general_mode (roomId : jsstr) (a : Ambient) (requestId : Z) (userId transcript : jsstr) (i : IntentAnalysis) : program unit :=
  c <- room ;;
  let hasStopWord := has_stop_word i in
  if (length (trim transcript) <=? 2)%nat && negb (isCallIntent i) && negb hasStopWord then Ret tt
  else if negb (bool_decide (botState c = SLEEP)) && hasStopWord then
    set_state SPEAKING ;;; speakAndPublish requestId (js "알겠습니다. 다시 불러주세요.") ;;; to_sleep ;;; responded
  else
    visionHandled <- (if isCallIntent i && isVisionIntent i && hasActiveScreenShare c
                      then processVisionIntent (normalizedText i) userId else Ret false) ;;
    if visionHandled : bool then upd_t (fun t c => c <| lastSpeechTime := t |>)
    else command_branch roomId a requestId userId transcript i.

Definition answer_about (requestId : Z) (transcript context topic : jsstr) : program unit :=
  set_state SPEAKING ;;;
  response <- await (AnswerWithContext transcript context topic) ;;
  speakAndPublish requestId response ;;; set_state ARMED ;;; responded.

(** What the guarded part does, by the mode of the room *)
Definition respond (roomId : jsstr) (a : Ambient) (requestId : Z) (userId transcript : jsstr) : program unit :=
  c <- room ;;
  let i := classify transcript in
  if ideaModeActive c then detectAndBroadcastIdea transcript userId (suffix a)
  else match (if flowchartModeActive c && isCallIntent i then flowchartContext c else None) with
       | Some f => answer_about requestId transcript (buildFlowchartContextPrompt f) (js "플로우차트")
       | None =>
         if designModeActive c && isCallIntent i then
           if isDiagramRelatedQuestion transcript
           then answer_about requestId transcript (design_board_context (pendingDiagramExplanation c)) (js "설계 다이어그램")
           else speak_then ARMED requestId (js "지금은 설계 보드가 열려 있어요. 다이어그램에 관한 질문을 해주시면 도와드릴게요.")
         else general_mode roomId a requestId userId transcript i
       end.

Definition end_response (requestId : Z) : program unit :=
  c <- room ;; when (currentRequestId c =? requestId) (publishing false).

(** The part that is protected by [isPublishing] *)
Definition guarded_response (roomId : jsstr) (a : Ambient) (userId transcript : jsstr) : program unit :=
  requestId <- now ;;
  c <- room ;;
  when (negb (isVisionMode c)) (upd (fun c => c <| currentRequestId := requestId |>)) ;;;
  finally
    (try_catch (publishing true ;;; respond roomId a requestId userId transcript) (fun _ => to_sleep))
    (end_response requestId).

(** Whether an utterance gets no response: one is in progress, the screen is being
    analysed, or the last response has just ended *)
Definition not_now (c : RoomContext) (t : Z) : bool :=
  isPublishing c || isVisionMode c || ((0 <? lastResponseTime c) && (t - lastResponseTime c <? RESPONSE_COOLDOWN_MS)).

(** The utterance in the minutes, on the timeline and in the statistics *)
Definition record_utterance (roomId : jsstr) (a : Ambient) (audio : Buffer) (userId corrected raw : jsstr) (startTime : option Z) : program unit :=
  let endTime := match startTime with Some s => if s =? 0 then None else Some (inject_Z s + audio_ms audio)%Q | None => None end in
  modify (fun t b =>
    let '(rooms, sent) := sendToRagForEmbedding (rooms_of roomId b) roomId corrected userId startTime endTime t in
    b <| ctx := default (ctx b) (map_get rooms roomId) |>
      <| outs := outs b ++ match sent with Some s => [Embedded s] | None => [] end |>) ;;;
  match timelineTranscript raw with [] => Ret tt | text => emit (OnTimeline text userId) end ;;;
  upd_t (fun t c => updateParticipantSpeakingStats c userId (participantName_of a userId) (math_round (audio_ms audio)) t).

(** The Perplexity mode: the utterance is handed to the session whatever the bot does; its
    answer is spoken when there is one and the bot is silent *)
Definition perplexity_answer (userId transcript : jsstr) : program bool :=
  c <- room ;;
  if negb (perplexityModeActive c) then Ret false
  else
    emit (ToPerplexity userId (trim transcript)) ;;;
    response <- await (PerplexityTranscript userId (trim transcript)) ;;
    c <- room ;;
    match response with
    | Some ((_ :: _) as text) =>
      if negb (isPublishing c) && negb (bool_decide (botState c = SPEAKING)) then
        requestId <- now ;;
        upd (fun c => c <| currentRequestId := requestId |>) ;;;
        publishing true ;;; set_state SPEAKING ;;;
        finally (speakAndPublish requestId text) (set_state ARMED ;;; publishing false ;;; responded) ;;;
        Ret true
      else Ret false
    | _ => Ret false
    end.

(** What is done with a transcript: the corrected and the raw one *)
Definition process_transcript (roomId : jsstr) (a : Ambient) (audio : Buffer) (userId : jsstr) (startTime : option Z) (r : jsstr * jsstr) : program unit :=
  let transcript := r.1 in
  match trim transcript with
  | [] => Ret tt
  | _ =>
    record_utterance roomId a audio userId transcript r.2 startTime ;;;
    answered <- perplexity_answer userId transcript ;;
    if answered : bool then Ret tt
    else
      Get (fun t b => if not_now (ctx b) t then Ret tt else guarded_response roomId a userId transcript)
  end.

Definition processAndRespond (roomId : jsstr) (a : Ambient) (audio : Buffer) (userId : jsstr) (startTime : option Z) : program unit :=
  b <- get ;;
  if negb (active b) then Ret tt
  else if standbyMode (ctx b) then Ret tt
  else
    stt <- try_catch (r <- await (Transcribe audio) ;; Ret (Some r)) (fun _ => Ret None) ;;
    match stt with
    | None => Ret tt
    | Some r => process_transcript roomId a audio userId startTime r
    end.
