(* ===== verification/Pipeline.v ===== *)
(** * Properties of the bot's handlers

    The handlers of [Bot], [Handlers] and [Respond] run at the same time on one
    room.  The theorems are about every execution of a handler in which the
    others change the state, at each wait, only as the hypothesis on [Rely]
    says. *)

From Stdlib Require Import ZArith QArith Lia.
From stdpp Require Import base strings option list.
From S2P Require Import Prelude JsString JsMap Json Records Regex IntentTables Intent Timer Room Stats Memory Diagram Audio Async Bot Handlers Respond.

#[local] Open Scope Z_scope.
#[local] Open Scope prog_scope.

(* ------------------------------------------------------------------ *)
(** ** Handlers *)

Definition is_frame (o : Output) : bool := match o with Played _ => true | _ => false end.

(** The audio frames sent so far *)
Definition played (b : Bot) : list Output := List.filter is_frame (outs b).

(** The handlers of a room that speak or show an answer *)
Inductive Handler :=
| Utterance (a : Ambient) (audio : Buffer) (userId : jsstr) (startTime : option Z)
| Greeting
| TimerAlert (e : TimerEvent) (data : TimerData)
| TimerCommand (action : jsstr) (minutes warningMinutes : option Z)
| ScreenCaptured (validateImage : jsstr -> option jsstr) (requestId : Z) (image : jsstr) (random : Q)
| DiagramsGenerated (types : list jsstr) (codes : jsmap jsstr jsstr)
| HostQuestion (question hostIdentity : jsstr)
| PerplexityMessage (message : json).

Definition handle (roomId : jsstr) (h : Handler) : program unit :=
  match h with
  | Utterance a audio userId startTime => processAndRespond roomId a audio userId startTime
  | Greeting => greetOnJoin
  | TimerAlert e data => timer_notification e data
  | TimerCommand action minutes warningMinutes => handleTimerCommand roomId action minutes warningMinutes
  | ScreenCaptured validateImage requestId image random => handleVisionCaptureResponse validateImage requestId image random
  | DiagramsGenerated types codes => explainGeneratedDiagrams types codes
  | HostQuestion question hostIdentity => processHostQuery question hostIdentity
  | PerplexityMessage message => handlePerplexityMessage message
  end.

(* ------------------------------------------------------------------ *)
(** ** What speaking leaves alone *)

(** What only speaking and a new request change *)
Definition view (b : Bot) : Z * bool * list Output := (currentRequestId (ctx b), aiMuted (ctx b), played b).

(** A property of the state that depends on the view only and that speaking keeps *)
Class Frame (I : Bot -> Prop) : Prop := {
  frame_view b b' : view b' = view b -> I b -> I b';
  frame_speech requestId message : keeps I (speakAndPublish requestId message);
}.

(** It does not depend on the request either *)
Class AnyRequest (I : Bot -> Prop) : Prop :=
  any_request b n : I b -> I (b <| ctx := (ctx b) <| currentRequestId := n |> |>).

Lemma keeps_get {A} (I : Bot -> Prop) (f : Bot -> program A) : (forall b, I b -> keeps I (f b)) -> keeps I (b <- get ;; f b).
Proof. intros H t b Hb. exact (H b Hb). Qed.

Lemma keeps_room {A} (I : Bot -> Prop) (f : RoomContext -> program A) :
  (forall b, I b -> keeps I (f (ctx b))) -> keeps I (c <- room ;; f c).
Proof. intros H t b Hb. exact (H b Hb). Qed.

Lemma played_app b l : List.filter is_frame (outs b ++ l) = played b ++ List.filter is_frame l.
Proof. apply List.filter_app. Qed.

(** Steps through the constructs of a program *)
Ltac keep_step :=
  match goal with
  | |- keeps _ (bind room _) => apply keeps_room; intros ? ?
  | |- keeps _ (bind get _) => apply keeps_get; intros ? ?
  | |- keeps _ (bind _ _) => apply keeps_bind; [|intros ?]
  | |- keeps _ (try_catch _ _) => apply keeps_try; [|intros ?]
  | |- keeps _ (finally _ _) => apply keeps_finally
  | |- keeps _ (await _) => apply keeps_await
  | |- keeps _ (Ret _) => exact Logic.I
  | |- keeps _ (Raise _) => exact Logic.I
  | |- keeps _ (if ?b then _ else _) => destruct b
  | |- keeps _ (match ?x with _ => _ end) => destruct x
  | |- keeps _ (let _ := _ in _) => cbv zeta
  | |- keeps _ (when ?b _) => unfold when
  | |- keeps _ (modify _) => apply keeps_modify; intros ? ? ?
  | |- keeps _ (Get _) => intros ? ? ?
  | |- keeps _ (Put _ _) => split
  | |- keeps _ now => intros ? ? ?; exact Logic.I
  end.
Ltac keep := repeat first [solve [eauto 2 with keeps] | keep_step].

Section Keeping.
Context {I : Bot -> Prop} `{!Frame I}.

Lemma keeps_upd f :
  (forall c, currentRequestId (f c) = currentRequestId c /\ aiMuted (f c) = aiMuted c) -> keeps I (upd f).
Proof.
  intros Hf. apply keeps_modify. intros t b Hb. apply (frame_view b); [|done].
  unfold view, played. simpl. destruct (Hf (ctx b)) as [-> ->]. done.
Qed.

Lemma keeps_upd_t f :
  (forall t c, currentRequestId (f t c) = currentRequestId c /\ aiMuted (f t c) = aiMuted c) -> keeps I (upd_t f).
Proof.
  intros Hf. apply keeps_modify. intros t b Hb. apply (frame_view b); [|done].
  unfold view, played. simpl. destruct (Hf t (ctx b)) as [-> ->]. done.
Qed.

Lemma keeps_emit o : is_frame o = false -> keeps I (emit o).
Proof.
  intros Ho. apply keeps_modify. intros t b Hb. apply (frame_view b); [|done].
  unfold view, played. simpl. rewrite List.filter_app. simpl. by rewrite Ho, app_nil_r.
Qed.
#[local] Hint Resolve frame_speech : keeps.
#[local] Hint Extern 1 (keeps _ (upd _)) => apply keeps_upd; intros; split; reflexivity : keeps.
#[local] Hint Extern 1 (keeps _ (upd_t _)) => apply keeps_upd_t; intros; split; reflexivity : keeps.
#[local] Hint Extern 1 (keeps _ (emit _)) => apply keeps_emit; reflexivity : keeps.

Lemma keeps_publish message destination : keeps I (publish message destination).
Proof. unfold publish. keep. Qed.

Lemma keeps_set_state s : keeps I (set_state s).
Proof. unfold set_state. keep. Qed.

Lemma keeps_responded : keeps I responded.
Proof. unfold responded. keep. Qed.

Lemma keeps_to_sleep : keeps I to_sleep.
Proof. unfold to_sleep. keep. Qed.

Lemma keeps_publishing on : keeps I (publishing on).
Proof. unfold publishing. keep. Qed.

#[local] Hint Resolve keeps_publish keeps_set_state keeps_responded keeps_to_sleep keeps_publishing : keeps.

Lemma keeps_speak_then after requestId message : keeps I (speak_then after requestId message).
Proof. unfold speak_then. keep. Qed.

Lemma keeps_announce state transcript : keeps I (announce state transcript).
Proof. unfold announce. keep. Qed.

Lemma keeps_timer_call f : keeps I (timer_call f).
Proof.
  intros t b Hb. destruct (f t (timers b)) as [r w]. split; [|exact Logic.I]. by apply (frame_view b).
Qed.

#[local] Hint Resolve keeps_speak_then keeps_announce keeps_timer_call : keeps.

Lemma keeps_timer_branch roomId requestId t : keeps I (timer_branch roomId requestId t).
Proof. unfold timer_branch, voice_timer_call. keep. Qed.

Lemma keeps_calendar_branch f remote own requestId : keeps I (calendar_branch f remote own requestId).
Proof. unfold calendar_branch, lift. keep. Qed.

Lemma keeps_processVisionIntent question userId : keeps I (processVisionIntent question userId).
Proof.
  unfold processVisionIntent, sendVisionCaptureRequest. keep.
  apply keeps_upd. intros c. case_match; split; reflexivity.
Qed.

Lemma keeps_checkAndOfferOpinion e requestId text userId : keeps I (checkAndOfferOpinion e requestId text userId).
Proof. unfold checkAndOfferOpinion. keep. Qed.

Lemma keeps_detectAndBroadcastIdea transcript userId x : keeps I (detectAndBroadcastIdea transcript userId x).
Proof. unfold detectAndBroadcastIdea. keep. Qed.

Lemma keeps_processWithAgent f roomId requestId text userId : keeps I (processWithAgent f roomId requestId text userId).
Proof. unfold processWithAgent. keep. Qed.

Lemma keeps_ask_llm requestId text domain phrase : keeps I (ask_llm requestId text domain phrase).
Proof. unfold ask_llm, thinkingTask. keep. Qed.

Lemma keeps_publish_results text r cat l : keeps I (publish_results text r cat l).
Proof. unfold publish_results. keep. Qed.

#[local] Hint Resolve keeps_timer_branch keeps_calendar_branch keeps_processVisionIntent keeps_checkAndOfferOpinion
  keeps_detectAndBroadcastIdea keeps_processWithAgent keeps_ask_llm keeps_publish_results : keeps.

Lemma keeps_answer_question a requestId i h : keeps I (answer_question a requestId i h).
Proof. unfold answer_question. keep. Qed.

#[local] Hint Resolve keeps_answer_question : keeps.

Lemma keeps_armed_branch roomId a requestId userId i h : keeps I (armed_branch roomId a requestId userId i h).
Proof. unfold armed_branch. keep. Qed.

#[local] Hint Resolve keeps_armed_branch : keeps.

Lemma keeps_command_branch roomId a requestId userId transcript i : keeps I (command_branch roomId a requestId userId transcript i).
Proof. unfold command_branch, open_idea_board, open_flowchart_board, hear, by_state. keep. Qed.

#[local] Hint Resolve keeps_command_branch : keeps.

Lemma keeps_respond roomId a requestId userId transcript : keeps I (respond roomId a requestId userId transcript).
Proof. unfold respond, general_mode, answer_about. keep. Qed.

#[local] Hint Resolve keeps_respond : keeps.

(** *** All handlers *)

Context `{!AnyRequest I}.

Lemma keeps_new_request f : keeps I (upd (fun c => c <| currentRequestId := f c |>)).
Proof. apply keeps_modify. intros t b Hb. apply (any_request b (f (ctx b)) Hb). Qed.

#[local] Hint Resolve keeps_new_request : keeps.

Lemma rooms_of_get roomId b text speaker startTime endTime now :
  let c := default (ctx b) (map_get (sendToRagForEmbedding (rooms_of roomId b) roomId text speaker startTime endTime now).1 roomId) in
  currentRequestId c = currentRequestId (ctx b) /\ aiMuted c = aiMuted (ctx b).
Proof.
  unfold sendToRagForEmbedding, rooms_of, updateDiagramContexts.
  destruct (embeddable text), (active b); cbn [fst]; try done;
    rewrite ?map_get_set_eq; try (split; reflexivity).
Qed.

Lemma keeps_record_utterance roomId a audio userId corrected raw startTime :
  keeps I (record_utterance roomId a audio userId corrected raw startTime).
Proof.
  unfold record_utterance. cbv zeta. apply keeps_bind; [|intros _; keep].
  apply keeps_modify. intros t b Hb. apply (frame_view b); [|done].
  pose proof (rooms_of_get roomId b corrected userId startTime) as Hget.
  match goal with |- context [sendToRagForEmbedding _ _ _ _ _ ?e ?t] => specialize (Hget e t) end.
  destruct (sendToRagForEmbedding _ _ _ _ _ _ _) as [rooms sent]. unfold view, played. simpl in *.
  destruct Hget as [-> ->]. rewrite List.filter_app. by destruct sent; simpl; rewrite app_nil_r.
Qed.

#[local] Hint Resolve keeps_record_utterance : keeps.

Lemma keeps_processAndRespond roomId a audio userId startTime : keeps I (processAndRespond roomId a audio userId startTime).
Proof. unfold processAndRespond, process_transcript, perplexity_answer, guarded_response, end_response. keep. Qed.

Lemma keeps_timer_notification e data : keeps I (timer_notification e data).
Proof. unfold timer_notification. keep. Qed.

Lemma keeps_handleTimerCommand roomId action m w : keeps I (handleTimerCommand roomId action m w).
Proof. unfold handleTimerCommand, run_timer_command. repeat case_decide; keep. Qed.

Lemma keeps_wait_for_lock n : keeps I (wait_for_lock n).
Proof. induction n as [|n IH]; cbn [wait_for_lock]; keep. Qed.

Lemma keeps_set_lock l : keeps I (set_lock l).
Proof. apply keeps_modify. intros t b Hb. by apply (frame_view b). Qed.

#[local] Hint Resolve keeps_wait_for_lock keeps_set_lock : keeps.

Lemma keeps_handleVisionCaptureResponse v messageRequestId image random :
  keeps I (handleVisionCaptureResponse v messageRequestId image random).
Proof. unfold handleVisionCaptureResponse, vision_answer, vision_cleanup, resetVisionState. keep. Qed.

Lemma keeps_explainGeneratedDiagrams types codes : keeps I (explainGeneratedDiagrams types codes).
Proof. unfold explainGeneratedDiagrams. keep. Qed.

Lemma keeps_processHostQuery question hostIdentity : keeps I (processHostQuery question hostIdentity).
Proof. unfold processHostQuery, sendTextCardToHost. keep. Qed.

Lemma keeps_handlePerplexityMessage message : keeps I (handlePerplexityMessage message).
Proof. unfold handlePerplexityMessage, perplexity_action. keep. Qed.

Lemma keeps_handle roomId h : match h with Greeting => True | _ => keeps I (handle roomId h) end.
Proof.
  destruct h; cbn [handle];
    eauto 2 using keeps_processAndRespond, keeps_timer_notification, keeps_handleTimerCommand,
      keeps_handleVisionCaptureResponse, keeps_explainGeneratedDiagrams, keeps_processHostQuery,
      keeps_handlePerplexityMessage.
Qed.
End Keeping.

(* ------------------------------------------------------------------ *)
(** ** The request *)

Definition request_is (n : Z) (b : Bot) : Prop := currentRequestId (ctx b) = n.

Lemma request_upd n f : (forall t b, currentRequestId (ctx (f t b)) = currentRequestId (ctx b)) -> keeps (request_is n) (modify (Eff := Eff) f).
Proof. intros Hf. apply keeps_modify. intros t b Hb. unfold request_is. by rewrite Hf. Qed.

#[local] Hint Extern 2 (keeps (request_is _) _) => apply request_upd; reflexivity : keeps.

Lemma keeps_send_frames n index startTime frames : keeps (request_is n) (send_frames index startTime frames).
Proof.
  revert index. induction frames as [|f rest IH]; intros index; cbn [send_frames]; keep; try exact Logic.I; apply IH.
Qed.

#[local] Hint Resolve keeps_send_frames : keeps.

#[export] Instance request_frame n : Frame (request_is n).
Proof.
  split.
  - unfold view, request_is. intros b b' [= H _ _]. by rewrite H.
  - intros requestId message.
    unfold speakAndPublish, show_text, sendTextCardToHost, broadcastAiState, publish, publishAudio. keep.
Qed.

(* ------------------------------------------------------------------ *)
(** ** Silence *)

(** The bot is muted, and these are the frames sent. *)
Definition silent (frames : list Output) (b : Bot) : Prop := aiMuted (ctx b) = true /\ played b = frames.

#[export] Instance silent_frame frames : Frame (silent frames).
Proof.
  split.
  - unfold view, silent. intros b b' [= _ Hm Hp]. by rewrite Hm, Hp.
  - intros requestId message. apply keeps_room. intros b [Hm _]. by rewrite Hm.
Qed.

#[export] Instance silent_any_request frames : AnyRequest (silent frames).
Proof. intros b n Hb. exact Hb. Qed.

Lemma keeps_greeting frames : keeps (silent frames) greetOnJoin.
Proof. apply keeps_get. intros b [Hm _]. destruct (active b); cbn [negb]; [|done]. by rewrite Hm. Qed.

(** C11: a bot that was muted before is silent.  When the bot is muted at the start of a
    handler and stays so, and the other handlers send no audio, the handler plays no
    frame: not an answer to an utterance or to a report of the Perplexity mode, a
    greeting, an alert of the timer, the description of a screen, an explanation of
    diagrams nor an answer to a host.  A mute that comes while the speech is made is
    not obeyed, see [late_mute_is_lost]. *)
Theorem muted_bot_plays_nothing (Rely : Bot -> Bot -> Prop) (roomId : jsstr) (h : Handler) (s s' : Bot) (o : outcome jsstr unit) :
  (forall s s', Rely s s' -> aiMuted (ctx s) = true -> aiMuted (ctx s') = true /\ played s' = played s) ->
  aiMuted (ctx s) = true -> exec Rely s (handle roomId h) s' o -> played s' = played s.
Proof.
  intros Hrely Hm Hex.
  assert (silent (played s) s') as [_ H]; [|done].
  eapply keeps_exec; [| |by split|exact Hex].
  - intros s1 s2 Hr [H1 H2]. destruct (Hrely _ _ Hr H1). split; congruence.
  - pose proof (keeps_handle (I := silent (played s)) roomId h) as Hk. destruct h; first [exact Hk | apply keeps_greeting].
Qed.

(* ------------------------------------------------------------------ *)
(** ** The response lock *)

Lemma wp_now {A} Rely (f : Z -> program A) Q s : (forall t, wp Rely (f t) Q s) -> wp Rely (t <- now ;; f t) Q s.
Proof. exact id. Qed.

Lemma wp_room {A} Rely (f : RoomContext -> program A) Q s : wp Rely (f (ctx s)) Q s -> wp Rely (c <- room ;; f c) Q s.
Proof. intros H t. exact H. Qed.

Lemma wp_get {A} Rely (f : Bot -> program A) Q s : wp Rely (f s) Q s -> wp Rely (b <- get ;; f b) Q s.
Proof. intros H t. exact H. Qed.

Lemma wp_upd {A} Rely g (f : unit -> program A) Q s :
  wp Rely (f tt) Q (s <| ctx := g (ctx s) |>) -> wp Rely (u <- upd g ;; f u) Q s.
Proof. intros H t. exact H. Qed.

Lemma wp_publishing Rely on (Q : outcome jsstr unit -> Bot -> Prop) s :
  (forall s', isPublishing (ctx s') = on -> currentRequestId (ctx s') = currentRequestId (ctx s) ->
     (on = false -> publishingStartTime (ctx s') = 0) -> Q (Return tt) s') ->
  wp Rely (publishing on) Q s.
Proof. intros H t. apply H; try reflexivity. by intros ->. Qed.

(** C10: a response ends.  When no other request starts while the bot responds to
    an utterance, the handler returns whatever its calls answer, a failure
    included, and the room is free for the next response. *)
Theorem response_releases_room (Rely : Bot -> Bot -> Prop) (roomId : jsstr) (a : Ambient) (userId transcript : jsstr) (s s' : Bot)
  (o : outcome jsstr unit) :
  (forall s s', Rely s s' -> currentRequestId (ctx s') = currentRequestId (ctx s)) ->
  isVisionMode (ctx s) = false -> exec Rely s (guarded_response roomId a userId transcript) s' o ->
  o = Return tt /\ isPublishing (ctx s') = false /\ publishingStartTime (ctx s') = 0.
Proof.
  intros Hrely Hv Hex. revert Hex. apply (wp_sound _ _ (fun o s => o = Return tt /\ isPublishing (ctx s) = false /\ publishingStartTime (ctx s) = 0)).
  apply wp_now. intros n. apply wp_room. rewrite Hv. apply wp_upd.
  set (s1 := s <| ctx := _ |>). assert (request_is n s1) as H1 by reflexivity. clearbody s1.
  apply wp_finally, wp_try, wp_bind, wp_publishing. intros s2 _ H2 _.
  assert (request_is n s2) as Hs2 by (unfold request_is in *; congruence). clear s1 H1 H2.
  assert (forall s s', Rely s s' -> request_is n s -> request_is n s') as Hn.
  { intros s3 s4 H34 H3. unfold request_is in *. rewrite (Hrely _ _ H34). done. }
  assert (forall s, request_is n s -> wp Rely (end_response n)
            (fun o s => o = Return tt /\ isPublishing (ctx s) = false /\ publishingStartTime (ctx s) = 0) s) as Hend.
  { intros s3 H3. apply wp_room. rewrite H3, Z.eqb_refl. apply wp_publishing. auto. }
  eapply wp_mono; [|apply (keeps_wp _ (request_is n)); [exact Hn|apply keeps_respond|exact Hs2]].
  assert (forall x, @Return jsstr unit x = Return tt) as Hunit by (by intros []).
  intros [u|m] s3 H3; [|apply wp_modify; intros t]; (eapply wp_mono; [|apply Hend; exact H3]);
    intros [|] s4 [? ?]; first [done | by rewrite Hunit].
Qed.

(* ------------------------------------------------------------------ *)
(** ** A mute that comes late *)

(** What a message [AI_MUTE] does, or nothing *)
Definition mute (b : Bot) : Bot := b <| ctx := (ctx b) <| aiMuted := true |> <| shouldInterrupt := true |> |>.
Definition may_mute (s s' : Bot) : Prop := s' = s \/ s' = mute s.

Lemma exec_send_frames (Rely : Bot -> Bot -> Prop) index startTime frames s :
  (forall b, Rely b b) -> shouldInterrupt (ctx s) = false ->
  exists s', exec Rely s (send_frames index startTime frames) s' (Return tt) /\ ctx s' = ctx s /\ played s' = played s ++ (Played <$> frames).
Proof.
  intros Hr. revert index s. induction frames as [|f rest IH]; intros index s Hs.
  - exists s. rewrite app_nil_r. split; [|done]. apply (exec_get _ 0). rewrite Hs, andb_false_r. constructor.
  - assert (exists s1, s1 = s <| outs := outs s ++ [Played f] |> /\ ctx s1 = ctx s /\ played s1 = played s ++ [Played f]) as (s1 & E1 & Hc1 & Hf)
      by (eexists; split; [reflexivity|]; split; [reflexivity|apply List.filter_app]).
    assert (shouldInterrupt (ctx s1) = false) as Hs1 by (by rewrite Hc1). destruct (IH (S index) s1 Hs1) as (s' & He & Hc & Ho).
    destruct rest as [|g rest].
    + exists s1. split; [|done]. apply (exec_get _ 0). cbn [bind]. rewrite Hs, andb_false_r. rewrite E1. apply (exec_get _ 0), exec_put. constructor.
    + exists s'. split; [|split; [congruence|by rewrite Ho, Hf, <- app_assoc]].
      apply (exec_get _ 0). cbn [bind]. rewrite Hs, andb_false_r. apply (exec_get _ 0), exec_put, (exec_get _ 0).
      eapply (exec_await _ _ _ _ (Return tt)); [apply Hr|]. rewrite E1 in He. exact He.
Qed.

Lemma exec_broadcast (Rely : Bot -> Bot -> Prop) state transcript response s :
  (forall b, Rely b b) -> exists s', exec Rely s (broadcastAiState state transcript response) s' (Return tt) /\ ctx s' = ctx s /\ played s' = played s.
Proof.
  intros Hr. unfold broadcastAiState, publish. destruct (active s) eqn:Ha.
  - eexists. split; [|split].
    + apply (exec_get _ 0). cbn [bind]. rewrite Ha. apply (exec_get _ 0). eapply exec_bind; [apply (exec_modify _ _ 0)|]. apply exec_await_return, Hr.
    + reflexivity.
    + unfold played. cbn. by rewrite List.filter_app, app_nil_r.
  - exists s. split; [|done]. apply (exec_get _ 0). cbn [bind]. rewrite Ha. constructor.
Qed.

(** a late mute.  A mute that comes while the speech is made, with the interruption
    that it asks for, is lost: the interruption is reset when the speech is there, and
    all its frames are played by the muted bot. *)
Theorem late_mute_is_lost (requestId : Z) (message : jsstr) (pcm : Buffer) (s : Bot) :
  aiMuted (ctx s) = false -> speakingEnabled (ctx s) = true -> currentRequestId (ctx s) = requestId ->
  exists s', exec may_mute s (speakAndPublish requestId message) s' (Return tt) /\ aiMuted (ctx s') = true /\ played s' = played s ++ (Played <$> pcm_frames pcm).
Proof.
  intros Hm Hse Hreq. assert (forall b, may_mute b b) as Hr by (by left). pose (s1 := (mute s) <| ctx := (ctx (mute s)) <| speakingStartTime := 0 |> <| shouldInterrupt := false |> |>).
  destruct (exec_broadcast may_mute "speaking" None (Some message) s1 Hr) as (s2 & H2 & Hc2 & Hp2).
  destruct (exec_send_frames may_mute 0 0 (pcm_frames pcm) s2 Hr) as (s3 & H3 & Hc3 & Hp3); [by rewrite Hc2|].
  destruct (exec_broadcast may_mute "idle" None None s3 Hr) as (s4 & H4 & Hc4 & Hp4).
  exists s4. split; [|split; [by rewrite Hc4, Hc3, Hc2|by rewrite Hp4, Hp3, Hp2]].
  apply (exec_get _ 0). cbn [bind room get]. rewrite Hm, Hse. cbn [negb].
  eapply exec_bind; [apply (exec_await_return _ _ pcm _ (mute s)); by right|]. eapply exec_bind; [apply (exec_modify _ _ 0)|].
  apply (exec_get _ 0). cbn [bind].
  match goal with |- exec _ _ (if ?x then _ else _) _ _ => replace x with false by (cbn; by rewrite Hreq, Z.eqb_refl) end.
  eapply exec_bind; [apply (exec_modify _ _ 0)|]. eapply exec_bind; [exact H2|]. eapply exec_bind; [|exact H4].
  apply (exec_get _ 0). exact H3.
Qed.

(* ------------------------------------------------------------------ *)
(** ** Samples *)

Definition sample_bot : Bot := mkBot (initial_context None 0) true false Timer.initial [].

(** Speech and messages succeed, the other services are down. *)
Definition sample_answer (R : Type) (_ : nat) (e : Eff R) : outcome jsstr R :=
  match e with
  | PublishData _ _ | Sleep _ | ImportModule => Return tt
  | SynthesizePcm _ => Return (replicate 1000 7)
  | Transcribe _ => Return (js "점심 먹자", js "점심 먹자")
  | _ => Throw []
  end.

Definition sample_run {A} (s : Bot) (p : program A) : Bot * outcome jsstr A :=
  run_with (fun n => 1000 * Z.of_nat n) sample_answer (fun _ b => b) 0 s p.

Lemma sample_exec {A} s (p : program A) : exec eq s p (sample_run s p).1 (sample_run s p).2.
Proof. apply run_with_exec. done. Qed.

Definition sample_ambient : Ambient :=
  mkAmbient 0 0 (js "x") [] [] (fun u => u) (mkFormats (fun s => Return s) (fun s => s) (fun s => s) (fun s => s)) (fun _ => []) false.

Definition muted : Bot := sample_bot <| ctx := (ctx sample_bot) <| aiMuted := true |> |>.

Lemma muted_bot_plays_nothing_witness :
  exists s' o, exec eq muted (handle (js "r") (Utterance sample_ambient [1; 2] (js "kim") None)) s' o /\ played s' = played muted.
Proof.
  eexists _, _. split; [apply sample_exec|].
  eapply (muted_bot_plays_nothing eq (js "r") (Utterance sample_ambient [1; 2] (js "kim") None) muted); [by intros ? ? -> ?|reflexivity|apply sample_exec].
Defined.

Lemma response_releases_room_witness :
  exists s' o, exec eq sample_bot (guarded_response (js "r") sample_ambient (js "kim") (js "점심 먹자")) s' o /\ isPublishing (ctx s') = false.
Proof.
  eexists _, _. split; [apply sample_exec|].
  eapply (response_releases_room eq (js "r") sample_ambient (js "kim") (js "점심 먹자") sample_bot); [congruence|reflexivity|apply sample_exec].
Defined.

Lemma late_mute_is_lost_witness :
  exists s', exec may_mute (sample_bot <| ctx := (ctx sample_bot) <| speakingEnabled := true |> |>) (speakAndPublish 0 (js "네")) s' (Return tt) /\
    length (played s') = 3%nat.
Proof.
  destruct (late_mute_is_lost 0 (js "네") (replicate 2000 7) (sample_bot <| ctx := (ctx sample_bot) <| speakingEnabled := true |> |>)) as (s' & H & _ & Hp);
    [reflexivity..|]. exists s'. split; [exact H|]. rewrite Hp. vm_compute. reflexivity.
Defined.
