(* ===== verification/Attention.v ===== *)
(** * To whom the bot responds

    Properties of [processAndRespond]: what happens to utterances while the bot
    responds, to utterances that are not meant for it, and how playing the
    answer ends; and two ways in which the bot stays occupied after a response.

    Executions are those of [Async], with the steps of the other handlers as
    [Rely] allows; [rtc Rely s s'] says that the handler itself changed nothing. *)

From Stdlib Require Import ZArith QArith Lia.
From stdpp Require Import base strings option relations list.
From S2P Require Import Prelude JsString JsMap Json Records Regex IntentTables Intent Timer Room Stats Memory Diagram Audio Async Bot Handlers Respond Pipeline.

#[local] Open Scope Z_scope.
#[local] Open Scope prog_scope.

(* ------------------------------------------------------------------ *)
(** ** Recording *)

Definition is_record (o : Output) : bool := match o with Embedded _ | OnTimeline _ _ => true | _ => false end.

(** The state without the minutes: the statements for the diagrams, the speaking
    times, and what was sent to the retrieval server and the timeline *)
Definition without_minutes (b : Bot) : Bot :=
  b <| ctx := (ctx b) <| diagramContexts := createEmptyDiagramContexts |> <| participantSpeakingStats := [] |> |>
    <| outs := List.filter (fun o => negb (is_record o)) (outs b) |>.

Definition records (s s' : Bot) : Prop := without_minutes s' = without_minutes s.

Lemma records_emit b o : is_record o = true -> records b (b <| outs := outs b ++ [o] |>).
Proof. intros Ho. unfold records, without_minutes. simpl. rewrite List.filter_app. simpl. by rewrite Ho, app_nil_r. Qed.

Lemma records_publishing s s' : records s s' -> isPublishing (ctx s') = isPublishing (ctx s).
Proof. intros H. exact (f_equal (fun b => isPublishing (ctx b)) H). Qed.

Lemma records_embedding roomId b text speaker startTime endTime t :
  let r := sendToRagForEmbedding (rooms_of roomId b) roomId text speaker startTime endTime t in
  records b (b <| ctx := default (ctx b) (map_get r.1 roomId) |>
               <| outs := outs b ++ match r.2 with Some s => [Embedded s] | None => [] end |>).
Proof.
  unfold sendToRagForEmbedding, rooms_of, updateDiagramContexts, records, without_minutes.
  destruct (embeddable text), (active b); cbn [fst snd]; rewrite ?map_get_set_eq; cbn [default map_get];
    simpl; rewrite ?List.filter_app, ?app_nil_r; reflexivity.
Qed.

Lemma wp_record_utterance {A} Rely roomId a audio userId corrected raw startTime (f : unit -> program A) Q s :
  (forall s', records s s' -> wp Rely (f tt) Q s') ->
  wp Rely (u <- record_utterance roomId a audio userId corrected raw startTime ;; f u) Q s.
Proof.
  intros H. apply wp_bind. unfold record_utterance. cbv zeta. apply wp_bind, wp_modify. intros t.
  pose proof (records_embedding roomId s corrected userId startTime) as Hrec.
  match goal with |- context [sendToRagForEmbedding _ _ _ _ _ ?e ?t] => specialize (Hrec e t) end.
  destruct (sendToRagForEmbedding _ _ _ _ _ _ _) as [rooms sent]. cbv zeta in Hrec. cbn [fst snd] in Hrec.
  revert Hrec. generalize (s <| ctx := default (ctx s) (map_get rooms roomId) |>
               <| outs := outs s ++ match sent with Some s => [Embedded s] | None => [] end |>). intros s1 H1.
  apply wp_bind. apply (wp_mono _ _ (fun o s2 => o = Return tt /\ records s s2)).
  - intros o s2 [-> H2]. apply wp_modify. intros t2. apply H. exact H2.
  - destruct (timelineTranscript raw) as [|c text]; [done|]. apply wp_modify. intros t2. split; [done|].
    etransitivity; [by apply records_emit|exact H1].
Qed.

(* ------------------------------------------------------------------ *)
(** ** A bot that responds *)

(** A step of the others or of the recording *)
Definition records_or (Rely : Bot -> Bot -> Prop) (s s' : Bot) : Prop := Rely s s' \/ records s s'.

(** An utterance is handed to the session of the Perplexity mode; nothing else changes *)
Definition hands_over (userId : jsstr) (s s' : Bot) : Prop :=
  perplexityModeActive (ctx s) = true /\ exists text, s' = s <| outs := outs s ++ [ToPerplexity userId text] |>.

(** Such a step, or one of the handing over while [B] holds *)
Definition attends (Rely : Bot -> Bot -> Prop) (B : Bot -> Prop) (userId : jsstr) (s s' : Bot) : Prop :=
  records_or Rely s s' \/ (B s /\ hands_over userId s s').

(** A condition that keeps the bot from responding, also in the Perplexity mode *)
Record Blocks (Rely : Bot -> Bot -> Prop) (B : Bot -> Prop) : Prop := {
  blocks_rely s s' : Rely s s' -> B s -> B s';
  blocks_records s s' : records s s' -> B s -> B s';
  blocks_outs s l : B s -> B (s <| outs := l |>);
  blocks_not_now s t : B s -> not_now (ctx s) t = true;
  blocks_perplexity s : B s -> perplexityModeActive (ctx s) = true -> forall s', Rely s s' -> isPublishing (ctx s') = true;
}.

Lemma blocked_bot_only_records (B : Bot -> Prop) (Rely : Bot -> Bot -> Prop) roomId a audio userId startTime s s' o :
  Blocks Rely B -> B s -> exec Rely s (processAndRespond roomId a audio userId startTime) s' o ->
  rtc (attends Rely B userId) s s'.
Proof.
  intros HB Hs. apply (wp_sound _ _ (fun _ s' => rtc (attends Rely B userId) s s')).
  apply wp_get. destruct (active s); [|apply rtc_refl]. destruct (standbyMode (ctx s)); [apply rtc_refl|]. cbn [negb].
  apply wp_bind, wp_try, wp_bind, wp_await. intros r s1 H1.
  assert (rtc (attends Rely B userId) s s1) as Hs1 by (apply rtc_once; by left; left).
  destruct r as [[corrected raw]|e]; [|exact Hs1]. unfold process_transcript. cbn [fst snd wp].
  destruct (trim corrected) as [|c text]; [exact Hs1|]. apply wp_record_utterance. intros s2 H2.
  assert (rtc (attends Rely B userId) s s2) as Hs2 by (eapply rtc_r; [exact Hs1|by left; right]).
  assert (B s2) as HB2 by exact (blocks_records _ _ HB _ _ H2 (blocks_rely _ _ HB _ _ H1 Hs)).
  assert (forall s3, rtc (attends Rely B userId) s s3 -> B s3 ->
    wp Rely (Get (fun t b => if not_now (ctx b) t then Ret tt else guarded_response roomId a userId corrected))
      (fun _ s' => rtc (attends Rely B userId) s s') s3) as Hend.
  { intros s3 H3 HB3 t. by rewrite (blocks_not_now _ _ HB). }
  apply wp_bind, wp_room. destruct (perplexityModeActive (ctx s2)) eqn:Hp; [|by apply Hend]. cbn [negb].
  apply wp_bind, wp_modify. intros t. set (s3 := s2 <| outs := _ |>).
  assert (rtc (attends Rely B userId) s s3) as Hs3 by (eapply rtc_r; [exact Hs2|]; right; split; [done|]; split; [done|by eexists]).
  assert (B s3) as HB3 by (by apply (blocks_outs _ _ HB)). assert (perplexityModeActive (ctx s3) = true) as Hp3 by exact Hp. clearbody s3.
  apply wp_bind, wp_await. intros r s4 H4.
  assert (rtc (attends Rely B userId) s s4) as Hs4 by (eapply rtc_r; [exact Hs3|by left; left]).
  destruct r as [answer|e]; [|exact Hs4]. apply wp_room.
  rewrite (blocks_perplexity _ _ HB s3 HB3 Hp3 s4 H4).
  destruct answer as [[|]|]; cbn [negb andb]; by apply Hend; [|exact (blocks_rely _ _ HB _ _ H4 HB3)].
Qed.

(** A bot that publishes its response *)
Definition responding (b : Bot) : Prop := isPublishing (ctx b) = true.

(** C3: one response at a time.  While another handler holds the room for its
    response, an utterance gets no response: every change made during its handler is
    one of the others', or to the minutes, or - in the Perplexity mode, and only there -
    the handing over of the utterance to the session of that mode, which takes it
    whatever the bot does.  In particular the state of the bot, the current request and
    the messages and audio sent are not touched. *)
Theorem busy_bot_only_records (Rely : Bot -> Bot -> Prop) (roomId : jsstr) (a : Ambient) (audio : Buffer) (userId : jsstr)
  (startTime : option Z) (s s' : Bot) (o : outcome jsstr unit) :
  (forall s s', Rely s s' -> responding s -> responding s') -> responding s ->
  exec Rely s (processAndRespond roomId a audio userId startTime) s' o ->
  rtc (attends Rely responding userId) s s'.
Proof.
  intros Hrely. apply (blocked_bot_only_records responding). unfold responding in *. split; eauto.
  - intros s1 s2 H. by rewrite (records_publishing _ _ H).
  - intros s1 t H. unfold not_now. by rewrite H.
Qed.

(** The bot waits for a capture of the screen, outside the Perplexity mode. *)
Definition waits_for_capture (b : Bot) : Prop := isVisionMode (ctx b) = true /\ perplexityModeActive (ctx b) = false.

(** a capture that never comes.  After a request for a capture of the screen
    the bot only records what is said, whatever is said and however long ago the
    request was made, until another handler leaves the vision mode: the new
    request that [processVisionIntent] allows after ten seconds is never made. *)
Theorem missing_capture_blocks_bot (Rely : Bot -> Bot -> Prop) (roomId : jsstr) (a : Ambient) (audio : Buffer) (userId : jsstr)
  (startTime : option Z) (s s' : Bot) (o : outcome jsstr unit) :
  (forall s s', Rely s s' -> waits_for_capture s -> waits_for_capture s') -> waits_for_capture s ->
  exec Rely s (processAndRespond roomId a audio userId startTime) s' o ->
  rtc (records_or Rely) s s'.
Proof.
  intros Hrely Hs Hex. apply (rtc_subrel (attends Rely waits_for_capture userId)).
  { intros s1 s2 [H|[[_ H1] [H2 _]]]; [done|congruence]. }
  revert Hs Hex. apply (blocked_bot_only_records waits_for_capture). split; eauto.
  - intros s1 s2 H [H1 H2]. split; [rewrite <- H1|rewrite <- H2].
    + exact (f_equal (fun b => isVisionMode (ctx b)) H).
    + exact (f_equal (fun b => perplexityModeActive (ctx b)) H).
  - intros s1 t [H _]. unfold not_now. by rewrite H, orb_true_r.
  - intros s1 [_ H1] H2. congruence.
Qed.

(* ------------------------------------------------------------------ *)
(** ** Utterances that are not for the bot *)

(** The wake word together with a board that is open, the screen, or a command *)
Definition addresses_command (c : RoomContext) (i : IntentAnalysis) : bool :=
  isCallIntent i && (flowchartModeActive c || designModeActive c || (isVisionIntent i && hasActiveScreenShare c)
                     || isIdeaBoardIntent i || isFlowchartIntent i || isCalendarIntent i || is_some (timer i)).

(** Without a command the modes of the room and the boards play no part. *)
Lemma wp_respond_plain Rely roomId a requestId userId transcript Q s :
  ideaModeActive (ctx s) = false -> addresses_command (ctx s) (classify transcript) = false ->
  has_stop_word (classify transcript) = false ->
  Q (Return tt) s ->
  wp Rely (h <- hear transcript (classify transcript) ;; by_state roomId a requestId userId (classify transcript) h) Q s ->
  wp Rely (respond roomId a requestId userId transcript) Q s.
Proof.
  intros Hidea Hcmd Hstop Hq Hw. apply wp_room. cbv zeta. unfold addresses_command in Hcmd. rewrite Hidea.
  set (i := classify transcript) in *. clearbody i.
  assert (wp Rely (general_mode roomId a requestId userId transcript i) Q s) as Hgen.
  { unfold general_mode. apply wp_room. rewrite Hstop, !andb_false_r. cbv zeta. destruct (_ && _ && _); [exact Hq|].
    apply wp_bind. destruct (isCallIntent i) eqn:Hc; cbn [andb] in *; [|unfold command_branch; cbn [wp]; rewrite Hc; by destruct (timer i)].
    rewrite !orb_false_iff in Hcmd. destruct Hcmd as [[[[[[_ _] Hv] H1] H2] H3] H4]. rewrite Hv. cbn [wp].
    unfold command_branch. rewrite Hc, H1, H2, H3. cbn [andb]. by destruct (timer i). }
  destruct (isCallIntent i); cbn [andb] in *; [|by rewrite !andb_false_r].
  rewrite !orb_false_iff in Hcmd. destruct Hcmd as [[[[[[-> ->] _] _] _] _] _]. exact Hgen.
Qed.

(** The bot speaks, or is armed for another participant. *)
Definition engaged (userId : jsstr) (b : Bot) : Prop :=
  botState (ctx b) = SPEAKING \/
  (botState (ctx b) = ARMED /\ exists u, activeUserId (ctx b) = Some u /\ u <> [] /\ u <> userId).

Lemma wp_engaged Rely roomId a requestId userId i h Q s :
  engaged userId s -> Q (Return tt) s -> wp Rely (by_state roomId a requestId userId i h) Q s.
Proof.
  intros He HQ. apply wp_room. destruct He as [->|[-> (u & Hu & Hne & Hu')]]; [exact HQ|].
  apply wp_room. rewrite Hu. destruct u as [|x u]; [done|]. by rewrite bool_decide_eq_false_2.
Qed.

(** What is said is not for the bot: no mode of the room takes it, it holds no command and
    no stop word, and no correction by the language model is asked for *)
Record bystander (transcript : jsstr) (b : Bot) : Prop := {
  no_perplexity : perplexityModeActive (ctx b) = false;
  no_ideas : ideaModeActive (ctx b) = false;
  no_command : addresses_command (ctx b) (classify transcript) = false;
  no_stop_word : has_stop_word (classify transcript) = false;
  no_correction : isCallIntent (classify transcript) && wakeWordEnabled (ctx b) || negb (needsLlmCorrection (classify transcript)) = true;
}.

(** The state without the minutes, the current request and the time of the publishing mark *)
Definition apart_from_request (b : Bot) : Bot :=
  without_minutes (b <| ctx := (ctx b) <| currentRequestId := 0 |> <| publishingStartTime := 0 |> |>).

(** Everything but these is as before *)
Definition unmoved (s s' : Bot) : Prop := apart_from_request s' = apart_from_request s.

Lemma records_unmoved s s' : records s s' -> unmoved s s'.
Proof.
  unfold records, unmoved, apart_from_request. intros H.
  exact (f_equal (fun b => b <| ctx := (ctx b) <| currentRequestId := 0 |> <| publishingStartTime := 0 |> |>) H).
Qed.

Lemma records_bystander transcript s s' : records s s' -> bystander transcript s -> bystander transcript s'.
Proof.
  intros H [H1 H2 H3 H4 H5]. split; [..|done|].
  - rewrite <- H1. exact (f_equal (fun b => perplexityModeActive (ctx b)) H).
  - rewrite <- H2. exact (f_equal (fun b => ideaModeActive (ctx b)) H).
  - rewrite <- H3. exact (f_equal (fun b => addresses_command (ctx b) (classify transcript)) H).
  - rewrite <- H5. f_equal. f_equal. exact (f_equal (fun b => wakeWordEnabled (ctx b)) H).
Qed.

Lemma records_engaged userId s s' : records s s' -> engaged userId s -> engaged userId s'.
Proof.
  intros H. unfold engaged. pose proof (f_equal (fun b => botState (ctx b)) H) as H1. pose proof (f_equal (fun b => activeUserId (ctx b)) H) as H2.
  cbn in H1, H2. by rewrite H1, H2.
Qed.

Lemma wp_engaged_respond Rely roomId a requestId userId transcript Q s :
  engaged userId s -> bystander transcript s -> Q (Return tt) s -> wp Rely (respond roomId a requestId userId transcript) Q s.
Proof.
  intros He [_ Hidea Hcmd Hstop Hcorr] HQ. apply wp_respond_plain; auto. apply wp_bind, wp_room. cbv zeta.
  rewrite orb_true_iff, negb_true_iff in Hcorr. destruct (isCallIntent _ && wakeWordEnabled _), (needsLlmCorrection _); cbn [negb andb wp];
    try (by apply wp_engaged). by destruct Hcorr.
Qed.

(** C17: one participant at a time.  While the bot speaks, or is armed for one participant,
    it does not answer what another one says to the room, also when the wake word is used;
    only a stop word, a command or an open board gets through, or - outside this theorem -
    an utterance that the language model is asked to correct and the Perplexity mode.
    From its transcript on, the handling of the utterance returns and leaves everything as
    it was but the minutes, the current request and the time at which publishing started:
    no message or audio is sent, and the state of the bot, its user and the mark of
    publishing are the same.  The current request does change when the room is free, which
    cancels a speech that is being made for another request, such as the alert of a timer. *)
Theorem engaged_bot_ignores (Rely : Bot -> Bot -> Prop) (roomId : jsstr) (a : Ambient) (audio : Buffer) (userId : jsstr)
  (startTime : option Z) (r : jsstr * jsstr) (s s' : Bot) (o : outcome jsstr unit) :
  engaged userId s -> bystander r.1 s ->
  exec Rely s (process_transcript roomId a audio userId startTime r) s' o ->
  o = Return tt /\ unmoved s s'.
Proof.
  intros He Hb. apply (wp_sound _ _ (fun o s' => o = Return tt /\ unmoved s s')). unfold process_transcript. cbv zeta.
  destruct (trim r.1); [done|]. apply wp_record_utterance. intros s1 H1.
  assert (engaged userId s1) as He1 by (by eapply records_engaged). assert (bystander r.1 s1) as Hb1 by (by eapply records_bystander).
  apply records_unmoved in H1. clear He Hb. apply wp_bind, wp_room. rewrite (no_perplexity _ _ Hb1). cbn [negb wp].
  intros t. destruct (not_now (ctx s1) t) eqn:Hn; [done|].
  unfold not_now in Hn. rewrite !orb_false_iff in Hn. destruct Hn as [[Hpub Hvis] _].
  apply wp_now. intros t1. apply wp_room. rewrite Hvis. cbn [negb when]. apply wp_upd. apply wp_finally, wp_try, wp_bind, wp_modify. intros t2.
  apply wp_engaged_respond; [exact He1|by destruct Hb1; split|].
  apply wp_room. rewrite Z.eqb_refl. apply wp_modify. intros t3. split; [done|].
  etransitivity; [|exact H1]. unfold unmoved, apart_from_request. destruct s1 as [c ? ? ? ?]. cbn in Hpub |- *. by rewrite <- Hpub.
Qed.

(** unaddressed speech.  An utterance without wake word, mention of the bot
    or stop word, and without the likeness to a wake word that asks for a
    correction, changes nothing and is answered with nothing, in every state of
    the bot, unless opinions are enabled. *)
Theorem unaddressed_speech_ignored (Rely : Bot -> Bot -> Prop) (roomId : jsstr) (a : Ambient) (requestId : Z)
  (userId transcript : jsstr) (s s' : Bot) (o : outcome jsstr unit) :
  let i := classify transcript in
  isCallIntent i = false -> isBotRelated i = false -> needsLlmCorrection i = false -> has_stop_word i = false ->
  ideaModeActive (ctx s) = false -> (botState (ctx s) = SLEEP -> opinions a = false) ->
  exec Rely s (respond roomId a requestId userId transcript) s' o ->
  s' = s /\ o = Return tt.
Proof.
  intros i Hcall Hbot Hllm Hstop Hidea Hop. apply (wp_sound _ _ (fun o s' => s' = s /\ o = Return tt)).
  apply wp_respond_plain; [done|by unfold addresses_command; fold i; rewrite Hcall|done|done|]. fold i. clearbody i.
  apply wp_bind, wp_room. cbv zeta. rewrite Hllm, Hcall, andb_false_r. cbn [wp]. apply wp_room.
  destruct (botState (ctx s)) eqn:Hs.
  - cbn [shouldRespond andb negb]. rewrite andb_true_r. destruct (perplexityModeActive _); [done|].
    apply wp_bind. unfold checkAndOfferOpinion. rewrite Hop by done. done.
  - apply wp_room. cbn [shouldRespond negb]. rewrite Hbot. by case_match.
  - done.
Qed.

(* ------------------------------------------------------------------ *)
(** ** Playing an answer *)

Definition never_interrupted (Rely : Bot -> Bot -> Prop) (s : Bot) : Prop :=
  shouldInterrupt (ctx s) = false /\
  forall s s', Rely s s' -> shouldInterrupt (ctx s) = false -> shouldInterrupt (ctx s') = false.

(** What playing [frames] from [s] comes to *)
Definition playback (Rely : Bot -> Bot -> Prop) (s : Bot) (frames : list (list Z)) (o : outcome jsstr unit) (s' : Bot) : Prop :=
  exists k, (k <= length frames)%nat /\ played s' = played s ++ (Played <$> take k frames) /\
    (o = Return tt -> k = length frames \/ shouldInterrupt (ctx s') = false) /\
    (never_interrupted Rely s -> o = Return tt -> k = length frames).

Lemma playback_cons Rely s s1 f frames o s' :
  played s1 = played s ++ [Played f] -> (never_interrupted Rely s -> never_interrupted Rely s1) ->
  playback Rely s1 frames o s' -> playback Rely s (f :: frames) o s'.
Proof.
  intros Hp Hn (k & Hk & Hp' & H1 & H2). exists (S k). split; [simpl; lia|].
  rewrite Hp', Hp, <- app_assoc. split; [done|]. simpl. split; [|intuition lia].
  intros Ho. destruct (H1 Ho) as [->|]; auto.
Qed.

Lemma wp_send_frames Rely index startTime frames s :
  (forall s s', Rely s s' -> played s' = played s) ->
  wp Rely (send_frames index startTime frames) (playback Rely s frames) s.
Proof.
  intros Hrely. revert index s. induction frames as [|f rest IH]; intros index s; cbn [send_frames].
  all: apply wp_get; destruct (active s && shouldInterrupt (ctx s)) eqn:Hi.
  1,3: apply wp_modify; intros t; exists 0%nat; split; [simpl; lia|]; split; [by rewrite app_nil_r|]; split; [by right|];
       intros [Hf _]; rewrite Hf, andb_false_r in Hi; discriminate.
  - exists 0%nat. split; [done|]. rewrite app_nil_r. auto.
  - apply wp_bind, wp_modify. intros t. set (s1 := s <| outs := _ |>).
    assert (played s1 = played s ++ [Played f]) as Hs1 by apply List.filter_app.
    assert (never_interrupted Rely s -> never_interrupted Rely s1) as Hn by done. clearbody s1.
    destruct rest as [|g rest].
    { cbn [wp]. eapply playback_cons; [exact Hs1|exact Hn|]. exists 0%nat. split; [done|]. rewrite app_nil_r. auto. }
    apply wp_now. intros t2. apply wp_bind, wp_await. intros r s2 H2.
    assert (played s2 = played s ++ [Played f]) as Hs2 by (by rewrite (Hrely _ _ H2)).
    assert (never_interrupted Rely s -> never_interrupted Rely s2) as Hn2.
    { intros [Hf Hr]%Hn. split; [eauto|exact Hr]. }
    destruct r as [u|e].
    + eapply wp_mono; [|apply IH]. intros o s3. by apply playback_cons.
    + exists 1%nat. split; [simpl; lia|]. rewrite Hs2. split; [done|]. split; intros; discriminate.
Qed.

(** C18: playing in order.  While no other handler plays, playing an answer sends
    its frames in order and each once, up to some frame; when it returns all
    were sent or an interruption was consumed, and without an interruption all
    were sent. *)
Theorem playback_in_order (Rely : Bot -> Bot -> Prop) (pcm : Buffer) (s s' : Bot) (o : outcome jsstr unit) :
  (forall s s', Rely s s' -> played s' = played s) ->
  exec Rely s (publishAudio pcm) s' o -> playback Rely s (pcm_frames pcm) o s'.
Proof.
  intros Hrely. apply wp_sound. apply wp_now. intros t. by apply wp_send_frames.
Qed.

(* ------------------------------------------------------------------ *)
(** ** Ways to stay occupied *)

(** a failed opinion.  When an opinion is to be given and its speech cannot
    be made, the handler goes on as if there had been none and leaves the bot
    in the state of speaking, in which it ignores what follows. *)
Theorem failed_opinion_stays_speaking (requestId : Z) (text userId response : jsstr) (s : Bot) :
  aiMuted (ctx s) = false -> speakingEnabled (ctx s) = true -> response <> [] ->
  (20 <= length (buildConversationContext (conversationHistory (ctx s)) text))%nat ->
  exists s', exec eq s (checkAndOfferOpinion true requestId text userId) s' (Return false) /\
    botState (ctx s') = SPEAKING /\ outs s' = outs s /\ isPublishing (ctx s') = isPublishing (ctx s).
Proof.
  intros Hm Hse Hr Hlen. exists (s <| ctx := (ctx s) <| botState := SPEAKING |> |>). split; [|done].
  unfold checkAndOfferOpinion. cbn [negb]. apply (exec_get _ 0). apply Nat.ltb_ge in Hlen. cbn [bind room get].
  cbv zeta. rewrite Hlen. destruct response as [|x response]; [done|].
  cbn [try_catch bind await]. apply (exec_await _ _ _ _ (Return (mkReply true (Some (x :: response)) None)) _ s); [done|].
  cbn [bind r_shouldSpeak r_response try_catch speak_then set_state upd modify].
  apply (exec_get _ 0), exec_put. unfold speakAndPublish. cbn [bind try_catch room get].
  apply (exec_get _ 0). cbn [ctx try_catch bind]. 
  replace (aiMuted _) with false by (symmetry; exact Hm). replace (speakingEnabled _) with true by (symmetry; exact Hse).
  cbn [negb bind try_catch await]. eapply (exec_await _ _ _ _ (Throw [])); [reflexivity|]. constructor.
Qed.

Lemma exec_room {A} Rely (f : RoomContext -> program A) s s' o : exec Rely s (f (ctx s)) s' o -> exec Rely s (c <- room ;; f c) s' o.
Proof. exact (exec_get _ 0 s _ s' o). Qed.

Lemma exec_now {A} Rely (f : Z -> program A) t s s' o : exec Rely s (f t) s' o -> exec Rely s (t <- now ;; f t) s' o.
Proof. exact (exec_get _ t s _ s' o). Qed.

(** The increment of the request with which the alert of a timer begins *)
Definition alert_starts (s s' : Bot) : Prop := s' = s <| ctx := (ctx s) <| currentRequestId := currentRequestId (ctx s) + 1 |> |>.

(** an alert during a response.  When the alert of a timer takes the request
    over while the bot responds, here with a note in idea mode, the response
    returns and the room stays taken. *)
Theorem alert_keeps_room_taken (roomId : jsstr) (a : Ambient) (userId transcript content : jsstr) (s : Bot) :
  ideaModeActive (ctx s) = true -> isVisionMode (ctx s) = false -> idea_of transcript = Some content ->
  exists s', exec alert_starts s (guarded_response roomId a userId transcript) s' (Return tt) /\ isPublishing (ctx s') = true.
Proof.
  intros Hi Hv Hc. eexists. split.
  - apply (exec_now _ _ 0), exec_room. rewrite Hv. eapply exec_bind; [apply (exec_modify _ _ 0)|].
    eapply exec_finally; [apply exec_try|].
    + eapply exec_bind; [apply (exec_modify _ _ 0)|]. apply exec_room. cbv zeta.
      match goal with |- exec _ _ (if ?x then _ else _) _ _ => replace x with true by (symmetry; exact Hi) end.
      unfold detectAndBroadcastIdea. rewrite Hc. apply (exec_now _ _ 0).
      eapply exec_bind; [apply (exec_modify _ _ 0)|]. apply exec_await_return. reflexivity.
    + apply exec_room. match goal with |- exec _ _ (when ?x _) _ _ => replace x with false end; [constructor|].
      symmetry. apply Z.eqb_neq. simpl. lia.
  - reflexivity.
Qed.

(* ------------------------------------------------------------------ *)
(** ** Witnesses *)

Definition talking : Bot := sample_bot <| ctx := (ctx sample_bot) <| isPublishing := true |> <| botState := SPEAKING |> |>.

Lemma busy_bot_only_records_witness :
  exists s' o, exec eq talking (processAndRespond (js "r") sample_ambient [1; 2] (js "kim") None) s' o /\ rtc (attends eq responding (js "kim")) talking s'.
Proof.
  eexists _, _. split; [apply sample_exec|].
  eapply (busy_bot_only_records eq); [congruence|reflexivity|apply sample_exec].
Defined.

Definition watching : Bot :=
  sample_bot <| ctx := (ctx sample_bot) <| isVisionMode := true |> <| pendingVisionRequest := Some (mkVision 0 (js "x") (js "kim")) |> |>.

Lemma missing_capture_blocks_bot_witness :
  exists s' o, exec eq watching (processAndRespond (js "r") sample_ambient [1; 2] (js "kim") None) s' o /\ rtc (records_or eq) watching s'.
Proof.
  eexists _, _. split; [apply sample_exec|].
  eapply (missing_capture_blocks_bot eq); [congruence|split; reflexivity|apply sample_exec].
Defined.

(** The bot speaks an alert of the timer *)
Definition alerting : Bot := sample_bot <| ctx := (ctx sample_bot) <| botState := SPEAKING |> |>.

Lemma engaged_bot_ignores_witness :
  exists s' o, exec eq alerting (process_transcript (js "r") sample_ambient [1; 2] (js "kim") None (js "점심 먹자", js "점심 먹자")) s' o /\
    o = Return tt /\ unmoved alerting s'.
Proof.
  eexists _, _. split; [apply sample_exec|].
  eapply (engaged_bot_ignores eq (js "r") sample_ambient [1; 2] (js "kim") None (js "점심 먹자", js "점심 먹자") alerting);
    [by left|split; vm_compute; reflexivity|apply sample_exec].
Defined.

Lemma unaddressed_speech_ignored_witness :
  exists s' o, exec eq sample_bot (respond (js "r") sample_ambient 1 (js "kim") (js "점심 먹자")) s' o /\ s' = sample_bot.
Proof.
  eexists _, _. split; [apply sample_exec|].
  eapply (unaddressed_speech_ignored eq (js "r") sample_ambient 1 (js "kim") (js "점심 먹자"));
    [vm_compute; reflexivity|vm_compute; reflexivity|vm_compute; reflexivity|vm_compute; reflexivity|reflexivity|reflexivity|apply sample_exec].
Defined.

Lemma playback_in_order_witness :
  exists s' o, exec eq sample_bot (publishAudio (replicate 1000 7)) s' o /\ playback eq sample_bot (pcm_frames (replicate 1000 7)) o s'.
Proof.
  eexists _, _. split; [apply sample_exec|].
  eapply (playback_in_order eq); [congruence|apply sample_exec].
Defined.

Definition voiced : Bot := sample_bot <| ctx := (ctx sample_bot) <| speakingEnabled := true |> |>.

Lemma failed_opinion_stays_speaking_witness :
  exists s', exec eq voiced (checkAndOfferOpinion true 1 (js "우리 서버를 어디에 둘지 정해야 할 것 같아요") (js "kim")) s' (Return false) /\
    botState (ctx s') = SPEAKING.
Proof.
  destruct (failed_opinion_stays_speaking 1 (js "우리 서버를 어디에 둘지 정해야 할 것 같아요") (js "kim") (js "클라우드요") voiced)
    as (s' & H & Hs & _); [reflexivity|reflexivity|discriminate|apply Nat.leb_le; reflexivity|by exists s'].
Defined.

Lemma alert_keeps_room_taken_witness :
  exists s', isPublishing (ctx s') = true /\
    exec alert_starts (sample_bot <| ctx := (ctx sample_bot) <| ideaModeActive := true |> |>)
      (guarded_response (js "r") sample_ambient (js "kim") (js "다크모드")) s' (Return tt).
Proof.
  destruct (alert_keeps_room_taken (js "r") sample_ambient (js "kim") (js "다크모드") (js "다크모드")
    (sample_bot <| ctx := (ctx sample_bot) <| ideaModeActive := true |> |>)) as (s' & H & Hs);
    [reflexivity|reflexivity|vm_compute; reflexivity|by exists s'].
Defined.
