(* ===== verification/Events.v ===== *)
(** * Events of a room

    The handlers [startBot] of [src/livekit/voice-bot.service.ts] registers on
    the room: tracks, participants who come and go, the end of an abandoned
    room, and the messages of the clients.  A message is modelled as the parsed
    JSON value with its fields at the types the protocol gives them; a field
    that is compared with [true] is a boolean.

    One event is one synchronous step.  The asynchronous functions a handler
    starts are listed in the result as calls; most of them are programs of
    [Handlers] and [Boards]. *)

From Stdlib Require Import ZArith QArith Lia.
From stdpp Require Import base strings option list.
From S2P Require Import Prelude JsString JsMap Json Records Timer Room Stats Audio Async Bot Respond Pipeline.

#[local] Open Scope Z_scope.

(* ------------------------------------------------------------------ *)
(** ** Data *)

Inductive TrackSource := SOURCE_MICROPHONE | SOURCE_CAMERA | SOURCE_SCREENSHARE | SOURCE_SCREENSHARE_AUDIO | SOURCE_UNKNOWN.
#[export] Instance track_source_eq : EqDecision TrackSource.
Proof. solve_decision. Defined.

Inductive Message :=
| vision_capture_response (requestId : Z) (imageBase64 : jsstr)
| TIMER_COMMAND (action : jsstr) (minutes warningMinutes : option Z)
| CLIENT_READY (continued : bool)
| AI_MUTE (muted : bool)
| HOST_MODE_ENABLE (enabled : bool) (hostIdentity : option jsstr)
| HOST_ADD (host : option (jsstr * option jsstr))
| HOST_REMOVE (id : option jsstr)
| WAKE_WORD_TOGGLE (enabled : bool)
| SPEAKING_TOGGLE (enabled : bool)
| HOST_AI_QUERY (query : jsstr)
| IDEA_MODE_START
| IDEA_MODE_END
| FLOWCHART_START
| FLOWCHART_END
| CDR_FLOWCHART_REQUEST (content : option jsstr) (preserveExisting : option bool) (requesterId : option jsstr)
| CDR_ANALYSIS_REQUEST (content : option jsstr) (preserveExisting : option bool) (requesterId : option jsstr)
| SKELETON_CODE_REQUEST (nodes edges : list json) (language requesterId : option jsstr)
| FLOWCHART_CONTEXT (nodes : list FlowNode) (edges : list FlowEdge) (summary : option jsstr)
| DESIGN_BOARD_START
| DESIGN_BOARD_END
| DESIGN_BOARD_DIAGRAMS_GENERATED (types : list jsstr) (mermaidCodes : jsmap jsstr jsstr)
| PDF_QUESTION (question context : option jsstr)
| BOARD_TRANSFORM_REQUEST (imageBase64 : option jsstr)
| QUIZ_GENERATE_REQUEST (questionCount : option Z) (quizType : option jsstr) (qaHistory : list json)
| QUIZ_EVALUATE_REQUEST (question : json) (userAnswer : option jsstr)
| PERPLEXITY_START
| PERPLEXITY_END
| ENTROPY_REPORT (message : json)
| STATE_UPDATE (message : json).

Inductive Role := host | participant.

(** The asynchronous functions that are started and the calls of other services *)
Inductive Call :=
| HandleAudioTrack (id : jsstr)
| HandleVisionCaptureResponse (requestId : Z) (image : jsstr)
| HandleTimerCommand (action : jsstr) (minutes warningMinutes : option Z)
| SyncTimer
| ParticipantJoined (id name : jsstr) (role : Role)
| ParticipantLeft (id : jsstr)
| GreetOnJoin
| ProcessHostQuery (query id : jsstr)
| HandleCDRFlowchartRequest (content : jsstr) (preserveExisting : bool) (requesterId : jsstr)
| HandleCDRAnalysisRequest (content : jsstr) (preserveExisting : bool) (requesterId : jsstr)
| HandleSkeletonCodeRequest (nodes edges : list json) (language requesterId : jsstr)
| ExplainGeneratedDiagrams (types : list jsstr) (mermaidCodes : jsmap jsstr jsstr)
| HandlePdfQuestion (question context requesterId : jsstr)
| HandleBoardTransform (image requesterId : jsstr)
| HandleQuizGenerate (questionCount : Z) (quizType : jsstr) (qaHistory : list json) (requesterId : jsstr)
| HandleQuizEvaluate (question : json) (userAnswer requesterId : jsstr)
| StartSession
| AddParticipant (id name : jsstr)
| EndSession
| HandlePerplexityMessage (message : json) (senderId : option jsstr)
| StopBotWithCleanup.

(** The entry of [activeRooms] and the participants the room knows *)
Record Site := mkSite { context : option RoomContext; remote : list Participant }.

(** [x || y] for texts *)
Definition or_text (x : option jsstr) (y : jsstr) : jsstr := match x with Some ((_ :: _) as s) => s | _ => y end.

(** [participant.name || participant.identity] *)
Definition display_name (p : Participant) : jsstr := or_text (Some (name p)) (identity p).

Definition human (p : Participant) : bool := negb (is_bot (identity p)).
Definition humans (s : Site) : list Participant := List.filter human (remote s).

(** [remoteParticipants.get(id)] *)
Definition find_participant (s : Site) (id : jsstr) : option Participant :=
  find_first (fun p => bool_decide (identity p = id)) (remote s).

(** [participant?.identity || 'unknown'] *)
Definition sender_id (sender : option Participant) : jsstr := or_text (identity <$> sender) (js "unknown").

(** Adding to and deleting from the set of hosts *)
Definition add_host (l : list jsstr) (id : jsstr) : list jsstr := if decide (id ∈ l) then l else l ++ [id].
Definition remove_host (l : list jsstr) (id : jsstr) : list jsstr := List.filter (fun x => negb (bool_decide (x = id))) l.

(** [participant?.identity && context.hostIdentities.has(participant.identity)] *)
Definition from_host (c : RoomContext) (sender : option Participant) : bool :=
  match sender with
  | Some p => negb (bool_decide (identity p = [])) && bool_decide (identity p ∈ hostIdentities c)
  | None => false
  end.

Definition MODE_CHANGE_DEBOUNCE_MS : Z := 500.
Definition OPEN_GRACE_PERIOD_MS : Z := 1000.
Definition DESIGN_GRACE_PERIOD_MS : Z := 1000.

(* ------------------------------------------------------------------ *)
(** ** Hosts *)

Definition name_of (s : Site) (id : jsstr) (other : jsstr) : jsstr :=
  match find_participant s id with Some p => or_text (Some (name p)) other | None => other end.

(** The participants sent when the host mode is enabled *)
Definition announce_participants (s : Site) (hosts : list jsstr) (hostId : jsstr) : list Call :=
  ParticipantJoined hostId (name_of s hostId hostId) host
  :: omap (fun p => if negb (bool_decide (identity p ∈ hosts)) && human p
                    then Some (ParticipantJoined (identity p) (display_name p) participant) else None) (remote s).

Definition host_mode (s : Site) (c : RoomContext) (enabled : bool) (hostIdentity : option jsstr) (sender : option Participant)
  : RoomContext * list Call :=
  let hostId := or_text hostIdentity (or_text (identity <$> sender) []) in
  match hostId with
  | [] => (c <| hostOnlyMode := enabled |>, [])
  | _ =>
    let hosts := add_host (hostIdentities c) hostId in
    (c <| hostOnlyMode := enabled |> <| hostIdentities := hosts |>, if enabled then announce_participants s hosts hostId else [])
  end.

(* ------------------------------------------------------------------ *)
(** ** The Perplexity mode *)

(** [!identity.includes('bot') && !identity.includes('agent')] *)
Definition learner (p : Participant) : bool := negb (includes (identity p) (js "bot")) && negb (includes (identity p) (js "agent")).

Definition perplexity_participants (s : Site) (sender : option Participant) : list Call :=
  let added := List.filter learner (remote s) in
  ((fun p => AddParticipant (identity p) (display_name p)) <$> added)
  ++ match sender with
     | Some p => if negb (bool_decide (identity p ∈ identity <$> added)) && learner p
                 then [AddParticipant (identity p) (display_name p)] else []
     | None => []
     end.

(* ------------------------------------------------------------------ *)
(** ** Messages *)

(** The second listener, with a context: greeting, hosts and their settings *)
Definition on_control_message (s : Site) (c : RoomContext) (m : Message) (sender : option Participant) : RoomContext * list Call :=
  match m with
  | CLIENT_READY continued =>
    if greetingDone c then (c, [])
    else ((if continued then c <| isContinuedMeeting := true |> else c) <| greetingDone := true |>, [GreetOnJoin])
  | AI_MUTE muted =>
    let c := c <| aiMuted := muted |> in
    (if muted then c <| shouldInterrupt := true |> else c, [])
  | HOST_MODE_ENABLE enabled hostIdentity => host_mode s c enabled hostIdentity sender
  | HOST_ADD (Some (id, other)) =>
    (c <| hostIdentities := add_host (hostIdentities c) id |>, [ParticipantJoined id (name_of s id (or_text other id)) host])
  | HOST_ADD None => (c, [])
  | HOST_REMOVE (Some ((_ :: _) as id)) =>
    (c <| hostIdentities := remove_host (hostIdentities c) id |>, [ParticipantJoined id (name_of s id id) participant])
  | HOST_REMOVE _ => (c, [])
  | WAKE_WORD_TOGGLE enabled => (if from_host c sender then c <| wakeWordEnabled := enabled |> else c, [])
  | SPEAKING_TOGGLE enabled => (if from_host c sender then c <| speakingEnabled := enabled |> else c, [])
  | HOST_AI_QUERY query =>
    (c, if hostOnlyMode c && from_host c sender then [ProcessHostQuery query (sender_id sender)] else [])
  | _ => (c, [])
  end.

(** The modes and boards *)
Definition on_board_message (c : RoomContext) (m : Message) (sender : option Participant) (now : Z) : RoomContext * list Call :=
  let unknown := sender_id sender in
  match m with
  | IDEA_MODE_START =>
    if ideaModeActive c then (c, [])
    else if now - lastIdeaModeChange c <? MODE_CHANGE_DEBOUNCE_MS then (c, [])
    else (c <| ideaModeActive := true |> <| lastIdeaModeChange := now |>, [])
  | IDEA_MODE_END =>
    if negb (ideaModeActive c) then (c, [])
    else if now - lastIdeaModeChange c <? MODE_CHANGE_DEBOUNCE_MS then (c, [])
    else (c <| ideaModeActive := false |> <| lastIdeaModeChange := now |>, [])
  | FLOWCHART_START =>
    if flowchartModeActive c then (c, [])
    else (c <| flowchartModeActive := true |> <| flowchartInitiator := Some unknown |> <| flowchartOpenTime := now |>, [])
  | FLOWCHART_END =>
    if negb (flowchartModeActive c) then (c, [])
    else if (0 <? flowchartOpenTime c) && (now - flowchartOpenTime c <? OPEN_GRACE_PERIOD_MS) then (c, [])
    else (c <| flowchartModeActive := false |> <| flowchartInitiator := None |> <| flowchartOpenTime := 0 |>, [])
  | FLOWCHART_CONTEXT nodes edges summary =>
    let c := c <| flowchartContext := Some (mkFlowchart nodes edges (or_text summary [])) |> in
    (match nodes with [] => c | _ => c <| flowchartModeActive := true |> end, [])
  | DESIGN_BOARD_START =>
    if designModeActive c then (c, []) else (c <| designModeActive := true |> <| designModeOpenTime := now |>, [])
  | DESIGN_BOARD_END =>
    if negb (designModeActive c) then (c, [])
    else if (0 <? designModeOpenTime c) && (now - designModeOpenTime c <? DESIGN_GRACE_PERIOD_MS) then (c, [])
    else (c <| designModeActive := false |> <| designModeOpenTime := 0 |> <| pendingDiagramExplanation := None |>, [])
  | DESIGN_BOARD_DIAGRAMS_GENERATED types codes =>
    match types with
    | _ :: _ => if designModeActive c
                then (c <| pendingDiagramExplanation := Some (mkExplanation types codes) |>, [ExplainGeneratedDiagrams types codes])
                else (c, [])
    | [] => (c, [])
    end
  | _ => (c, [])
  end.

(** Requests to services, and the Perplexity mode *)
Definition on_service_message (s : Site) (c : RoomContext) (m : Message) (sender : option Participant) : RoomContext * list Call :=
  let unknown := sender_id sender in
  match m with
  | CDR_FLOWCHART_REQUEST content preserveExisting requesterId =>
    (c, [HandleCDRFlowchartRequest (or_text content []) (default true preserveExisting) (or_text requesterId unknown)])
  | CDR_ANALYSIS_REQUEST content preserveExisting requesterId =>
    (c, [HandleCDRAnalysisRequest (or_text content []) (default true preserveExisting) (or_text requesterId unknown)])
  | SKELETON_CODE_REQUEST nodes edges language requesterId =>
    (c, [HandleSkeletonCodeRequest nodes edges (or_text language (js "python")) (or_text requesterId unknown)])
  | PDF_QUESTION question context => (c, [HandlePdfQuestion (or_text question []) (or_text context []) unknown])
  | BOARD_TRANSFORM_REQUEST image => (c, [HandleBoardTransform (or_text image []) unknown])
  | QUIZ_GENERATE_REQUEST count type history =>
    (c, [HandleQuizGenerate (or_default count 5) (or_text type (js "mixed")) history unknown])
  | QUIZ_EVALUATE_REQUEST question answer => (c, [HandleQuizEvaluate question (or_text answer []) unknown])
  | PERPLEXITY_START =>
    if perplexityModeActive c then (c, [])
    else (c <| perplexityModeActive := true |>, StartSession :: perplexity_participants s sender)
  | PERPLEXITY_END =>
    if negb (perplexityModeActive c) then (c, []) else (c <| perplexityModeActive := false |>, [EndSession])
  | ENTROPY_REPORT report | STATE_UPDATE report =>
    (c, if perplexityModeActive c then [HandlePerplexityMessage report (identity <$> sender)] else [])
  | _ => (c, [])
  end.

Definition on_mode_message (s : Site) (c : RoomContext) (m : Message) (sender : option Participant) (now : Z) : RoomContext * list Call :=
  match m with
  | CLIENT_READY _ | AI_MUTE _ | HOST_MODE_ENABLE _ _ | HOST_ADD _ | HOST_REMOVE _ | WAKE_WORD_TOGGLE _ | SPEAKING_TOGGLE _ | HOST_AI_QUERY _ =>
    on_control_message s c m sender
  | IDEA_MODE_START | IDEA_MODE_END | FLOWCHART_START | FLOWCHART_END | FLOWCHART_CONTEXT _ _ _
  | DESIGN_BOARD_START | DESIGN_BOARD_END | DESIGN_BOARD_DIAGRAMS_GENERATED _ _ => on_board_message c m sender now
  | _ => on_service_message s c m sender
  end.

(** The first listener *)
Definition on_request_message (m : Message) : list Call :=
  match m with
  | vision_capture_response requestId image => [HandleVisionCaptureResponse requestId image]
  | TIMER_COMMAND action minutes warn => [HandleTimerCommand action minutes warn]
  | _ => []
  end.

(* ------------------------------------------------------------------ *)
(** ** The events *)

(** A participant leaves a copy of itself in [remote] until the event that reports it. *)
Inductive RoomEvent :=
| TrackSubscribed (audio : bool) (source : TrackSource) (id : jsstr)
| TrackUnsubscribed (source : TrackSource)
| DataReceived (m : Message) (sender : option Participant)
| ParticipantConnected (p : Participant)
| ParticipantDisconnected (p : Participant)
| ShutdownFires
| Disconnected.

(** The update of [remoteParticipants] by the connection, before the listeners run *)
Definition joined (s : Site) (p : Participant) : Site :=
  mkSite (context s) (List.filter (fun q => negb (bool_decide (identity q = identity p))) (remote s) ++ [p]).
Definition left (s : Site) (p : Participant) : Site :=
  mkSite (context s) (List.filter (fun q => negb (bool_decide (identity q = identity p))) (remote s)).

Definition on_context (s : Site) (f : RoomContext -> RoomContext * list Call) : Site * list Call :=
  match context s with
  | Some c => let '(c, calls) := f c in (mkSite (Some c) (remote s), calls)
  | None => (s, [])
  end.

Definition on_connected (s : Site) (p : Participant) : Site * list Call :=
  let s := joined s p in
  if is_bot (identity p) then (s, [])
  else
    let '(s, calls) := on_context s (fun c =>
      (c <| shutdownTimeout := false |>,
       if hostOnlyMode c && negb (bool_decide (identity p ∈ hostIdentities c))
       then [ParticipantJoined (identity p) (display_name p) participant] else [])) in
    (s, calls ++ [SyncTimer]).

Definition on_disconnected (s : Site) (p : Participant) : Site * list Call :=
  let s := left s p in
  on_context s (fun c =>
    (let c := c <| participantSpeakingStats := map_delete (participantSpeakingStats c) (identity p) |> in
     match humans s with [] => c <| shutdownTimeout := true |> | _ => c end,
     if negb (is_bot (identity p)) && hostOnlyMode c then [ParticipantLeft (identity p)] else [])).

(** The callback of the shutdown timer, which fires when it is set.  The context it was set
    in and the one that is active when it fires are the same here: a bot that is started
    again while the timer of an earlier one runs is not covered. *)
Definition on_shutdown (s : Site) : Site * list Call :=
  match context s with
  | Some c =>
    if shutdownTimeout c then
      match humans s with
      | [] => (s, [StopBotWithCleanup])
      | _ => (mkSite (Some (c <| shutdownTimeout := false |>)) (remote s), [])
      end
    else (s, [])
  | None => (s, [])
  end.

Definition step (now : Z) (s : Site) (e : RoomEvent) : Site * list Call :=
  match e with
  | TrackSubscribed audio source id =>
    if audio && negb (is_bot id) && negb (bool_decide (source = SOURCE_SCREENSHARE_AUDIO)) then (s, [HandleAudioTrack id])
    else if bool_decide (source = SOURCE_SCREENSHARE)
    then on_context s (fun c => (c <| hasActiveScreenShare := true |>, []))
    else (s, [])
  | TrackUnsubscribed source =>
    if bool_decide (source = SOURCE_SCREENSHARE)
    then on_context s (fun c => (c <| hasActiveScreenShare := false |> <| isVisionMode := false |>, []))
    else (s, [])
  | DataReceived m sender =>
    let '(s', calls) := on_context s (fun c => on_mode_message s c m sender now) in
    (s', on_request_message m ++ calls)
  | ParticipantConnected p => on_connected s p
  | ParticipantDisconnected p => on_disconnected s p
  | ShutdownFires => on_shutdown s
  | Disconnected => (mkSite None (remote s), [])
  end.

Fixpoint run (s : Site) (l : list (Z * RoomEvent)) : Site * list (Z * RoomEvent * Site * Call) :=
  match l with
  | [] => (s, [])
  | (t, e) :: l =>
    let '(s1, calls) := step t s e in
    let '(s2, log) := run s1 l in
    (s2, ((fun c => (t, e, s, c)) <$> calls) ++ log)
  end.

(* ------------------------------------------------------------------ *)
(** ** Properties *)

Ltac message_cases m := destruct m; cbn [on_mode_message on_control_message on_board_message on_service_message]; unfold host_mode; repeat case_match.

(** What one event does to the context: nothing, one of the changes named, or
    its removal *)
Lemma step_context now s e (P : RoomContext -> RoomContext -> Prop) :
  (forall c, P c c) ->
  (forall c m sender, e = DataReceived m sender -> P c (on_mode_message s c m sender now).1) ->
  (forall c b, P c (c <| hasActiveScreenShare := b |>)) ->
  (forall c, P c (c <| hasActiveScreenShare := false |> <| isVisionMode := false |>)) ->
  (forall c b, P c (c <| shutdownTimeout := b |>)) ->
  (forall c l, P c (c <| participantSpeakingStats := l |>)) ->
  (forall c l, P c (c <| participantSpeakingStats := l |> <| shutdownTimeout := true |>)) ->
  match context s, context (step now s e).1 with
  | Some c, Some c' => P c c'
  | Some _, None => e = Disconnected
  | None, c' => c' = None
  end.
Proof.
  intros H0 H1 H2 H3 H4 H5 H6.
  destruct e as [audio source id|source|m sender|p|p| |]; cbn [step].
  - destruct (_ && _ && _), (bool_decide (source = SOURCE_SCREENSHARE)); unfold on_context;
      destruct (context s) eqn:E; cbn [fst context]; rewrite ?E; auto.
  - destruct (bool_decide (source = SOURCE_SCREENSHARE)); unfold on_context; destruct (context s) eqn:E; cbn [fst context]; rewrite ?E; auto.
  - unfold on_context. destruct (context s) as [c|] eqn:E; rewrite ?E; [|done].
    specialize (H1 c m sender eq_refl). destruct (on_mode_message s c m sender now). exact H1.
  - unfold on_connected, on_context, joined. cbn [context]. destruct (is_bot (identity p)), (context s) eqn:E; cbn [fst context]; auto.
  - unfold on_disconnected, on_context, left. cbn [context]. destruct (context s) eqn:E; [|done]. destruct (humans _); cbn [fst context]; auto.
  - unfold on_shutdown. destruct (context s) as [c|] eqn:E; cbn [fst]; rewrite ?E; [|done].
    destruct (shutdownTimeout c), (humans s); cbn [fst context]; rewrite ?E; auto.
  - cbn [fst context]. by destruct (context s).
Qed.

Lemma mode_message_toggles s c m sender now :
  let c' := (on_mode_message s c m sender now).1 in
  wakeWordEnabled c' <> wakeWordEnabled c \/ speakingEnabled c' <> speakingEnabled c -> from_host c sender = true.
Proof. message_cases m; simpl; intuition congruence. Qed.

Lemma from_host_spec c sender :
  from_host c sender = true -> exists p, sender = Some p /\ identity p <> [] /\ identity p ∈ hostIdentities c.
Proof.
  destruct sender as [p|]; [|discriminate]. simpl. intros [H1 H2]%andb_prop. exists p.
  apply negb_true_iff, bool_decide_eq_false in H1. by apply bool_decide_eq_true in H2.
Qed.

(** C21: rights of the host.  Of all events only a message of a participant who is
    listed as host changes whether the wake word or the spoken answers are
    enabled. *)
Theorem toggles_need_host (now : Z) (s : Site) (e : RoomEvent) (c c' : RoomContext) :
  context s = Some c -> context (step now s e).1 = Some c' ->
  wakeWordEnabled c' <> wakeWordEnabled c \/ speakingEnabled c' <> speakingEnabled c ->
  exists m p, e = DataReceived m (Some p) /\ identity p <> [] /\ identity p ∈ hostIdentities c.
Proof.
  intros Hc Hc'.
  assert (wakeWordEnabled c' <> wakeWordEnabled c \/ speakingEnabled c' <> speakingEnabled c ->
          exists m sender, e = DataReceived m sender /\ from_host c sender = true) as H.
  { pose proof (step_context now s e (fun c c' => wakeWordEnabled c' <> wakeWordEnabled c \/ speakingEnabled c' <> speakingEnabled c ->
      exists m sender, e = DataReceived m sender /\ from_host c sender = true)) as H.
    rewrite Hc, Hc' in H. apply H; try (intros; simpl in *; intuition congruence).
    intros c0 m sender -> Hd. exists m, sender. split; [done|]. by eapply mode_message_toggles. }
  intros (m & sender & -> & (p & -> & Hp)%from_host_spec)%H. by exists m, p.
Qed.

(** guests are hosts.  Whoever the hosts are, two messages of any participant
    suffice to enable or disable the wake word: the first makes the sender a
    host. *)
Theorem guest_takes_host_rights (s : Site) (c : RoomContext) (p : Participant) (enabled wake : bool) (t1 t2 : Z) :
  context s = Some c -> identity p <> [] ->
  exists c', context (run s [(t1, DataReceived (HOST_MODE_ENABLE enabled None) (Some p));
                             (t2, DataReceived (WAKE_WORD_TOGGLE wake) (Some p))]).1 = Some c' /\
    wakeWordEnabled c' = wake /\ identity p ∈ hostIdentities c'.
Proof.
  intros Hc Hp. cbn [run step]. unfold on_context. rewrite Hc. cbn [on_mode_message on_control_message]. unfold host_mode, or_text.
  cbn [fmap option_fmap option_map]. destruct (identity p) as [|x id] eqn:Hid; [done|].
  assert (x :: id ∈ add_host (hostIdentities c) (x :: id)) as Hin.
  { unfold add_host. case_decide; [done|]. apply elem_of_app. right. by apply list_elem_of_singleton. }
  cbn [context on_mode_message on_control_message from_host]. rewrite Hid.
  rewrite (bool_decide_eq_true_2 (x :: id ∈ _)) by exact Hin. eexists. split; [reflexivity|]. split; [reflexivity|exact Hin].
Qed.

(** *** The greeting *)

Definition is_greeting (c : Call) : bool := match c with GreetOnJoin => true | _ => false end.

Definition greetings (calls : list Call) : nat := length (List.filter is_greeting calls).

(** The greetings that are still to come *)
Definition to_greet (s : Site) : nat := match context s with Some c => if greetingDone c then 0 else 1 | None => 0 end.

Lemma greetings_app l1 l2 : greetings (l1 ++ l2) = (greetings l1 + greetings l2)%nat.
Proof. unfold greetings. by rewrite List.filter_app, length_app. Qed.

Lemma greetings_none l : Forall (fun c => is_greeting c = false) l -> greetings l = 0%nat.
Proof. unfold greetings. induction 1 as [|c l Hc _ IH]; simpl; [done|]. by rewrite Hc. Qed.

(** Calls that only inform other services *)
Definition informs (c : Call) : Prop :=
  match c with ParticipantJoined _ _ _ | StartSession | AddParticipant _ _ => True | _ => False end.

Lemma announce_informs s hosts hostId : Forall informs (announce_participants s hosts hostId).
Proof.
  constructor; [done|]. apply Forall_forall. intros c (p & _ & Hp)%list_elem_of_omap. case_match; by simplify_eq.
Qed.

Lemma perplexity_informs s sender : Forall informs (perplexity_participants s sender).
Proof.
  unfold perplexity_participants. apply Forall_app. split.
  - apply Forall_forall. intros c (p & -> & _)%list_elem_of_fmap. done.
  - repeat case_match; by repeat constructor.
Qed.

Lemma announce_no_greeting s hosts hostId : greetings (announce_participants s hosts hostId) = 0%nat.
Proof. apply greetings_none. eapply Forall_impl; [apply announce_informs|]. by intros []. Qed.

Lemma perplexity_no_greeting s sender : greetings (StartSession :: perplexity_participants s sender) = 0%nat.
Proof. apply greetings_none. constructor; [done|]. eapply Forall_impl; [apply perplexity_informs|]. by intros []. Qed.

Lemma mode_message_greets s c m sender now :
  let r := on_mode_message s c m sender now in
  (greetings r.2 + (if greetingDone r.1 then 0 else 1) = if greetingDone c then 0 else 1)%nat.
Proof.
  message_cases m; cbn [fst snd]; rewrite ?announce_no_greeting, ?perplexity_no_greeting; try reflexivity;
    simpl; repeat case_match; try reflexivity; simpl in *; congruence.
Qed.

Lemma step_greets now s e : (greetings (step now s e).2 + to_greet (step now s e).1 <= to_greet s)%nat.
Proof.
  unfold to_greet.
  destruct e as [audio source id|source|m sender|p|p| |]; cbn [step].
  - destruct (_ && _ && _), (bool_decide (source = SOURCE_SCREENSHARE)); unfold on_context; destruct (context s) eqn:E; simpl; rewrite ?E; simpl; lia.
  - destruct (bool_decide (source = SOURCE_SCREENSHARE)); unfold on_context; destruct (context s) eqn:E; simpl; rewrite ?E; simpl; lia.
  - unfold on_context. destruct (context s) as [c|] eqn:E; [|by cbn [fst snd]; rewrite E; destruct m].
    pose proof (mode_message_greets s c m sender now) as H. destruct (on_mode_message s c m sender now) as [c' calls].
    cbn [fst snd context] in *. rewrite greetings_app. replace (greetings (on_request_message m)) with 0%nat by (by destruct m). lia.
  - unfold on_connected, on_context, joined. cbn [context]. destruct (is_bot (identity p)), (context s) as [c|] eqn:E;
      cbn [fst snd context]; rewrite ?greetings_app; [simpl; lia|simpl; lia| |simpl; lia]. case_match; simpl; lia.
  - unfold on_disconnected, on_context, left. cbn [context]. destruct (context s) as [c|] eqn:E; [|simpl; lia].
    cbn [fst snd context]. destruct (humans _), (_ && _); simpl; lia.
  - unfold on_shutdown. destruct (context s) as [c|] eqn:E; [|simpl; rewrite E; lia].
    destruct (shutdownTimeout c), (humans s); simpl; rewrite ?E; simpl; lia.
  - simpl. lia.
Qed.

Lemma greetings_log (k : Z * RoomEvent * Site) calls :
  length (List.filter (fun x => is_greeting x.2) ((fun c => (k, c)) <$> calls)) = greetings calls.
Proof. unfold greetings. induction calls as [|c calls IH]; [done|]. cbn [fmap list_fmap List.filter snd]. destruct (is_greeting c); cbn [length]; lia. Qed.

(** one greeting.  However often clients report that they are ready, the bot
    greets at most once, and not again once it has. *)
Theorem greets_once (s : Site) (l : list (Z * RoomEvent)) :
  (length (List.filter (fun x => is_greeting x.2) (run s l).2) <= to_greet s)%nat.
Proof.
  revert s. induction l as [|[t e] l IH]; intros s; [simpl; lia|]. cbn [run].
  pose proof (step_greets t s e) as Hstep. destruct (step t s e) as [s1 calls]. specialize (IH s1).
  destruct (run s1 l) as [s2 log]. cbn [fst snd] in *. rewrite List.filter_app, length_app.
  pose proof (greetings_log (t, e, s) calls) as Hlog. lia.
Qed.

(** *** The idea mode *)

Definition idea_mode (s : Site) : option bool := ideaModeActive <$> context s.
Definition last_change (s : Site) : option Z := lastIdeaModeChange <$> context s.

Lemma step_idea now s e c c' :
  context s = Some c -> context (step now s e).1 = Some c' ->
  (ideaModeActive c' = ideaModeActive c /\ lastIdeaModeChange c' = lastIdeaModeChange c) \/
  (lastIdeaModeChange c' = now /\ MODE_CHANGE_DEBOUNCE_MS <= now - lastIdeaModeChange c).
Proof.
  intros Hc Hc'. pose proof (step_context now s e (fun c c' =>
    (ideaModeActive c' = ideaModeActive c /\ lastIdeaModeChange c' = lastIdeaModeChange c) \/
    (lastIdeaModeChange c' = now /\ MODE_CHANGE_DEBOUNCE_MS <= now - lastIdeaModeChange c))) as H.
  rewrite Hc, Hc' in H. apply H; try (intros; by left).
  intros c0 m sender _. message_cases m; cbn [fst]; try (by left); right; (split; [reflexivity|]); by apply Z.ltb_ge.
Qed.

Lemma run_cons s t e l : (run s ((t, e) :: l)).1 = (run (step t s e).1 l).1.
Proof. cbn [run]. destruct (step t s e) as [s1 calls]. cbn [fst]. by destruct (run s1 l). Qed.

Lemma step_gone t s e : context s = None -> context (step t s e).1 = None.
Proof. intros Hs. pose proof (step_context t s e (fun _ _ => True)) as H. rewrite Hs in H. by apply H. Qed.

Lemma run_gone s l : context s = None -> context (run s l).1 = None.
Proof. revert s. induction l as [|[t e] l IH]; intros s Hs; [done|]. rewrite run_cons. by apply IH, step_gone. Qed.

Lemma run_idea s l c c' :
  context s = Some c -> context (run s l).1 = Some c' -> lastIdeaModeChange c <= lastIdeaModeChange c'.
Proof.
  revert s c. induction l as [|[t e] l IH]; intros s c Hc.
  - cbn [run fst]. rewrite Hc. by intros [= ->].
  - rewrite run_cons. intros Hc'. destruct (context (step t s e).1) as [c1|] eqn:Hc1.
    + specialize (IH _ _ Hc1 Hc'). unfold MODE_CHANGE_DEBOUNCE_MS in *.
      destruct (step_idea t s e c c1 Hc Hc1) as [[_ <-]|[<- Hd]]; [done|]. unfold MODE_CHANGE_DEBOUNCE_MS in Hd. lia.
    + rewrite (run_gone _ _ Hc1) in Hc'. discriminate.
Qed.

(** the idea mode is debounced.  Between two changes of the idea mode, with
    any events in between, lie at least 500 ms. *)
Theorem idea_mode_debounced (s s1 s2 : Site) (t1 t2 : Z) (e1 e2 : RoomEvent) (between : list (Z * RoomEvent)) (c0 c1 c2 c3 : RoomContext) :
  context s = Some c0 -> s1 = (step t1 s e1).1 -> context s1 = Some c1 -> ideaModeActive c1 <> ideaModeActive c0 ->
  s2 = (run s1 between).1 -> context s2 = Some c2 -> context (step t2 s2 e2).1 = Some c3 -> ideaModeActive c3 <> ideaModeActive c2 ->
  500 <= t2 - t1.
Proof.
  intros H0 -> H1 Hd1 -> H2 H3 Hd2.
  destruct (step_idea _ _ _ _ _ H0 H1) as [[? _]|[Ht1 _]]; [congruence|].
  destruct (step_idea _ _ _ _ _ H2 H3) as [[? _]|[_ Ht2]]; [congruence|].
  pose proof (run_idea _ _ _ _ H1 H2). unfold MODE_CHANGE_DEBOUNCE_MS in Ht2. lia.
Qed.

(** *** The end of an abandoned room *)

(** The timer is only set while no human participant is there. *)
Definition shutdown_ok (s : Site) : Prop := forall c, context s = Some c -> shutdownTimeout c = true -> humans s = [].

Lemma mode_message_shutdown s c m sender now : shutdownTimeout (on_mode_message s c m sender now).1 = shutdownTimeout c.
Proof. message_cases m; reflexivity. Qed.

Lemma filter_filter_nil {A} (f g : A -> bool) l : List.filter f l = [] -> List.filter f (List.filter g l) = [].
Proof.
  induction l as [|x l IH]; [done|]. simpl. destruct (f x) eqn:Hx; [done|]. intros H. destruct (g x); simpl; rewrite ?Hx; auto.
Qed.

Lemma shutdown_ok_same s c c' : context s = Some c -> shutdownTimeout c' = shutdownTimeout c -> shutdown_ok s -> shutdown_ok (mkSite (Some c') (remote s)).
Proof. intros Hc Ht Hs ? [= <-] H. apply (Hs c Hc). congruence. Qed.

Lemma step_shutdown_ok t s e : shutdown_ok s -> shutdown_ok (step t s e).1.
Proof.
  intros Hs. destruct e as [audio source id|source|m sender|p|p| |]; cbn [step].
  1,2: destruct (bool_decide (source = SOURCE_SCREENSHARE)), (context s) as [c|] eqn:E; unfold on_context; rewrite ?E;
    try destruct (_ && _ && _); try exact Hs; by eapply shutdown_ok_same.
  - unfold on_context. destruct (context s) as [c|] eqn:E; [|exact Hs].
    pose proof (mode_message_shutdown s c m sender t) as Hm. destruct (on_mode_message s c m sender t) as [c' calls].
    by eapply shutdown_ok_same.
  - unfold on_connected, on_context, joined. cbn [context]. destruct (is_bot (identity p)) eqn:Hb.
    + intros c' Hc' Ht. specialize (Hs c' Hc' Ht). unfold humans. cbn [fst remote]. rewrite List.filter_app. simpl. unfold human at 2.
      rewrite Hb, (filter_filter_nil _ _ _ Hs). done.
    + destruct (context s); intros ? [= <-] Ht; discriminate.
  - unfold on_disconnected, on_context, left. cbn [context]. destruct (context s) as [c|] eqn:E; [|done].
    intros ? [= <-] Ht. cbn [fst]. unfold humans in *. cbn [remote] in *.
    destruct (List.filter human (List.filter _ (remote s))) eqn:Hh; [done|]. rewrite <- Hh. apply filter_filter_nil, (Hs c E), Ht.
  - unfold on_shutdown. destruct (context s) as [c|] eqn:E; [|exact Hs].
    destruct (shutdownTimeout c), (humans s); try exact Hs. intros ? [= <-] Ht. discriminate.
  - intros ? [=].
Qed.

Definition is_stop (c : Call) : bool := match c with StopBotWithCleanup => true | _ => false end.

Lemma mode_message_stops s c m sender now : Forall (fun x => is_stop x = false) (on_mode_message s c m sender now).2.
Proof.
  message_cases m; cbn [snd]; try (by repeat constructor).
  - eapply Forall_impl; [apply announce_informs|]. by intros [].
  - constructor; [done|]. eapply Forall_impl; [apply perplexity_informs|]. by intros [].
Qed.

Lemma step_stops t s e : StopBotWithCleanup ∈ (step t s e).2 -> e = ShutdownFires /\ humans s = [].
Proof.
  assert (forall l, Forall (fun x => is_stop x = false) l -> StopBotWithCleanup ∈ l -> e = ShutdownFires /\ humans s = []) as Hno.
  { intros l Hl Hin. by pose proof (proj1 (Forall_forall _ l) Hl _ Hin). }
  destruct e as [audio source id|source|m sender|p|p| |]; cbn [step]; unfold on_connected, on_disconnected, on_context.
  6: { unfold on_shutdown. destruct (context s) as [c|]; [|by intros ?%elem_of_nil].
       destruct (shutdownTimeout c); [|by intros ?%elem_of_nil]. destruct (humans s) eqn:Hh; [done|by intros ?%elem_of_nil]. }
  all: apply Hno.
  - repeat case_match; by repeat constructor.
  - repeat case_match; by repeat constructor.
  - destruct (context s) as [c|]; [|destruct m; by repeat constructor].
    pose proof (mode_message_stops s c m sender t) as H. destruct (on_mode_message s c m sender t). cbn [snd] in *.
    apply Forall_app. split; [destruct m; by repeat constructor|exact H].
  - repeat case_match; simplify_eq; cbn [snd]; try (by repeat constructor); apply Forall_app; split; repeat case_match; by repeat constructor.
  - unfold left. cbn [context]. destruct (context s); cbn [snd]; [case_match|]; by repeat constructor.
  - by constructor.
Qed.

(** C20: only an abandoned room is closed.  In every execution the shutdown timer
    is set only while no human participant is in the room, so that the return of
    a participant always cancels it, and the room is closed only when the timer
    fires then. *)
Theorem closes_only_abandoned_rooms (s : Site) (l : list (Z * RoomEvent)) :
  shutdown_ok s ->
  shutdown_ok (run s l).1 /\
  forall t e s1, (t, e, s1, StopBotWithCleanup) ∈ (run s l).2 -> e = ShutdownFires /\ humans s1 = [].
Proof.
  revert s. induction l as [|[t e] l IH]; intros s Hs; [split; [exact Hs|intros ??? H; by apply elem_of_nil in H]|].
  rewrite run_cons. destruct (IH _ (step_shutdown_ok t s e Hs)) as [H1 H2]. split; [exact H1|].
  intros t' e' s1. cbn [run]. destruct (step t s e) as [s' calls] eqn:Hstep. cbn [fst] in *. destruct (run s' l) as [s2 log] eqn:Hrun.
  cbn [snd] in *. rewrite elem_of_app. intros [Hin|Hin]; [|by eapply H2]. apply list_elem_of_fmap in Hin as (c & [= -> -> -> <-] & Hc).
  apply (step_stops t). by rewrite Hstep.
Qed.

(** *** Muting before the greeting *)

(** An interruption is requested and nobody has seen it. *)
Definition interrupted (b : Bot) : Prop := active b = true /\ shouldInterrupt (ctx b) = true.

Lemma wp_interrupted_frames Rely index startTime frames (Q : outcome jsstr unit -> Bot -> Prop) b :
  interrupted b -> (forall b', played b' = played b -> Q (Return tt) b') -> wp Rely (send_frames index startTime frames) Q b.
Proof.
  intros [Ha Hi] HQ. destruct frames; cbn [send_frames]; apply wp_get; rewrite Ha, Hi; apply wp_modify; intros t; by apply HQ.
Qed.

(** a greeting that is not heard.  When the bot is muted and unmuted again
    before it has greeted, the interruption requested for the audio of that
    moment stays set, and the greeting ends before its first frame. *)
Theorem unmuted_greeting_is_silent (s : Site) (c : RoomContext) (p q : option Participant) (t1 t2 : Z)
  (Rely : Bot -> Bot -> Prop) (b b' : Bot) (o : outcome jsstr unit) :
  context s = Some c ->
  context (run s [(t1, DataReceived (AI_MUTE true) p); (t2, DataReceived (AI_MUTE false) q)]).1 = Some (ctx b) -> active b = true ->
  (forall b b', Rely b b' -> interrupted b -> interrupted b' /\ played b' = played b) ->
  exec Rely b greetOnJoin b' o -> played b' = played b.
Proof.
  intros Hc. cbn [run step]. unfold on_context. rewrite Hc. cbn [on_mode_message on_control_message context]. intros [= Hctx] Ha Hrely.
  assert (aiMuted (ctx b) = false) as Hm by (by rewrite <- Hctx). assert (interrupted b) as Hi by (split; [done|by rewrite <- Hctx]).
  clear Hctx Hc. apply (wp_sound _ _ (fun _ b' => played b' = played b)).
  apply wp_get. rewrite Ha, Hm. cbn [negb]. apply wp_try, wp_bind. apply wp_modify. intros t. apply wp_bind, wp_await.
  intros r b1 H1. apply Hrely in H1 as [Hi1 Hp1]; [|exact Hi]. destruct r as [pcm|e]; [|by apply wp_modify].
  assert (wp Rely (match pcm with [] => Ret tt | _ => publishAudio pcm end)
    (fun o b2 => o = Return tt /\ played b2 = played b) b1) as Hw.
  { destruct pcm; [done|]. apply wp_now. intros t1'. apply wp_interrupted_frames; [done|]. intros b2 H2. split; [done|]. by rewrite H2. }
  apply wp_bind. eapply wp_mono; [|exact Hw]. intros o2 b2 [-> H2]. apply wp_bind, wp_modify. intros t3. apply wp_modify. intros t4. exact H2.
Qed.

(* ------------------------------------------------------------------ *)
(** ** Witnesses *)

Definition lee : Participant := mkParticipant (js "lee") (js "Lee").
Definition site : Site := mkSite (Some (initial_context None 0)) [lee].

Definition hosted : RoomContext := (initial_context None 0) <| hostIdentities := [js "lee"] |>.

Lemma toggles_need_host_witness :
  exists c', context (step 1 (mkSite (Some hosted) [lee]) (DataReceived (SPEAKING_TOGGLE true) (Some lee))).1 = Some c' /\
    exists m p, DataReceived (SPEAKING_TOGGLE true) (Some lee) = DataReceived m (Some p) /\ identity p <> [] /\ identity p ∈ hostIdentities hosted.
Proof.
  eexists. split; [reflexivity|].
  eapply (toggles_need_host 1 (mkSite (Some hosted) [lee]) _ hosted); [reflexivity|reflexivity|by right].
Defined.

Lemma guest_takes_host_rights_witness :
  exists c', context (run site [(1, DataReceived (HOST_MODE_ENABLE false None) (Some lee));
                                (2, DataReceived (WAKE_WORD_TOGGLE true) (Some lee))]).1 = Some c' /\ wakeWordEnabled c' = true.
Proof.
  destruct (guest_takes_host_rights site (initial_context None 0) lee false true 1 2) as (c' & H & Hw & _); [reflexivity|discriminate|].
  by exists c'.
Defined.

Lemma idea_mode_debounced_witness : 500 <= 1400 - 700.
Proof.
  eapply (idea_mode_debounced site _ _ 700 1400 (DataReceived IDEA_MODE_START None) (DataReceived IDEA_MODE_END None)
    [(800, DataReceived IDEA_MODE_END None)]); [reflexivity|reflexivity|reflexivity| |reflexivity|reflexivity|reflexivity|];
    vm_compute; discriminate.
Defined.

Lemma closes_only_abandoned_rooms_witness :
  shutdown_ok site /\
  shutdown_ok (run site [(1, ParticipantDisconnected lee); (2, ParticipantConnected lee); (3, ParticipantDisconnected lee); (4, ShutdownFires)]).1.
Proof.
  assert (shutdown_ok site) as H by (intros ? [= <-] ?; discriminate). split; [exact H|].
  by apply (closes_only_abandoned_rooms site).
Defined.

Definition remuted : Bot :=
  mkBot ((initial_context None 0) <| aiMuted := true |> <| shouldInterrupt := true |> <| aiMuted := false |>) true false Timer.initial [].

Lemma unmuted_greeting_is_silent_witness :
  exists b' o, exec eq remuted greetOnJoin b' o /\ played b' = [].
Proof.
  eexists _, _. split; [apply sample_exec|].
  apply (unmuted_greeting_is_silent site (initial_context None 0) None None 1 2 eq remuted _ (sample_run remuted greetOnJoin).2);
    [reflexivity|reflexivity|reflexivity|by intros ? ? -> ?|apply sample_exec].
Defined.
