(* ===== verification/Flowchart.v ===== *)
(** * Diagrams from requirement documents

    [parseCDRToFlowchart], [extractDomainModel], [generateERDiagram] and
    [generateSkeletonCode] of [src/livekit/voice-bot.service.ts], without the
    requests to the language model: the prompts, and what is made of an answer.

    Identifiers of nodes and the ends of edges are texts, as the prompt demands;
    the messages of errors the runtime raises are arguments.  The breadth-first
    search that places the nodes runs with fuel; one round for each edge and one
    for the start are enough. *)

From Stdlib Require Import ZArith QArith Lia.
From stdpp Require Import base strings option sorting list.
From S2P Require Import Prelude JsString JsMap Json Regex Room.

#[local] Open Scope Z_scope.

(* ------------------------------------------------------------------ *)
(** ** The answer *)

Record RawNode := mkRaw { raw_id : jsstr; raw_content : json; raw_type : jsstr }.
Record CdrNode := mkCdr { c_id : jsstr; c_content : jsstr; c_type : jsstr; order : Z; c_depth : Z; c_branch : Z }.
Record CdrEdge := mkCdrEdge { e_from : jsstr; e_to : jsstr; e_label : option json }.

Definition FLOWCHART_NODE_TYPES : list jsstr := js <$> ["start"; "end"; "process"; "decision"; "io"].

(** A text that is not empty *)
Definition text_prop (v : json) (key : string) : option jsstr :=
  match prop v (js key) with Some (JStr ((_ :: _) as s)) => Some s | _ => None end.

(** [n && n.id && n.content && FLOWCHART_NODE_TYPES.includes(n.nodeType)] *)
Definition raw_node (v : json) : option RawNode :=
  id ← text_prop v "id"; content ← prop v (js "content"); type ← text_prop v "nodeType";
  if json_truthy (Some content) && bool_decide (type ∈ FLOWCHART_NODE_TYPES) then Some (mkRaw id content type) else None.

(** [e && e.from && e.to] *)
Definition raw_edge (v : json) : option CdrEdge :=
  from ← text_prop v "from"; to ← text_prop v "to"; Some (mkCdrEdge from to (prop v (js "label"))).

(* ------------------------------------------------------------------ *)
(** ** Placing the nodes *)

(** [idx === 0 ? -1 : idx === 1 ? 1 : idx - 1] *)
Definition branchOffset (idx : nat) : Z :=
  match idx with O => -1 | 1%nat => 1 | _ => Z.of_nat idx - 1 end.

(** The entries a node adds to the queue *)
Definition successors (edges : list CdrEdge) (id : jsstr) (depth branch : Z) : list (jsstr * Z * Z) :=
  let outEdges := List.filter (fun e => bool_decide (e_from e = id)) edges in
  match outEdges with
  | [e] => [(e_to e, depth + 1, branch)]
  | _ => imap (fun idx e => (e_to e, depth + 1, branchOffset idx)) outEdges
  end.

(** [while (queue.length > 0)]: depth and branch of the nodes that were visited,
    and the rest of the queue *)
Fixpoint bfs (fuel : nat) (edges : list CdrEdge) (queue : list (jsstr * Z * Z)) (seen : jsmap jsstr (Z * Z))
  : list (jsstr * Z * Z) * jsmap jsstr (Z * Z) :=
  match fuel, queue with
  | S fuel, (id, depth, branch) :: queue =>
    if map_has seen id then bfs fuel edges queue seen
    else bfs fuel edges (queue ++ successors edges id depth branch) (map_set seen id (depth, branch))
  | _, _ => (queue, seen)
  end.

(** [inDegree.get(id) === 0] for a node *)
Definition no_incoming (edges : list CdrEdge) (id : jsstr) : bool := negb (existsb (fun e => bool_decide (e_to e = id)) edges).

Definition startNodeId (nodes : list RawNode) (edges : list CdrEdge) : option jsstr :=
  match find_first (fun n => bool_decide (raw_type n = js "start")) nodes with
  | Some n => Some (raw_id n)
  | None => raw_id <$> find_first (fun n => no_incoming edges (raw_id n)) nodes
  end.

Definition layout (nodes : list RawNode) (edges : list CdrEdge) : jsmap jsstr (Z * Z) :=
  match startNodeId nodes edges with
  | Some id => (bfs (S (length edges)) edges [(id, 0, 0)] []).2
  | None => []
  end.

Definition place (number_text : Q -> jsstr) (nodes : list RawNode) (edges : list CdrEdge) : list CdrNode :=
  let positions := layout nodes edges in
  imap (fun idx n =>
    let p := default (Z.of_nat idx, 0) (map_get positions (raw_id n)) in
    mkCdr (raw_id n) (slice_to 30 (json_text number_text (raw_content n))) (raw_type n) (Z.of_nat idx) p.1 p.2) nodes.

(* ------------------------------------------------------------------ *)
(** ** Distance *)

(** A path of [n] edges *)
Inductive path (edges : list CdrEdge) : jsstr -> nat -> jsstr -> Prop :=
| path_here a : path edges a 0 a
| path_step a n e : path edges a n (e_from e) -> e ∈ edges -> path edges a (S n) (e_to e).

Definition shortest (edges : list CdrEdge) (a b : jsstr) (n : nat) : Prop :=
  path edges a n b /\ forall m, path edges a m b -> (n <= m)%nat.

Definition out_edges (edges : list CdrEdge) (id : jsstr) : list CdrEdge := List.filter (fun e => bool_decide (e_from e = id)) edges.

Lemma elem_out_edges edges id e : e ∈ out_edges edges id <-> e ∈ edges /\ e_from e = id.
Proof. unfold out_edges. rewrite list_elem_of_In, List.filter_In, <- list_elem_of_In, bool_decide_eq_true. done. Qed.

Lemma length_successors edges id d b : length (successors edges id d b) = length (out_edges edges id).
Proof. unfold successors. fold (out_edges edges id). destruct (out_edges edges id) as [|e [|e' l]]; [done..|]. apply length_imap. Qed.

(** The queue gets the ends of the edges of a node, all one deeper. *)
Lemma elem_successors edges id d b x :
  x ∈ successors edges id d b -> exists e b', e ∈ edges /\ e_from e = id /\ x = (e_to e, d + 1, b').
Proof.
  unfold successors. fold (out_edges edges id). intros Hx.
  assert (exists e b', e ∈ out_edges edges id /\ x = (e_to e, d + 1, b')) as (e & b' & He & ->).
  { destruct (out_edges edges id) as [|e [|e' l]]; [by apply elem_of_nil in Hx|apply list_elem_of_singleton in Hx as ->; exists e, b; split; [left|done]|].
    apply list_elem_of_lookup in Hx as [k Hk]. rewrite list_lookup_imap in Hk.
    destruct ((e :: e' :: l) !! k) as [e0|] eqn:E; [|discriminate]. simplify_eq/=. exists e0, (branchOffset k). split; [|done].
    by eapply list_elem_of_lookup_2. }
  apply elem_out_edges in He as [He Hf]. by exists e, b'.
Qed.

Lemma successors_elem edges d b e : e ∈ edges -> exists b', (e_to e, d + 1, b') ∈ successors edges (e_from e) d b.
Proof.
  intros He. assert (e ∈ out_edges edges (e_from e)) as Hin by (by apply elem_out_edges).
  unfold successors. fold (out_edges edges (e_from e)). revert Hin. destruct (out_edges edges (e_from e)) as [|e1 [|e2 l]].
  - by intros ?%elem_of_nil.
  - intros ->%list_elem_of_singleton. exists b. by left.
  - intros [k Hk]%list_elem_of_lookup. exists (branchOffset k). apply list_elem_of_lookup. exists k.
    by rewrite list_lookup_imap, Hk.
Qed.

Definition depth_of (x : jsstr * Z * Z) : Z := x.1.2.
Definition next_to (x y : jsstr * Z * Z) : Prop := depth_of x <= depth_of y <= depth_of x + 1.

Lemma same_depth_sorted d l : (forall x, x ∈ l -> depth_of x = d) -> StronglySorted next_to l.
Proof.
  induction l as [|x l IH]; intros Hl; constructor.
  - apply IH. intros y Hy. apply Hl. by right.
  - apply Forall_forall. intros y Hy. unfold next_to. rewrite (Hl x), (Hl y); [lia|by right|by left].
Qed.

(** The state of the search from [a] *)
Record searching (edges : list CdrEdge) (a : jsstr) (queue : list (jsstr * Z * Z)) (seen : jsmap jsstr (Z * Z)) : Prop := {
  s_queue x d b : (x, d, b) ∈ queue -> exists n, d = Z.of_nat n /\ path edges a n x;
  s_seen x d b : map_get seen x = Some (d, b) -> exists n, d = Z.of_nat n /\ path edges a n x;
  s_sorted : StronglySorted next_to queue;
  s_before x d b y : map_get seen x = Some (d, b) -> y ∈ queue -> d <= depth_of y;
  s_start : exists b, map_get seen a = Some (0, b) \/ (a, 0, b) ∈ queue;
  s_edge e d b : e ∈ edges -> map_get seen (e_from e) = Some (d, b) ->
    (exists d' b', map_get seen (e_to e) = Some (d', b') /\ d' <= d + 1) \/ exists b', (e_to e, d + 1, b') ∈ queue;
}.

Lemma searching_init edges a : searching edges a [(a, 0, 0)] [].
Proof.
  split; try done.
  - intros x d b [= -> -> ->]%list_elem_of_singleton. exists 0%nat. split; [done|constructor].
  - by repeat constructor.
  - exists 0. right. by left.
Qed.

(** An entry of a node that was seen is dropped. *)
Lemma searching_drop edges a id d b queue seen :
  map_has seen id = true -> searching edges a ((id, d, b) :: queue) seen -> searching edges a queue seen.
Proof.
  intros [[d0 b0] Hid]%map_has_true H. assert (d0 <= d) as Hle by (apply (s_before _ _ _ _ H _ _ _ (id, d, b) Hid); by left).
  split.
  - intros x d' b' Hx. eapply s_queue; [exact H|by right].
  - apply (s_seen _ _ _ _ H).
  - by pose proof (s_sorted _ _ _ _ H) as [Hs _]%StronglySorted_inv.
  - intros x d' b' y Hx Hy. eapply s_before; [exact H|exact Hx|by right].
  - destruct (s_start _ _ _ _ H) as [b' [Hs|Hin]]; [eauto|]. apply elem_of_cons in Hin as [[= -> <- ->]|Hin]; [|eauto].
    destruct (s_seen _ _ _ _ H _ _ _ Hid) as (n & -> & _). exists b0. left. rewrite Hid. repeat f_equal. lia.
  - intros e d' b' He Hf. destruct (s_edge _ _ _ _ H e d' b' He Hf) as [?|[b1 Hin]]; [by left|].
    apply elem_of_cons in Hin as [[= -> <- ->]|Hin]; [|eauto]. left. eauto.
Qed.

(** A new node is seen at the depth of its first entry. *)
Lemma searching_visit edges a id d b queue seen :
  map_has seen id = false -> searching edges a ((id, d, b) :: queue) seen ->
  searching edges a (queue ++ successors edges id d b) (map_set seen id (d, b)).
Proof.
  intros Hnew H.
  assert (map_get seen id = None) as Hid.
  { destruct (map_get seen id) as [v|] eqn:E; [|done]. assert (map_has seen id = true) by (apply map_has_true; eauto). congruence. }
  destruct (s_queue _ _ _ _ H id d b) as (n & -> & Hn); [by left|].
  pose proof (s_sorted _ _ _ _ H) as [Hsort Hhead]%StronglySorted_inv. rewrite Forall_forall in Hhead.
  split.
  - intros x d' b' [Hx|Hx]%elem_of_app; [eapply s_queue; [exact H|by right]|].
    apply elem_successors in Hx as (e & b1 & He & Hf & [= -> -> ->]). exists (S n). split; [lia|]. apply path_step; [by rewrite Hf|done].
  - intros x d' b'. rewrite map_get_set. case_decide as Hx; [intros [= <- <-]; subst; eauto|apply (s_seen _ _ _ _ H)].
  - apply StronglySorted_app_2; [|exact Hsort|apply (same_depth_sorted (Z.of_nat n + 1))].
    + intros x y Hx (e & b1 & _ & _ & ->)%elem_successors. specialize (Hhead x Hx). unfold next_to, depth_of in *. simpl in *. lia.
    + by intros x (e & b1 & _ & _ & ->)%elem_successors.
  - intros x d' b' y. rewrite map_get_set, elem_of_app. intros Hx [Hy|Hy].
    + case_decide; [simplify_eq; apply (Hhead y Hy)|eapply s_before; [exact H|exact Hx|by right]].
    + apply elem_successors in Hy as (e & b1 & _ & _ & ->). unfold depth_of. simpl. case_decide; [simplify_eq; lia|].
      pose proof (s_before _ _ _ _ H x d' b' _ Hx ltac:(left)) as Hb. unfold depth_of in Hb. simpl in Hb. lia.
  - destruct (s_start _ _ _ _ H) as [b' [Hs|Hin]].
    + exists b'. left. rewrite map_get_set_ne; [done|]. congruence.
    + apply elem_of_cons in Hin as [[= -> Hz ->]|Hin]; [exists b; left; rewrite map_get_set_eq; congruence|exists b'; right; apply elem_of_app; auto].
  - intros e d' b' He. rewrite map_get_set. case_decide as Hf.
    + intros [= <- <-]. right. subst id. destruct (successors_elem edges (Z.of_nat n) b e He) as [b1 Hb1]. exists b1. apply elem_of_app. auto.
    + intros Hfrom. destruct (s_edge _ _ _ _ H e d' b' He Hfrom) as [(d1 & b1 & Hto & Hle)|[b1 Hin]].
      * left. rewrite map_get_set_ne by congruence. eauto.
      * apply elem_of_cons in Hin as [[= -> <- ->]|Hin]; [left; rewrite map_get_set_eq; eauto with lia|right; exists b1; apply elem_of_app; auto].
Qed.

(** *** The search ends *)

(** Edges of nodes that were not seen *)
Definition unseen (edges : list CdrEdge) (seen : jsmap jsstr (Z * Z)) : list CdrEdge :=
  List.filter (fun e => negb (map_has seen (e_from e))) edges.

Lemma unseen_visit edges seen id v :
  map_has seen id = false -> (length (unseen edges (map_set seen id v)) + length (out_edges edges id) = length (unseen edges seen))%nat.
Proof.
  intros Hid. assert (forall x, map_has (map_set seen id v) x = bool_decide (x = id) || map_has seen x) as Hset.
  { intros x. unfold map_has. rewrite map_get_set. case_decide; case_bool_decide; subst; done. }
  unfold unseen, out_edges. induction edges as [|e edges IH]; [done|]. simpl. rewrite Hset.
  case_bool_decide as He; simpl; [rewrite He, Hid; simpl; lia|]. destruct (map_has seen (e_from e)); simpl; lia.
Qed.

Lemma bfs_spec edges a fuel queue seen :
  (length queue + length (unseen edges seen) <= fuel)%nat -> searching edges a queue seen ->
  (bfs fuel edges queue seen).1 = [] /\ searching edges a [] (bfs fuel edges queue seen).2.
Proof.
  revert queue seen. induction fuel as [|fuel IH]; intros [|[[id d] b] queue] seen Hf Hs; simpl in *; try lia; try done.
  destruct (map_has seen id) eqn:Hid.
  - apply IH; [lia|]. by eapply searching_drop.
  - apply IH; [|by apply searching_visit]. rewrite length_app, length_successors.
    pose proof (unseen_visit edges seen id (d, b) Hid). lia.
Qed.

Lemma unseen_length edges : length (unseen edges []) = length edges.
Proof. induction edges as [|e edges IH]; [done|]. change (S (length (unseen edges [])) = S (length edges)). by rewrite IH. Qed.

Lemma searched_reaches edges a seen n x :
  searching edges a [] seen -> path edges a n x -> exists d b, map_get seen x = Some (d, b) /\ d <= Z.of_nat n.
Proof.
  intros Hs. induction 1 as [a|a n e Hp IH He].
  - destruct (s_start _ _ _ _ Hs) as [b [Hb|Hb]]; [exists 0, b; split; [done|lia]|by apply elem_of_nil in Hb].
  - destruct (IH Hs) as (d & b & Hd & Hle). destruct (s_edge _ _ _ _ Hs e d b He Hd) as [(d' & b' & Hd' & Hle')|[b' Hb']].
    + exists d', b'. split; [done|lia].
    + by apply elem_of_nil in Hb'.
Qed.

Lemma searched_shortest edges a seen x d :
  searching edges a [] seen -> (exists b, map_get seen x = Some (d, b)) <-> (exists n, d = Z.of_nat n /\ shortest edges a x n).
Proof.
  intros Hs. split.
  - intros [b Hx]. destruct (s_seen _ _ _ _ Hs x d b Hx) as (n & -> & Hn). exists n. split; [done|]. split; [done|].
    intros m (d' & b' & Hd' & Hle)%(searched_reaches _ _ _ _ _ Hs). rewrite Hx in Hd'. simplify_eq. lia.
  - intros (n & -> & Hn & Hmin). destruct (searched_reaches _ _ _ _ _ Hs Hn) as (d & b & Hd & Hle). exists b. rewrite Hd.
    destruct (s_seen _ _ _ _ Hs x d b Hd) as (m & -> & Hm). specialize (Hmin m Hm). repeat f_equal. lia.
Qed.

(** the search ends.  With one round for each edge and one for the start the
    queue is empty, for every graph, cycles included. *)
Theorem layout_search_ends (edges : list CdrEdge) (start : jsstr) : (bfs (S (length edges)) edges [(start, 0, 0)] []).1 = [].
Proof. apply (bfs_spec edges start); [rewrite unseen_length; simpl; lia|apply searching_init]. Qed.

(** C6: the depth of a node is its distance.  Every node that can be reached from
    the start of the chart is drawn at the depth that is the smallest number of
    edges from the start, and every other node at its index. *)
Theorem layout_depth_is_distance (number_text : Q -> jsstr) (nodes : list RawNode) (edges : list CdrEdge) (a : jsstr) (idx : nat) (n : RawNode) :
  startNodeId nodes edges = Some a -> nodes !! idx = Some n ->
  exists p, place number_text nodes edges !! idx = Some p /\ c_id p = raw_id n /\
    ((exists k, shortest edges a (raw_id n) k /\ c_depth p = Z.of_nat k) \/
     ((forall k, ~ path edges a k (raw_id n)) /\ c_depth p = Z.of_nat idx)).
Proof.
  intros Ha Hn. unfold place. cbv zeta. rewrite list_lookup_imap, Hn. cbn [fmap option_fmap option_map]. eexists. split; [reflexivity|].
  cbn [c_id c_depth]. split; [done|]. unfold layout. rewrite Ha.
  destruct (bfs_spec edges a (S (length edges)) [(a, 0, 0)] []) as [_ Hs]; [rewrite unseen_length; simpl; lia|apply searching_init|].
  destruct (map_get _ (raw_id n)) as [[d b]|] eqn:E.
  - left. destruct (proj1 (searched_shortest edges a _ (raw_id n) d Hs)) as (k & -> & Hk); [by exists b|]. by exists k.
  - right. split; [|done]. intros k (d & b & Hd & _)%(searched_reaches _ _ _ _ _ Hs). congruence.
Qed.

(* ------------------------------------------------------------------ *)
(** ** Answers of the language model *)

Definition cdr_text (content : jsstr) : jsstr :=
  if (5000 <? length content)%nat then slice_to 5000 content ++ nl ++ js "... (이하 생략)" else content.

Definition flowchart_prompt (content : jsstr) : jsstr :=
  lines [
    js "CDR(요구사항 문서)를 Flowchart로 변환해주세요.";
    [];
    js "입력 CDR:";
    jq "```";
    cdr_text content;
    jq "```";
    [];
    js "노드 타입 (Mermaid 스타일):";
    js "- start: 시작점 (타원형)";
    js "- end: 종료점 (타원형)";
    js "- process: 일반 처리/동작 (사각형)";
    js "- decision: 조건 분기 (마름모) - Yes/No 분기";
    js "- io: 입출력 (평행사변형)";
    [];
    js "규칙:";
    js "1. 노드 content는 15자 이내로 핵심만 추출";
    js "2. 반드시 start로 시작하고 end로 끝나야 함";
    jq "3. decision 노드에서 나가는 edge는 label에 `Yes` 또는 `No` 표시";
    js "4. 연결(edges)의 from/to는 노드 id로 참조";
    [];
    js "출력 형식 (JSON만):";
    jq "{`nodes`:[{`id`:`n1`,`content`:`시작`,`nodeType`:`start`},{`id`:`n2`,`content`:`입력`,`nodeType`:`io`},{`id`:`n3`,`content`:`조건?`,`nodeType`:`decision`},{`id`:`n4`,`content`:`처리A`,`nodeType`:`process`},{`id`:`n5`,`content`:`처리B`,`nodeType`:`process`},{`id`:`n6`,`content`:`종료`,`nodeType`:`end`}],`edges`:[{`from`:`n1`,`to`:`n2`},{`from`:`n2`,`to`:`n3`},{`from`:`n3`,`to`:`n4`,`label`:`Yes`},{`from`:`n3`,`to`:`n5`,`label`:`No`},{`from`:`n4`,`to`:`n6`},{`from`:`n5`,`to`:`n6`}],`summary`:`조건 분기 흐름`}"].

Definition domain_prompt (content : jsstr) : jsstr :=
  lines [
    js "CDR(요구사항 문서)에서 도메인 모델을 추출해주세요.";
    [];
    js "입력 CDR:";
    jq "```";
    cdr_text content;
    jq "```";
    [];
    js "다음 요소들을 추출해주세요:";
    [];
    js "1. entities: 시스템의 핵심 엔티티 (명사)";
    js "   - name: 엔티티 이름 (예: User, Order, Product)";
    jq "   - attributes: 주요 속성들 (예: [`id`, `email`, `name`])";
    js "   - description: 간단한 설명";
    [];
    js "2. actions: 주요 행위/동작 (동사)";
    jq "   - name: 액션 이름 (예: `주문생성`, `결제처리`)";
    jq "   - actor: 수행 주체 (예: `User`)";
    jq "   - target: 대상 엔티티 (예: `Order`)";
    js "   - description: 간단한 설명";
    [];
    js "3. conditions: 비즈니스 조건/규칙";
    jq "   - name: 조건 이름 (예: `재고확인`)";
    js "   - trueAction: 참일 때 수행할 액션";
    js "   - falseAction: 거짓일 때 수행할 액션";
    [];
    js "4. relations: 엔티티 간 관계";
    js "   - from: 시작 엔티티";
    js "   - to: 끝 엔티티";
    jq "   - type: `1:1` | `1:N` | `N:M`";
    jq "   - label: 관계 설명 (예: `주문하다`, `포함하다`)";
    [];
    js "JSON만 출력:";
    jq "{`entities`:[...],`actions`:[...],`conditions`:[...],`relations`:[...]}"].

(** The greedy [/\{[\s\S]*\}/] *)
Definition object_literal : regex := re (js "\{[\s\S]*\}").

Section Answers.
(** The text of a number, and the messages of the errors that [JSON.parse] and
    a call on a value of the wrong type raise *)
Context (number_text : Q -> jsstr) (syntaxError : jsstr -> jsstr) (typeError : jsstr).

Definition parse_or_throw (text : jsstr) : outcome jsstr json :=
  match Json.parse text with Some v => Return v | None => Throw (syntaxError text) end.

(** [(parsed.key || [])] as the receiver of an array method *)
Definition array_prop (v : json) (key : string) : outcome jsstr (list json) :=
  let p := prop v (js key) in
  if json_truthy p then match p with Some (JArr l) => Return l | _ => Throw typeError end else Return [].

(** *** Flowcharts *)

Record FlowchartResult := mkResult {
  fr_success : bool; fr_nodes : list CdrNode; fr_edges : list CdrEdge; fr_summary : option json; fr_error : option jsstr }.

Definition failed_flowchart (error : jsstr) : FlowchartResult := mkResult false [] [] None (Some error).

Definition no_pattern : jsstr := js "JSON 패턴을 찾을 수 없습니다".

(** What [parseCDRToFlowchart] makes of an answer *)
Definition flowchart_of (answer : jsstr) : outcome jsstr FlowchartResult :=
  match match_text object_literal answer with
  | None => Return (failed_flowchart no_pattern)
  | Some text =>
    (parsed <-- parse_or_throw text ;;
     nodes <-- array_prop parsed "nodes" ;;
     edges <-- array_prop parsed "edges" ;;
     let nodes := omap raw_node nodes in
     let edges := omap raw_edge edges in
     Return (mkResult true (place number_text nodes edges) edges (prop parsed (js "summary")) None))%aura
  end.

(** *** Domain models *)

Record Entity := mkEntity { en_name : jsstr; attributes : list json; en_description : option json }.
Record Action := mkAction { ac_name : jsstr; actor : jsstr; target : jsstr; ac_description : option json }.
Record Condition := mkCondition { co_name : jsstr; trueAction : jsstr; falseAction : jsstr }.
Record Relation := mkRelation { re_from : jsstr; re_to : jsstr; re_type : jsstr; re_label : option json }.
Record DomainModel := mkDomain { entities : list Entity; actions : list Action; conditions : list Condition; relations : list Relation }.

(** [e.key || ''] for a text *)
Definition text_or_empty (v : json) (key : string) : jsstr := default [] (text_prop v key).

(** [l.map(f)] where [f] reads a property of each element *)
Fixpoint map_objects {A} (f : json -> A) (l : list json) : outcome jsstr (list A) :=
  match l with
  | [] => Return []
  | JNull :: _ => Throw typeError
  | v :: l => (rest <-- map_objects f l ;; Return (f v :: rest))%aura
  end.

Definition relation_type (v : json) : jsstr :=
  match prop v (js "type") with
  | Some (JStr t) => if bool_decide (t ∈ js <$> ["1:1"; "1:N"; "N:M"]) then t else js "1:N"
  | _ => js "1:N"
  end.

Definition entity_of (v : json) : Entity :=
  mkEntity (text_or_empty v "name") (match prop v (js "attributes") with Some (JArr l) => l | _ => [] end) (prop v (js "description")).
Definition action_of (v : json) : Action :=
  mkAction (text_or_empty v "name") (text_or_empty v "actor") (text_or_empty v "target") (prop v (js "description")).
Definition condition_of (v : json) : Condition :=
  mkCondition (text_or_empty v "name") (text_or_empty v "trueAction") (text_or_empty v "falseAction").
Definition relation_of (v : json) : Relation :=
  mkRelation (text_or_empty v "from") (text_or_empty v "to") (relation_type v) (prop v (js "label")).

(** What [extractDomainModel] makes of an answer: a model or the error *)
Definition domain_of (answer : jsstr) : outcome jsstr (outcome jsstr DomainModel) :=
  match match_text object_literal answer with
  | None => Return (Throw no_pattern)
  | Some text =>
    (parsed <-- parse_or_throw text ;;
     es <-- array_prop parsed "entities" ;; es <-- map_objects entity_of es ;;
     acs <-- array_prop parsed "actions" ;; acs <-- map_objects action_of acs ;;
     cs <-- array_prop parsed "conditions" ;; cs <-- map_objects condition_of cs ;;
     rs <-- array_prop parsed "relations" ;; rs <-- map_objects relation_of rs ;;
     Return (Return (mkDomain es acs cs rs)))%aura
  end.

(** *** ER diagrams *)

(** [/[^a-zA-Z0-9가-힣_]/g] replaced by an underscore *)
Definition is_name_unit (c : Z) : bool :=
  ((97 <=? c) && (c <=? 122)) || ((65 <=? c) && (c <=? 90)) || ((48 <=? c) && (c <=? 57)) || ((44032 <=? c) && (c <=? 55203)) || (c =? 95).
Definition cleanAttr (attr : jsstr) : jsstr := (fun c => if is_name_unit c then c else 95) <$> attr.

Fixpoint attribute_lines (l : list json) : outcome jsstr jsstr :=
  match l with
  | [] => Return []
  | JStr a :: l => (rest <-- attribute_lines l ;; Return (js "        string " ++ cleanAttr a ++ nl ++ rest))%aura
  | _ :: _ => Throw typeError
  end.

Fixpoint entity_lines (l : list Entity) : outcome jsstr jsstr :=
  match l with
  | [] => Return []
  | e :: l =>
    (lines <-- attribute_lines (take 8 (attributes e)) ;;
     rest <-- entity_lines l ;;
     Return (js "    " ++ en_name e ++ js " {" ++ nl ++ lines ++ js "    }" ++ nl ++ rest))%aura
  end.

Definition declared (es : list Entity) (name : jsstr) : bool := existsb (fun e => bool_decide (en_name e = name)) es.

Definition relation_symbol (type : jsstr) : jsstr :=
  if decide (type = js "1:1") then js "||--||" else if decide (type = js "N:M") then js "}o--o{" else js "||--o{".

Definition relation_line (es : list Entity) (r : Relation) : jsstr :=
  if declared es (re_from r) && declared es (re_to r) then
    js "    " ++ re_from r ++ js " " ++ relation_symbol (re_type r) ++ js " " ++ re_to r ++ js " : " ++ dq
    ++ (if json_truthy (re_label r) then to_text number_text (re_label r) else []) ++ dq ++ nl
  else [].

Definition generateERDiagram (d : DomainModel) : outcome jsstr jsstr :=
  match entities d with
  | [] => Throw (js "엔티티가 없습니다")
  | es => (body <-- entity_lines es ;; Return (js "erDiagram" ++ nl ++ body ++ concat (relation_line es <$> relations d)))%aura
  end.

(** *** Skeleton code *)

Definition node_text (v : json) : jsstr :=
  js "- " ++ to_text number_text (prop v (js "id")) ++ js ": " ++ to_text number_text (prop v (js "content"))
  ++ js " (" ++ to_text number_text (prop v (js "nodeType")) ++ js ")".
Definition edge_text (v : json) : jsstr :=
  js "- " ++ to_text number_text (prop v (js "from")) ++ js " → " ++ to_text number_text (prop v (js "to"))
  ++ (if json_truthy (prop v (js "label")) then js " [" ++ to_text number_text (prop v (js "label")) ++ js "]" else []).

Definition skeleton_prompt (nodes_text edges_text language : jsstr) : jsstr :=
  lines [
    js "Flowchart를 기반으로 " ++ language ++ js " skeleton 코드를 생성해주세요.";
    [];
    js "Flowchart 노드:";
    nodes_text;
    [];
    js "연결:";
    edges_text;
    [];
    js "규칙:";
    js "1. 함수/클래스 구조만 생성 (구현은 TODO 주석)";
    js "2. process 노드 → 함수로 변환";
    js "3. decision 노드 → if/else 구조";
    js "4. io 노드 → 입출력 함수";
    js "5. 각 함수에 docstring/주석 추가";
    js "6. main 함수에서 전체 흐름 호출";
    [];
    js "코드만 출력 (설명 없이):"].

(** The first code block of an answer, or the whole answer *)
Definition clean_code (code : jsstr) : jsstr :=
  match Regex.exec (re (js "```[\w]*\n([\s\S]*?)```")) code with
  | Some m => match trim (default [] (m 1%nat)) with [] => trim code | c => c end
  | None => match trim code with [] => trim code | c => c end
  end.
End Answers.

(** *** Examples *)

Definition int_text (q : Q) : jsstr := js_of_Z (Qnum q).

Example flowchart_of_ex :
  (fun r => (fr_success r, (fun n => (c_id n, c_depth n, c_branch n)) <$> fr_nodes r))
  <$> (match flowchart_of int_text id [] (jq "ok {`nodes`:[{`id`:`a`,`content`:`s`,`nodeType`:`start`},{`id`:`b`,`content`:`q`,`nodeType`:`decision`},{`id`:`c`,`content`:1,`nodeType`:`io`},{`id`:`d`,`content`:`e`,`nodeType`:`end`},{`id`:`x`,`content`:`e`,`nodeType`:`cloud`}],`edges`:[{`from`:`a`,`to`:`b`},{`from`:`b`,`to`:`c`},{`from`:`b`,`to`:`d`},{`from`:`c`,`to`:`b`}]}") with Return r => Some r | Throw _ => None end)
  = Some (true, [(js "a", 0, 0); (js "b", 1, 0); (js "c", 2, -1); (js "d", 2, 1)]).
Proof. vm_compute. reflexivity. Qed.

Example clean_code_ex : clean_code (js "```py" ++ nl ++ js "x = 1" ++ nl ++ js "```") = js "x = 1" /\ clean_code (js " y ") = js "y".
Proof. vm_compute. split; reflexivity. Qed.

Example er_ex :
  generateERDiagram int_text [] (mkDomain [mkEntity (js "User") [JStr (js "e-mail")] None; mkEntity (js "Order") [] None] [] []
    [mkRelation (js "User") (js "Order") (js "1:N") (Some (JStr (js "has"))); mkRelation (js "User") (js "Cart") (js "1:1") None])
  = Return (lines [js "erDiagram"; js "    User {"; js "        string e_mail"; js "    }"; js "    Order {"; js "    }";
                   jq "    User ||--o{ Order : `has`"; []]).
Proof. vm_compute. reflexivity. Qed.

(* ------------------------------------------------------------------ *)
(** ** Witnesses *)

Definition loop : list CdrEdge := [mkCdrEdge (js "a") (js "b") None; mkCdrEdge (js "b") (js "a") None].
Definition loop_nodes : list RawNode := [mkRaw (js "a") (JStr (js "s")) (js "start"); mkRaw (js "b") (JStr (js "p")) (js "process")].

Lemma layout_depth_is_distance_witness :
  exists p, place int_text loop_nodes loop !! 1%nat = Some p /\
    ((exists k, shortest loop (js "a") (js "b") k /\ c_depth p = Z.of_nat k) \/
     ((forall k, ~ path loop (js "a") k (js "b")) /\ c_depth p = 1)).
Proof.
  destruct (layout_depth_is_distance int_text loop_nodes loop (js "a") 1 (mkRaw (js "b") (JStr (js "p")) (js "process")))
    as (p & H & _ & Hd); [vm_compute; reflexivity|reflexivity|]. by exists p.
Defined.
