(* ===== verification/Boards.v ===== *)
(** * Requests of the boards

    Handlers of [src/livekit/voice-bot.service.ts] that answer one message of a
    client with one message: charts and models from a document, skeleton code,
    a question on a text, a sketch, quizzes, and the reports of the Perplexity
    mode.  They are started by the events of [Events]. *)

From Stdlib Require Import ZArith QArith Lia.
From stdpp Require Import base strings option list.
From S2P Require Import Prelude JsString JsMap Json Records Regex Room Async Bot Handlers Respond Pipeline Flowchart.

#[local] Open Scope Z_scope.
#[local] Open Scope prog_scope.

Section Boards.
Context (number_text : Q -> jsstr) (syntaxError : jsstr -> jsstr) (typeError : jsstr).

Definition jbool (b : bool) : json := JBool b.
Definition opt_text (key : string) (v : option jsstr) : list (jsstr * json) := opt_field key (JStr <$> v).

(** A handler of a room that is registered *)
Definition in_room (p : program unit) : program unit := b <- get ;; if active b then p else Ret tt.

(* ------------------------------------------------------------------ *)
(** ** Charts *)

Definition node_json (n : CdrNode) : json :=
  jobj [("id", JStr (c_id n)); ("content", JStr (c_content n)); ("nodeType", JStr (c_type n)); ("order", jtime (order n));
        ("depth", jtime (c_depth n)); ("branch", jtime (c_branch n))].
Definition edge_json (e : CdrEdge) : json :=
  JObj ([(js "from", JStr (e_from e)); (js "to", JStr (e_to e))] ++ opt_field "label" (e_label e)).

Definition parseCDRToFlowchart (content : jsstr) : program FlowchartResult :=
  try_catch (answer <- await (SendMessagePure (flowchart_prompt content) 2000) ;; lift (flowchart_of number_text syntaxError typeError answer))
    (fun m => Ret (failed_flowchart m)).

Definition handleCDRFlowchartRequest (content : jsstr) (preserveExisting : bool) : program unit :=
  in_room
    (r <- parseCDRToFlowchart content ;;
     publish (JObj ([(js "type", jstr "CDR_FLOWCHART_RESPONSE"); (js "success", jbool (fr_success r)); (js "nodes", JArr (node_json <$> fr_nodes r));
                     (js "edges", JArr (edge_json <$> fr_edges r))]
                    ++ opt_field "summary" (fr_summary r) ++ opt_text "error" (fr_error r)
                    ++ [(js "preserveExisting", jbool preserveExisting)])) None).

(** *** Models *)

Definition extractDomainModel (content : jsstr) : program (outcome jsstr DomainModel) :=
  try_catch (answer <- await (SendMessagePure (domain_prompt content) 2000) ;; lift (domain_of syntaxError typeError answer))
    (fun m => Ret (Throw m)).

Definition domain_json (d : DomainModel) : json :=
  jobj [("entities", JArr ((fun e => JObj ([(js "name", JStr (en_name e)); (js "attributes", JArr (attributes e))]
                                           ++ opt_field "description" (en_description e))) <$> entities d));
        ("actions", JArr ((fun a => JObj ([(js "name", JStr (ac_name a)); (js "actor", JStr (actor a)); (js "target", JStr (target a))]
                                          ++ opt_field "description" (ac_description a))) <$> actions d));
        ("conditions", JArr ((fun c => jobj [("name", JStr (co_name c)); ("trueAction", JStr (trueAction c)); ("falseAction", JStr (falseAction c))])
                             <$> conditions d));
        ("relations", JArr ((fun r => JObj ([(js "from", JStr (re_from r)); (js "to", JStr (re_to r)); (js "type", JStr (re_type r))]
                                            ++ opt_field "label" (re_label r))) <$> relations d))].

Definition error_of {A} (o : outcome jsstr A) : option jsstr := match o with Return _ => None | Throw m => Some m end.

Definition analysis_message (domain : outcome jsstr DomainModel) (chart : FlowchartResult) (preserveExisting : bool) : json :=
  let er := match domain with Return d => generateERDiagram number_text typeError d | Throw _ => Throw (js "Domain Model 추출 실패") end in
  jobj [("type", jstr "CDR_ANALYSIS_RESPONSE");
        ("domainModel", match domain with Return d => domain_json d | Throw _ => JNull end);
        ("flowchart", if fr_success chart
                      then JObj ([(js "nodes", JArr (node_json <$> fr_nodes chart)); (js "edges", JArr (edge_json <$> fr_edges chart))]
                                 ++ opt_field "summary" (fr_summary chart))
                      else JNull);
        ("erDiagram", match er with Return code => jobj [("mermaidCode", JStr code)] | Throw _ => JNull end);
        ("preserveExisting", jbool preserveExisting);
        ("errors", JObj (opt_text "domainModel" (error_of domain) ++ opt_text "flowchart" (fr_error chart) ++ opt_text "erDiagram" (error_of er)))].

(** The two requests run at the same time; neither fails nor touches the room. *)
Definition handleCDRAnalysisRequest (content : jsstr) (preserveExisting : bool) : program unit :=
  in_room
    (domain <- extractDomainModel content ;;
     chart <- parseCDRToFlowchart content ;;
     publish (analysis_message domain chart preserveExisting) None).

(** *** Code *)

Definition generateSkeletonCode (nodes edges : list json) (language : jsstr) : program (outcome jsstr jsstr) :=
  try_catch
    (ns <- lift (map_objects typeError (node_text number_text) nodes) ;;
     es <- lift (map_objects typeError (edge_text number_text) edges) ;;
     code <- await (SendMessagePure (skeleton_prompt (lines ns) (lines es) language) 2000) ;; Ret (Return (clean_code code)))
    (fun m => Ret (Throw m)).

Definition handleSkeletonCodeRequest (nodes edges : list json) (language : jsstr) : program unit :=
  in_room
    (r <- generateSkeletonCode nodes edges language ;;
     publish (JObj ([(js "type", jstr "SKELETON_CODE_RESPONSE");
                     (js "success", jbool (match r with Return _ => true | Throw _ => false end));
                     (js "code", JStr (match r with Return code => code | Throw _ => [] end))]
                    ++ opt_text "error" (error_of r) ++ [(js "language", JStr language)])) None).

(* ------------------------------------------------------------------ *)
(** ** Questions on a text *)

Definition pdf_prompt (question pdfContext : jsstr) : jsstr :=
  lines [
    js "다음 텍스트에 대해 간단히 설명해주세요. 2-3문장으로 핵심만 답변하세요.";
    [];
    jq "텍스트: `" ++ question ++ jq "`";
    js "출처: " ++ pdfContext].

Definition pdf_message (text : jsstr) : json :=
  jobj [("type", jstr "search_answer"); ("text", JStr text); ("category", jstr "PDF 분석"); ("minutes", JArr []); ("results", JArr [])].

Definition handlePdfQuestion (question pdfContext requesterId : jsstr) : program unit :=
  in_room
    (try_catch
       (response <- await (SendMessagePure (pdf_prompt question pdfContext) 200) ;;
        publish (pdf_message response) (Some [requesterId]))
       (fun _ => try_catch (publish (pdf_message (js "PDF 질문을 처리하는 중 오류가 발생했습니다. 다시 시도해주세요.")) (Some [requesterId]))
                   (fun _ => Ret tt))).

(* ------------------------------------------------------------------ *)
(** ** Sketches *)

Definition sketchPrompt : jsstr :=
  lines [
    js "이 손그림/스케치를 분석하고 Mermaid 다이어그램 코드로 변환해주세요.";
    [];
    js "## 분석 가이드:";
    js "1. 그림에서 박스, 원, 화살표, 텍스트 등의 요소를 식별하세요";
    js "2. 요소들 간의 관계(연결, 흐름)를 파악하세요";
    js "3. 적절한 다이어그램 타입을 선택하세요:";
    js "   - 흐름도(flowchart): 프로세스, 의사결정, 순서가 있는 경우";
    js "   - 시퀀스(sequence): 시간순 상호작용, 메시지 교환";
    js "   - 마인드맵(mindmap): 아이디어 정리, 계층 구조";
    [];
    js "## 응답 형식 (JSON만 출력):";
    js "{";
    jq "  `description`: `그림에 대한 간단한 설명 (한국어)`,";
    jq "  `diagramType`: `flowchart | sequence | mindmap`,";
    jq "  `mermaidCode`: `실제 Mermaid 코드`";
    js "}";
    [];
    js "손글씨가 알아보기 어려우면 최대한 추측해서 변환하세요. 그림이 명확하지 않으면 기본 흐름도로 만들어주세요."].

Definition or_value (v : option json) (other : json) : json := match v with Some x => if json_truthy v then x else other | None => other end.

(** Description and code of an answer *)
Definition sketch_of (text : jsstr) : json * json :=
  match match_text object_literal text with
  | None => (jstr "그림을 분석했습니다.", JStr [])
  | Some m => match Json.parse m with
              | Some parsed => (or_value (prop parsed (js "description")) (jstr "그림을 분석했습니다."), or_value (prop parsed (js "mermaidCode")) (JStr []))
              | None => (JStr (slice_to 200 text), JStr [])
              end
  end.

Definition sketch_message (description code : json) : json :=
  jobj [("type", jstr "BOARD_TRANSFORM_RESULT"); ("result", jobj [("description", description); ("mermaidCode", code)])].

Definition handleBoardTransform (image : jsstr) : program unit :=
  in_room
    (try_catch
       (answer <- await (AnalyzeScreen image sketchPrompt) ;;
        let r := sketch_of (va_text answer) in publish (sketch_message r.1 r.2) None)
       (fun _ => publish (sketch_message (jstr "스케치 분석 중 오류가 발생했습니다. 다시 시도해주세요.") (JStr [])) None)).

(* ------------------------------------------------------------------ *)
(** ** Quizzes *)

Definition typeInstructions (quizType : jsstr) : jsstr :=
  if decide (quizType = js "multiple_choice") then js "객관식 문제 (4개 선택지)"
  else if decide (quizType = js "short_answer") then js "주관식 단답형 문제"
  else if decide (quizType = js "ox") then js "O/X 진위형 문제"
  else if decide (quizType = js "mixed") then js "객관식, 주관식, O/X를 골고루 섞어서"
  else js "undefined".

Definition quiz_prompt (questionCount : Z) (quizType contentContext : jsstr) : jsstr :=
  lines [
    js "당신은 학습 퀴즈 출제 전문가입니다. 다음 내용을 바탕으로 " ++ js_of_Z questionCount ++ js "개의 퀴즈 문제를 생성해주세요.";
    [];
    js "## 참고 내용";
    contentContext;
    [];
    js "## 퀴즈 유형";
    typeInstructions quizType;
    [];
    js "## 출력 형식 (JSON 배열만 출력)";
    js "[";
    js "  {";
    jq "    `id`: 1,";
    jq "    `question`: `문제 내용`,";
    jq "    `type`: `multiple_choice` | `short_answer` | `ox`,";
    jq "    `options`: [`선택지1`, `선택지2`, `선택지3`, `선택지4`],";
    jq "    `correctAnswer`: `정답`,";
    jq "    `explanation`: `정답 해설 (왜 이것이 정답인지)`,";
    jq "    `relatedContent`: `관련 내용 출처`";
    js "  }";
    js "]";
    [];
    js "## 주의사항";
    js "- 문제는 학습자의 이해도를 점검할 수 있도록 출제";
    js "- 너무 쉽거나 너무 어렵지 않게 중간 난이도로";
    js "- 해설은 학습에 도움이 되도록 상세하게";
    js "- JSON만 출력하세요 (다른 텍스트 없이)"].

Definition list_literal : regex := re (js "\[[\s\S]*\]").

(** [generateQuizFromContent] *)
Definition generate_quiz (questionCount : Z) (quizType contentContext : jsstr) : program (list json) :=
  response <- await (SendMessagePure (quiz_prompt questionCount quizType contentContext) 2000) ;;
  match match_text list_literal response with
  | None => Raise (js "JSON 파싱 실패")
  | Some text => match Json.parse text with
                 | Some (JArr l) => Ret l
                 | Some _ => Ret []
                 | None => Raise (syntaxError text)
                 end
  end.

(** One pair of the history; a context that is not a text has no [substring] *)
Definition qa_text (idx : nat) (qa : json) : outcome jsstr jsstr :=
  let head := js "### 질문 " ++ js_of_Z (Z.of_nat idx + 1) ++ nl ++ js "Q: " ++ to_text number_text (prop qa (js "question")) ++ nl
              ++ js "A: " ++ to_text number_text (prop qa (js "answer")) in
  match qa with
  | JNull => Throw typeError
  | _ => match prop qa (js "context") with
         | Some (JStr ((_ :: _) as c)) => Return (head ++ nl ++ js "참고: " ++ slice_to 500 c)
         | c => if json_truthy c then Throw typeError else Return head
         end
  end.

Fixpoint qa_texts (idx : nat) (l : list json) : outcome jsstr (list jsstr) :=
  match l with
  | [] => Return []
  | qa :: l => (x <-- qa_text idx qa ;; rest <-- qa_texts (S idx) l ;; Return (x :: rest))%aura
  end.

Definition qa_quiz (questionCount : Z) (quizType : jsstr) (qaHistory : list json) : program (option (list json)) :=
  match qaHistory with
  | [] => Ret None
  | _ =>
    texts <- lift (qa_texts 0 qaHistory) ;;
    l <- generate_quiz questionCount quizType (js "### 문서 Q&A 히스토리" ++ nl ++ slice_to 4000 (join (nl ++ nl) texts)) ;;
    Ret (Some l)
  end.

Definition rag_question : jsstr := js "지금까지 회의에서 논의된 주요 내용과 PDF에서 다룬 핵심 개념을 알려줘".

(** The quiz from the meeting, [None] also after ten seconds *)
Definition rag_quiz (connected : bool) (questionCount : Z) (quizType : jsstr) : program (option (list json)) :=
  try_catch
    (if negb connected then Ret None
     else
       timeout <- await (TimesOut 10000) ;;
       if timeout : bool then Ret None
       else
         sources <- await (RagSources rag_question) ;;
         match sources with
         | [] => Ret None
         | _ =>
           let lines := (fun s => js "[" ++ match source_speaker s with Some ((_ :: _) as p) => p | _ => js "발언자" end ++ js "] " ++ source_text s) <$> sources in
           l <- generate_quiz questionCount quizType (js "### 회의 및 PDF 내용" ++ nl ++ slice_to 4000 (join (nl ++ nl) lines)) ;;
           Ret (Some l)
         end)
    (fun _ => Ret None).

Definition quiz_message (questions : list json) (extra : list (jsstr * json)) : json :=
  JObj ([(js "type", jstr "QUIZ_GENERATE_RESULT"); (js "questions", JArr questions)] ++ extra).

(** The two sources are asked at the same time. *)
Definition handleQuizGenerate (connected : bool) (questionCount : Z) (quizType : jsstr) (qaHistory : list json) : program unit :=
  in_room
    (try_catch
       (qa <- qa_quiz questionCount quizType qaHistory ;;
        rag <- rag_quiz connected questionCount quizType ;;
        match rag, qa with
        | Some ((_ :: _) as l), _ => publish (quiz_message l [(js "source", jstr "RAG (회의 내용 + PDF)")]) None
        | _, Some ((_ :: _) as l) => publish (quiz_message l [(js "source", jstr "Q&A 히스토리")]) None
        | _, _ => Raise (js "퀴즈 생성할 컨텐츠가 없습니다. 문서를 검색하거나 회의를 진행해주세요.")
        end)
       (fun m => publish (quiz_message [] [(js "error", JStr (match m with [] => js "퀴즈 생성 중 오류가 발생했습니다. 다시 시도해주세요." | m => m end))]) None)).

(** *** Evaluation *)

(** [question?.key] *)
Definition field (question : option json) (key : string) : option json :=
  match question with Some v => prop v (js key) | None => None end.

Definition type_label (type : option json) : jsstr :=
  match type with
  | Some (JStr t) => if decide (t = js "multiple_choice") then js "객관식" else if decide (t = js "ox") then js "O/X" else js "주관식"
  | _ => js "주관식"
  end.

Definition evaluation_prompt (question : option json) (userAnswer : jsstr) : jsstr :=
  lines [
    js "당신은 학습 피드백 전문가입니다. 다음 퀴즈 답변을 평가하고 피드백을 제공해주세요.";
    [];
    js "## 문제";
    to_text number_text (field question "question");
    [];
    js "## 문제 유형";
    type_label (field question "type");
    [];
    js "## 정답";
    to_text number_text (field question "correctAnswer");
    [];
    js "## 학습자 답변";
    userAnswer;
    [];
    js "## 해설";
    to_text number_text (field question "explanation");
    [];
    js "## 관련 내용";
    (if json_truthy (field question "relatedContent") then to_text number_text (field question "relatedContent") else js "없음");
    [];
    js "## 출력 형식 (JSON만 출력)";
    js "{";
    jq "  `isCorrect`: true/false,";
    jq "  `feedback`: `학습자의 답변에 대한 구체적인 피드백 (맞았다면 칭찬과 추가 설명, 틀렸다면 왜 틀렸는지 분석)`,";
    jq "  `studyGuide`: `틀린 경우 어떤 부분을 다시 공부해야 하는지 구체적인 가이드 (맞은 경우는 심화 학습 제안)`";
    js "}";
    [];
    js "## 평가 기준";
    js "- 객관식/O/X: 정확히 일치해야 정답";
    js "- 주관식: 핵심 개념이 포함되어 있으면 정답으로 인정 (유연하게 평가)";
    js "- 시간 초과나 답변 없음은 오답 처리"].

Definition normal (s : jsstr) : jsstr := to_lower (trim s).

(** [userAnswer.trim().toLowerCase() === question?.correctAnswer?.trim().toLowerCase()] *)
Definition same_answer (question : option json) (userAnswer : jsstr) : outcome jsstr bool :=
  match field question "correctAnswer" with
  | None | Some JNull => Return false
  | Some (JStr a) => Return (bool_decide (normal userAnswer = normal a))
  | Some _ => Throw typeError
  end.

Definition wrong_text (question : option json) : json :=
  JStr (js "틀렸습니다. 정답은 " ++ dq ++ to_text number_text (field question "correctAnswer") ++ dq ++ js "입니다.").

Definition evaluation_message (question : option json) (userAnswer : jsstr) (isCorrect feedback studyGuide : json) : json :=
  jobj [("type", jstr "QUIZ_EVALUATE_RESULT");
        ("evaluation", jobj [("questionId", or_value (field question "id") (JNum 0)); ("userAnswer", JStr userAnswer); ("isCorrect", isCorrect);
                             ("feedback", feedback); ("studyGuide", studyGuide)])].

(** The comparison in place of an evaluation; [hint] is shown when there is no
    explanation *)
Definition compared (question : option json) (userAnswer : jsstr) (hint : json) : program json :=
  correct <- lift (same_answer question userAnswer) ;;
  Ret (evaluation_message question userAnswer (jbool correct) (if correct : bool then jstr "정답입니다!" else wrong_text question)
         (if correct : bool then JStr [] else or_value (field question "explanation") hint)).

Definition evaluation_of (question : option json) (userAnswer response : jsstr) : program json :=
  match match_text object_literal response with
  | None => Ret (evaluation_message question userAnswer (jbool false) (jstr "평가를 완료했습니다.") (JStr []))
  | Some text =>
    match Json.parse text with
    | Some parsed => Ret (evaluation_message question userAnswer (or_value (prop parsed (js "isCorrect")) (jbool false))
                            (or_value (prop parsed (js "feedback")) (jstr "평가를 완료했습니다.")) (or_value (prop parsed (js "studyGuide")) (JStr [])))
    | None => compared question userAnswer (JStr [])
    end
  end.

(** [question?.question?.substring(0, 30)] in the log, outside the [try] *)
Definition logged_question (question : option json) : outcome jsstr jsstr :=
  match field question "question" with
  | None | Some JNull => Return (js "undefined")
  | Some (JStr q) => Return (slice_to 30 q)
  | Some _ => Throw typeError
  end.

Definition handleQuizEvaluate (question : option json) (userAnswer : jsstr) : program unit :=
  in_room
    (lift (logged_question question) ;;;
     try_catch
       (response <- await (SendMessagePure (evaluation_prompt question userAnswer) 500) ;;
        m <- evaluation_of question userAnswer response ;; publish m None)
       (fun _ => m <- compared question userAnswer (jstr "해당 내용을 다시 복습해보세요.") ;; publish m None)).

(* ------------------------------------------------------------------ *)
(** ** Summaries of topics *)

Definition sendTopicSummary (topic summary : jsstr) : program unit :=
  b <- get ;;
  if negb (active b) || negb (hostOnlyMode (ctx b)) || negb (has_hosts (ctx b)) then Ret tt
  else t <- now ;; publish (jobj [("type", jstr "TOPIC_SUMMARY"); ("topic", JStr topic); ("summary", JStr summary); ("timestamp", jtime t)])
                     (Some (hostIdentities (ctx b))).

(* ------------------------------------------------------------------ *)
(** ** Every request is answered *)

Inductive Request :=
| FlowchartRequest (content : jsstr) (preserveExisting : bool)
| AnalysisRequest (content : jsstr) (preserveExisting : bool)
| SkeletonRequest (nodes edges : list json) (language : jsstr)
| PdfRequest (question pdfContext requesterId : jsstr)
| SketchRequest (image : jsstr)
| QuizRequest (connected : bool) (questionCount : Z) (quizType : jsstr) (qaHistory : list json)
| EvaluationRequest (question : option json) (userAnswer : jsstr).

Definition serve (r : Request) : program unit :=
  match r with
  | FlowchartRequest content keep => handleCDRFlowchartRequest content keep
  | AnalysisRequest content keep => handleCDRAnalysisRequest content keep
  | SkeletonRequest nodes edges language => handleSkeletonCodeRequest nodes edges language
  | PdfRequest question pdfContext requesterId => handlePdfQuestion question pdfContext requesterId
  | SketchRequest image => handleBoardTransform image
  | QuizRequest connected count type history => handleQuizGenerate connected count type history
  | EvaluationRequest question answer => handleQuizEvaluate question answer
  end.

Definition result_type (r : Request) : string :=
  match r with
  | FlowchartRequest _ _ => "CDR_FLOWCHART_RESPONSE"
  | AnalysisRequest _ _ => "CDR_ANALYSIS_RESPONSE"
  | SkeletonRequest _ _ _ => "SKELETON_CODE_RESPONSE"
  | PdfRequest _ _ _ => "search_answer"
  | SketchRequest _ => "BOARD_TRANSFORM_RESULT"
  | QuizRequest _ _ _ _ => "QUIZ_GENERATE_RESULT"
  | EvaluationRequest _ _ => "QUIZ_EVALUATE_RESULT"
  end.

Definition text_or_missing (v : option json) : bool := match v with None | Some JNull | Some (JStr _) => true | _ => false end.

(** A question and its right answer are texts, if they are there *)
Definition well_formed (r : Request) : bool :=
  match r with
  | EvaluationRequest question _ => text_or_missing (field question "question") && text_or_missing (field question "correctAnswer")
  | _ => true
  end.

(** The messages sent after [sent] begin with one of the type. *)
Definition answered (type : string) (sent : list Output) (s : Bot) : Prop :=
  exists m d rest, outs s = sent ++ Sent m d :: rest /\ prop m (js "type") = Some (jstr type).

Definition outs_are (sent : list Output) (s : Bot) : Prop := outs s = sent.

Section Answered.
Context (Rely : Bot -> Bot -> Prop) (Hrely : forall s s', Rely s s' -> outs s' = outs s).

Lemma rely_outs sent s s' : Rely s s' -> outs_are sent s -> outs_are sent s'.
Proof. unfold outs_are. intros H <-. by apply Hrely. Qed.

Lemma rely_answered type sent s s' : Rely s s' -> answered type sent s -> answered type sent s'.
Proof. intros H (m & d & rest & Ho & Hm). exists m, d, rest. by rewrite (Hrely _ _ H). Qed.

Lemma wp_publish_answers type sent m d s :
  outs s = sent -> prop m (js "type") = Some (jstr type) -> wp Rely (publish m d) (fun _ s' => answered type sent s') s.
Proof.
  intros <- Hm. apply wp_bind, wp_modify. intros t. apply wp_await. intros r s' H. eapply rely_answered; [exact H|].
  exists m, d, []. done.
Qed.

(** What follows a first answer *)
Lemma wp_more_publish type sent m d s Q :
  answered type sent s -> (forall o s', answered type sent s' -> Q o s') -> wp Rely (publish m d) Q s.
Proof.
  intros (m0 & d0 & rest & Ho & Hm) HQ. apply wp_bind, wp_modify. intros t. apply wp_await. intros r s' H.
  apply HQ. eapply rely_answered; [exact H|]. exists m0, d0, (rest ++ [Sent m d]). simpl. rewrite Ho, <- app_assoc. done.
Qed.

Lemma keeps_lift {A} (I : Bot -> Prop) (o : outcome jsstr A) : keeps I (lift o).
Proof. by destruct o. Qed.

#[local] Hint Resolve keeps_lift : keeps.

Lemma keeps_generate_quiz I n type text : keeps I (generate_quiz n type text).
Proof. unfold generate_quiz. keep. Qed.

#[local] Hint Resolve keeps_generate_quiz : keeps.

Lemma keeps_parse I content : keeps I (parseCDRToFlowchart content).
Proof. unfold parseCDRToFlowchart. keep. Qed.

Lemma keeps_domain I content : keeps I (extractDomainModel content).
Proof. unfold extractDomainModel. keep. Qed.

Lemma keeps_skeleton I nodes edges language : keeps I (generateSkeletonCode nodes edges language).
Proof. unfold generateSkeletonCode. keep. Qed.

Lemma keeps_qa_quiz I n type history : keeps I (qa_quiz n type history).
Proof. unfold qa_quiz. keep. Qed.

Lemma keeps_rag_quiz I connected n type : keeps I (rag_quiz connected n type).
Proof. unfold rag_quiz. keep. Qed.

Lemma keeps_evaluation I question answer response : keeps I (evaluation_of question answer response).
Proof. unfold evaluation_of, compared. keep. Qed.

#[local] Hint Resolve keeps_parse keeps_domain keeps_skeleton keeps_qa_quiz keeps_rag_quiz keeps_evaluation : keeps.

Lemma wp_in_room p Q s : active s = true -> wp Rely p Q s -> wp Rely (in_room p) Q s.
Proof. intros Ha H. apply wp_get. by rewrite Ha. Qed.

(** A preparation that handles its failures *)
Lemma wp_caught {A} sent (p : program A) (h : jsstr -> program A) s :
  keeps (outs_are sent) p -> (forall m s, outs s = sent -> wp Rely (h m) (fun o s => (exists a, o = Return a) /\ outs s = sent) s) -> outs s = sent ->
  wp Rely (try_catch p h) (fun o s => (exists a, o = Return a) /\ outs s = sent) s.
Proof.
  intros Hk Hh Hs. apply wp_try. eapply wp_mono; [|exact (keeps_wp Rely _ p s (rely_outs sent) Hk Hs)].
  intros [a|m] s' Hs'; [eauto|by apply Hh].
Qed.

Lemma wp_then_publish {A} type sent (p : program A) (f : A -> json) d s :
  wp Rely p (fun o s => (exists a, o = Return a) /\ outs s = sent) s -> (forall a, prop (f a) (js "type") = Some (jstr type)) ->
  wp Rely (a <- p ;; publish (f a) d) (fun _ s' => answered type sent s') s.
Proof. intros Hp Hf. apply wp_bind. eapply wp_mono; [|exact Hp]. intros o s' [[a ->] Hs']. by apply wp_publish_answers. Qed.

(** A body that answers unless it fails, and a handler that answers *)
Definition answers_or_fails (type : string) (sent : list Output) (o : outcome jsstr unit) (s : Bot) : Prop :=
  answered type sent s \/ ((exists m, o = Throw m) /\ outs s = sent).

Lemma wp_try_answers type sent (p : program unit) h s :
  wp Rely p (answers_or_fails type sent) s ->
  (forall m s, outs s = sent -> wp Rely (h m) (fun _ s => answered type sent s) s) ->
  (forall m s, answered type sent s -> wp Rely (h m) (fun _ s => answered type sent s) s) ->
  wp Rely (try_catch p h) (fun _ s => answered type sent s) s.
Proof.
  intros Hp Hh Hh'. apply wp_try. eapply wp_mono; [|exact Hp]. intros [a|m] s' [Ha|[[m' Hm] Hs]]; auto. discriminate.
Qed.

(** Preparation, then an answer made of its result *)
Lemma wp_prepared {A} type sent (p : program A) (f : A -> program unit) s :
  keeps (outs_are sent) p -> outs s = sent -> (forall a s, outs s = sent -> wp Rely (f a) (answers_or_fails type sent) s) ->
  wp Rely (a <- p ;; f a) (answers_or_fails type sent) s.
Proof.
  intros Hk Hs Hf. apply wp_bind. eapply wp_mono; [|exact (keeps_wp Rely _ p s (rely_outs sent) Hk Hs)].
  intros [a|m] s' Hs'; [by apply Hf|]. right. eauto.
Qed.

Lemma wp_publish_or type sent m d s :
  outs s = sent -> prop m (js "type") = Some (jstr type) -> wp Rely (publish m d) (answers_or_fails type sent) s.
Proof. intros Hs Hm. eapply wp_mono; [|by apply wp_publish_answers]. by left. Qed.

Lemma compared_returns question answer hint sent s :
  well_formed (EvaluationRequest question answer) = true -> outs s = sent ->
  wp Rely (compared question answer hint)
    (fun o s => exists m, o = Return m /\ prop m (js "type") = Some (jstr "QUIZ_EVALUATE_RESULT") /\ outs s = sent) s.
Proof.
  intros Hw Hs. unfold compared, same_answer. simpl in Hw. apply andb_true_iff in Hw as [_ Hw]. destruct (field question "correctAnswer") as [[]|]; try discriminate Hw; cbn [lift bind wp]; eauto.
Qed.

Lemma wp_serve r s : well_formed r = true -> active s = true -> wp Rely (serve r) (fun _ s' => answered (result_type r) (outs s) s') s.
Proof.
  intros Hw Ha. destruct r; cbn [serve result_type]; (apply wp_in_room; [exact Ha|]).
  - apply wp_then_publish; [|reflexivity]. apply wp_caught; [keep|intros m' s' Hs'; split; [by eexists|exact Hs']|done].
  - apply wp_bind. eapply wp_mono; [|apply (wp_caught (outs s)); [keep|intros m' s' Hs'; split; [by eexists|exact Hs']|done]]. intros o s1 [[domain ->] Hs1].
    apply wp_then_publish; [|reflexivity]. apply wp_caught; [keep|intros m' s' Hs'; split; [by eexists|exact Hs']|done].
  - apply wp_then_publish; [|reflexivity]. apply wp_caught; [keep|intros m' s' Hs'; split; [by eexists|exact Hs']|done].
  - apply wp_try_answers.
    + apply wp_prepared; [keep|done|]. intros a s1 Hs1. by apply wp_publish_or.
    + intros m s1 Hs1. apply wp_try. eapply wp_mono; [|by apply wp_publish_answers]. by intros [|] s2 H2.
    + intros m s1 Hs1. apply wp_try. eapply wp_more_publish; [exact Hs1|]. by intros [|] s2 H2.
  - apply wp_try_answers.
    + apply wp_prepared; [keep|done|]. intros a s1 Hs1. by apply wp_publish_or.
    + intros m s1 Hs1. by apply wp_publish_answers.
    + intros m s1 Hs1. eapply wp_more_publish; eauto.
  - apply wp_try_answers.
    + apply wp_prepared; [keep|done|]. intros qa s1 Hs1. apply wp_prepared; [keep|done|]. intros rag s2 Hs2.
      destruct rag as [[|]|], qa as [[|]|]; first [by apply wp_publish_or | right; eauto].
    + intros m s1 Hs1. by apply wp_publish_answers.
    + intros m s1 Hs1. eapply wp_more_publish; eauto.
  - assert (exists t, logged_question question = Return t) as [t ->].
    { simpl in Hw. apply andb_true_iff in Hw as [Hw _]. unfold logged_question. destruct (field question "question") as [[]|]; try discriminate Hw; eauto. }
    cbn [lift bind]. apply wp_try_answers.
    + apply wp_prepared; [keep|done|]. intros response s1 Hs1. unfold evaluation_of. repeat case_match; try (by apply wp_publish_or).
      apply wp_bind. eapply wp_mono; [|by apply compared_returns]. intros o s2 (m & -> & Hm & Hs2). by apply wp_publish_or.
    + intros m s1 Hs1. apply wp_bind. eapply wp_mono; [|by apply compared_returns]. intros o s2 (m' & -> & Hm & Hs2). by apply wp_publish_answers.
    + intros m s1 Hs1. apply wp_bind. eapply wp_mono; [|by eapply compared_returns]. intros o s2 (m' & -> & Hm & Hs2).
      eapply wp_more_publish; [|eauto]. destruct Hs1 as (m0 & d0 & rest & Ho & Hm0). exists m0, d0, rest. by rewrite Hs2.
Qed.
End Answered.

(** C16: every request is answered.  Whatever the language model, the retrieval
    server and the screen analysis answer, a failure or a text without the JSON
    that was asked for included, the handler of a board's request hands a message of
    the type the board waits for to the connection of the room, which may still fail
    to deliver it.  The room is active, no other handler sends meanwhile, and in a
    question to be evaluated the question and the right answer are texts or missing:
    for others no answer is sent, see [malformed_question_is_not_answered]. *)
Theorem board_requests_are_answered (Rely : Bot -> Bot -> Prop) (r : Request) (s s' : Bot) (o : outcome jsstr unit) :
  (forall s s', Rely s s' -> outs s' = outs s) -> well_formed r = true -> active s = true ->
  exec Rely s (serve r) s' o -> answered (result_type r) (outs s) s'.
Proof. intros Hrely Hw Ha. apply (wp_sound Rely (serve r) (fun _ s' => answered (result_type r) (outs s) s')). by apply wp_serve. Qed.

(** a malformed question.  A question that is neither a text nor missing makes the
    handler fail in its first line, outside its [try]: nothing is sent. *)
Theorem malformed_question_is_not_answered (Rely : Bot -> Bot -> Prop) (question : option json) (userAnswer : jsstr) (s s' : Bot) (o : outcome jsstr unit) :
  text_or_missing (field question "question") = false -> active s = true ->
  exec Rely s (handleQuizEvaluate question userAnswer) s' o -> s' = s /\ o = Throw typeError.
Proof.
  intros Hq Ha. apply (wp_sound _ _ (fun o s' => s' = s /\ o = Throw typeError)). apply wp_in_room; [done|].
  unfold logged_question. destruct (field question "question") as [[]|]; try discriminate Hq; done.
Qed.

(** The start of a response by another handler *)
Definition response_starts (s s' : Bot) : Prop := s' = s <| ctx := (ctx s) <| isPublishing := true |> |>.

(** a failed report frees the room.  When a response starts while a report is
    processed and the processing fails, the room is marked free although the
    response goes on. *)
Theorem failed_report_frees_room (message : json) (s : Bot) :
  active s = true -> perplexityModeActive (ctx s) = true -> botState (ctx s) <> SPEAKING -> isPublishing (ctx s) = false ->
  exists s1 s', response_starts s s1 /\ exec response_starts s (handlePerplexityMessage message) s' (Return tt) /\ isPublishing (ctx s') = false.
Proof.
  intros Ha Hp Hs Hn. eexists _, _. split; [reflexivity|]. split.
  - apply (exec_get _ 0). cbn [bind]. rewrite Ha, Hp, Hn, (bool_decide_eq_false_2 (botState (ctx s) = SPEAKING)) by done. cbn [negb orb].
    eapply exec_catch; [|apply (exec_modify _ _ 0)]. cbn [bind await]. eapply (exec_await _ _ _ _ (Throw [])); [reflexivity|constructor].
  - reflexivity.
Qed.
End Boards.

(* ------------------------------------------------------------------ *)
(** ** Witnesses *)

Lemma failed_report_frees_room_witness :
  exists s', exec response_starts (sample_bot <| ctx := (ctx sample_bot) <| perplexityModeActive := true |> |>) (handlePerplexityMessage JNull) s' (Return tt)
    /\ isPublishing (ctx s') = false.
Proof.
  destruct (failed_report_frees_room JNull (sample_bot <| ctx := (ctx sample_bot) <| perplexityModeActive := true |> |>)) as (s1 & s' & _ & H);
    [reflexivity|reflexivity|discriminate|reflexivity|]. by exists s'.
Defined.

Lemma board_requests_are_answered_witness :
  exists s' o, exec eq sample_bot (serve int_text id [] (EvaluationRequest (Some (jobj [("correctAnswer", jstr "O")])) (js "o "))) s' o
    /\ answered "QUIZ_EVALUATE_RESULT" [] s'.
Proof.
  eexists _, _. split; [apply sample_exec|].
  eapply (board_requests_are_answered int_text id [] eq (EvaluationRequest (Some (jobj [("correctAnswer", jstr "O")])) (js "o ")) sample_bot);
    [by intros ? ? ->|vm_compute; reflexivity|reflexivity|apply sample_exec].
Defined.

Lemma malformed_question_is_not_answered_witness :
  exists s' o, exec eq sample_bot (handleQuizEvaluate int_text [] (Some (jobj [("question", JNum 3)])) (js "o")) s' o /\ s' = sample_bot.
Proof.
  eexists _, _. split; [apply sample_exec|].
  eapply (malformed_question_is_not_answered int_text [] eq (Some (jobj [("question", JNum 3)])) (js "o") sample_bot); [reflexivity|reflexivity|apply sample_exec].
Defined.
