(* ===== verification/AgentRouter.v ===== *)
(** * The agent router

    [src/agent/agent-router.service.ts]: a request that the patterns of the
    intent classifier do not settle is given to one of five tools, the tool is
    executed, and an answer is made of its result.

    The service is a program of [Async]; the language model, the search service
    and the retrieval server are effects, and the state is whether the
    retrieval server is connected to the room.  Parameters of a tool are the
    JSON value the language model chose. *)

From Stdlib Require Import ZArith QArith Lia.
From stdpp Require Import base strings option list.
From S2P Require Import Prelude JsString JsMap Json Regex Room Async.

#[local] Open Scope Z_scope.
#[local] Open Scope prog_scope.

(* ------------------------------------------------------------------ *)
(** ** Data *)

Inductive Tool := search_web | search_local | query_meeting | direct_response | ask_clarification | other_tool (name : jsstr).

Record AgentDecision := mkAgentDecision { tool : Tool; params : option json }.

Record MeetingSource := mkMeetingSource { text : jsstr; speaker : option jsstr }.
Record SearchResult := mkSearchResult { sr_title : jsstr; sr_content : option jsstr; sr_address : option jsstr; sr_json : json }.
Record ToolResult := mkToolResult { result : jsstr; searchResults : list SearchResult; meetingSources : list MeetingSource }.

(** A block of an answer of the language model *)
Inductive Block := TextBlock (t : jsstr) | ToolBlock (name : jsstr) (input : option json) | OtherBlock.

Inductive AgentEff : Type -> Type :=
| ConverseTools (tools : list json) (system userMessage : jsstr) : AgentEff (list Block)
| Converse (prompt : jsstr) : AgentEff (list Block)
| Search (query : option json) (type : string) : AgentEff (list SearchResult)
| RagConnect : AgentEff unit
| RagQuestion (question : option json) : AgentEff (jsstr * list MeetingSource).

Abbreviation agent := (prog (State := bool) (Eff := AgentEff)).

Definition tool_named (name : jsstr) : Tool :=
  if decide (name = js "search_web") then search_web
  else if decide (name = js "search_local") then search_local
  else if decide (name = js "query_meeting") then query_meeting
  else if decide (name = js "direct_response") then direct_response
  else if decide (name = js "ask_clarification") then ask_clarification
  else other_tool name.

(* ------------------------------------------------------------------ *)
(** ** Tools *)

Definition jobject (fields : list (string * json)) : json := JObj ((fun f => (js f.1, f.2)) <$> fields).

Definition tool_spec (name : string) (description : jsstr) (properties : list (string * json)) (required : string) : json :=
  jobject [("toolSpec", jobject [("name", JStr (js name)); ("description", JStr description);
    ("inputSchema", jobject [("json", jobject [("type", JStr (js "object")); ("properties", jobject properties); ("required", JArr [JStr (js required)])])])])].

Definition text_param (description : string) : json := jobject [("type", JStr (js "string")); ("description", JStr (js description))].

Definition AGENT_TOOLS : list json := [
  tool_spec "search_web" (js "실시간 정보가 필요할 때 사용 (뉴스, 날씨, 주식, 스포츠, 백과사전 등). 웹에서 최신 정보를 검색합니다.")
    [("query", text_param "검색할 키워드나 질문")] "query";
  tool_spec "search_local" (js "주변 장소 검색에 사용 (맛집, 카페, 술집, 편의시설 등). 특정 지역의 장소를 검색합니다.")
    [("query", text_param "검색할 장소 유형 (예: 맛집, 카페, 치킨집)"); ("location", text_param "지역명 (예: 판교, 강남, 홍대). 없으면 null")] "query";
  tool_spec "query_meeting"
    (lines [
       js "현재 회의/대화 내용을 확인할 때 사용. 다음 상황에서 반드시 사용:";
       jq "- 이전 대화 참조: `방금`, `아까`, `전에`, `이전에` 언급된 내용";
       jq "- 과거 발언 확인: `뭐라고 했지?`, `물어본 거`, `대답한 거`";
       jq "- 팩트 체크: `맞아?`, `그랬어?`, `진짜?`";
       jq "- 대명사 참조: `그거`, `그게 뭐야` (대화 맥락 참조)";
       jq "예: `방금 물어본 거`, `아까 그거`, `전에 뭐라고 했더라`"])
    [("question", text_param "이전 대화/회의 내용에 대한 질문")] "question";
  tool_spec "direct_response" (js "검색 없이 직접 답변할 수 있을 때 사용. 일반 대화, 인사, 간단한 질문, 의견 제시 등.")
    [("response_type", jobject [("type", JStr (js "string"));
        ("enum", JArr ((fun t => JStr (js t)) <$> ["chat"; "recommendation"; "opinion"; "explanation"; "greeting"])); ("description", JStr (js "응답 유형"))])] "response_type";
  tool_spec "ask_clarification" (js "사용자 의도가 불명확하거나 여러 해석이 가능할 때 사용. 틀린 답변을 하는 것보다 되물어보는 것이 낫다.")
    [("ambiguity_reason", text_param "의도가 불명확한 이유");
     ("possible_interpretations", jobject [("type", JStr (js "array")); ("items", jobject [("type", JStr (js "string"))]); ("description", JStr (js "가능한 해석들 (최대 3개)"))])]
    "ambiguity_reason"].

(* ------------------------------------------------------------------ *)
(** ** Texts *)

Definition turn_line (t : ConversationTurn) : jsstr :=
  match turn_role t with
  | user => match turn_speaker t with Some ((_ :: _) as s) => s | _ => js "사용자" end
  | assistant => js "아우라"
  end ++ js ": " ++ Room.content t.

Definition buildHistoryContext (history : list ConversationTurn) : jsstr :=
  match history with
  | [] => js "[대화 기록 없음]"
  | _ => js "[대화 기록 (" ++ js_of_Z (Z.of_nat (length history)) ++ js "턴)]" ++ nl ++ lines (turn_line <$> history)
  end.

Definition meeting_info (title : option jsstr) : jsstr :=
  match title with Some ((_ :: _) as t) => nl ++ js "[회의 정보] 제목: " ++ t | _ => [] end.

Definition screen_info (before after : jsstr) (screen : option jsstr) : jsstr :=
  match screen with Some ((_ :: _) as x) => before ++ x ++ after | _ => [] end.

Definition systemPrompt (history : list ConversationTurn) (title screen : option jsstr) : jsstr :=
  lines [
    js "[역할]";
    jq "너는 화상회의에 참여 중인 AI 비서 `아우라`입니다.";
    js "- 회의 참여자들의 대화를 듣고 적절히 참여합니다";
    js "- 대화 기록을 잘 기억하고, 이전 맥락을 참고해서 답변합니다";
    js "- 반드시 존댓말(~입니다, ~습니다, ~세요)만 사용";
    js "- 이모티콘/이모지 절대 사용 금지";
    [];
    buildHistoryContext history ++ meeting_info title ++ screen_info (nl ++ nl ++ js "[화면 컨텍스트 - 사용자가 공유한 화면에서 추출된 텍스트]" ++ nl) [] screen;
    [];
    js "[도구 선택 기준 - 우선순위대로 적용]";
    js "1. **이전 대화/회의 내용 참조** → query_meeting (최우선)";
    jq "   - `방금`, `아까`, `전에`, `이전에` + 질문/요청";
    jq "   - `물어본 거`, `대답한 거`, `말한 거`, `했던 거`";
    jq "   - `뭐라고 했지?`, `뭐였지?`, `뭐더라?`";
    jq "   - `그거`, `그게` (대화 맥락에서 이전 내용 참조)";
    jq "   예시: `방금 물어본 거 알려줘`, `아까 그거 뭐였지?`, `전에 뭐라고 했더라`";
    [];
    js "2. 실시간 정보 필요 (뉴스, 날씨, 주식 등) → search_web";
    js "3. 장소 검색 (맛집, 카페 등) → search_local";
    js "4. 일반 대화, 인사, 간단한 질문 → direct_response";
    js "5. 의도가 불명확하거나 여러 해석이 가능한 경우 → ask_clarification";
    [];
    js "[중요]";
    js "- 대화 기록을 반드시 확인하고 맥락에 맞게 응답해";
    jq "- `방금`, `아까`, `전에` 같은 시간 참조 + 질문은 거의 항상 query_meeting이다!";
    js "- 이모티콘/이모지 절대 금지";
    js "- 반드시 하나의 도구만 선택해."].

Definition result_prompt (history : list ConversationTurn) (screen : option jsstr) (userMessage result : jsstr) : jsstr :=
  lines [
    js "[대화 맥락]";
    buildHistoryContext history ++ screen_info (nl ++ js "[화면 컨텍스트]" ++ nl) nl screen;
    [];
    js "[사용자 질문]";
    userMessage;
    [];
    js "[검색/조회 결과]";
    result;
    [];
    js "위 정보를 바탕으로 간결하게 답변하세요.";
    js "- 화면 컨텍스트가 있으면 화면에 보이는 내용을 참고해서 답변";
    js "- 반드시 존댓말(~입니다, ~습니다, ~세요)만 사용";
    js "- 2-3문장으로 핵심만";
    js "- 이모티콘/이모지 절대 사용 금지"].

(** The first three sources that are not empty *)
Definition sources_text (sources : list MeetingSource) : jsstr :=
  lines (imap (fun i s => js_of_Z (Z.of_nat i + 1) ++ js ". " ++ match speaker s with Some ((_ :: _) as p) => p | _ => js "참여자" end
                          ++ js ": " ++ dq ++ text s ++ dq)
    (take 3 (List.filter (fun s => negb (bool_decide (text s = []))) sources))).

Definition fact_prompt (history : list ConversationTurn) (screen : option jsstr) (userMessage ragAnswer : jsstr) (sources : list MeetingSource) : jsstr :=
  lines [
    js "[대화 맥락]";
    buildHistoryContext history ++ screen_info (nl ++ js "[화면 컨텍스트]" ++ nl) nl screen;
    [];
    js "[사용자 질문]";
    userMessage;
    [];
    js "[RAG 답변]";
    ragAnswer;
    [];
    js "[관련 발언 기록]";
    sources_text sources;
    [];
    js "위 정보를 바탕으로 팩트체크 응답을 생성해줘.";
    js "(화면 컨텍스트가 있으면 화면에 보이는 내용도 참고)";
    [];
    js "응답 형식:";
    jq "- `전에 하신 발언을 보니` 또는 `과거 회의 기록을 보니` 로 시작";
    jq "- 누가 무엇을 말했는지 인용 (`~~라고 발언하신 기록이 있습니다`)";
    js "- 반드시 존댓말(~입니다, ~습니다, ~세요)만 사용";
    js "- 2-3문장으로 핵심만";
    js "- 이모티콘/이모지 절대 사용 금지";
    [];
    js "예시:";
    jq "`전에 하신 발언을 보니, 김팀장님께서 토큰 유효시간은 4시간으로 하자고 제안하신 기록이 있습니다.`"].

Definition direct_prompt (history : list ConversationTurn) (screen : option jsstr) (userMessage : jsstr) : jsstr :=
  lines [
    js "[대화 맥락]";
    buildHistoryContext history ++ screen_info (nl ++ js "[화면 컨텍스트 - 사용자가 공유한 화면에서 추출된 텍스트]" ++ nl) nl screen;
    [];
    js "[사용자]";
    userMessage;
    [];
    jq "화상회의 AI 비서 `아우라`로서 답변하세요.";
    js "- 대화 기록을 참고해서 맥락에 맞게 응답";
    js "- 화면 컨텍스트가 있으면 화면에 보이는 내용을 참고해서 답변";
    js "- 반드시 존댓말(~입니다, ~습니다, ~세요)만 사용";
    js "- 1-2문장으로 간결하게";
    js "- 이모티콘/이모지 절대 사용 금지"].

(* ------------------------------------------------------------------ *)
(** ** The choice of a tool *)

Definition queryMeetingPatterns : list regex := re <$> (js <$> [
  "(방금|아까|전에|이전에|저번에|좀\s*전에).{0,10}(물어|질문|말한|말씀|대답|답변|얘기|이야기|설명)";
  "(방금|아까|전에|이전에|저번에).{0,10}(했던|한)\s*(거|것|게)";
  "뭐라고?\s*(했|한|하셨)";
  "뭐(였|더라|였더라|야|예요|에요)";
  "(방금|아까|전에|이전에).{0,5}(그거|그게|그것)";
  "(다시|한번\s*더|다시\s*한번).{0,5}(말해|알려|설명해)";
  "(아까|방금|전에).{0,5}(그\s*)(얘기|이야기|내용|질문|대화)"]).

Definition matchPatternForTool (text : jsstr) : option AgentDecision :=
  if existsb (fun p => test p text) queryMeetingPatterns
  then Some (mkAgentDecision query_meeting (Some (JObj [(js "question", JStr text)]))) else None.

Definition chat : AgentDecision := mkAgentDecision direct_response (Some (JObj [(js "response_type", JStr (js "chat"))])).

Definition tool_of (blocks : list Block) : AgentDecision :=
  match find_first (fun b => match b with ToolBlock _ _ => true | _ => false end) blocks with
  | Some (ToolBlock name input) => mkAgentDecision (tool_named name) input
  | _ => chat
  end.

Definition agent_decide (userMessage : jsstr) (history : list ConversationTurn) (title screen : option jsstr) : agent AgentDecision :=
  match matchPatternForTool userMessage with
  | Some d => Ret d
  | None =>
    try_catch (blocks <- await (ConverseTools AGENT_TOOLS (systemPrompt history title screen) userMessage) ;; Ret (tool_of blocks)) (fun _ => Ret chat)
  end.

(* ------------------------------------------------------------------ *)
(** ** Execution *)

Section Router.
(** The text of a number and the message of an error of the runtime *)
Context (number_text : Q -> jsstr) (typeError : jsstr).

Definition plain (r : jsstr) : ToolResult := mkToolResult r [] [].

(** [decision.params.key]; the parameters may be missing *)
Definition param (d : AgentDecision) (key : string) : agent (option json) :=
  match params d with
  | Some JNull | None => Raise typeError
  | Some v => Ret (prop v (js key))
  end.

Definition numbered_results (f : SearchResult -> jsstr) (l : list SearchResult) : jsstr :=
  lines (imap (fun i r => js_of_Z (Z.of_nat i + 1) ++ js ". " ++ f r) (take 3 l)).

Definition executeWebSearch (query : option json) : agent ToolResult :=
  try_catch
    (results <- await (Search query "web") ;;
     match results with
     | [] => Ret (plain (js "검색 결과가 없습니다."))
     | _ => Ret (mkToolResult (numbered_results (fun r => sr_title r ++ js ": " ++ slice_to 100 (default [] (sr_content r))) results) results [])
     end)
    (fun _ => Ret (plain (js "검색 중 오류가 발생했습니다."))).

Definition executeLocalSearch (query location : option json) : agent ToolResult :=
  try_catch
    (let searchQuery := if json_truthy location then Some (JStr (to_text number_text location ++ js " " ++ to_text number_text query)) else query in
     results <- await (Search searchQuery "local") ;;
     match results with
     | [] => Ret (plain (js "주변 장소를 찾을 수 없습니다."))
     | _ => Ret (mkToolResult (numbered_results (fun r => sr_title r ++ match sr_address r with Some ((_ :: _) as a) => js " (" ++ a ++ js ")" | _ => [] end) results)
                   results [])
     end)
    (fun _ => Ret (plain (js "장소 검색 중 오류가 발생했습니다."))).

Definition executeMeetingQuery (question : option json) : agent ToolResult :=
  try_catch
    (connected <- get ;;
     (if connected : bool then Ret tt else try_catch (await RagConnect) (fun _ => Ret tt)) ;;;
     connected <- get ;;
     if negb connected then Ret (plain (js "회의 기록에 접근할 수 없습니다."))
     else r <- await (RagQuestion question) ;; Ret (mkToolResult r.1 [] r.2))
    (fun _ => Ret (plain (js "회의 내용 조회 중 오류가 발생했습니다."))).

Definition clarificationPhrases : list jsstr := js <$> [
  "음, 조금 더 구체적으로 말씀해주시겠어요?"; "어떤 걸 말씀하시는 건지 잘 모르겠어요."; "혹시 무엇에 대해 물어보시는 건가요?";
  "조금 더 자세히 설명해주시면 좋겠어요."].

(** [params.possible_interpretations] is a list, or a value without elements; a
    text of two or more units has no [join] *)
Definition generateClarificationResponse (random : Q) (d : AgentDecision) : agent ToolResult :=
  interpretations <- param d "possible_interpretations" ;;
  let phrase := default [] (clarificationPhrases !! Z.to_nat (math_floor (random * 4)%Q)) in
  let item (v : json) := to_text number_text (Some v) in
  match interpretations with
  | Some (JArr [a; b]) => Ret (plain (js "혹시 " ++ item a ++ js "에 대해 물어보시는 건가요, 아니면 " ++ item b ++ js "인가요?"))
  | Some (JArr ((_ :: _ :: _ :: _) as l)) =>
    Ret (plain (js "혹시 " ++ join (js ", ") ((fun v => match v with JNull => [] | _ => item v end) <$> removelast l)
                ++ js " 중에 어떤 건가요? 아니면 " ++ item (List.last l JNull) ++ js "인가요?"))
  | Some (JStr [a; b]) => Ret (plain (js "혹시 " ++ [a] ++ js "에 대해 물어보시는 건가요, 아니면 " ++ [b] ++ js "인가요?"))
  | Some (JStr (_ :: _ :: _ :: _)) => Raise typeError
  | _ => Ret (plain phrase)
  end.

Definition executeTool (random : Q) (d : AgentDecision) : agent ToolResult :=
  try_catch
    match tool d with
    | search_web => q <- param d "query" ;; executeWebSearch q
    | search_local => q <- param d "query" ;; l <- param d "location" ;; executeLocalSearch q l
    | query_meeting => q <- param d "question" ;; executeMeetingQuery q
    | ask_clarification => generateClarificationResponse random d
    | direct_response | other_tool _ => Ret (plain [])
    end
    (fun m => Ret (plain (js "도구 실행 중 오류가 발생했습니다: " ++ m))).

(* ------------------------------------------------------------------ *)
(** ** The answer *)

Definition text_of (blocks : list Block) : jsstr :=
  match find_first (fun b => match b with TextBlock _ => true | _ => false end) blocks with
  | Some (TextBlock ((_ :: _) as t)) => t
  | _ => js "응답을 생성할 수 없습니다."
  end.

Definition callLlmPure (prompt : jsstr) : agent jsstr :=
  try_catch (blocks <- await (Converse prompt) ;; Ret (text_of blocks)) (fun _ => Ret (js "죄송합니다, 응답을 생성하지 못했어요.")).

Definition generateResponse (userMessage : jsstr) (d : AgentDecision) (r : ToolResult) (history : list ConversationTurn) (screen : option jsstr)
  : agent jsstr :=
  match tool d, result r with
  | ask_clarification, t => Ret t
  | direct_response, _ | _, [] => callLlmPure (direct_prompt history screen userMessage)
  | query_meeting, t => match meetingSources r with
                        | [] => callLlmPure (result_prompt history screen userMessage t)
                        | sources => callLlmPure (fact_prompt history screen userMessage t sources)
                        end
  | _, t => callLlmPure (result_prompt history screen userMessage t)
  end.

(** The three calls of the voice bot's agent mode *)
Definition route (random : Q) (userMessage : jsstr) (history : list ConversationTurn) (title screen : option jsstr) : agent (AgentDecision * ToolResult * jsstr) :=
  d <- agent_decide userMessage history title screen ;;
  r <- executeTool random d ;;
  answer <- generateResponse userMessage d r history screen ;;
  Ret (d, r, answer).

(* ------------------------------------------------------------------ *)
(** ** Properties *)

Section Total.
Context (Rely : bool -> bool -> Prop).

(** Every execution returns a value with the property. *)
Definition returns {A} (p : agent A) (P : A -> Prop) : Prop :=
  forall s, wp Rely p (fun o _ => exists a, o = Return a /\ P a) s.

Lemma returns_ret {A} (a : A) (P : A -> Prop) : P a -> returns (Ret a) P.
Proof. intros H s. by exists a. Qed.

Lemma returns_bind {A B} (p : agent A) (f : A -> agent B) P Q :
  returns p P -> (forall a, P a -> returns (f a) Q) -> returns (bind p f) Q.
Proof. intros Hp Hf s. apply wp_bind. eapply wp_mono; [|apply Hp]. intros o s' (a & -> & Ha). by apply Hf. Qed.

(** A handler that returns makes the whole return. *)
Lemma returns_try {A} (p : agent A) (h : jsstr -> agent A) (P : A -> Prop) :
  (forall s, wp Rely p (fun o _ => forall a, o = Return a -> P a) s) -> (forall m, returns (h m) P) -> returns (try_catch p h) P.
Proof.
  intros Hp Hh s. apply wp_try. eapply wp_mono; [|apply Hp]. intros [a|m] s' Ha; [eauto|by apply Hh].
Qed.

Lemma wp_any {A} (p : agent A) (Q : outcome jsstr A -> bool -> Prop) s : (forall o s, Q o s) -> wp Rely p Q s.
Proof. intros H. revert s. induction p as [a|m|k IH|s1 p IH|R e k IH]; intros s; simpl; auto. Qed.

Definition some_text (t : jsstr) : Prop := t <> [].

Lemma callLlmPure_returns prompt : returns (callLlmPure prompt) some_text.
Proof.
  unfold callLlmPure. apply returns_try; [|intros m; by apply returns_ret].
  intros s. apply wp_bind, wp_await. intros [blocks|m] s' _; [|by intros a]. intros a [= <-]. unfold text_of.
  destruct (find_first _ blocks) as [[[|c t]| |]|]; done.
Qed.

Lemma agent_decide_returns userMessage history title screen : returns (agent_decide userMessage history title screen) (fun _ => True).
Proof.
  unfold agent_decide. destruct (matchPatternForTool userMessage); [by apply returns_ret|].
  apply returns_try; [intros s; by apply wp_any|intros m; by apply returns_ret].
Qed.

(** A question that is asked back is not empty. *)
Lemma executeTool_returns random d :
  (0 <= random < 1)%Q -> returns (executeTool random d) (fun r => tool d = ask_clarification -> some_text (result r)).
Proof.
  intros Hr. unfold executeTool. apply returns_try; [|intros m; by apply returns_ret].
  destruct (tool d) eqn:Ht; try (intros s; by apply wp_any). intros s. unfold generateClarificationResponse.
  assert (forall p, some_text (default [] (clarificationPhrases !! Z.to_nat (math_floor (p * 4)%Q))) \/ ~ (0 <= p < 1)%Q) as Hphrase.
  { intros p. destruct (Qlt_le_dec p 0) as [Hp|Hp]; [right; intros [H _]; exact (Qlt_not_le _ _ Hp H)|].
    destruct (Qlt_le_dec p 1) as [Hp'|Hp']; [|right; intros [_ H]; exact (Qlt_not_le _ _ H Hp')]. left.
    assert (0 <= math_floor (p * 4)%Q < 4) as Hf.
    { split; [apply math_floor_le; unfold Qle in *; simpl in *; lia|apply math_floor_lt; unfold Qlt in *; simpl in *; lia]. }
    destruct (Z.to_nat (math_floor (p * 4)%Q)) as [|[|[|[|n]]]] eqn:E; [done|done|done|done|lia]. }
  specialize (Hphrase random). destruct Hphrase as [Hphrase|]; [|done].
  apply wp_bind. unfold param. destruct (params d) as [[| | | | |]|]; cbn [wp]; try (intros; discriminate).
  all: generalize dependent (default [] (clarificationPhrases !! Z.to_nat (math_floor (random * 4)%Q))); intros phrase Hp.
  all: repeat case_match; cbn [wp]; intros a [= <-] _; done.
Qed.

Lemma generateResponse_returns userMessage d r history screen :
  (tool d = ask_clarification -> some_text (result r)) -> returns (generateResponse userMessage d r history screen) some_text.
Proof.
  intros H. unfold generateResponse. destruct (tool d); repeat case_match; first [apply callLlmPure_returns | apply returns_ret; by apply H].
Qed.
End Total.

(** C19: the agent always answers.  Whatever the language model, the search
    service and the retrieval server answer, failures, unknown tools and
    malformed parameters included, choosing a tool, executing it and phrasing
    the answer return, and the answer is not empty. *)
Theorem agent_always_answers (Rely : bool -> bool -> Prop) (random : Q) (userMessage : jsstr) (history : list ConversationTurn)
  (title screen : option jsstr) (s s' : bool) (o : outcome jsstr (AgentDecision * ToolResult * jsstr)) :
  (0 <= random < 1)%Q -> exec Rely s (route random userMessage history title screen) s' o ->
  exists d r answer, o = Return (d, r, answer) /\ answer <> [].
Proof.
  intros Hr. apply (wp_sound _ _ (fun o _ => exists d r answer, o = Return (d, r, answer) /\ answer <> [])).
  eapply wp_mono; [|apply (returns_bind Rely _ _ _ (fun x => x.2 <> []) (agent_decide_returns Rely userMessage history title screen))].
  - intros o' _ ([[d r] answer] & -> & Ha). by exists d, r, answer.
  - intros d _. eapply returns_bind; [by apply executeTool_returns|]. intros r Hd. eapply returns_bind; [by apply generateResponse_returns|].
    intros answer Ha. by apply returns_ret.
Qed.

(** questions on the meeting.  A message that refers to what was said before
    is looked up in the minutes without asking the language model for a tool:
    the decision is made at once. *)
Theorem references_query_the_meeting (Rely : bool -> bool -> Prop) (userMessage : jsstr) (history : list ConversationTurn)
  (title screen : option jsstr) (s s' : bool) (o : outcome jsstr AgentDecision) :
  existsb (fun p => test p userMessage) queryMeetingPatterns = true ->
  exec Rely s (agent_decide userMessage history title screen) s' o ->
  s' = s /\ o = Return (mkAgentDecision query_meeting (Some (JObj [(js "question", JStr userMessage)]))).
Proof.
  intros Hm. unfold agent_decide, matchPatternForTool. rewrite Hm.
  apply (wp_sound _ _ (fun o s' => s' = s /\ o = Return (mkAgentDecision query_meeting (Some (JObj [(js "question", JStr userMessage)]))))).
  done.
Qed.
End Router.

(* ------------------------------------------------------------------ *)
(** ** Witnesses *)

Definition silent_services (R : Type) (_ : nat) (e : AgentEff R) : outcome jsstr R := Throw (js "down").

Lemma agent_always_answers_witness :
  exists o, exec eq false (route (fun q => js_of_Z (Qnum q)) [] 0 (js "안녕") [] None None) false o /\
    exists d r answer, o = Return (d, r, answer) /\ answer <> [].
Proof.
  pose proof (run_with_exec eq (fun _ => 0) silent_services (fun _ s => s) 0 false (route (fun q => js_of_Z (Qnum q)) [] 0 (js "안녕") [] None None)
    (fun _ _ => eq_refl)) as H.
  eexists. split; [exact H|].
  eapply (agent_always_answers (fun q => js_of_Z (Qnum q)) [] eq 0); [split; [apply Qle_refl|reflexivity]|exact H].
Defined.

Lemma references_query_the_meeting_witness :
  exists s' o, exec eq false (agent_decide (js "아까 그거 뭐였지") [] None None) s' o /\ s' = false.
Proof.
  eexists _, _. split; [apply (run_with_exec eq (fun _ => 0) silent_services (fun _ s => s) 0 false); reflexivity|].
  eapply (references_query_the_meeting eq (js "아까 그거 뭐였지") [] None None false); [vm_compute; reflexivity|].
  apply (run_with_exec eq (fun _ => 0) silent_services (fun _ s => s) 0 false). reflexivity.
Defined.

(** The name of a tool that is offered, its parameters and those it needs *)
Definition at_path (v : json) (path : list string) : option json := foldl (fun v key => v ≫= fun v => prop v (js key)) (Some v) path.

Definition offered_name (v : json) : option jsstr := match at_path v ["toolSpec"; "name"] with Some (JStr n) => Some n | _ => None end.

Definition offered_params (v : json) : list jsstr := match at_path v ["toolSpec"; "inputSchema"; "json"; "properties"] with Some (JObj fs) => fs.*1 | _ => [] end.

Definition needed_params (v : json) : list jsstr :=
  match at_path v ["toolSpec"; "inputSchema"; "json"; "required"] with Some (JArr l) => omap (fun x => match x with JStr s => Some s | _ => None end) l | _ => [] end.

(** What the execution of a tool reads *)
Definition read_params (t : Tool) : list jsstr :=
  js <$> match t with
         | search_web => ["query"]
         | search_local => ["query"; "location"]
         | query_meeting => ["question"]
         | ask_clarification => ["possible_interpretations"]
         | direct_response | other_tool _ => []
         end.

(** the tools that the language model is offered are the five that can be executed, each
    once; what a tool needs is among its parameters, and so is what its execution reads. *)
Theorem offered_tools_are_executed :
  (tool_named <$> omap offered_name AGENT_TOOLS) = [search_web; search_local; query_meeting; direct_response; ask_clarification] /\
  length (omap offered_name AGENT_TOOLS) = length AGENT_TOOLS /\
  Forall (fun v => needed_params v ⊆ offered_params v /\ forall n, offered_name v = Some n -> read_params (tool_named n) ⊆ offered_params v) AGENT_TOOLS.
Proof.
  split; [vm_compute; reflexivity|]. split; [vm_compute; reflexivity|].
  assert (Forall (fun v => bool_decide (needed_params v ⊆ offered_params v) && match offered_name v with Some n => bool_decide (read_params (tool_named n) ⊆ offered_params v) | None => true end = true) AGENT_TOOLS) as H.
  { apply (bool_decide_unpack _). vm_compute. exact I. }
  eapply Forall_impl; [exact H|]. intros v Hv. cbv beta in Hv. apply andb_true_iff in Hv as [H1 H2]. apply bool_decide_eq_true in H1. split; [done|].
  intros n Hn. rewrite Hn in H2. by apply bool_decide_eq_true in H2.
Qed.
