(* ===== verification/RagClient.v ===== *)
(** * The client of the retrieval server

    [src/rag/rag-client.service.ts]: one WebSocket per room, questions that wait
    for an answer with the same text, statements that are buffered and sent,
    reconnection after a loss, and reports requested over HTTP and delivered
    over the socket.

    The state holds the maps of the service and, as the objects that closures
    share, the sockets, the timeouts and the promises.  A connection context is
    created with its socket and named by it.  [step] is one turn of the event
    loop: a call of the service, an event of a socket, a timeout that is due or
    the answer to an HTTP request; [None] is an event that cannot occur.  Where
    the library may throw, the event says whether it does.

    Of the [ws] package the model uses what it documents: a socket is opened
    once, delivers messages afterwards and is closed once; [close] on a socket
    that is not yet closed leads to its end. *)

From Stdlib Require Import ZArith QArith Lia.
From stdpp Require Import base strings option list.
From S2P Require Import Prelude JsString JsMap Json Records.

#[local] Open Scope Z_scope.

(* ------------------------------------------------------------------ *)
(** ** State *)

Definition REQUEST_TIMEOUT : Z := 30000.
Definition RECONNECT_DELAY : Z := 10000.
Definition MAX_RECONNECT_ATTEMPTS : Z := 3.
Definition MAX_STATEMENT_RETRY : Z := 3.
Definition STATEMENT_BUFFER_MAX_SIZE : nat := 100.
Definition STATEMENT_BUFFER_MAX_AGE : Z := 60000.
Definition REPORT_TIMEOUT : Z := 60000.
Definition CONNECTION_TIMEOUT : Z := 10000.

(** A promise with its [resolve] and [reject], by number; [timer] the timeout *)
Record PendingRequest := mkPending { request : nat; timer : nat; startTime : Z }.

Record PendingStatement := mkStatement {
  text : jsstr;
  speaker : jsstr;
  timestamp : Z;
  retryCount : Z;
  stmtStart : option Z;
  stmtEnd : option Q
}.

(** Without the socket, which names the context, and the fields that are never
    read *)
Record ConnectionContext := mkContext {
  pendingRequests : jsmap jsstr PendingRequest;
  pendingRequestsWithSources : jsmap jsstr PendingRequest
}.

Inductive ReadyState := CONNECTING | OPEN | CLOSING | CLOSED.

#[export] Instance ReadyState_eq : EqDecision ReadyState.
Proof. solve_decision. Defined.

(** A socket with what its handlers refer to: room, timeout and promise of the
    call of [connect] that made it *)
Record Socket := mkSocket { room : jsstr; readyState : ReadyState; connectionTimeout : nat; connecting : nat }.

(** The functions given to [setTimeout] *)
Inductive Callback :=
| ConnectionTimeout (ws p : nat)
| Reconnect (roomId : jsstr)
| QuestionTimeout (ws : nat) (text : jsstr) (p : nat)
| SourcesTimeout (ws : nat) (text : jsstr) (p : nat)
| ReportTimeout (roomId : jsstr) (p : nat)
| RetryStatement (roomId : jsstr) (stmt : PendingStatement)
| FlushNext (roomId : jsstr) (stmts : list PendingStatement).

(** What a promise was made for *)
Inductive Purpose :=
| Connecting (roomId : jsstr)
| Asking (roomId text : jsstr)
| AskingSources (roomId text : jsstr)
| Reporting (roomId : jsstr).

Inductive Reply :=
| Connected
| Answer (answer : jsstr)
| AnswerSources (answer : jsstr) (sources : list (json * json))
| Report (success : bool) (fields : json).

Inductive Settlement := Resolved (r : Reply) | Rejected (message : jsstr).

(** [awaited]: a handler for its rejection is attached *)
Record Promise := mkPromise { purpose : Purpose; created : Z; awaited : bool; settled : option Settlement }.

(** [posts]: the promises of [requestReport] whose HTTP request is under way *)
Record RagState := mkRag {
  connections : jsmap jsstr nat;
  statementBuffers : jsmap jsstr (list PendingStatement);
  pendingReportRequests : jsmap jsstr PendingRequest;
  reconnectAttemptCounts : jsmap jsstr Z;
  reconnectTimers : jsmap jsstr nat;
  contexts : jsmap nat ConnectionContext;
  sockets : jsmap nat Socket;
  timers : jsmap nat (Z * Callback);
  promises : jsmap nat Promise;
  posts : list nat;
  next : nat
}.

#[export] Instance eta_rag : Eta RagState := fun s =>
  mkRag (connections s) (statementBuffers s) (pendingReportRequests s) (reconnectAttemptCounts s)
    (reconnectTimers s) (contexts s) (sockets s) (timers s) (promises s) (posts s) (next s).

Definition initial : RagState := mkRag [] [] [] [] [] [] [] [] [] [] 0.

(** What a step does that others can see *)
Inductive Output :=
| Wrote (ws : nat) (message : json)
| Threw (message : jsstr)
| ReportReturned (success : bool) (message : jsstr)
| UnhandledRejection (message : jsstr).

(* ------------------------------------------------------------------ *)
(** ** Timeouts and promises *)

Definition set_timeout (now delay : Z) (cb : Callback) (s : RagState) : RagState :=
  s <| timers := map_set (timers s) (next s) (now + delay, cb) |> <| next := S (next s) |>.

Definition clear_timeout (t : nat) (s : RagState) : RagState :=
  s <| timers := map_delete (timers s) t |>.

Definition new_promise (now : Z) (w : Purpose) (handled : bool) (s : RagState) : RagState :=
  s <| promises := map_set (promises s) (next s) (mkPromise w now handled None) |> <| next := S (next s) |>.

(** [requestReport] goes on when the promise it awaits is settled *)
Definition report_result (r : Settlement) : Output :=
  match r with
  | Resolved (Report true _) => ReportReturned true (js "보고서 생성 완료")
  | Resolved _ => ReportReturned false (js "보고서 생성 실패")
  | Rejected m => ReportReturned false m
  end.

(** The rest of [requestReport]: on a failure the entry of the room is deleted *)
Definition report_continues (w : Purpose) (r : Settlement) (s : RagState) : RagState * list Output :=
  match w with
  | Reporting roomId =>
    (match r with
     | Rejected _ => s <| pendingReportRequests := map_delete (pendingReportRequests s) roomId |>
     | Resolved _ => s
     end, [report_result r])
  | _ => (s, [])
  end.

(** [resolve] and [reject]; only the first counts *)
Definition settle (p : nat) (r : Settlement) (s : RagState) : RagState * list Output :=
  match map_get (promises s) p with
  | Some (mkPromise w t handled None) =>
    let s := s <| promises := map_set (promises s) p (mkPromise w t handled (Some r)) |> in
    if handled then report_continues w r s
    else (s, match r with Rejected m => [UnhandledRejection m] | Resolved _ => [] end)
  | _ => (s, [])
  end.

(* ------------------------------------------------------------------ *)
(** ** Sockets *)

Definition state_of (s : RagState) (ws : nat) : option ReadyState := readyState <$> map_get (sockets s) ws.

Definition set_ready (ws : nat) (r : ReadyState) (s : RagState) : RagState :=
  match map_get (sockets s) ws with
  | Some (mkSocket rm _ t p) => s <| sockets := map_set (sockets s) ws (mkSocket rm r t p) |>
  | None => s
  end.

(** [ws.close()] *)
Definition close_socket (ws : nat) (s : RagState) : RagState :=
  match state_of s ws with
  | Some CONNECTING | Some OPEN => set_ready ws CLOSING s
  | _ => s
  end.

(** The open connection of a room *)
Definition open_connection (s : RagState) (roomId : jsstr) : option nat :=
  match map_get (connections s) roomId with
  | Some ws => if decide (state_of s ws = Some OPEN) then Some ws else None
  | None => None
  end.

Definition isConnected (s : RagState) (roomId : jsstr) : bool :=
  match open_connection s roomId with Some _ => true | None => false end.

Definition context_of (s : RagState) (ws : nat) : ConnectionContext := default (mkContext [] []) (map_get (contexts s) ws).

(* ------------------------------------------------------------------ *)
(** ** Statements *)

Definition addToStatementBuffer (now : Z) (roomId txt spk : jsstr) (st : option Z) (en : option Q) (s : RagState) : RagState :=
  let buffer := default [] (map_get (statementBuffers s) roomId) in
  let buffer := if (STATEMENT_BUFFER_MAX_SIZE <=? length buffer)%nat then drop 1 buffer else buffer in
  s <| statementBuffers := map_set (statementBuffers s) roomId (buffer ++ [mkStatement txt spk now 0 st en]) |>.

Definition statement_message (now : Z) (txt spk : jsstr) (st : option Z) (en : option Q) : json :=
  JObj [(js "type", JStr (js "statement")); (js "text", JStr txt); (js "speaker", JStr spk); (js "confidence", JNum 1);
        (js "startTime", JNum (inject_Z (default now st))); (js "endTime", match en with Some e => JNum e | None => JNull end)].

Definition sendStatement (now : Z) (thrown : bool) (roomId : jsstr) (stmt : PendingStatement) (s : RagState) : RagState * list Output :=
  let '(mkStatement txt spk _ retry st en) := stmt in
  let s := if retry =? 0 then addToStatementBuffer now roomId txt spk st en s else s in
  match open_connection s roomId with
  | None => (s, [])
  | Some ws =>
    if thrown then
      if retry <? MAX_STATEMENT_RETRY then
        let delay := Z.min (1000 * 2 ^ retry) 5000 in
        (set_timeout now delay (RetryStatement roomId (mkStatement txt spk now (retry + 1) st en)) s, [])
      else (s, [])
    else (s, [Wrote ws (statement_message now txt spk st en)])
  end.

(** The loop of [flushStatementBuffer], up to the pause after a statement *)
Definition flush_next (now : Z) (thrown : bool) (roomId : jsstr) (stmts : list PendingStatement) (s : RagState) : RagState * list Output :=
  match stmts with
  | [] => (s, [])
  | stmt :: rest =>
    let '(s, out) := sendStatement now thrown roomId stmt s in
    (set_timeout now 100 (FlushNext roomId rest) s, out)
  end.

Definition not_expired (now : Z) (stmt : PendingStatement) : bool := now - timestamp stmt <=? STATEMENT_BUFFER_MAX_AGE.

Definition flushStatementBuffer (now : Z) (thrown : bool) (roomId : jsstr) (s : RagState) : RagState * list Output :=
  match map_get (statementBuffers s) roomId with
  | None | Some [] => (s, [])
  | Some buffer =>
    flush_next now thrown roomId (List.filter (not_expired now) buffer)
      (s <| statementBuffers := map_delete (statementBuffers s) roomId |>)
  end.

(* ------------------------------------------------------------------ *)
(** ** Connections *)

(** [refused]: the constructor of the socket throws *)
Definition connect (now : Z) (refused : option jsstr) (roomId : jsstr) (s : RagState) : RagState * list Output :=
  if isConnected s roomId then (s, [])
  else
    let p := next s in
    let s := new_promise now (Connecting roomId) true s in
    match refused with
    | Some m => settle p (Rejected m) s
    | None =>
      let ws := next s in
      (set_timeout now CONNECTION_TIMEOUT (ConnectionTimeout ws p)
         (s <| sockets := map_set (sockets s) ws (mkSocket roomId CONNECTING (S ws) p) |> <| next := S ws |>), [])
    end.

Definition on_open (now : Z) (thrown : bool) (ws : nat) (k : Socket) (s : RagState) : RagState * list Output :=
  let s := clear_timeout (connectionTimeout k) (set_ready ws OPEN s) in
  let s := s <| contexts := map_set (contexts s) ws (mkContext [] []) |>
             <| connections := map_set (connections s) (room k) ws |>
             <| reconnectAttemptCounts := map_delete (reconnectAttemptCounts s) (room k) |> in
  let '(s, out) := flushStatementBuffer now thrown (room k) s in
  let '(s, out') := settle (connecting k) (Resolved Connected) s in
  (s, out ++ out').

Definition scheduleReconnect (now : Z) (roomId : jsstr) (s : RagState) : RagState :=
  if map_has (reconnectTimers s) roomId then s
  else
    let currentAttempts := default 0 (map_get (reconnectAttemptCounts s) roomId) in
    if MAX_RECONNECT_ATTEMPTS <=? currentAttempts then
      s <| connections := map_delete (connections s) roomId |>
        <| reconnectAttemptCounts := map_delete (reconnectAttemptCounts s) roomId |>
    else
      let t := next s in
      let s := s <| reconnectAttemptCounts := map_set (reconnectAttemptCounts s) roomId (currentAttempts + 1) |> in
      let s := set_timeout now RECONNECT_DELAY (Reconnect roomId) s in
      s <| reconnectTimers := map_set (reconnectTimers s) roomId t |>.

Definition on_close (now : Z) (code : Z) (ws : nat) (k : Socket) (s : RagState) : RagState :=
  let s := set_ready ws CLOSED s in
  if code =? 1000 then s <| connections := map_delete (connections s) (room k) |>
  else scheduleReconnect now (room k) s.

Definition reject_request (e : jsstr * PendingRequest) (s : RagState) : RagState :=
  (settle (request e.2) (Rejected (js "RAG client disconnected")) (clear_timeout (timer e.2) s)).1.

(** [disconnect], when the room has a context *)
Definition drop_context (roomId : jsstr) (ws : nat) (s : RagState) : RagState * list Output :=
  let c := context_of s ws in
  let s := foldr reject_request s (rev (pendingRequests c)) in
  let s := s <| contexts := map_set (contexts s) ws (mkContext [] (pendingRequestsWithSources c)) |> in
  let '(s, out) :=
    match map_get (pendingReportRequests s) roomId with
    | Some e =>
      settle (request e) (Rejected (js "회의가 종료되었습니다."))
        (clear_timeout (timer e) s <| pendingReportRequests := map_delete (pendingReportRequests s) roomId |>)
    | None => (s, [])
    end in
  let s := close_socket ws s in
  let s := s <| connections := map_delete (connections s) roomId |> in
  (match map_get (statementBuffers s) roomId with
   | Some (_ :: _) => s <| statementBuffers := map_delete (statementBuffers s) roomId |>
   | _ => s
   end, out).

Definition disconnect (roomId : jsstr) (s : RagState) : RagState * list Output :=
  let s := match map_get (reconnectTimers s) roomId with
           | Some t => clear_timeout t s <| reconnectTimers := map_delete (reconnectTimers s) roomId |>
           | None => s
           end in
  let s := s <| reconnectAttemptCounts := map_delete (reconnectAttemptCounts s) roomId |> in
  match map_get (connections s) roomId with
  | None => (s, [])
  | Some ws => drop_context roomId ws s
  end.

Fixpoint disconnect_all (rooms : list jsstr) (s : RagState) : RagState * list Output :=
  match rooms with
  | [] => (s, [])
  | roomId :: rooms =>
    let '(s, out) := disconnect roomId s in
    let '(s, out') := disconnect_all rooms s in
    (s, out ++ out')
  end.

Definition onModuleDestroy (s : RagState) : RagState * list Output :=
  let s := foldr (fun t s => clear_timeout t s) s (map_values (reconnectTimers s)) in
  disconnect_all (map_keys (connections s))
    (s <| reconnectTimers := [] |> <| reconnectAttemptCounts := [] |> <| statementBuffers := [] |>).

(* ------------------------------------------------------------------ *)
(** ** Questions and answers *)

Definition question_message (txt : jsstr) : json :=
  JObj [(js "type", JStr (js "question")); (js "text", JStr txt); (js "confidence", JNum 1)].

Definition not_connected (roomId : jsstr) : jsstr := js "RAG WebSocket not connected for: " ++ roomId.

(** The end of both kinds of question: an exception of [send] rejects the promise *)
Definition send_question (thrown : option jsstr) (ws p : nat) (txt : jsstr) (s : RagState) : RagState * list Output :=
  match thrown with
  | Some m => settle p (Rejected m) s
  | None => (s, [Wrote ws (question_message txt)])
  end.

Definition sendQuestion (now : Z) (thrown : option jsstr) (roomId txt : jsstr) (s : RagState) : RagState * list Output :=
  match open_connection s roomId with
  | None => (s, [Threw (not_connected roomId)])
  | Some ws =>
    let p := next s in
    let s := new_promise now (Asking roomId txt) true s in
    let t := next s in
    let s := set_timeout now REQUEST_TIMEOUT (QuestionTimeout ws txt p) s in
    let c := context_of s ws in
    let c := mkContext (map_set (pendingRequests c) txt (mkPending p t now)) (pendingRequestsWithSources c) in
    send_question thrown ws p txt (s <| contexts := map_set (contexts s) ws c |>)
  end.

Definition sendQuestionWithSources (now : Z) (thrown : option jsstr) (roomId txt : jsstr) (s : RagState) : RagState * list Output :=
  match open_connection s roomId with
  | None => (s, [Threw (not_connected roomId)])
  | Some ws =>
    let p := next s in
    let s := new_promise now (AskingSources roomId txt) true s in
    let t := next s in
    let s := set_timeout now REQUEST_TIMEOUT (SourcesTimeout ws txt p) s in
    let c := context_of s ws in
    let c := mkContext (pendingRequests c) (map_set (pendingRequestsWithSources c) txt (mkPending p t now)) in
    send_question thrown ws p txt (s <| contexts := map_set (contexts s) ws c |>)
  end.

(** [v || d] *)
Definition json_or (v : option json) (d : json) : json :=
  match v with Some w => if json_truthy v then w else d | None => d end.

(** [v === t] for a text *)
Definition is_text (v : option json) (t : string) : bool :=
  match v with Some (JStr k) => bool_decide (k = js t) | _ => false end.

(** [m.get(v)] and [m.delete(v)] for a map whose keys are strings *)
Definition get_json {V} (m : jsmap jsstr V) (v : option json) : option V :=
  match v with Some (JStr k) => map_get m k | _ => None end.

Definition delete_json {V} (m : jsmap jsstr V) (v : option json) : jsmap jsstr V :=
  match v with Some (JStr k) => map_delete m k | _ => m end.

(** [sources.map(...)]; [None] is a [TypeError] *)
Definition source_of (v : json) : option (json * json) :=
  match v with
  | JNull => None
  | _ => Some (json_or (prop v (js "text")) (JStr []), json_or (prop v (js "speaker")) JNull)
  end.

Definition sources_of (v : json) : option (list (json * json)) :=
  match v with JArr l => mapM source_of l | _ => None end.

Definition on_answer (ws : nat) (m : json) (s : RagState) : RagState * list Output :=
  let c := context_of s ws in
  let questionText := prop m (js "text") in
  match json_or (prop m (js "answer")) (JStr []) with
  | JStr answer =>
    match get_json (pendingRequestsWithSources c) questionText with
    | Some e =>
      let s := clear_timeout (timer e) s in
      let c := mkContext (pendingRequests c) (delete_json (pendingRequestsWithSources c) questionText) in
      let s := s <| contexts := map_set (contexts s) ws c |> in
      match sources_of (json_or (prop m (js "sources")) (JArr [])) with
      | Some sources => settle (request e) (Resolved (AnswerSources answer sources)) s
      | None => (s, [])
      end
    | None =>
      match get_json (pendingRequests c) (Some (json_or questionText (JStr (js "unknown")))) with
      | Some e =>
        let s := clear_timeout (timer e) s in
        let c := mkContext (delete_json (pendingRequests c) questionText) (pendingRequestsWithSources c) in
        settle (request e) (Resolved (Answer answer)) (s <| contexts := map_set (contexts s) ws c |>)
      | None => (s, [])
      end
    end
  | _ => (s, [])
  end.

Definition report_of (m : json) : Reply :=
  Report (is_text (prop m (js "status")) "success")
    (JObj (opt_field "status" (prop m (js "status")) ++ opt_field "meetingTitle" (prop m (js "meeting_title")) ++
           opt_field "summaryType" (prop m (js "summary_type")) ++ opt_field "reportContent" (prop m (js "report_content")))).

Definition on_report (roomId : jsstr) (m : json) (s : RagState) : RagState * list Output :=
  match map_get (pendingReportRequests s) roomId with
  | Some e =>
    settle (request e) (Resolved (report_of m))
      (clear_timeout (timer e) s <| pendingReportRequests := map_delete (pendingReportRequests s) roomId |>)
  | None => (s, [])
  end.

(** Exceptions are logged *)
Definition handleMessage (roomId : jsstr) (data : jsstr) (s : RagState) : RagState * list Output :=
  match parse data with
  | None | Some JNull => (s, [])
  | Some m =>
    match map_get (connections s) roomId with
    | None => (s, [])
    | Some ws =>
      if is_text (prop m (js "type")) "answer" then on_answer ws m s
      else if is_text (prop m (js "type")) "meeting_report" then on_report roomId m s
      else (s, [])
    end
  end.

(* ------------------------------------------------------------------ *)
(** ** Reports *)

Definition requestReport (now : Z) (roomId : jsstr) (s : RagState) : RagState * list Output :=
  if negb (isConnected s roomId) then (s, [ReportReturned false (js "WebSocket 연결이 없습니다.")])
  else if map_has (pendingReportRequests s) roomId then
    (s, [ReportReturned false (js "이미 보고서 생성 요청이 진행 중입니다.")])
  else
    let p := next s in
    let s := new_promise now (Reporting roomId) false s in
    let t := next s in
    let s := set_timeout now REPORT_TIMEOUT (ReportTimeout roomId p) s in
    (s <| pendingReportRequests := map_set (pendingReportRequests s) roomId (mkPending p t now) |> <| posts := p :: posts s |>, []).

(** The HTTP request of [requestReport] is answered or has [failed]; the
    promise is awaited from here on *)
Definition report_posted (p : nat) (failed : option jsstr) (s : RagState) : option (RagState * list Output) :=
  match map_get (promises s) p with
  | Some (mkPromise (Reporting roomId) t _ r) =>
    if decide (p ∈ posts s) then
      let s := s <| posts := List.filter (fun q => negb (Nat.eqb q p)) (posts s) |> in
      match failed with
      | Some m => Some (s <| pendingReportRequests := map_delete (pendingReportRequests s) roomId |>, [ReportReturned false m])
      | None =>
        let s := s <| promises := map_set (promises s) p (mkPromise (Reporting roomId) t true r) |> in
        Some (match r with Some r => report_continues (Reporting roomId) r s | None => (s, []) end)
      end
    else None
  | _ => None
  end.

(* ------------------------------------------------------------------ *)
(** ** The other operations on the buffers *)

Definition injectMockStatements (now : Z) (roomId : jsstr) (utterances : list (jsstr * jsstr)) (s : RagState) : RagState :=
  let buffer := default [] (map_get (statementBuffers s) roomId) in
  s <| statementBuffers := map_set (statementBuffers s) roomId
         (buffer ++ ((fun u => mkStatement u.2 u.1 now 0 None None) <$> utterances)) |>.

Definition clearBuffer (roomId : jsstr) (s : RagState) : RagState :=
  s <| statementBuffers := map_delete (statementBuffers s) roomId |>.

Definition getBufferContent (s : RagState) (roomId : jsstr) : list (jsstr * jsstr * Z) :=
  (fun stmt => (speaker stmt, text stmt, timestamp stmt)) <$> default [] (map_get (statementBuffers s) roomId).

Definition getFormattedTranscript (s : RagState) (roomId : jsstr) : jsstr :=
  join [10] ((fun stmt => speaker stmt ++ js ": " ++ text stmt) <$> default [] (map_get (statementBuffers s) roomId)).

Definition getConnectionStatus (s : RagState) (roomId : jsstr) : bool * jsstr := (isConnected s roomId, roomId).

Definition getAllConnectionsStatus (s : RagState) : nat * list jsstr * nat :=
  (length (connections s), map_keys (connections s), sum_list (length <$> map_values (statementBuffers s))).

Definition getBufferStatus (now : Z) (s : RagState) (roomId : jsstr) : nat * option Z :=
  match map_get (statementBuffers s) roomId with
  | None | Some [] => (0%nat, None)
  | Some ((stmt :: _) as buffer) => (length buffer, if timestamp stmt =? 0 then None else Some (now - timestamp stmt))
  end.

(* ------------------------------------------------------------------ *)
(** ** Requests over HTTP *)

Definition RAG_API_URL : jsstr := js "http://aura-rag-alb-1169123670.ap-northeast-2.elb.amazonaws.com".

(** The configured base address; an empty one counts as missing *)
Definition ragBaseUrl (configured : option jsstr) : jsstr :=
  match configured with Some ((_ :: _) as url) => url | _ => RAG_API_URL end.

Definition meeting_endpoint (configured : option jsstr) (roomId : jsstr) (action : string) : jsstr :=
  ragBaseUrl configured ++ js "/meetings/" ++ roomId ++ js action.

(** What the caller gets: the data of the answer, or the message of the error *)
Record ApiResult := mkApi { api_success : bool; api_data : option json; api_message : option json }.

Definition api_error (m : jsstr) : ApiResult := mkApi false None (Some (JStr m)).

(** Address, body and result of each request, with the answer of the server *)
Definition getIssues (configured : option jsstr) (roomId : jsstr) (refresh : bool) (answer : outcome jsstr json) : jsstr * ApiResult :=
  (meeting_endpoint configured roomId (if refresh then "/issues?refresh=true" else "/issues"),
   match answer with Return data => mkApi true (Some data) None | Throw m => api_error m end).

Definition posted (answer : outcome jsstr json) : ApiResult :=
  match answer with Return data => mkApi true None (Some data) | Throw m => api_error m end.

Definition endMeeting (configured : option jsstr) (roomId : jsstr) (answer : outcome jsstr json) : jsstr * ApiResult :=
  (meeting_endpoint configured roomId "/end", posted answer).

Definition startMeeting (configured : option jsstr) (roomId : jsstr) (payload : json) (answer : outcome jsstr json) : jsstr * json * ApiResult :=
  (meeting_endpoint configured roomId "/start", payload, posted answer).

Definition participantJoined (configured : option jsstr) (roomId id name : jsstr) (host : bool) (answer : outcome jsstr json)
  : jsstr * json * ApiResult :=
  (meeting_endpoint configured roomId "/participants/join",
   JObj [(js "id", JStr id); (js "name", JStr name); (js "role", JStr (js (if host then "host" else "participant")))], posted answer).

Definition participantLeft (configured : option jsstr) (roomId participantId : jsstr) (answer : outcome jsstr json) : jsstr * json * ApiResult :=
  (meeting_endpoint configured roomId "/participants/leave", JObj [(js "participantId", JStr participantId)], posted answer).

(* ------------------------------------------------------------------ *)
(** ** The event loop *)

Definition run_callback (now : Z) (thrown : option jsstr) (cb : Callback) (s : RagState) : RagState * list Output :=
  match cb with
  | ConnectionTimeout ws p =>
    if decide (state_of s ws = Some OPEN) then (s, [])
    else settle p (Rejected (js "RAG connection timeout")) (close_socket ws s)
  | Reconnect roomId =>
    connect now thrown roomId (s <| reconnectTimers := map_delete (reconnectTimers s) roomId |>)
  | QuestionTimeout ws txt p =>
    let c := context_of s ws in
    settle p (Rejected (js "RAG request timeout"))
      (s <| contexts := map_set (contexts s) ws (mkContext (map_delete (pendingRequests c) txt) (pendingRequestsWithSources c)) |>)
  | SourcesTimeout ws txt p =>
    let c := context_of s ws in
    settle p (Rejected (js "RAG request timeout"))
      (s <| contexts := map_set (contexts s) ws (mkContext (pendingRequests c) (map_delete (pendingRequestsWithSources c) txt)) |>)
  | ReportTimeout roomId p =>
    settle p (Rejected (js "보고서 생성 타임아웃")) (s <| pendingReportRequests := map_delete (pendingReportRequests s) roomId |>)
  | RetryStatement roomId stmt => sendStatement now (bool_decide (is_Some thrown)) roomId stmt s
  | FlushNext roomId stmts => flush_next now (bool_decide (is_Some thrown)) roomId stmts s
  end.

(** [thrown]: the library throws in this step, with this message *)
Inductive Event :=
| Connect (roomId : jsstr)
| SendStatement (roomId txt spk : jsstr) (st : option Z) (en : option Q)
| SendQuestion (roomId txt : jsstr)
| SendQuestionWithSources (roomId txt : jsstr)
| RequestReport (roomId : jsstr)
| Disconnect (roomId : jsstr)
| OnModuleDestroy
| InjectMockStatements (roomId : jsstr) (utterances : list (jsstr * jsstr))
| ClearBuffer (roomId : jsstr)
| ReportPosted (p : nat)
| Opened (ws : nat)
| Received (ws : nat) (data : jsstr)
| Closed (ws : nat) (code : Z)
| Fires (t : nat).

Definition step (now : Z) (thrown : option jsstr) (e : Event) (s : RagState) : option (RagState * list Output) :=
  let failed := bool_decide (is_Some thrown) in
  match e with
  | Connect roomId => Some (connect now thrown roomId s)
  | SendStatement roomId txt spk st en => Some (sendStatement now failed roomId (mkStatement txt spk now 0 st en) s)
  | SendQuestion roomId txt => Some (sendQuestion now thrown roomId txt s)
  | SendQuestionWithSources roomId txt => Some (sendQuestionWithSources now thrown roomId txt s)
  | RequestReport roomId => Some (requestReport now roomId s)
  | Disconnect roomId => Some (disconnect roomId s)
  | OnModuleDestroy => Some (onModuleDestroy s)
  | InjectMockStatements roomId utterances => Some (injectMockStatements now roomId utterances s, [])
  | ClearBuffer roomId => Some (clearBuffer roomId s, [])
  | ReportPosted p => report_posted p thrown s
  | Opened ws =>
    k ← map_get (sockets s) ws;
    match readyState k with CONNECTING => Some (on_open now failed ws k s) | _ => None end
  | Received ws data =>
    k ← map_get (sockets s) ws;
    match readyState k with OPEN | CLOSING => Some (handleMessage (room k) data s) | _ => None end
  | Closed ws code =>
    k ← map_get (sockets s) ws;
    match readyState k with CLOSED => None | _ => Some (on_close now code ws k s, []) end
  | Fires t =>
    '(due, cb) ← map_get (timers s) t;
    if due <=? now then Some (run_callback now thrown cb (clear_timeout t s)) else None
  end.

(** Turns of the event loop at times that do not decrease *)
Record Turn := mkTurn { at_time : Z; throws : option jsstr; event : Event }.

Fixpoint run (turns : list Turn) (s : RagState) : option (RagState * list Output) :=
  match turns with
  | [] => Some (s, [])
  | k :: turns =>
    '(s, out) ← step (at_time k) (throws k) (event k) s;
    '(s, out') ← run turns s;
    Some (s, out ++ out')
  end.

