(* ===== verification/RagInvariant.v ===== *)
(** * Requests to the retrieval server are settled

    The invariant of [RagClient]: the maps of the service, the sockets, timeouts
    and promises refer to each other as the handlers expect, and every promise
    that is not settled has its timeout.  [Good X] allows exceptions for the
    promises in [X], between the instructions of a step. *)

From Stdlib Require Import ZArith QArith Lia.
From stdpp Require Import base strings option list.
From S2P Require Import Prelude JsString JsMap Json Records RagClient.

#[local] Open Scope Z_scope.

(* ------------------------------------------------------------------ *)
(** ** The invariant *)

(** The promise a timeout rejects *)
Definition times_out (cb : Callback) : option nat :=
  match cb with
  | ConnectionTimeout _ p | QuestionTimeout _ _ p | SourcesTimeout _ _ p | ReportTimeout _ p => Some p
  | Reconnect _ | RetryStatement _ _ | FlushNext _ _ => None
  end.

Definition limit (w : Purpose) : Z :=
  match w with
  | Connecting _ => CONNECTION_TIMEOUT
  | Asking _ _ | AskingSources _ _ => REQUEST_TIMEOUT
  | Reporting _ => REPORT_TIMEOUT
  end.

Definition purpose_of (s : RagState) (p : nat) : option Purpose := purpose <$> map_get (promises s) p.

Definition pending (s : RagState) (p : nat) : Prop := exists w t a, map_get (promises s) p = Some (mkPromise w t a None).

(** The handle [t] refers to [cb] as long as the timeout is set *)
Definition owns (s : RagState) (t : nat) (cb : Callback) : Prop :=
  (t < next s)%nat /\ forall x, map_get (timers s) t = Some x -> x.2 = cb.

Definition waits_for (s : RagState) (ws : nat) (cb : Callback) (e : PendingRequest) (w : jsstr -> Purpose) : Prop :=
  owns s (timer e) cb /\ exists k, map_get (sockets s) ws = Some k /\ purpose_of s (request e) = Some (w (room k)).

(** The maps refer to each other as the handlers expect, and every promise that
    is not settled has its timeout, except for those in [X] *)
Record Good (X : list nat) (s : RagState) : Prop := {
  good_timers t x : map_get (timers s) t = Some x -> (t < next s)%nat;
  good_promises p x : map_get (promises s) p = Some x -> (p < next s)%nat;
  good_sockets ws k : map_get (sockets s) ws = Some k ->
    ((ws < next s)%nat /\ (connecting k < next s)%nat) /\ owns s (connectionTimeout k) (ConnectionTimeout ws (connecting k));
  good_open ws k : map_get (sockets s) ws = Some k -> readyState k = OPEN -> pending s (connecting k) -> connecting k ∈ X;
  good_connecting t d ws p : map_get (timers s) t = Some (d, ConnectionTimeout ws p) ->
    exists k, map_get (sockets s) ws = Some k /\ connecting k = p;
  good_questions ws c txt e : map_get (contexts s) ws = Some c -> (txt, e) ∈ pendingRequests c ->
    waits_for s ws (QuestionTimeout ws txt (request e)) e (fun r => Asking r txt);
  good_sources ws c txt e : map_get (contexts s) ws = Some c -> (txt, e) ∈ pendingRequestsWithSources c ->
    waits_for s ws (SourcesTimeout ws txt (request e)) e (fun r => AskingSources r txt);
  good_reports r e : map_get (pendingReportRequests s) r = Some e ->
    owns s (timer e) (ReportTimeout r (request e)) /\ purpose_of s (request e) = Some (Reporting r);
  good_reconnects r t : (r, t) ∈ reconnectTimers s -> owns s t (Reconnect r);
  good_connections r ws : map_get (connections s) r = Some ws -> exists k, map_get (sockets s) ws = Some k /\ room k = r;
  good_waiting p w t a : map_get (promises s) p = Some (mkPromise w t a None) -> p ∉ X ->
    exists tm cb, map_get (timers s) tm = Some (t + limit w, cb) /\ times_out cb = Some p
}.

Lemma good_initial : Good [] initial.
Proof. constructor; try done; intros ? ? []%elem_of_nil. Qed.

(** Fields the invariant does not mention *)
Ltac same_good := intros []; constructor; assumption.

Lemma good_buffers X s v : Good X s -> Good X (s <| statementBuffers := v |>).
Proof. same_good. Qed.

Lemma good_counts X s v : Good X s -> Good X (s <| reconnectAttemptCounts := v |>).
Proof. same_good. Qed.

Lemma good_posts X s v : Good X s -> Good X (s <| posts := v |>).
Proof. same_good. Qed.

Lemma good_weaken X Y s : X ⊆ Y -> Good X s -> Good Y s.
Proof. intros HXY []; constructor; try assumption; [intros ws k Hk Ho Hp; by apply HXY, (good_open0 ws k)|]. intros p w t a Hp HY. apply (good_waiting0 p w t a Hp). intros HX. by apply HY, HXY. Qed.

(** Entries may be deleted *)
Lemma good_reports_delete X s r : Good X s -> Good X (s <| pendingReportRequests := map_delete (pendingReportRequests s) r |>).
Proof. intros []; constructor; try assumption. intros r' e [_ He]%map_get_delete_Some. by apply good_reports0. Qed.

Lemma good_reconnects_delete X s r : Good X s -> Good X (s <| reconnectTimers := map_delete (reconnectTimers s) r |>).
Proof. intros []; constructor; try assumption. intros r' e [_ He]%elem_of_map_delete. by apply good_reconnects0. Qed.

Lemma good_connections_delete X s r : Good X s -> Good X (s <| connections := map_delete (connections s) r |>).
Proof. intros []; constructor; try assumption. intros r' e [_ He]%map_get_delete_Some. by apply good_connections0. Qed.

(** The requests of a context, in the context of the socket [ws] *)
Definition context_good (s : RagState) (ws : nat) (c : ConnectionContext) : Prop :=
  (forall txt e, (txt, e) ∈ pendingRequests c -> waits_for s ws (QuestionTimeout ws txt (request e)) e (fun r => Asking r txt)) /\
  (forall txt e, (txt, e) ∈ pendingRequestsWithSources c -> waits_for s ws (SourcesTimeout ws txt (request e)) e (fun r => AskingSources r txt)).

Lemma good_context X s ws : Good X s -> context_good s ws (context_of s ws).
Proof.
  intros G. unfold context_of. destruct (map_get (contexts s) ws) as [c|] eqn:E; simpl; [|by split; intros ? ? ?%elem_of_nil].
  split; intros txt e He; [by eapply good_questions|by eapply good_sources].
Qed.

Lemma good_set_context X s ws c : Good X s -> context_good s ws c -> Good X (s <| contexts := map_set (contexts s) ws c |>).
Proof.
  intros [] [Hq Hs]; constructor; try assumption; intros ws' c' txt e [[<- <-]|[_ Hc]]%map_get_set_Some He; eauto.
Qed.

Lemma context_good_delete s ws c txt txt' :
  context_good s ws c -> context_good s ws (mkContext (delete_json (pendingRequests c) txt) (delete_json (pendingRequestsWithSources c) txt')).
Proof.
  intros [Hq Hs]; split; cbn [pendingRequests pendingRequestsWithSources]; intros t e He.
  - apply Hq. destruct txt as [[]|]; try exact He. by apply elem_of_map_delete in He as [_ He].
  - apply Hs. destruct txt' as [[]|]; try exact He. by apply elem_of_map_delete in He as [_ He].
Qed.

(** A timeout is cleared: its promise has to be settled *)
Lemma owns_clear s t t' cb : owns s t cb -> owns (clear_timeout t' s) t cb.
Proof. intros [Hlt Ht]. split; [done|]. intros x [_ Hx]%map_get_delete_Some. by apply Ht. Qed.

Lemma good_clear X Y s t cb :
  Good X s -> owns s t cb -> X ⊆ Y -> (forall p, times_out cb = Some p -> p ∈ Y) -> Good Y (clear_timeout t s).
Proof.
  intros G Ho HXY Hcb. apply (good_weaken X Y) in G; [|done]. destruct G; constructor; try assumption.
  - intros t' x [_ Hx]%map_get_delete_Some. by eapply good_timers0.
  - intros ws k Hk. destruct (good_sockets0 ws k Hk). by split; [|apply owns_clear].
  - intros t' d ws p [_ Ht]%map_get_delete_Some. by eapply good_connecting0.
  - intros ws c txt e Hc He. destruct (good_questions0 ws c txt e Hc He). by split; [apply owns_clear|].
  - intros ws c txt e Hc He. destruct (good_sources0 ws c txt e Hc He). by split; [apply owns_clear|].
  - intros r e He. destruct (good_reports0 r e He). by split; [apply owns_clear|].
  - intros r t' Ht'. by apply owns_clear, good_reconnects0.
  - intros p w tm a Hp HY. destruct (good_waiting0 p w tm a Hp HY) as (tm' & cb' & Htm & Hout). exists tm', cb'. split; [|done].
    unfold clear_timeout. cbn. rewrite map_get_delete_ne; [done|]. intros <-. destruct Ho as [_ Ho]. apply Ho in Htm. simpl in Htm. subst cb'.
    by apply HY, Hcb.
Qed.

(** A promise is settled *)
Lemma good_set_promise X Y s p w t a a' r r' :
  map_get (promises s) p = Some (mkPromise w t a r) -> Good Y s ->
  (r' = None -> r = None) -> (forall q, q ∈ Y -> q ∈ X \/ (q = p /\ r' <> None)) ->
  Good X (s <| promises := map_set (promises s) p (mkPromise w t a' r') |>).
Proof.
  intros Hp [] Hr HY.
  assert (forall q, purpose_of (s <| promises := map_set (promises s) p (mkPromise w t a' r') |>) q = purpose_of s q) as Hpur.
  { intros q. unfold purpose_of. simpl. destruct (decide (p = q)) as [<-|]; [by rewrite map_get_set_eq, Hp|by rewrite map_get_set_ne]. }
  assert (forall q w0 t0 a0, map_get (map_set (promises s) p (mkPromise w t a' r')) q = Some (mkPromise w0 t0 a0 None) ->
    exists a1, map_get (promises s) q = Some (mkPromise w0 t0 a1 None) /\ (q ∈ Y -> q ∈ X)) as Hold.
  { intros q w0 t0 a0 [[<- [= <- <- _ ->]]|[Hne Hx]]%map_get_set_Some; [exists a; rewrite Hp, (Hr eq_refl)|exists a0]; (split; [done|]); intros [?|[]]%HY; done. }
  constructor; try assumption.
  - intros q x [[<- _]|[_ Hx]]%map_get_set_Some; by eapply good_promises0.
  - intros ws k Hk Ho (w' & t' & a0 & Hx). apply Hold in Hx as (a1 & Hx & HX). apply HX, (good_open0 ws k Hk Ho). by exists w', t', a1.
  - intros ws c txt e Hc He. destruct (good_questions0 ws c txt e Hc He) as (Ho & k & Hk & Hq). split; [done|]. exists k. by rewrite Hpur.
  - intros ws c txt e Hc He. destruct (good_sources0 ws c txt e Hc He) as (Ho & k & Hk & Hq). split; [done|]. exists k. by rewrite Hpur.
  - intros r0 e He. destruct (good_reports0 r0 e He). by rewrite Hpur.
  - intros q w0 t0 a0 (a1 & Hx & HX)%Hold Hq. apply (good_waiting0 q w0 t0 a1 Hx). intros ?. by apply Hq, HX.
Qed.

Lemma good_set_settled X s p w t a r :
  map_get (promises s) p = Some (mkPromise w t a None) -> Good (p :: X) s ->
  Good X (s <| promises := map_set (promises s) p (mkPromise w t a (Some r)) |>).
Proof. intros Hp G. apply (good_set_promise X (p :: X) s p w t a a None (Some r)); [done..|]. intros q [->|]%elem_of_cons; [by right|by left]. Qed.

Lemma good_report_continues X s w r : Good X s -> Good X (report_continues w r s).1.
Proof. intros G. destruct w as [| | |roomId]; try exact G. destruct r; [exact G|exact (good_reports_delete X s roomId G)]. Qed.

Lemma good_not_pending X s p : ~ pending s p -> Good (p :: X) s -> Good X s.
Proof.
  intros Hp []; constructor; try assumption.
  - intros ws k Hk Ho Hc. pose proof (good_open0 ws k Hk Ho Hc) as [Heq|]%elem_of_cons; [|done]. rewrite Heq in Hc. by destruct Hp.
  - intros q w t a Hq HX. apply (good_waiting0 q w t a Hq). intros [->|]%elem_of_cons; [apply Hp; by exists w, t, a|by apply HX].
Qed.

Lemma good_settle X s p r : Good (p :: X) s -> Good X (settle p r s).1.
Proof.
  intros G. unfold settle. destruct (map_get (promises s) p) as [[w t a [y|]]|] eqn:E.
  - apply (good_not_pending X s p); [|done]. intros (? & ? & ? & ?). congruence.
  - apply (good_set_settled X s p w t a r E) in G. destruct a; [by apply good_report_continues|exact G].
  - apply (good_not_pending X s p); [|done]. intros (? & ? & ? & ?). congruence.
Qed.

(** A request: a promise and the timeout that rejects it *)
Definition start_request (now : Z) (w : Purpose) (handled : bool) (cb : Callback) (s : RagState) : RagState :=
  set_timeout now (limit w) cb (new_promise now w handled s).

(** New timeouts, promises and sockets beside the old ones *)
Record grows (Y : list nat) (s s' : RagState) : Prop := {
  grows_next : (next s <= next s')%nat;
  grows_same : (contexts s', pendingReportRequests s', reconnectTimers s', connections s') =
               (contexts s, pendingReportRequests s, reconnectTimers s, connections s);
  grows_timers t x : map_get (timers s) t = Some x -> map_get (timers s') t = Some x;
  grows_promises p x : map_get (promises s) p = Some x -> map_get (promises s') p = Some x;
  grows_sockets ws k : map_get (sockets s) ws = Some k -> map_get (sockets s') ws = Some k;
  new_timers t x : map_get (timers s') t = Some x -> map_get (timers s) t = Some x \/
    ((next s <= t < next s')%nat /\
     forall ws p, x.2 = ConnectionTimeout ws p -> exists k, map_get (sockets s') ws = Some k /\ connecting k = p);
  new_promises p x : map_get (promises s') p = Some x -> map_get (promises s) p = Some x \/
    ((next s <= p < next s')%nat /\
     (p ∈ Y \/ exists tm cb, map_get (timers s') tm = Some (created x + limit (purpose x), cb) /\ times_out cb = Some p));
  new_sockets ws k : map_get (sockets s') ws = Some k -> map_get (sockets s) ws = Some k \/
    (readyState k <> OPEN /\ ((ws < next s')%nat /\ (connecting k < next s')%nat) /\
     owns s' (connectionTimeout k) (ConnectionTimeout ws (connecting k)))
}.

Lemma owns_grows Y s s' t cb : grows Y s s' -> owns s t cb -> owns s' t cb.
Proof.
  intros [] [Hlt Ht]. split; [lia|]. intros x [Hx|[Hge _]]%new_timers0; [by apply Ht|lia].
Qed.

Lemma waits_grows Y s s' ws cb e w : grows Y s s' -> waits_for s ws cb e w -> waits_for s' ws cb e w.
Proof.
  intros H (Ho & k & Hk & Hp). split; [by eapply owns_grows|]. exists k. split; [by eapply grows_sockets|].
  unfold purpose_of in *. destruct (map_get (promises s) (request e)) as [x|] eqn:E; [|done]. by rewrite (grows_promises _ _ _ H _ _ E).
Qed.

Lemma good_grows X Y s s' : Good X s -> X ⊆ Y -> grows Y s s' -> Good Y s'.
Proof.
  intros G HXY H. pose proof (grows_same _ _ _ H) as [= Hc Hr Ht Hco]. pose proof (grows_next _ _ _ H). constructor; rewrite ?Hc, ?Hr, ?Ht, ?Hco.
  - intros t x [Hx|[? _]]%(new_timers _ _ _ H); [|lia]. apply (good_timers _ _ G) in Hx. lia.
  - intros p x [Hx|[? _]]%(new_promises _ _ _ H); [|lia]. apply (good_promises _ _ G) in Hx. lia.
  - intros ws k [Hk|(_ & ? & ?)]%(new_sockets _ _ _ H); [|done]. destruct (good_sockets _ _ G ws k Hk) as [[]].
    split; [lia|by eapply owns_grows].
  - intros ws k [Hk|(? & _)]%(new_sockets _ _ _ H) HO (w & t & a & Hp); [|done]. apply (new_promises _ _ _ H) in Hp as [Hp|[Hge _]].
    + apply HXY, (good_open _ _ G ws k Hk HO). by exists w, t, a.
    + destruct (good_sockets _ _ G ws k Hk). lia.
  - intros t d ws p [Hx|[_ Hx]]%(new_timers _ _ _ H); [|by apply Hx]. destruct (good_connecting _ _ G _ _ _ _ Hx) as (k & Hk & <-).
    exists k. by split; [eapply grows_sockets|].
  - intros ws c txt e Hw He. by eapply waits_grows, good_questions.
  - intros ws c txt e Hw He. by eapply waits_grows, good_sources.
  - intros r e He. destruct (good_reports _ _ G r e He) as [Ho Hp]. split; [by eapply owns_grows|].
    unfold purpose_of in *. destruct (map_get (promises s) (request e)) as [x|] eqn:E; [|done]. by rewrite (grows_promises _ _ _ H _ _ E).
  - intros r t Hrt. by eapply owns_grows, good_reconnects.
  - intros r ws Hrw. destruct (good_connections _ _ G _ _ Hrw) as (k & Hk & <-). exists k. by split; [eapply grows_sockets|].
  - intros p w t a [Hp|[_ [?|?]]]%(new_promises _ _ _ H) HY; [|done|done].
    destruct (good_waiting _ _ G p w t a Hp) as (tm & cb & Htm & Hcb); [intros ?; by apply HY, HXY|].
    exists tm, cb. by split; [eapply grows_timers|].
Qed.

Section Fresh.
Context {X : list nat} {s : RagState} (G : Good X s).

Lemma fresh_timers n v t x : (next s <= n)%nat -> map_get (timers s) t = Some x -> map_get (map_set (timers s) n v) t = Some x.
Proof using G. intros Hn Hx. pose proof (good_timers _ _ G _ _ Hx). by rewrite map_get_set_ne by lia. Qed.

Lemma fresh_promises n v p x : (next s <= n)%nat -> map_get (promises s) p = Some x -> map_get (map_set (promises s) n v) p = Some x.
Proof using G. intros Hn Hx. pose proof (good_promises _ _ G _ _ Hx). by rewrite map_get_set_ne by lia. Qed.

Lemma fresh_sockets n v ws k : (next s <= n)%nat -> map_get (sockets s) ws = Some k -> map_get (map_set (sockets s) n v) ws = Some k.
Proof using G. intros Hn Hk. pose proof (proj1 (proj1 (good_sockets _ _ G _ _ Hk))). by rewrite map_get_set_ne by lia. Qed.
End Fresh.

(** Old entries are kept; what is left are the new ones *)
Ltac grow G :=
  apply (good_grows _ _ _ _ G); [try done|constructor; simpl;
  [ lia | done
  | intros t x Hx; first [by apply (fresh_timers G); [lia|]|done]
  | intros p x Hx; first [by apply (fresh_promises G); [lia|]|done]
  | intros ws k Hk; first [by apply (fresh_sockets G); [lia|]|done]
  | intros t x Hx; first [apply map_get_set_Some in Hx as [[<- <-]|[_ Hx]]; [right|by left]|by left]
  | intros p x Hx; first [apply map_get_set_Some in Hx as [[<- <-]|[_ Hx]]; [right|by left]|by left]
  | intros ws k Hk; first [apply map_get_set_Some in Hk as [[<- <-]|[_ Hk]]; [right|by left]|by left] ] ].

Lemma good_request X s now w handled cb :
  Good X s -> times_out cb = Some (next s) -> (forall ws p, cb <> ConnectionTimeout ws p) -> Good X (start_request now w handled cb s).
Proof.
  intros G Hcb Hnc. grow G.
  - split; [lia|]. intros ws p Heq. by destruct (Hnc ws p).
  - split; [lia|]. right. exists (S (next s)), cb. by rewrite map_get_set_eq.
Qed.

(** Another timeout *)
Lemma good_set_timeout X s now d cb : Good X s -> times_out cb = None -> Good X (set_timeout now d cb s).
Proof. intros G Hcb. grow G. split; [lia|]. intros ws p Heq. simpl in Heq. by subst cb. Qed.

(** Sockets *)
Lemma good_set_ready X s ws r :
  Good X s -> (r = OPEN -> forall k, map_get (sockets s) ws = Some k -> connecting k ∈ X) -> Good X (set_ready ws r s).
Proof.
  intros G HO. unfold set_ready. destruct (map_get (sockets s) ws) as [[rm r0 t p]|] eqn:E; [|done].
  destruct G.
  assert (forall ws' k, map_get (sockets s) ws' = Some k -> exists k', map_get (map_set (sockets s) ws (mkSocket rm r t p)) ws' = Some k' /\
    room k' = room k /\ connecting k' = connecting k) as Hk.
  { intros ws' k Hk. destruct (decide (ws = ws')) as [<-|n]; [rewrite map_get_set_eq|rewrite map_get_set_ne by done]; eexists; split; try done.
    by rewrite E in Hk; injection Hk as <-. }
  constructor; try assumption; simpl.
  - intros ws' k [[<- <-]|[_ Hx]]%map_get_set_Some; [exact (good_sockets0 _ _ E)|exact (good_sockets0 _ _ Hx)].
  - intros ws' k [[<- <-]|[_ Hx]]%map_get_set_Some; simpl; [intros -> _; exact (HO eq_refl _ eq_refl)|exact (good_open0 _ _ Hx)].
  - intros t' d ws' q Ht. destruct (good_connecting0 _ _ _ _ Ht) as (k & (k' & Hk' & _ & <-)%Hk & <-). by exists k'.
  - intros ws' c txt e Hc He. destruct (good_questions0 ws' c txt e Hc He) as (? & k & (k' & Hk' & <- & _)%Hk & Hq). split; [done|]. by exists k'.
  - intros ws' c txt e Hc He. destruct (good_sources0 ws' c txt e Hc He) as (? & k & (k' & Hk' & <- & _)%Hk & Hq). split; [done|]. by exists k'.
  - intros r' ws' Hr. destruct (good_connections0 _ _ Hr) as (k & (k' & Hk' & <- & _)%Hk & <-). by exists k'.
Qed.

Lemma good_close_socket X s ws : Good X s -> Good X (close_socket ws s).
Proof. intros G. unfold close_socket. destruct (state_of s ws) as [[]|]; try done; by apply good_set_ready. Qed.

Lemma good_connect X s now refused roomId : Good X s -> Good X (connect now refused roomId s).1.
Proof.
  intros G. unfold connect. destruct (isConnected s roomId); [done|]. destruct refused as [m|].
  - apply good_settle. grow G; [by intros ? ?; apply elem_of_cons; right|]. split; [lia|]. left. apply elem_of_cons. by left.
  - grow G.
    + split; [lia|]. intros ws p [= <- <-]. eexists. by rewrite map_get_set_eq.
    + split; [lia|]. right. exists (S (S (next s))). eexists. by rewrite map_get_set_eq.
    + split; [done|]. simpl. split; [lia|]. split; [simpl; lia|]. intros x. simpl. rewrite map_get_set_eq. by intros [= <-].
Qed.

(** Statements *)
Lemma good_statement X s now thrown roomId stmt : Good X s -> Good X (sendStatement now thrown roomId stmt s).1.
Proof.
  intros G. unfold sendStatement. destruct stmt as [txt spk ts retry st en]. cbv zeta.
  set (s1 := if retry =? 0 then _ else s).
  assert (Good X s1) as G1 by (unfold s1; destruct (retry =? 0); [by apply good_buffers|done]).
  destruct (open_connection s1 roomId); [|done]. destruct thrown; [|done]. destruct (retry <? MAX_STATEMENT_RETRY); [|done].
  by apply good_set_timeout.
Qed.

Lemma good_flush_next X s now thrown roomId stmts : Good X s -> Good X (flush_next now thrown roomId stmts s).1.
Proof.
  intros G. destruct stmts as [|stmt rest]; [done|]. simpl. apply (good_statement X s now thrown roomId stmt) in G.
  destruct (sendStatement now thrown roomId stmt s) as [s1 out]. by apply good_set_timeout.
Qed.

Lemma good_flush X s now thrown roomId : Good X s -> Good X (flushStatementBuffer now thrown roomId s).1.
Proof.
  intros G. unfold flushStatementBuffer. destruct (map_get (statementBuffers s) roomId) as [[|]|]; [done| |done].
  by apply good_flush_next, good_buffers.
Qed.

(** Opening and closing *)
Lemma room_set_ready ws r s k :
  map_get (sockets s) ws = Some k -> exists k', map_get (sockets (set_ready ws r s)) ws = Some k' /\ room k' = room k.
Proof. intros Hk. unfold set_ready. rewrite Hk. destruct k as [rm r0 t p]. eexists. simpl. by rewrite map_get_set_eq. Qed.

Lemma good_on_open s now thrown ws k : Good [] s -> map_get (sockets s) ws = Some k -> Good [] (on_open now thrown ws k s).1.
Proof.
  intros G Hk. unfold on_open. cbv zeta.
  set (s1 := set_ready ws OPEN s). assert (Good [connecting k] s1) as G1.
  { apply good_set_ready; [by apply (good_weaken []); [apply list_subseteq_nil|]|]. intros _ k'. rewrite Hk. intros [= <-]. by apply list_elem_of_singleton. }
  set (s2 := clear_timeout (connectionTimeout k) s1). assert (Good [connecting k] s2) as G2.
  { apply (good_clear [connecting k] _ s1 _ (ConnectionTimeout ws (connecting k))); [done| |done|].
    - destruct (room_set_ready ws OPEN s k Hk) as (k' & Hk' & _). unfold s1, set_ready. rewrite Hk. destruct k as [rm r0 t p].
      exact (proj2 (good_sockets _ _ G _ _ Hk)).
    - intros p [= <-]. by apply list_elem_of_singleton. }
  match goal with |- context [flushStatementBuffer now thrown (room k) ?t] => set (s3 := t) end.
  assert (Good [connecting k] s3) as G3.
  { apply good_counts. apply (good_set_context _ _ ws (mkContext [] [])) in G2; [|split; intros ? ? []%elem_of_nil].
    destruct G2; constructor; try assumption. intros r ws' [[<- <-]|[_ Hr]]%map_get_set_Some; [|by apply good_connections0].
    exact (room_set_ready ws OPEN s k Hk). }
  apply (good_flush _ _ now thrown (room k)) in G3. destruct (flushStatementBuffer now thrown (room k) s3) as [s4 out].
  apply (good_settle [] s4 (connecting k) (Resolved Connected)) in G3. by destruct (settle (connecting k) (Resolved Connected) s4).
Qed.

Lemma good_scheduleReconnect X s now roomId : Good X s -> Good X (scheduleReconnect now roomId s).
Proof.
  intros G. unfold scheduleReconnect. destruct (map_has (reconnectTimers s) roomId); [done|]. cbv zeta.
  destruct (MAX_RECONNECT_ATTEMPTS <=? _); [by apply good_counts, good_connections_delete|].
  match goal with |- context [set_timeout now RECONNECT_DELAY (Reconnect roomId) ?t] => set (s1 := t) end.
  assert (Good X s1) as G1 by by apply good_counts.
  apply (good_set_timeout X s1 now RECONNECT_DELAY (Reconnect roomId)) in G1; [|done].
  destruct G1; constructor; try assumption. intros r t [[-> ->]|Hr]%elem_of_map_set; [|by apply good_reconnects0].
  split; [simpl; lia|]. intros x. simpl. rewrite map_get_set_eq. by intros [= <-].
Qed.

Lemma good_on_close X s now code ws k : Good X s -> Good X (on_close now code ws k s).
Proof.
  intros G. unfold on_close. cbv zeta. apply (good_set_ready X s ws CLOSED) in G; [|done].
  destruct (code =? 1000); [by apply good_connections_delete|by apply good_scheduleReconnect].
Qed.

(** Disconnecting *)
Lemma timers_settle p r s : timers (settle p r s).1 = timers s /\ next (settle p r s).1 = next s /\ contexts (settle p r s).1 = contexts s.
Proof.
  unfold settle. destruct (map_get (promises s) p) as [[w t a [y|]]|]; try done. destruct a; [|done]. destruct w; try done. by destruct r.
Qed.

(** The timeout of an entry rejects the promise of the entry *)
Definition own_timeout (s : RagState) (e : PendingRequest) : Prop := exists cb, owns s (timer e) cb /\ times_out cb = Some (request e).

Lemma good_clear_settle s e r : Good [] s -> own_timeout s e -> Good [] (settle (request e) r (clear_timeout (timer e) s)).1.
Proof.
  intros G (cb & Ho & Hcb). apply good_settle. apply (good_clear [] [request e] s (timer e) cb); [done|done|apply list_subseteq_nil|].
  rewrite Hcb. intros p [= <-]. by apply list_elem_of_singleton.
Qed.

Lemma own_timeout_same s s' e : timers s' = timers s -> next s' = next s -> own_timeout s e -> own_timeout s' e.
Proof. intros Ht Hn (cb & [Hlt Ho] & Hcb). exists cb. split; [|done]. split; [by rewrite Hn|by rewrite Ht]. Qed.

Lemma own_timeout_reject s e' e : own_timeout s e -> own_timeout (reject_request e' s) e.
Proof.
  intros (cb & Ho & Hcb). unfold reject_request. destruct (timers_settle (request e'.2) (Rejected (js "RAG client disconnected")) (clear_timeout (timer e'.2) s)) as (Ht & Hn & _).
  apply (own_timeout_same (clear_timeout (timer e'.2) s)); [done|done|]. exists cb. by split; [apply owns_clear|].
Qed.

Lemma good_reject_all s l :
  Good [] s -> Forall (fun e => own_timeout s e.2) l ->
  Good [] (foldr reject_request s l) /\ contexts (foldr reject_request s l) = contexts s.
Proof.
  intros G Hl. assert (Good [] (foldr reject_request s l) /\ contexts (foldr reject_request s l) = contexts s /\
    forall e, own_timeout s e -> own_timeout (foldr reject_request s l) e) as (? & ? & _); [|done].
  induction Hl as [|e l He Hl IH]; [done|]. destruct IH as (G' & Hc & Ho). cbn [foldr]. split_and!.
  - apply good_clear_settle; [done|]. by apply Ho.
  - unfold reject_request at 1. by rewrite (proj2 (proj2 (timers_settle _ _ _))).
  - intros e' He'. by apply own_timeout_reject, Ho.
Qed.

Lemma waits_own s ws cb e w : waits_for s ws cb e w -> times_out cb = Some (request e) -> own_timeout s e.
Proof. intros [Ho _] Hcb. by exists cb. Qed.

Lemma good_end_report s roomId e r :
  Good [] s -> map_get (pendingReportRequests s) roomId = Some e ->
  Good [] (settle (request e) r (clear_timeout (timer e) (s <| pendingReportRequests := map_delete (pendingReportRequests s) roomId |>))).1.
Proof.
  intros G He. apply good_clear_settle; [by apply good_reports_delete|].
  destruct (good_reports _ _ G _ _ He) as [Ho _]. by exists (ReportTimeout roomId (request e)).
Qed.

Lemma good_drop_context s roomId ws : Good [] s -> Good [] (drop_context roomId ws s).1.
Proof.
  intros G. unfold drop_context. cbv zeta. pose proof (good_context _ _ ws G) as [Hq _].
  destruct (good_reject_all s (rev (pendingRequests (context_of s ws))) G) as [G1 Hc1].
  { apply Forall_forall. intros [txt e] He. apply list_elem_of_In, in_rev, list_elem_of_In in He. simpl. eapply waits_own; [by apply Hq|done]. }
  set (s1 := foldr reject_request s _) in *.
  match goal with |- context [s1 <| contexts := ?v |>] => set (s2 := s1 <| contexts := v |>) end.
  assert (Good [] s2) as G2.
  { apply good_set_context; [done|]. pose proof (good_context _ _ ws G1) as [_ Hs1]. unfold context_of in Hs1. rewrite Hc1 in Hs1.
    split; [intros ? ? []%elem_of_nil|exact Hs1]. }
  match goal with |- context [let '(_, _) := ?x in _] => destruct x as [s3 out] eqn:E3 end.
  assert (Good [] s3) as G3.
  { destruct (map_get (pendingReportRequests s2) roomId) as [e|] eqn:Er; [|injection E3 as <- <-; exact G2].
    change s3 with ((s3, out).1). rewrite <- E3. exact (good_end_report s2 roomId e _ G2 Er). }
  apply (good_close_socket _ _ ws), (good_connections_delete _ _ roomId) in G3. simpl.
  destruct (map_get (statementBuffers (close_socket ws s3)) roomId) as [[|]|]; [exact G3|exact (good_buffers _ _ _ G3)|exact G3].
Qed.

Lemma good_disconnect s roomId : Good [] s -> Good [] (disconnect roomId s).1.
Proof.
  intros G. unfold disconnect. cbv zeta. set (s1 := match map_get (reconnectTimers s) roomId with Some _ => _ | None => s end).
  assert (Good [] s1) as G1.
  { unfold s1. destruct (map_get (reconnectTimers s) roomId) as [t|] eqn:E; [|done].
    apply (good_clear [] [] _ t (Reconnect roomId)); [by apply good_reconnects_delete| |done|done].
    exact (good_reconnects _ _ G _ _ (map_get_elem _ _ _ E)). }
  clearbody s1. apply (good_counts _ _ (map_delete (reconnectAttemptCounts s1) roomId)) in G1.
  destruct (map_get (connections _) roomId) as [ws|]; [by apply good_drop_context|done].
Qed.

Lemma good_disconnect_all rooms s : Good [] s -> Good [] (disconnect_all rooms s).1.
Proof.
  revert s. induction rooms as [|r rooms IH]; intros s G; [done|]. simpl. apply (good_disconnect s r) in G.
  destruct (disconnect r s) as [s1 out]. cbn [fst] in G. apply IH in G. by destruct (disconnect_all rooms s1).
Qed.

Lemma good_onModuleDestroy s : Good [] s -> Good [] (onModuleDestroy s).1.
Proof.
  intros G. unfold onModuleDestroy. cbv zeta. apply good_disconnect_all, good_buffers, good_counts.
  assert (forall l, (forall t, t ∈ l -> exists r, owns s t (Reconnect r)) ->
    Good [] (foldr (fun t s => clear_timeout t s) s l) /\ forall t cb, owns s t cb -> owns (foldr (fun t s => clear_timeout t s) s l) t cb) as H.
  { induction l as [|t l IH]; intros Hl; [done|]. destruct IH as [IH Ho]; [intros t' Ht'; apply Hl; by apply elem_of_cons; right|]. cbn [foldr]. split.
    - destruct (Hl t) as [r Hr]; [apply elem_of_cons; by left|]. by apply (good_clear [] [] _ t (Reconnect r)); [|apply Ho| |].
    - intros t' cb Hcb. by apply owns_clear, Ho. }
  destruct (H (map_values (reconnectTimers s))) as [G' _].
  { intros t Ht. unfold map_values in Ht. apply list_elem_of_fmap in Ht as ([r t'] & -> & Hr). exists r. exact (good_reconnects _ _ G _ _ Hr). }
  destruct G'; constructor; try assumption. intros ? ? []%elem_of_nil.
Qed.

(** Questions *)
Lemma good_send_question X s thrown ws p txt : Good X s -> Good X (send_question thrown ws p txt s).1.
Proof.
  intros G. destruct thrown as [m|]; [|done]. apply good_settle. apply (good_weaken X); [|done]. intros q Hq. apply elem_of_cons. by right.
Qed.

Lemma open_connection_Some s roomId ws :
  open_connection s roomId = Some ws -> map_get (connections s) roomId = Some ws /\ state_of s ws = Some OPEN.
Proof.
  unfold open_connection. destruct (map_get (connections s) roomId) as [ws'|]; [|done]. destruct (decide _); [|done]. by intros [= <-].
Qed.

Lemma waits_new X s now w ws roomId cb :
  Good X s -> map_get (connections s) roomId = Some ws -> times_out cb = Some (next s) ->
  waits_for (start_request now (w roomId) true cb s) ws cb (mkPending (next s) (S (next s)) now) w.
Proof.
  intros G Hc Hcb. destruct (good_connections _ _ G _ _ Hc) as (k & Hk & <-). split; [split; [simpl; lia|]|].
  - intros x. simpl. rewrite map_get_set_eq. by intros [= <-].
  - exists k. split; [done|]. unfold purpose_of. simpl. by rewrite map_get_set_eq.
Qed.

Lemma good_sendQuestion X s now thrown roomId txt : Good X s -> Good X (sendQuestion now thrown roomId txt s).1.
Proof.
  intros G. unfold sendQuestion. destruct (open_connection s roomId) as [ws|] eqn:E; [|done]. apply open_connection_Some in E as [E _]. cbv zeta.
  apply good_send_question.
  pose proof (good_request X s now (Asking roomId txt) true (QuestionTimeout ws txt (next s)) G eq_refl ltac:(done)) as G1.
  apply good_set_context; [exact G1|]. destruct (good_context _ _ ws G1) as [Hq Hs]. split; [|exact Hs].
  intros txt' e [[-> ->]|He]%elem_of_map_set; [|by apply Hq]. exact (waits_new X s now (fun r => Asking r txt) ws roomId (QuestionTimeout ws txt (next s)) G E eq_refl).
Qed.

Lemma good_sendQuestionWithSources X s now thrown roomId txt : Good X s -> Good X (sendQuestionWithSources now thrown roomId txt s).1.
Proof.
  intros G. unfold sendQuestionWithSources. destruct (open_connection s roomId) as [ws|] eqn:E; [|done]. apply open_connection_Some in E as [E _]. cbv zeta.
  apply good_send_question.
  pose proof (good_request X s now (AskingSources roomId txt) true (SourcesTimeout ws txt (next s)) G eq_refl ltac:(done)) as G1.
  apply good_set_context; [exact G1|]. destruct (good_context _ _ ws G1) as [Hq Hs]. split; [exact Hq|].
  intros txt' e [[-> ->]|He]%elem_of_map_set; [|by apply Hs]. exact (waits_new X s now (fun r => AskingSources r txt) ws roomId (SourcesTimeout ws txt (next s)) G E eq_refl).
Qed.

Lemma good_requestReport X s now roomId : Good X s -> Good X (requestReport now roomId s).1.
Proof.
  intros G. unfold requestReport. destruct (negb _); [done|]. destruct (map_has _ _); [done|]. cbv zeta. apply good_posts.
  pose proof (good_request X s now (Reporting roomId) false (ReportTimeout roomId (next s)) G eq_refl ltac:(done)) as G1.
  destruct G1; constructor; try assumption. intros r e [[<- <-]|[_ He]]%map_get_set_Some; [|by apply good_reports0].
  split; [split; [simpl; lia|]|].
  - intros x. simpl. rewrite map_get_set_eq. by intros [= <-].
  - unfold purpose_of. simpl. by rewrite map_get_set_eq.
Qed.

(** Messages.  The sources of an answer are a list without [null], or left out *)
Definition proper_message (data : jsstr) : bool :=
  match parse data with
  | Some m => negb (is_text (prop m (js "type")) "answer") ||
              bool_decide (is_Some (sources_of (json_or (prop m (js "sources")) (JArr []))))
  | None => true
  end.

Lemma get_json_elem {V} (m : jsmap jsstr V) v x : get_json m v = Some x -> exists k, v = Some (JStr k) /\ (k, x) ∈ m.
Proof. destruct v as [[]|]; try done. intros H%map_get_elem. eexists. by split. Qed.

Lemma context_good_clear s ws c t : context_good s ws c -> context_good (clear_timeout t s) ws c.
Proof.
  intros [Hq Hs]. split; intros txt e He; [destruct (Hq txt e He)|destruct (Hs txt e He)]; (split; [by apply owns_clear|done]).
Qed.

(** An answered request leaves its context *)
Lemma good_answered s ws c e r :
  Good [] s -> own_timeout s e -> context_good s ws c ->
  Good [] (settle (request e) r ((clear_timeout (timer e) s) <| contexts := map_set (contexts (clear_timeout (timer e) s)) ws c |>)).1.
Proof.
  intros G (cb & Ho & Hcb) Hc. apply good_settle, good_set_context; [|by apply context_good_clear].
  apply (good_clear [] [request e] s (timer e) cb G Ho); [apply list_subseteq_nil|]. rewrite Hcb. intros p [= <-]. by apply list_elem_of_singleton.
Qed.

Lemma good_on_answer s ws m :
  Good [] s -> is_Some (sources_of (json_or (prop m (js "sources")) (JArr []))) -> Good [] (on_answer ws m s).1.
Proof.
  intros G [l Hl]. unfold on_answer. cbv zeta. rewrite Hl. pose proof (good_context _ _ ws G) as Hc.
  generalize (prop m (js "text")), (json_or (prop m (js "text")) (JStr (js "unknown"))). intros q q'.
  destruct (json_or (prop m (js "answer")) (JStr [])); try exact G.
  destruct (get_json (pendingRequestsWithSources (context_of s ws)) q) as [e|] eqn:E1.
  - apply get_json_elem in E1 as (k & -> & He). apply good_answered; [done|eapply waits_own; [by apply (proj2 Hc)|done]|].
    exact (context_good_delete s ws _ None (Some (JStr k)) Hc).
  - destruct (get_json (pendingRequests (context_of s ws)) (Some q')) as [e|] eqn:E2; [|exact G].
    apply get_json_elem in E2 as (k & _ & He). apply good_answered; [done|eapply waits_own; [by apply (proj1 Hc)|done]|].
    exact (context_good_delete s ws _ q None Hc).
Qed.

Lemma good_handleMessage s roomId data : Good [] s -> proper_message data = true -> Good [] (handleMessage roomId data s).1.
Proof.
  intros G. unfold proper_message, handleMessage. destruct (parse data) as [m|]; [|done]. intros Hm.
  assert (Good [] (match map_get (connections s) roomId with
    | None => (s, [])
    | Some ws => if is_text (prop m (js "type")) "answer" then on_answer ws m s
                 else if is_text (prop m (js "type")) "meeting_report" then on_report roomId m s else (s, []) end).1) as H; [|by destruct m].
  destruct (map_get (connections s) roomId) as [ws|]; [|exact G].
  destruct (is_text (prop m (js "type")) "answer"); [apply good_on_answer; [done|exact (bool_decide_unpack _ (proj2 (Is_true_true _) Hm))]|].
  destruct (is_text (prop m (js "type")) "meeting_report"); [|exact G]. unfold on_report.
  destruct (map_get (pendingReportRequests s) roomId) as [e|] eqn:E; [|exact G]. exact (good_end_report s roomId e _ G E).
Qed.

Lemma good_report_posted s p failed s' out : Good [] s -> report_posted p failed s = Some (s', out) -> Good [] s'.
Proof.
  intros G. unfold report_posted. destruct (map_get (promises s) p) as [[[| | |roomId] t a r]|] eqn:E; try done.
  destruct (decide (p ∈ posts s)); [|done]. apply (good_posts _ _ (List.filter (fun q => negb (Nat.eqb q p)) (posts s))) in G. cbv zeta.
  destruct failed as [m|]; intros H; apply (inj Some) in H.
  - apply (f_equal fst) in H. cbn [fst] in H. subst s'. exact (good_reports_delete _ _ roomId G).
  - apply (f_equal fst) in H. cbn [fst] in H. subst s'.
    match goal with |- context [report_continues _ _ ?t] => set (s1 := t) end.
    assert (Good [] s1) as G1; [|destruct r; [by apply good_report_continues|exact G1]].
    refine (good_set_promise [] [] _ p (Reporting roomId) t a true r r _ G _ _); [exact E|done|by left].
Qed.

Lemma good_run_callback s now thrown t d cb :
  Good [] s -> map_get (timers s) t = Some (d, cb) -> Good [] (run_callback now thrown cb (clear_timeout t s)).1.
Proof.
  intros G Ht. pose proof (good_connecting _ _ G t d) as Hcon.
  assert (owns s t cb) as Ho by (split; [by eapply good_timers|rewrite Ht; by intros x [= <-]]).
  assert (Good (match times_out cb with Some p => [p] | None => [] end) (clear_timeout t s)) as G1.
  { apply (good_clear [] _ s t cb G Ho); [apply list_subseteq_nil|]. intros p ->. by apply list_elem_of_singleton. }
  destruct cb as [ws p|roomId|ws txt p|ws txt p|roomId p|roomId stmt|roomId stmts]; simpl in G1; unfold run_callback.
  - destruct (decide (state_of (clear_timeout t s) ws = Some OPEN)) as [HO|]; [|by apply good_settle, good_close_socket].
    apply (good_not_pending [] _ p); [|exact G1]. intros Hp. destruct (Hcon ws p Ht) as (k & Hk & <-).
    unfold state_of in HO. cbn in HO. rewrite Hk in HO. injection HO as HO.
    pose proof (good_open _ _ G ws k Hk HO Hp) as []%elem_of_nil.
  - by apply good_connect, good_reconnects_delete.
  - apply good_settle, good_set_context; [done|].
    exact (context_good_delete _ ws _ (Some (JStr txt)) None (good_context _ _ ws G1)).
  - apply good_settle, good_set_context; [done|].
    exact (context_good_delete _ ws _ None (Some (JStr txt)) (good_context _ _ ws G1)).
  - by apply good_settle, good_reports_delete.
  - by apply good_statement.
  - by apply good_flush_next.
Qed.

Definition proper (e : Event) : bool := match e with Received _ data => proper_message data | _ => true end.

Lemma step_good s now thrown e s' out : Good [] s -> proper e = true -> step now thrown e s = Some (s', out) -> Good [] s'.
Proof.
  intros G He H.
  assert (forall x, Some x = Some (s', out) -> Good [] x.1 -> Good [] s') as Hx by by intros x [= ->].
  destruct e; cbn [step] in H; try (eapply Hx; [exact H|]).
  - by apply good_connect.
  - by apply good_statement.
  - by apply good_sendQuestion.
  - by apply good_sendQuestionWithSources.
  - by apply good_requestReport.
  - by apply good_disconnect.
  - by apply good_onModuleDestroy.
  - by apply good_buffers.
  - by apply good_buffers.
  - by eapply good_report_posted.
  - destruct (map_get (sockets s) ws) as [k|] eqn:Hk; [|done]. simpl in H. destruct (readyState k); try done.
    eapply Hx; [exact H|]. by apply good_on_open.
  - destruct (map_get (sockets s) ws) as [k|] eqn:Hk; [|done]. simpl in H.
    destruct (readyState k); try done; (eapply Hx; [exact H|by apply good_handleMessage]).
  - destruct (map_get (sockets s) ws) as [k|] eqn:Hk; [|done]. simpl in H.
    destruct (readyState k); try done; (eapply Hx; [exact H|by apply good_on_close]).
  - destruct (map_get (timers s) t) as [[due cb]|] eqn:Ht; [|done]. simpl in H. destruct (due <=? now); [|done].
    eapply Hx; [exact H|]. by eapply good_run_callback.
Qed.

Definition proper_turn (k : Turn) : Prop := proper (event k) = true.

Lemma run_good turns s s' out : Good [] s -> Forall proper_turn turns -> run turns s = Some (s', out) -> Good [] s'.
Proof.
  intros G Hp. revert s out G. induction Hp as [|k turns Hk Hp IH]; intros s out G; cbn [run]; [by intros [= <- _]|].
  destruct (step _ _ _ _) as [[s1 out1]|] eqn:E; [|done]. simpl. destruct (run turns s1) as [[s2 out2]|] eqn:E2; [|done].
  intros [= -> _]. exact (IH s1 out2 (step_good _ _ _ _ _ _ G Hk E) E2).
Qed.

(* ------------------------------------------------------------------ *)
(** ** Every request is settled *)

Definition settled_in (s : RagState) (p : nat) : option Settlement := x ← map_get (promises s) p; settled x.

Lemma promises_report_continues w r s : promises (report_continues w r s).1 = promises s.
Proof. destruct w; try done. by destruct r. Qed.

Lemma settle_settles p r s : pending s p -> settled_in (settle p r s).1 p = Some r.
Proof.
  intros (w & t & a & Hp). unfold settle, settled_in. rewrite Hp. cbv zeta.
  destruct a; rewrite ?promises_report_continues; simpl; by rewrite map_get_set_eq.
Qed.

(** The timeout of a promise settles it *)
Lemma run_callback_settles s now thrown t d cb p :
  Good [] s -> map_get (timers s) t = Some (d, cb) -> times_out cb = Some p -> pending s p ->
  exists m, settled_in (run_callback now thrown cb (clear_timeout t s)).1 p = Some (Rejected m).
Proof.
  intros G Ht Hcb Hp. assert (forall s' m, promises s' = promises s -> exists m', settled_in (settle p (Rejected m) s').1 p = Some (Rejected m')) as Hs.
  { intros s' m Hs'. exists m. apply settle_settles. unfold pending. by rewrite Hs'. }
  destruct cb as [ws q|roomId|ws txt q|ws txt q|roomId q|roomId stmt|roomId stmts]; try done; injection Hcb as ->; unfold run_callback.
  - destruct (decide (state_of (clear_timeout t s) ws = Some OPEN)) as [HO|].
    + destruct (good_connecting _ _ G t d ws p Ht) as (k & Hk & <-).
      unfold state_of in HO. cbn in HO. rewrite Hk in HO. injection HO as HO. pose proof (good_open _ _ G ws k Hk HO Hp) as []%elem_of_nil.
    + apply Hs. unfold close_socket. destruct (state_of _ ws) as [[]|]; try done; unfold set_ready; by destruct (map_get _ ws) as [[]|].
  - by apply Hs.
  - by apply Hs.
  - by apply Hs.
Qed.

(** C4: requests come to an end.  In every execution in which the sources of
    answers are lists, a call of [connect], a question or the wait for a report
    that is not settled has a timeout, set at the time of the call to 10, 30 or
    60 seconds, that rejects it when it runs. *)
Theorem requests_settle (turns : list Turn) (s : RagState) (out : list Output) (p : nat) (w : Purpose) (t : Z) (a : bool) :
  run turns initial = Some (s, out) -> Forall proper_turn turns -> map_get (promises s) p = Some (mkPromise w t a None) ->
  exists tm, forall now thrown, t + limit w <= now ->
    exists s' out' m, step now thrown (Fires tm) s = Some (s', out') /\ settled_in s' p = Some (Rejected m).
Proof.
  intros Hrun Hproper Hp. pose proof (run_good _ _ _ _ good_initial Hproper Hrun) as G.
  destruct (good_waiting _ _ G p w t a Hp ltac:(apply not_elem_of_nil)) as (tm & cb & Htm & Hcb).
  exists tm. intros now thrown Hnow. cbn [step]. rewrite Htm. cbn [mbind option_bind]. rewrite (proj2 (Z.leb_le _ _) Hnow).
  destruct (run_callback_settles s now thrown tm _ cb p G Htm Hcb) as [m Hm]; [by exists w, t, a|].
  destruct (run_callback now thrown cb (clear_timeout tm s)) as [s' out']. by exists s', out', m.
Qed.

Definition sample_room : jsstr := js "room".
Definition sample_turns : list Turn :=
  [mkTurn 0 None (Connect sample_room); mkTurn 100 None (Opened 1); mkTurn 200 None (SendQuestion sample_room (js "안건?"))].

Lemma requests_settle_witness :
  exists s out tm, run sample_turns initial = Some (s, out) /\
    forall now thrown, 200 + 30000 <= now ->
      exists s' out' m, step now thrown (Fires tm) s = Some (s', out') /\ settled_in s' 3%nat = Some (Rejected m).
Proof.
  assert (exists s out, run sample_turns initial = Some (s, out) /\
    map_get (promises s) 3%nat = Some (mkPromise (Asking sample_room (js "안건?")) 200 true None)) as (s & out & Hs & Hp)
    by (eexists _, _; split; [vm_compute; reflexivity|vm_compute; reflexivity]).
  destruct (requests_settle sample_turns s out 3%nat (Asking sample_room (js "안건?")) 200 true Hs ltac:(repeat constructor) Hp) as [tm Htm].
  exists s, out, tm. split; [done|exact Htm].
Defined.

