(* ===== verification/RagDelivery.v ===== *)
(** * Answers and statements of the retrieval server

    Properties of the executions of [RagClient]: which promises are answered by
    which messages, what the buffers of statements hold, what a connection sends
    when it is opened, and four ways in which connections and requests go wrong.

    [Frame] collects what the steps do to promises and buffers, so that a
    property of both is proved for every step at once. *)

From Stdlib Require Import ZArith QArith Lia.
From stdpp Require Import base strings option list.
From S2P Require Import Prelude JsString JsMap Json Records RagClient RagInvariant.

#[local] Open Scope Z_scope.

(* ------------------------------------------------------------------ *)
(** ** What steps are made of *)

(** Steps related by [R], in which promises are settled as [allowed] says and the
    connections of the rooms in [mine] change *)
Class Frame (R : RagState -> RagState -> Prop) (allowed : Settlement -> Prop) (mine : jsstr -> Prop) : Prop := {
  frame_trans s1 s2 s3 : R s1 s2 -> R s2 s3 -> R s1 s3;
  frame_same s s' : promises s' = promises s -> statementBuffers s' = statementBuffers s -> sockets s' = sockets s ->
    timers s' = timers s -> reconnectAttemptCounts s' = reconnectAttemptCounts s -> R s s';
  frame_promise s p x : (forall r, settled x = Some r -> settled_in s p = Some r \/ allowed r) ->
    R s (s <| promises := map_set (promises s) p x |>);
  frame_forget s r : R s (s <| statementBuffers := map_delete (statementBuffers s) r |>);
  frame_clear s : R s (s <| statementBuffers := [] |>);
  frame_add s now roomId txt spk st en : R s (addToStatementBuffer now roomId txt spk st en s);
  frame_clear_timeout s t : R s (clear_timeout t s);
  frame_set_timeout s now d cb : (forall r, cb = Reconnect r -> mine r) -> R s (set_timeout now d cb s);
  frame_ready s ws k r : map_get (sockets s) ws = Some k -> (r = CLOSING /\ readyState k <> CLOSED) \/ mine (room k) ->
    R s (s <| sockets := map_set (sockets s) ws (mkSocket (room k) r (connectionTimeout k) (connecting k)) |>);
  frame_socket s ws k : mine (room k) -> R s (s <| sockets := map_set (sockets s) ws k |>);
  frame_count s r c : mine r -> R s (s <| reconnectAttemptCounts := map_set (reconnectAttemptCounts s) r c |>);
  frame_uncount s r : mine r -> R s (s <| reconnectAttemptCounts := map_delete (reconnectAttemptCounts s) r |>);
  frame_uncount_all s : (forall r, mine r) -> R s (s <| reconnectAttemptCounts := [] |>)
}.

Lemma same_report_continues w r s : promises (report_continues w r s).1 = promises s /\
  statementBuffers (report_continues w r s).1 = statementBuffers s /\ sockets (report_continues w r s).1 = sockets s /\
  timers (report_continues w r s).1 = timers s /\ reconnectAttemptCounts (report_continues w r s).1 = reconnectAttemptCounts s.
Proof. destruct w; try done. by destruct r. Qed.

Section Steps.
Context {R allowed mine} `{F : Frame R allowed mine}.
Hypothesis rejections : forall m, allowed (Rejected m).
Hypothesis connects : allowed (Resolved Connected).
Hypothesis reports : forall b fs, allowed (Resolved (Report b fs)).

Ltac same := by apply frame_same.

Lemma frame_refl s : R s s.
Proof using F. same. Qed.

(** Through the state [s] *)
Ltac via s := apply (frame_trans _ s).

Lemma frame_settle s p r : allowed r -> R s (settle p r s).1.
Proof using F.
  intros Hr. unfold settle. destruct (map_get (promises s) p) as [[w t a [y|]]|]; try same.
  via (s <| promises := map_set (promises s) p (mkPromise w t a (Some r)) |>).
  - apply frame_promise. simpl. intros r' [= <-]. by right.
  - destruct a; [|same]. destruct (same_report_continues w r (s <| promises := map_set (promises s) p (mkPromise w t true (Some r)) |>)) as (? & ? & ? & ? & ?).
    by apply frame_same.
Qed.

Lemma frame_new now w handled s : R s (new_promise now w handled s).
Proof using F.
  via (s <| promises := map_set (promises s) (next s) (mkPromise w now handled None) |>); [|same]. by apply frame_promise.
Qed.

Lemma frame_plain_timeout now d cb s : (forall r, cb <> Reconnect r) -> R s (set_timeout now d cb s).
Proof using F. intros H. apply frame_set_timeout. intros r Hr. by destruct (H r). Qed.

Lemma frame_request now w handled cb s : (forall r, cb <> Reconnect r) -> R s (start_request now w handled cb s).
Proof using F. intros H. via (new_promise now w handled s); [apply frame_new|by apply frame_plain_timeout]. Qed.

Lemma frame_set_ready ws r s :
  (forall k, map_get (sockets s) ws = Some k -> (r = CLOSING /\ readyState k <> CLOSED) \/ mine (room k)) -> R s (set_ready ws r s).
Proof using F.
  intros H. unfold set_ready. destruct (map_get (sockets s) ws) as [k|] eqn:E; [|same]. destruct k as [rm r0 t p].
  exact (frame_ready s ws _ r E (H _ eq_refl)).
Qed.

Lemma frame_close_socket ws s : R s (close_socket ws s).
Proof using F.
  unfold close_socket, state_of. destruct (map_get (sockets s) ws) as [k|] eqn:E; [|same]. simpl.
  destruct (readyState k) eqn:Er; try same; apply frame_set_ready; intros k'; rewrite E; intros [= <-]; left; by rewrite Er.
Qed.

Lemma frame_statement now thrown roomId stmt s : R s (sendStatement now thrown roomId stmt s).1.
Proof using F.
  unfold sendStatement. destruct stmt as [txt spk ts retry st en]. cbv zeta. set (s1 := if retry =? 0 then _ else s).
  via s1; [unfold s1; destruct (retry =? 0); [apply frame_add|same]|].
  destruct (open_connection s1 roomId); [|same]. destruct thrown; [|same]. destruct (retry <? MAX_STATEMENT_RETRY); [|same]. by apply frame_plain_timeout.
Qed.

Lemma frame_flush_next now thrown roomId stmts s : R s (flush_next now thrown roomId stmts s).1.
Proof using F.
  destruct stmts as [|stmt rest]; [same|]. unfold flush_next. pose proof (frame_statement now thrown roomId stmt s) as H.
  destruct (sendStatement now thrown roomId stmt s) as [s1 out]. via s1; [exact H|by apply frame_plain_timeout].
Qed.

Lemma frame_flush now thrown roomId s : R s (flushStatementBuffer now thrown roomId s).1.
Proof using F.
  unfold flushStatementBuffer. destruct (map_get (statementBuffers s) roomId) as [[|]|]; [same| |same].
  eapply frame_trans; [apply (frame_forget s roomId)|apply frame_flush_next].
Qed.

Lemma frame_scheduleReconnect now roomId s : mine roomId -> R s (scheduleReconnect now roomId s).
Proof using F.
  intros Hm. unfold scheduleReconnect. destruct (map_has (reconnectTimers s) roomId); [same|]. cbv zeta.
  destruct (MAX_RECONNECT_ATTEMPTS <=? _).
  - via (s <| connections := map_delete (connections s) roomId |>); [same|exact (frame_uncount _ roomId Hm)].
  - eapply frame_trans; [|eapply frame_trans; [apply frame_set_timeout|]]; [by apply frame_count| |same]. by intros r [= <-].
Qed.

Lemma frame_on_close now code ws k s : map_get (sockets s) ws = Some k -> mine (room k) -> R s (on_close now code ws k s).
Proof using F.
  intros Hk Hm. unfold on_close. cbv zeta. via (set_ready ws CLOSED s).
  - apply frame_set_ready. rewrite Hk. intros k' [= <-]. by right.
  - destruct (code =? 1000); [same|by apply frame_scheduleReconnect].
Qed.

Lemma frame_connect now refused roomId s : mine roomId -> R s (connect now refused roomId s).1.
Proof using F rejections.
  intros Hm. unfold connect. destruct (isConnected s roomId); [same|]. apply (frame_trans _ _ _ (frame_new now (Connecting roomId) true s)).
  destruct refused as [m|]; [by apply frame_settle|]. cbv zeta. eapply frame_trans; [|by apply frame_plain_timeout].
  eapply frame_trans; [apply frame_socket|same]. exact Hm.
Qed.

Lemma frame_on_open now thrown ws k s : map_get (sockets s) ws = Some k -> mine (room k) -> R s (on_open now thrown ws k s).1.
Proof using F connects.
  intros Hk Hm. unfold on_open. cbv zeta. set (s1 := clear_timeout (connectionTimeout k) (set_ready ws OPEN s)).
  assert (R s s1) as H1.
  { via (set_ready ws OPEN s); [|apply frame_clear_timeout]. apply frame_set_ready. rewrite Hk. intros k' [= <-]. by right. }
  match goal with |- context [flushStatementBuffer now thrown (room k) ?t] => set (s2 := t) end.
  assert (R s1 s2) as H2.
  { via (s1 <| reconnectAttemptCounts := map_delete (reconnectAttemptCounts s1) (room k) |>); [exact (frame_uncount s1 (room k) Hm)|same]. }
  pose proof (frame_flush now thrown (room k) s2) as Hf. destruct (flushStatementBuffer now thrown (room k) s2) as [s3 out].
  pose proof (frame_settle s3 (connecting k) (Resolved Connected) connects) as Hs. cbn [fst] in Hf.
  destruct (settle (connecting k) (Resolved Connected) s3) as [s4 out']. via s1; [exact H1|]. via s2; [exact H2|]. by via s3.
Qed.

(** A timeout is cleared, other fields are updated, and a promise is settled *)
Lemma frame_end_request t p r s s' :
  allowed r -> promises s' = promises s -> statementBuffers s' = statementBuffers s -> sockets s' = sockets s ->
  timers s' = map_delete (timers s) t -> reconnectAttemptCounts s' = reconnectAttemptCounts s -> R s (settle p r s').1.
Proof using F.
  intros Hr ? ? ? ? ?. via (clear_timeout t s); [apply frame_clear_timeout|]. via s'; [by apply frame_same|by apply frame_settle].
Qed.

Lemma frame_update_settle p r s s' :
  allowed r -> promises s' = promises s -> statementBuffers s' = statementBuffers s -> sockets s' = sockets s ->
  timers s' = timers s -> reconnectAttemptCounts s' = reconnectAttemptCounts s -> R s (settle p r s').1.
Proof using F. intros Hr ? ? ? ? ?. via s'; [by apply frame_same|by apply frame_settle]. Qed.

Lemma frame_drop_context roomId ws s : R s (drop_context roomId ws s).1.
Proof using F rejections.
  unfold drop_context. cbv zeta. set (l := rev (pendingRequests (context_of s ws))).
  assert (R s (foldr reject_request s l)) as H1.
  { induction l as [|e l IH]; [same|]. cbn [foldr]. via (foldr reject_request s l); [exact IH|]. generalize (foldr reject_request s l). intros s0.
    unfold reject_request. by apply (frame_end_request (timer e.2)). }
  via (foldr reject_request s l); [exact H1|]. clear H1. set (s1 := foldr reject_request s l).
  match goal with |- context [s1 <| contexts := ?v |>] => set (s2 := s1 <| contexts := v |>) end.
  match goal with |- context [let '(_, _) := ?x in _] => set (y := x) end.
  via y.1.
  - unfold y. destruct (map_get (pendingReportRequests s2) roomId) as [e|]; [by apply (frame_end_request (timer e))|same].
  - destruct y as [s3 out]. cbn [fst].
    set (s4 := (close_socket ws s3) <| connections := map_delete (connections (close_socket ws s3)) roomId |>).
    via (close_socket ws s3); [apply frame_close_socket|]. via s4; [same|].
    destruct (map_get (statementBuffers s4) roomId) as [[|]|]; [apply frame_refl|apply frame_forget|apply frame_refl].
Qed.

Lemma frame_disconnect roomId s : mine roomId -> R s (disconnect roomId s).1.
Proof using F rejections.
  intros Hm. unfold disconnect. cbv zeta. set (s1 := match map_get (reconnectTimers s) roomId with Some _ => _ | None => s end).
  set (s2 := s1 <| reconnectAttemptCounts := map_delete (reconnectAttemptCounts s1) roomId |>). via s2.
  - via s1; [|exact (frame_uncount s1 roomId Hm)]. unfold s1. destruct (map_get (reconnectTimers s) roomId) as [t|]; [|same].
    via (clear_timeout t s); [apply frame_clear_timeout|same].
  - destruct (map_get (connections s2) roomId) as [ws|]; [apply frame_drop_context|same].
Qed.

Lemma frame_disconnect_all l s : (forall r, mine r) -> R s (disconnect_all l s).1.
Proof using F rejections.
  intros Hm. revert s. induction l as [|r l IH]; intros s; [same|]. cbn [disconnect_all].
  pose proof (frame_disconnect r s (Hm r)) as Hd. destruct (disconnect r s) as [s1 out]. pose proof (IH s1) as Hl.
  destruct (disconnect_all l s1) as [s2 out']. exact (frame_trans _ _ _ Hd Hl).
Qed.

Lemma frame_onModuleDestroy s : (forall r, mine r) -> R s (onModuleDestroy s).1.
Proof using F rejections.
  intros Hm. unfold onModuleDestroy. cbv zeta. eapply frame_trans; [|by apply frame_disconnect_all]. eapply frame_trans; [|apply frame_clear].
  eapply frame_trans; [|by apply frame_uncount_all]. via (foldr (fun t s => clear_timeout t s) s (map_values (reconnectTimers s))); [|same].
  generalize (map_values (reconnectTimers s)). induction l as [|t l IH]; [same|]. cbn [foldr].
  via (foldr (fun t s => clear_timeout t s) s l); [exact IH|apply frame_clear_timeout].
Qed.

Lemma frame_send_question thrown ws p txt s : R s (send_question thrown ws p txt s).1.
Proof using F rejections. destruct thrown; [by apply frame_settle|same]. Qed.

(** The room whose connection an event may change *)
Definition touches (s : RagState) (e : Event) (r : jsstr) : Prop :=
  match e with
  | Connect r' | Disconnect r' => r = r'
  | OnModuleDestroy => True
  | Opened ws | Closed ws _ => exists k, map_get (sockets s) ws = Some k /\ room k = r
  | Fires t => exists d, map_get (timers s) t = Some (d, Reconnect r)
  | _ => False
  end.

Lemma frame_run_callback now thrown cb s : (forall r, cb = Reconnect r -> mine r) -> R s (run_callback now thrown cb s).1.
Proof using F rejections.
  intros Hm. destruct cb as [ws p|roomId|ws txt p|ws txt p|roomId p|roomId stmt|roomId stmts]; unfold run_callback.
  - destruct (decide _); [same|]. via (close_socket ws s); [apply frame_close_socket|by apply frame_settle].
  - via (s <| reconnectTimers := map_delete (reconnectTimers s) roomId |>); [same|by apply frame_connect, Hm].
  - by apply frame_update_settle.
  - by apply frame_update_settle.
  - by apply frame_update_settle.
  - apply frame_statement.
  - apply frame_flush_next.
Qed.

Lemma frame_report_posted p failed s s' out : report_posted p failed s = Some (s', out) -> R s s'.
Proof using F.
  unfold report_posted. destruct (map_get (promises s) p) as [[[| | |roomId] t a r]|] eqn:E; try done.
  destruct (decide _); [|done]. cbv zeta. destruct failed; intros H; apply (inj Some), (f_equal fst) in H; cbn [fst] in H; subst s'; [same|].
  match goal with |- context [report_continues _ _ ?x] => set (s1 := x) end. via s1.
  - via (s <| promises := map_set (promises s) p (mkPromise (Reporting roomId) t true r) |>); [|same].
    apply frame_promise. simpl. intros r' Hr. left. unfold settled_in. by rewrite E.
  - destruct r as [r|]; [|same]. destruct (same_report_continues (Reporting roomId) r s1) as (? & ? & ? & ? & ?). by apply frame_same.
Qed.

Lemma frame_on_report roomId m s : R s (on_report roomId m s).1.
Proof using F reports.
  unfold on_report. destruct (map_get (pendingReportRequests s) roomId) as [e|]; [|same]. unfold report_of. by apply (frame_end_request (timer e)).
Qed.

(** A message, when answers are allowed *)
Lemma frame_handleMessage roomId data s : (forall r, allowed r) -> R s (handleMessage roomId data s).1.
Proof using F reports.
  intros Hall. unfold handleMessage. destruct (parse data) as [m|]; [|same].
  assert (forall ws, R s (on_answer ws m s).1) as Ha.
  { intros ws. unfold on_answer. cbv zeta. destruct (json_or (prop m (js "answer")) (JStr [])); try same.
    destruct (get_json (pendingRequestsWithSources _) _) as [e|].
    - destruct (sources_of _); [by apply (frame_end_request (timer e))|]. via (clear_timeout (timer e) s); [apply frame_clear_timeout|same].
    - destruct (get_json (pendingRequests _) _) as [e|]; [by apply (frame_end_request (timer e))|same]. }
  destruct (map_get (connections s) roomId) as [ws|]; [|destruct m; same].
  destruct (is_text (prop m (js "type")) "answer"); [destruct m; first [apply Ha|same]|].
  destruct (is_text (prop m (js "type")) "meeting_report"); destruct m; first [apply frame_on_report|same].
Qed.

(** Every step that changes connections of rooms in [mine] only *)
Lemma frame_step now thrown e s s' out :
  step now thrown e s = Some (s', out) -> (forall r, touches s e r -> mine r) ->
  (forall r u, e <> InjectMockStatements r u) -> (forall ws data, e = Received ws data -> forall r, allowed r) -> R s s'.
Proof using F rejections connects reports.
  intros H Hm Hi Hr. assert (forall x, Some x = Some (s', out) -> R s x.1 -> R s s') as Hx by by intros x [= ->].
  destruct e; cbn [step] in H; cbn [touches] in Hm; try (eapply Hx; [exact H|]).
  - by apply frame_connect, Hm.
  - apply frame_statement.
  - unfold sendQuestion. destruct (open_connection s roomId) as [ws|]; [|same]. cbv zeta. eapply frame_trans; [|apply frame_send_question].
    via (start_request now (Asking roomId txt) true (QuestionTimeout ws txt (next s)) s); [by apply frame_request|same].
  - unfold sendQuestionWithSources. destruct (open_connection s roomId) as [ws|]; [|same]. cbv zeta. eapply frame_trans; [|apply frame_send_question].
    via (start_request now (AskingSources roomId txt) true (SourcesTimeout ws txt (next s)) s); [by apply frame_request|same].
  - unfold requestReport. destruct (negb _); [same|]. destruct (map_has _ _); [same|]. cbv zeta.
    via (start_request now (Reporting roomId) false (ReportTimeout roomId (next s)) s); [by apply frame_request|same].
  - by apply frame_disconnect, Hm.
  - apply frame_onModuleDestroy. intros r. by apply Hm.
  - by destruct (Hi roomId utterances).
  - apply frame_forget.
  - by eapply frame_report_posted.
  - destruct (map_get (sockets s) ws) as [k|] eqn:Hk; [|done]. simpl in H. destruct (readyState k); try done.
    eapply Hx; [exact H|]. apply frame_on_open; [done|]. apply Hm. by exists k.
  - destruct (map_get (sockets s) ws) as [k|]; [|done]. simpl in H.
    destruct (readyState k); try done; (eapply Hx; [exact H|apply frame_handleMessage; exact (Hr ws data eq_refl)]).
  - destruct (map_get (sockets s) ws) as [k|] eqn:Hk; [|done]. simpl in H.
    destruct (readyState k); try done; (eapply Hx; [exact H|apply frame_on_close; [done|apply Hm; by exists k]]).
  - destruct (map_get (timers s) t) as [[due cb]|]; [|done]. simpl in H. destruct (due <=? now); [|done].
    eapply Hx; [exact H|]. via (clear_timeout t s); [apply frame_clear_timeout|]. apply frame_run_callback. intros r ->. apply Hm. by exists due.
Qed.
End Steps.

(* ------------------------------------------------------------------ *)
(** ** Answers go to their questions *)

Definition answer_of (r : option Settlement) : option jsstr :=
  match r with Some (Resolved (Answer a)) | Some (Resolved (AnswerSources a _)) => Some a | _ => None end.

Definition question_of (w : Purpose) : option (jsstr * jsstr) :=
  match w with Asking r txt | AskingSources r txt => Some (r, txt) | _ => None end.

(** No promise gets an answer *)
Definition unanswered (s s' : RagState) : Prop :=
  forall p, answer_of (settled_in s p) = None -> answer_of (settled_in s' p) = None.

#[export] Instance unanswered_frame : Frame unanswered (fun r => answer_of (Some r) = None) (fun _ => True).
Proof.
  split; try (intros; intros q Hq; exact Hq).
  - intros s1 s2 s3 H1 H2 p Hp. by apply H2, H1.
  - intros s s' Hp _ _ _ _ p. unfold settled_in. by rewrite Hp.
  - intros s p x Hx q Hq. unfold settled_in at 1. simpl. destruct (decide (p = q)) as [<-|Hne].
    + rewrite map_get_set_eq. simpl. destruct (settled x) as [r|]; [|done]. destruct (Hx r eq_refl) as [Hr|Hr]; [by rewrite Hr in Hq|done].
    + rewrite map_get_set_ne by done. exact Hq.
Qed.

Lemma unanswered_settle s p r : answer_of (Some r) = None -> unanswered s (settle p r s).1.
Proof. exact (frame_settle s p r). Qed.

Lemma settle_other p q r s : p <> q -> settled_in (settle q r s).1 p = settled_in s p.
Proof.
  intros Hne. unfold settle, settled_in. destruct (map_get (promises s) q) as [[w t a [y|]]|]; try done.
  destruct a; rewrite ?promises_report_continues; simpl; by rewrite map_get_set_ne.
Qed.

(** [m] is an answer to the question [txt] *)
Definition answers (m : json) (txt answer : jsstr) : Prop :=
  is_text (prop m (js "type")) "answer" = true /\ json_or (prop m (js "answer")) (JStr []) = JStr answer /\
  (prop m (js "text") = Some (JStr txt) \/ (json_truthy (prop m (js "text")) = false /\ txt = js "unknown")).

Lemma json_or_text v k : json_or v (JStr (js "unknown")) = JStr k -> v = Some (JStr k) \/ (json_truthy v = false /\ k = js "unknown").
Proof.
  unfold json_or. destruct v as [w|]; [|intros H; injection H as <-; by right].
  destruct (json_truthy (Some w)) eqn:E; intros H; [left; by rewrite H|]. injection H as <-. by right.
Qed.

Lemma answer_resolves q r s p a :
  answer_of (settled_in s p) = None -> answer_of (settled_in (settle q (Resolved r) s).1 p) = Some a -> p = q /\ answer_of (Some (Resolved r)) = Some a.
Proof.
  intros Hn Ha. destruct (decide (p = q)) as [<-|Hne]; [|rewrite settle_other in Ha by done; congruence]. split; [done|].
  destruct (answer_of (Some (Resolved r))) as [a'|] eqn:E; [|by rewrite (unanswered_settle s p (Resolved r) E p Hn) in Ha].
  rewrite <- Ha, <- E. unfold settle, settled_in in *. destruct (map_get (promises s) p) as [[w t b [y|]]|] eqn:Ep; simpl in *.
  - rewrite Ep in Ha. simpl in Ha. congruence.
  - destruct b; rewrite ?promises_report_continues; simpl; by rewrite map_get_set_eq.
  - by rewrite Ep in Ha.
Qed.

Lemma on_answer_answers X s ws m p a k :
  Good X s -> is_text (prop m (js "type")) "answer" = true -> map_get (sockets s) ws = Some k ->
  answer_of (settled_in s p) = None -> answer_of (settled_in (on_answer ws m s).1 p) = Some a ->
  exists w txt, purpose_of s p = Some w /\ question_of w = Some (room k, txt) /\ answers m txt a.
Proof.
  intros G Hty Hk Hn. unfold on_answer. cbv zeta. pose proof (good_context _ _ ws G) as [Hq Hs].
  destruct (json_or (prop m (js "answer")) (JStr [])) as [| | |answer| |] eqn:Ea; try (simpl; congruence).
  destruct (get_json (pendingRequestsWithSources (context_of s ws)) (prop m (js "text"))) as [e|] eqn:E1.
  - destruct (sources_of _) as [l|]; [|unfold settled_in in *; simpl; congruence]. intros Ha.
    apply answer_resolves in Ha as [-> [= <-]]; [|exact Hn]. apply get_json_elem in E1 as (txt & Htxt & He).
    destruct (Hs txt e He) as (_ & k' & Hk' & Hp). rewrite Hk in Hk'. injection Hk' as <-.
    exists (AskingSources (room k) txt), txt. split_and!; try done. split_and!; [done|done|by left].
  - destruct (get_json (pendingRequests (context_of s ws)) _) as [e|] eqn:E2; [|unfold settled_in in *; simpl; congruence]. intros Ha.
    apply answer_resolves in Ha as [-> [= <-]]; [|exact Hn]. apply get_json_elem in E2 as (txt & [= Htxt]%(inj Some) & He).
    destruct (Hq txt e He) as (_ & k' & Hk' & Hp). rewrite Hk in Hk'. injection Hk' as <-.
    exists (Asking (room k) txt), txt. split_and!; try done. split_and!; [done|done|]. by apply json_or_text.
Qed.

Lemma handleMessage_answers s roomId data p w t handled answer :
  Good [] s -> map_get (promises s) p = Some (mkPromise w t handled None) ->
  answer_of (settled_in (handleMessage roomId data s).1 p) = Some answer ->
  exists m txt, parse data = Some m /\ question_of w = Some (roomId, txt) /\ answers m txt answer.
Proof.
  intros G Hp Ha. assert (answer_of (settled_in s p) = None) as Hn by (unfold settled_in; by rewrite Hp).
  unfold handleMessage in Ha. destruct (parse data) as [m|]; [|simpl in Ha; congruence].
  destruct (map_get (connections s) roomId) as [ws|] eqn:Hc; [|destruct m; simpl in Ha; congruence].
  destruct (good_connections _ _ G _ _ Hc) as (k & Hk & <-).
  destruct (is_text (prop m (js "type")) "answer") eqn:Ht.
  - assert (answer_of (settled_in (on_answer ws m s).1 p) = Some answer) as Ha' by (destruct m; first [exact Ha|simpl in Ha; congruence]).
    destruct (on_answer_answers [] s ws m p answer k G Ht Hk Hn Ha') as (w' & txt & Hw & Hq & Hans).
    unfold purpose_of in Hw. rewrite Hp in Hw. injection Hw as <-. by exists m, txt.
  - assert (unanswered s (on_report (room k) m s).1) as Hr.
    { by apply (frame_on_report (allowed := fun r => answer_of (Some r) = None)). }
    assert (unanswered s (if is_text (prop m (js "type")) "meeting_report" then on_report (room k) m s else (s, [])).1) as Hr'
      by (destruct (is_text (prop m (js "type")) "meeting_report"); [exact Hr|apply frame_refl]).
    destruct m; first [rewrite (Hr' p Hn) in Ha; done|simpl in Ha; congruence].
Qed.

(** C12: answers go to their questions.  In every execution, a question that is
    answered in a step was asked in the room on whose socket a message arrives in
    this step, and the message is an answer with the text of the question (or
    without a text, when the question is the word it then stands for). *)
Theorem answers_match_questions (turns : list Turn) (s : RagState) (out : list Output) (now : Z) (thrown : option jsstr) (e : Event)
    (s' : RagState) (out' : list Output) (p : nat) (w : Purpose) (t : Z) (handled : bool) (answer : jsstr) :
  run turns initial = Some (s, out) -> Forall proper_turn turns -> map_get (promises s) p = Some (mkPromise w t handled None) ->
  step now thrown e s = Some (s', out') -> answer_of (settled_in s' p) = Some answer ->
  exists ws k data m txt, e = Received ws data /\ map_get (sockets s) ws = Some k /\ parse data = Some m /\
    question_of w = Some (room k, txt) /\ answers m txt answer.
Proof.
  intros Hrun Hproper Hp Hstep Ha. pose proof (run_good _ _ _ _ good_initial Hproper Hrun) as G.
  assert ((exists ws data, e = Received ws data) \/ (forall ws data, e <> Received ws data)) as [(ws & data & ->)|Hne]
    by (destruct e; eauto).
  - cbn [step] in Hstep. destruct (map_get (sockets s) ws) as [k|] eqn:Hk; [|done]. cbn [mbind option_bind] in Hstep.
    assert (s' = (handleMessage (room k) data s).1) as -> by (destruct (readyState k); try done; by injection Hstep as ->).
    destruct (handleMessage_answers s (room k) data p w t handled answer G Hp Ha) as (m & txt & Hm & Hq & Hans). by exists ws, k, data, m, txt.
  - assert (answer_of (settled_in s p) = None) as Hn by (unfold settled_in; by rewrite Hp).
    assert (unanswered s s') as Hu.
    { assert ((exists r u, e = InjectMockStatements r u) \/ (forall r u, e <> InjectMockStatements r u)) as [(r & u & ->)|Hni] by (destruct e; eauto).
      - injection Hstep as <- _. intros q Hq. exact Hq.
      - eapply (frame_step (R := unanswered) (allowed := fun r => answer_of (Some r) = None) (mine := fun _ => True));
          [done|done|done|exact Hstep|done|exact Hni|]. intros ws data He. by destruct (Hne ws data). }
    rewrite (Hu p Hn) in Ha. done.
Qed.

Definition sample_answer : jsstr :=
  stringify (JObj [(js "type", JStr (js "answer")); (js "text", JStr (js "안건?")); (js "answer", JStr (js "예산"))]).

Lemma answers_match_questions_witness :
  exists s out s' out', run sample_turns initial = Some (s, out) /\ step 900 None (Received 1 sample_answer) s = Some (s', out') /\
    exists ws k data m txt, Received 1 sample_answer = Received ws data /\ map_get (sockets s) ws = Some k /\ parse data = Some m /\
      question_of (Asking sample_room (js "안건?")) = Some (room k, txt) /\ answers m txt (js "예산").
Proof.
  assert (exists s out s' out', run sample_turns initial = Some (s, out) /\ step 900 None (Received 1 sample_answer) s = Some (s', out') /\
    map_get (promises s) 3%nat = Some (mkPromise (Asking sample_room (js "안건?")) 200 true None) /\
    answer_of (settled_in s' 3%nat) = Some (js "예산")) as (s & out & s' & out' & Hs & Hs' & Hp & Ha)
    by (eexists _, _, _, _; split_and!; [vm_compute; reflexivity..|vm_compute; reflexivity]).
  exists s, out, s', out'. split; [done|]. split; [done|].
  exact (answers_match_questions sample_turns s out 900 None _ s' out' 3%nat _ 200 true _ Hs ltac:(repeat constructor) Hp Hs' Ha).
Defined.

(* ------------------------------------------------------------------ *)
(** ** Buffers of statements *)

Definition bounded (s : RagState) : Prop :=
  forall r b, map_get (statementBuffers s) r = Some b -> (length b <= STATEMENT_BUFFER_MAX_SIZE)%nat.

Lemma buffer_added now roomId txt spk st en s :
  bounded s -> map_get (statementBuffers (addToStatementBuffer now roomId txt spk st en s)) roomId =
    Some (slice_last STATEMENT_BUFFER_MAX_SIZE (default [] (map_get (statementBuffers s) roomId) ++ [mkStatement txt spk now 0 st en])).
Proof.
  intros Hb. unfold addToStatementBuffer. cbv zeta. etransitivity; [apply map_get_set_eq|]. f_equal.
  assert (length (default [] (map_get (statementBuffers s) roomId)) <= STATEMENT_BUFFER_MAX_SIZE)%nat as Hl
    by (destruct (map_get (statementBuffers s) roomId) eqn:E; simpl; [by eapply Hb|unfold STATEMENT_BUFFER_MAX_SIZE; lia]).
  generalize dependent (default [] (map_get (statementBuffers s) roomId)). intros b Hl. unfold slice_last. rewrite length_app. cbn [length].
  destruct (STATEMENT_BUFFER_MAX_SIZE <=? length b)%nat eqn:E.
  - apply Nat.leb_le in E. replace (length b + 1 - STATEMENT_BUFFER_MAX_SIZE)%nat with 1%nat by lia.
    rewrite drop_app_le; [done|]. unfold STATEMENT_BUFFER_MAX_SIZE in E. lia.
  - apply Nat.leb_gt in E. by replace (length b + 1 - STATEMENT_BUFFER_MAX_SIZE)%nat with 0%nat by lia.
Qed.

#[export] Instance bounded_frame : Frame (fun s s' => bounded s -> bounded s') (fun _ => True) (fun _ => True).
Proof.
  split; try (intros; assumption).
  - intros s1 s2 s3 H1 H2 H. by apply H2, H1.
  - intros s s' _ Hb _ _ _ H. unfold bounded. rewrite Hb. exact H.
  - intros s r H r' b [_ Hb]%map_get_delete_Some. by eapply H.
  - by intros s _ r b.
  - intros s now roomId txt spk st en H r b Hb. destruct (decide (roomId = r)) as [<-|Hne].
    + rewrite buffer_added in Hb by done. injection Hb as <-. apply length_slice_last.
    + unfold addToStatementBuffer in Hb. simpl in Hb. rewrite map_get_set_ne in Hb by done. by eapply H.
Qed.

Definition injects (k : Turn) : Prop := match event k with InjectMockStatements _ _ => True | _ => False end.

Lemma run_bounded turns s s' out : bounded s -> Forall (fun k => ~ injects k) turns -> run turns s = Some (s', out) -> bounded s'.
Proof.
  intros Hb Hi. revert s out Hb. induction Hi as [|k turns Hk Hi IH]; intros s out Hb; cbn [run]; [by intros [= <- _]|].
  destruct (step _ _ _ _) as [[s1 out1]|] eqn:E; [|done]. simpl. destruct (run turns s1) as [[s2 out2]|] eqn:E2; [|done].
  intros [= -> _]. refine (IH s1 out2 _ E2). revert Hb.
  apply (frame_step (R := fun s s' => bounded s -> bounded s') (allowed := fun _ => True) (mine := fun _ => True)
    (fun _ => I) I (fun _ _ => I) _ _ _ _ _ _ E); [done| |done].
  intros r u He. apply Hk. unfold injects. by rewrite He.
Qed.

(** the transcript of a room is its recent statements.  In every execution
    without injected statements each buffer holds at most 100 statements, and a
    new statement makes it the last 100 of the old ones and the new one, whether
    the room is connected or not and whether sending succeeds; the buffers of the
    other rooms stay as they are. *)
Theorem buffer_is_recent (turns : list Turn) (s : RagState) (out : list Output) (now : Z) (thrown : option jsstr)
    (roomId txt spk : jsstr) (st : option Z) (en : option Q) (s' : RagState) (out' : list Output) :
  run turns initial = Some (s, out) -> Forall (fun k => ~ injects k) turns ->
  step now thrown (SendStatement roomId txt spk st en) s = Some (s', out') ->
  bounded s' /\
  map_get (statementBuffers s') roomId =
    Some (slice_last 100 (default [] (map_get (statementBuffers s) roomId) ++ [mkStatement txt spk now 0 st en])) /\
  (forall r, r <> roomId -> map_get (statementBuffers s') r = map_get (statementBuffers s) r).
Proof.
  intros Hrun Hi Hstep. assert (bounded s) as Hb by (eapply run_bounded; [|exact Hi|exact Hrun]; done).
  assert (statementBuffers s' = statementBuffers (addToStatementBuffer now roomId txt spk st en s)) as Hs'.
  { cbn [step] in Hstep. apply (inj Some), (f_equal fst) in Hstep. cbn [fst] in Hstep. subst s'. unfold sendStatement. cbv beta iota zeta.
    rewrite Z.eqb_refl. destruct (open_connection _ roomId); [|done]. destruct (bool_decide _); [|done]. by destruct (0 <? MAX_STATEMENT_RETRY). }
  split; [|split].
  - unfold bounded. rewrite Hs'. exact (frame_add (R := fun s s' => bounded s -> bounded s') s now roomId txt spk st en Hb).
  - rewrite Hs'. by apply buffer_added.
  - intros r Hr. rewrite Hs'. unfold addToStatementBuffer. cbv zeta. etransitivity; [by apply map_get_set_ne|done].
Qed.

Lemma buffer_is_recent_witness :
  exists s out s' out', run sample_turns initial = Some (s, out) /\
    step 300 None (SendStatement sample_room (js "시작합시다") (js "민수") None None) s = Some (s', out') /\
    map_get (statementBuffers s') sample_room = Some (slice_last 100 [mkStatement (js "시작합시다") (js "민수") 300 0 None None]).
Proof.
  assert (exists s out s' out', run sample_turns initial = Some (s, out) /\
    step 300 None (SendStatement sample_room (js "시작합시다") (js "민수") None None) s = Some (s', out') /\
    default [] (map_get (statementBuffers s) sample_room) = []) as (s & out & s' & out' & Hs & Hs' & He)
    by (eexists _, _, _, _; split_and!; vm_compute; reflexivity).
  exists s, out, s', out'. split; [done|]. split; [done|].
  assert (Forall (fun k => ~ injects k) sample_turns) as Hi by (repeat constructor; exact id).
  pose proof (proj1 (proj2 (buffer_is_recent sample_turns s out 300 None _ _ _ None None s' out' Hs Hi Hs'))) as H. by rewrite He in H.
Defined.
