(* ===== verification/RagReconnect.v ===== *)
(** * Reconnection to the retrieval server

    How often a lost connection of [RagClient] is tried again, what is sent when
    it is opened, and ways in which connections and requests go wrong. *)

From Stdlib Require Import ZArith QArith Lia.
From stdpp Require Import base strings option countable list.
From S2P Require Import Prelude JsString JsMap Json Records RagClient RagInvariant RagDelivery.

#[local] Open Scope Z_scope.

(* ------------------------------------------------------------------ *)
(** ** Counting entries of a map *)

Section Count.
Context {K V : Type} `{Countable K} (f : K * V -> bool).
Implicit Types (m : jsmap K V).

Definition count m : nat := length (List.filter f m).

Definition one (b : bool) : nat := if b then 1 else 0.

Lemma count_cons e m : count (e :: m) = (one (f e) + count m)%nat.
Proof. unfold count, one. simpl. by destruct (f e). Qed.

Lemma count_set_present m k v v' : map_get m k = Some v -> (count (map_set m k v') + one (f (k, v)) = count m + one (f (k, v')))%nat.
Proof.
  induction m as [|[k0 v0] m IH]; cbn [map_set map_get]; [done|]. destruct (decide (k = k0)) as [<-|Hne]; [intros [= <-]; rewrite !count_cons; lia|].
  intros Hv. specialize (IH Hv). rewrite !count_cons. lia.
Qed.

Lemma count_set m k v : (count (map_set m k v) <= count m + one (f (k, v)))%nat.
Proof.
  induction m as [|[k0 v0] m IH]; cbn [map_set]; [rewrite count_cons; lia|].
  destruct (decide (k = k0)) as [<-|Hne]; rewrite !count_cons; lia.
Qed.

Lemma count_delete m k : (count (map_delete m k) <= count m)%nat.
Proof.
  induction m as [|e m IH]; [done|]. unfold map_delete. rewrite filter_cons. fold (map_delete m k).
  destruct (decide (e.1 <> k)); rewrite !count_cons; lia.
Qed.

Lemma count_delete_present m k v : map_get m k = Some v -> (count (map_delete m k) + one (f (k, v)) <= count m)%nat.
Proof.
  induction m as [|[k0 v0] m IH]; cbn [map_set map_get]; [done|]. unfold map_delete. rewrite filter_cons. fold (map_delete m k).
  destruct (decide (k = k0)) as [<-|Hne].
  - intros [= <-]. rewrite decide_False by (simpl; auto). rewrite count_cons. pose proof (count_delete m k). lia.
  - intros Hv. specialize (IH Hv). rewrite decide_True by (simpl; auto). rewrite !count_cons. lia.
Qed.
End Count.

(* ------------------------------------------------------------------ *)
(** ** The connection of one room *)

Section OneRoom.
Context (r : jsstr).

Definition of_room (e : nat * Socket) : bool := bool_decide (room e.2 = r).
Definition live_socket (e : nat * Socket) : bool := bool_decide (room e.2 = r) && negb (bool_decide (readyState e.2 = CLOSED)).
Definition reconnects (e : nat * (Z * Callback)) : bool := match e.2.2 with Reconnect r' => bool_decide (r' = r) | _ => false end.

(** Sockets made for the room, those that are not closed, reconnections that are
    set, and attempts counted *)
Definition made (s : RagState) : nat := count of_room (sockets s).
Definition live (s : RagState) : nat := count live_socket (sockets s).
Definition scheduled (s : RagState) : nat := count reconnects (timers s).
Definition attempts (s : RagState) : Z := default 0 (map_get (reconnectAttemptCounts s) r).

Definition calm (s s' : RagState) : Prop :=
  (made s' <= made s)%nat /\ (live s' <= live s)%nat /\ (scheduled s' <= scheduled s)%nat /\ attempts s' = attempts s.

Lemma calm_refl s : calm s s.
Proof. unfold calm. lia. Qed.

#[export] Instance calm_frame : Frame calm (fun _ => True) (fun r' => r' <> r).
Proof.
  split; try (intros s; intros; exact (calm_refl s)).
  - unfold calm. lia.
  - intros s s' _ _ Hs Ht Hc. unfold calm, made, live, scheduled, attempts. rewrite Hs, Ht, Hc. lia.
  - intros s t. pose proof (count_delete reconnects (timers s) t). unfold calm, made, live, scheduled, attempts in *. simpl. lia.
  - intros s now d cb Hcb. pose proof (count_set reconnects (timers s) (next s) (now + d, cb)) as Hset.
    assert (reconnects (next s, (now + d, cb)) = false) as Hf.
    { unfold reconnects. simpl. destruct cb as [|r'| | | | |]; try done. apply bool_decide_eq_false. by apply Hcb. }
    rewrite Hf in Hset. unfold calm, made, live, scheduled, attempts, one in *. simpl. lia.
  - intros s ws k r' Hk Hr. set (k' := mkSocket (room k) r' (connectionTimeout k) (connecting k)).
    pose proof (count_set_present of_room _ _ _ k' Hk) as H1. pose proof (count_set_present live_socket _ _ _ k' Hk) as H2.
    change (of_room (ws, k')) with (of_room (ws, k)) in H1.
    assert (one (live_socket (ws, k')) <= one (live_socket (ws, k)))%nat as H3.
    { unfold live_socket. cbn [snd]. change (room k') with (room k). destruct Hr as [[-> Hr]|Hr].
      - rewrite (bool_decide_eq_false_2 (readyState k = CLOSED)) by done. change (readyState k') with CLOSING. by destruct (bool_decide (room k = r)).
      - rewrite bool_decide_eq_false_2 by done. simpl. lia. }
    unfold calm, made, live, scheduled, attempts in *. simpl. fold k'. lia.
  - intros s ws k Hr. pose proof (count_set of_room (sockets s) ws k) as H1. pose proof (count_set live_socket (sockets s) ws k) as H2.
    assert (of_room (ws, k) = false /\ live_socket (ws, k) = false) as [E1 E2]
      by (unfold of_room, live_socket; cbn [snd]; by rewrite bool_decide_eq_false_2).
    rewrite E1 in H1. rewrite E2 in H2. unfold one in H1, H2.
    unfold calm, made, live, scheduled, attempts in *. simpl. lia.
  - intros s r' c Hr. unfold calm, made, live, scheduled, attempts. simpl. rewrite map_get_set_ne by done. lia.
  - intros s r' Hr. unfold calm, made, live, scheduled, attempts. simpl. rewrite map_get_delete_ne by done. lia.
  - intros s H. by destruct (H r).
Qed.

(** Attempts that are left *)
Definition budget (s : RagState) : nat :=
  if (live s + scheduled s =? 0)%nat then 0 else Z.to_nat (MAX_RECONNECT_ATTEMPTS - attempts s) + scheduled s.

(** At most one socket or reconnection, and what a step may spend *)
Definition spends (s s' : RagState) : Prop :=
  (live s' + scheduled s' <= 1)%nat /\ (made s' + budget s' <= made s + budget s)%nat.

Lemma calm_spends s s' : (live s + scheduled s <= 1)%nat -> calm s s' -> spends s s'.
Proof.
  intros Hone (? & ? & ? & Ha). unfold spends, budget. rewrite Ha. split; [lia|].
  destruct (live s + scheduled s =? 0)%nat eqn:E; destruct (live s' + scheduled s' =? 0)%nat eqn:E';
    rewrite ?Nat.eqb_eq, ?Nat.eqb_neq in *; lia.
Qed.

Lemma close_spends now code ws k s :
  map_get (sockets s) ws = Some k -> room k = r -> readyState k <> CLOSED -> (live s + scheduled s <= 1)%nat -> spends s (on_close now code ws k s).
Proof.
  intros Hk Hr Hc Hone. unfold on_close. cbv zeta. set (s1 := set_ready ws CLOSED s).
  assert (live s1 + 1 = live s /\ made s1 = made s /\ scheduled s1 = scheduled s /\ attempts s1 = attempts s)%nat as (H1 & H2 & H3 & H4).
  { unfold s1, set_ready. rewrite Hk. destruct k as [rm r0 t p]. simpl in Hr, Hc. subst rm.
    pose proof (count_set_present of_room _ _ _ (mkSocket r CLOSED t p) Hk) as H1. pose proof (count_set_present live_socket _ _ _ (mkSocket r CLOSED t p) Hk) as H2.
    change (of_room (ws, mkSocket r CLOSED t p)) with (of_room (ws, mkSocket r r0 t p)) in H1. unfold live_socket in H2 at 2 4. cbn [snd room readyState] in H2.
    rewrite !(bool_decide_eq_true_2 (r = r)), (bool_decide_eq_false_2 (r0 = CLOSED)) in H2 by done. simpl in H2.
    unfold live, made, scheduled, attempts. simpl. lia. }
  assert (live s = 1 /\ scheduled s = 0 /\ live s1 = 0)%nat as (Hl & Hs & Hl1) by lia.
  assert (budget s = Z.to_nat (MAX_RECONNECT_ATTEMPTS - attempts s)) as Hb by (unfold budget; rewrite Hl, Hs; simpl; lia).
  assert (forall s2, made s2 = made s1 -> live s2 = live s1 -> scheduled s2 = scheduled s1 -> spends s s2) as Hsame.
  { intros s2 Hm2 Hl2 Hs2. unfold spends, budget. rewrite Hl2, Hs2, Hm2, Hl1, H2, H3, Hs. simpl. lia. }
  destruct (code =? 1000); [by apply Hsame|]. rewrite Hr. unfold scheduleReconnect. destruct (map_has (reconnectTimers s1) r); [by apply Hsame|]. cbv zeta.
  fold (attempts s1). rewrite H4. destruct (MAX_RECONNECT_ATTEMPTS <=? attempts s) eqn:E; [by apply Hsame|]. apply Z.leb_gt in E.
  set (s2 := _ <| reconnectTimers := _ |>).
  assert (scheduled s2 <= 1)%nat as Hs2.
  { pose proof (count_set reconnects (timers s1) (next s1) (now + RECONNECT_DELAY, Reconnect r)) as Hset.
    unfold reconnects at 3 in Hset. cbn [snd] in Hset. rewrite bool_decide_eq_true_2 in Hset by done. unfold scheduled in *. unfold s2. simpl in *. lia. }
  assert (live s2 = 0 /\ made s2 = made s)%nat as [Hl2 Hm2] by (split; [exact Hl1|exact H2]).
  assert (attempts s2 = attempts s + 1) as Ha2 by (unfold attempts at 1, s2; simpl; by rewrite map_get_set_eq).
  unfold spends, budget at 1. rewrite Hl2, Hm2, Ha2, Hb. unfold MAX_RECONNECT_ATTEMPTS in *. split; [lia|].
  destruct (0 + scheduled s2 =? 0)%nat; lia.
Qed.

Lemma reconnect_spends now thrown t d s :
  map_get (timers s) t = Some (d, Reconnect r) -> (live s + scheduled s <= 1)%nat -> spends s (run_callback now thrown (Reconnect r) (clear_timeout t s)).1.
Proof.
  intros Ht Hone. unfold run_callback. set (s1 := (clear_timeout t s) <| reconnectTimers := map_delete (reconnectTimers (clear_timeout t s)) r |>).
  assert (scheduled s1 + 1 <= scheduled s /\ live s1 = live s /\ made s1 = made s /\ attempts s1 = attempts s)%nat as (H1 & H2 & H3 & H4).
  { pose proof (count_delete_present reconnects _ _ _ Ht) as H. unfold reconnects in H at 2. cbn [snd] in H. rewrite bool_decide_eq_true_2 in H by done.
    unfold scheduled, live, made, attempts. unfold s1. simpl in *. lia. }
  assert (scheduled s = 1 /\ scheduled s1 = 0 /\ live s = 0)%nat as (Hs & Hs1 & Hl) by lia.
  assert (budget s = Z.to_nat (MAX_RECONNECT_ATTEMPTS - attempts s) + 1)%nat as Hb by (unfold budget; by rewrite Hl, Hs).
  assert (forall s2, calm s1 s2 -> spends s s2) as Hcalm.
  { intros s2 (? & ? & ? & Ha). unfold spends, budget. rewrite Ha, H4. split; [lia|]. destruct (live s2 + scheduled s2 =? 0)%nat; fold (budget s); lia. }
  unfold connect. destruct (isConnected s1 r); [apply Hcalm, calm_refl|]. cbv zeta.
  assert (calm s1 (new_promise now (Connecting r) true s1)) as Hn by apply (frame_new (R := calm)).
  set (s2 := new_promise now (Connecting r) true s1) in *. destruct thrown as [m|].
  - apply Hcalm. apply (frame_trans (R := calm) _ s2); [exact Hn|]. by apply (frame_settle (R := calm) (allowed := fun _ => True)).
  - destruct Hn as (N1 & N2 & N3 & N4). cbn [fst]. set (s3 := s2 <| sockets := _ |> <| next := _ |>).
    assert (calm s3 (set_timeout now CONNECTION_TIMEOUT (ConnectionTimeout (next s2) (next s1)) s3)) as (C1 & C2 & C3 & C4)
      by by apply (frame_plain_timeout (R := calm) (allowed := fun _ => True)).
    set (s4 := set_timeout now CONNECTION_TIMEOUT (ConnectionTimeout (next s2) (next s1)) s3) in *.
    assert (made s3 <= made s2 + 1 /\ live s3 <= live s2 + 1 /\ scheduled s3 = scheduled s2 /\ attempts s3 = attempts s2)%nat as (D1 & D2 & D3 & D4).
    { pose proof (count_set of_room (sockets s2) (next s2) (mkSocket r CONNECTING (S (next s2)) (next s1))) as K1.
      pose proof (count_set live_socket (sockets s2) (next s2) (mkSocket r CONNECTING (S (next s2)) (next s1))) as K2.
      assert (forall b, one b <= 1)%nat as Hone' by (intros []; simpl; lia).
      pose proof (Hone' (of_room (next s2, mkSocket r CONNECTING (S (next s2)) (next s1)))).
      pose proof (Hone' (live_socket (next s2, mkSocket r CONNECTING (S (next s2)) (next s1)))).
      split_and!; [refine (Nat.le_trans _ _ _ K1 _); unfold made; lia|refine (Nat.le_trans _ _ _ K2 _); unfold live; lia|reflexivity|reflexivity]. }
    assert (attempts s4 = attempts s) as Ha by congruence.
    unfold spends. unfold budget at 1. rewrite Ha, Hb. split; [lia|]. destruct (live s4 + scheduled s4 =? 0)%nat; lia.
Qed.

(** No successful connection of the room, no call to connect or disconnect it *)
Fixpoint unconnected (turns : list Turn) (s : RagState) : Prop :=
  match turns with
  | [] => True
  | k :: turns =>
    (touches s (event k) r -> match event k with Closed _ _ | Fires _ => True | _ => False end) /\
    forall s1 out, step (at_time k) (throws k) (event k) s = Some (s1, out) -> unconnected turns s1
  end.

Lemma step_spends now thrown e s s' out :
  step now thrown e s = Some (s', out) -> (touches s e r -> match e with Closed _ _ | Fires _ => True | _ => False end) ->
  (live s + scheduled s <= 1)%nat -> spends s s'.
Proof.
  intros H Hq Hone.
  assert ((forall r', touches s e r' -> r' <> r) -> (forall r u, e <> InjectMockStatements r u) -> spends s s') as Hcalm.
  { intros Ht Hi. apply calm_spends; [done|].
    by apply (frame_step (R := calm) (allowed := fun _ => True) (mine := fun r' => r' <> r) (fun _ => I) I (fun _ _ => I) _ _ _ _ _ _ H Ht Hi). }
  assert (spends s s) as Hid by (apply calm_spends; [done|apply calm_refl]).
  destruct e; try (apply Hcalm; [|done]; intros r' Ht ->; exact (Hq Ht)).
  - cbn [step] in H. injection H as <- _. exact Hid.
  - cbn [step] in H. destruct (map_get (sockets s) ws) as [k|] eqn:Hk; [|done]. cbn [mbind option_bind] in H.
    destruct (decide (room k = r)) as [Hr|Hr].
    + assert (readyState k <> CLOSED /\ s' = on_close now code ws k s) as [Hc ->] by (destruct (readyState k); try done; by injection H as <- _).
      by apply close_spends.
    + apply Hcalm; [|done]. intros r' (k' & Hk' & <-). rewrite Hk in Hk'. by injection Hk' as <-.
  - cbn [step] in H. destruct (map_get (timers s) t) as [[due cb]|] eqn:Ht; [|done]. cbn [mbind option_bind] in H.
    destruct (due <=? now) eqn:Hdue; [|done]. apply (inj Some), (f_equal fst) in H. cbn [fst] in H. subst s'.
    assert (cb = Reconnect r \/ cb <> Reconnect r) as [->|Hn]
      by (destruct cb as [|r'| | | | |]; try (by right); destruct (decide (r' = r)) as [->|]; [by left|right; congruence]).
    + by apply (reconnect_spends now thrown t due).
    + apply Hcalm; [|done]. intros r' [d Hd] ->. rewrite Ht in Hd. by injection Hd as _ ->.
Qed.
End OneRoom.

(** C13: a room that cannot be reached is given up.  Starting with one socket or
    one reconnection under way, and as long as no attempt succeeds and nobody
    connects or disconnects the room, the sockets made for it are bounded by the
    attempts that are left: three minus those counted, and the one that is set. *)
Theorem reconnects_are_bounded (r : jsstr) (turns : list Turn) (s s' : RagState) (out : list Output) :
  run turns s = Some (s', out) -> unconnected r turns s -> (live r s + scheduled r s <= 1)%nat ->
  (live r s' + scheduled r s' <= 1)%nat /\
  (made r s' + budget r s' <= made r s + budget r s)%nat.
Proof.
  revert s out. induction turns as [|k turns IH]; intros s out; cbn [run unconnected]; [intros [= <- _] _ H; by split|].
  destruct (step _ _ _ s) as [[s1 out1]|] eqn:E; [|done]. simpl. destruct (run turns s1) as [[s2 out2]|] eqn:E2; [|done].
  intros [= -> _] [Hq Hrest] Hone. destruct (step_spends r _ _ _ _ _ _ E Hq Hone) as [Hone1 Hle].
  destruct (IH s1 out2 E2 (Hrest _ _ eq_refl) Hone1) as [Hone2 Hle2]. split; [done|lia].
Qed.

(** A first attempt and its three repetitions fail *)
Definition sample_failures : list Turn :=
  [mkTurn 1 None (Closed 1 1006); mkTurn 10001 None (Fires 3); mkTurn 10002 None (Closed 5 1006); mkTurn 20002 None (Fires 7);
   mkTurn 20003 None (Closed 9 1006); mkTurn 30003 None (Fires 11); mkTurn 30004 None (Closed 13 1006)].

Lemma reconnects_are_bounded_witness :
  exists s out s' out', run [mkTurn 0 None (Connect sample_room)] initial = Some (s, out) /\ run sample_failures s = Some (s', out') /\
    made sample_room s' = 4%nat /\ reconnectTimers s' = [] /\ (made sample_room s' + budget sample_room s' <= 4)%nat.
Proof.
  assert (exists s out s' out', run [mkTurn 0 None (Connect sample_room)] initial = Some (s, out) /\ run sample_failures s = Some (s', out') /\
    made sample_room s' = 4%nat /\ reconnectTimers s' = [] /\ (live sample_room s + scheduled sample_room s)%nat = 1%nat /\
    (made sample_room s + budget sample_room s)%nat = 4%nat) as (s & out & s' & out' & Hs & Hs' & Hm & Ht & Hone & Hb)
    by (eexists _, _, _, _; split_and!; vm_compute; reflexivity).
  exists s, out, s', out'. split_and!; try done.
  assert (unconnected sample_room sample_failures s) as Hu by (repeat (split; [done|intros ? ? _]); exact I).
  pose proof (proj2 (reconnects_are_bounded sample_room sample_failures s s' out' Hs' Hu ltac:(lia))) as H. by rewrite Hb in H.
Defined.

(* ------------------------------------------------------------------ *)
(** ** What is sent when a connection is opened *)

(** The messages of a flush, the statements in the buffer afterwards, and the
    pauses of a tenth of a second; [t] is the first timeout *)
Fixpoint resend (ws : nat) (now : Z) (stmts : list PendingStatement) : list Output :=
  match stmts with
  | [] => []
  | x :: rest => Wrote ws (statement_message now (text x) (speaker x) (stmtStart x) (stmtEnd x)) :: resend ws (now + 100) rest
  end.

Fixpoint rebuffer (now : Z) (stmts : list PendingStatement) : list PendingStatement :=
  match stmts with
  | [] => []
  | x :: rest => mkStatement (text x) (speaker x) now 0 (stmtStart x) (stmtEnd x) :: rebuffer (now + 100) rest
  end.

Fixpoint pauses (now : Z) (t : nat) (stmts : list PendingStatement) : list Turn :=
  match stmts with
  | [] => []
  | _ :: rest => mkTurn (now + 100) None (Fires t) :: pauses (now + 100) (S t) rest
  end.

Definition buffer (s : RagState) (r : jsstr) : list PendingStatement := default [] (map_get (statementBuffers s) r).

Lemma run_turn now thrown e turns s s1 s2 out1 out2 :
  step now thrown e s = Some (s1, out1) -> run turns s1 = Some (s2, out2) -> run (mkTurn now thrown e :: turns) s = Some (s2, out1 ++ out2).
Proof. intros H1 H2. cbn [run at_time throws event]. rewrite H1. cbn [mbind option_bind]. by rewrite H2. Qed.

Lemma run_one now thrown e s s1 out : step now thrown e s = Some (s1, out) -> run [mkTurn now thrown e] s = Some (s1, out).
Proof. intros H1. rewrite <- (app_nil_r out). by eapply run_turn. Qed.

Section Flush.
Context (r : jsstr) (ws : nat).

(** Sending one statement of a flush *)
Lemma flush_one now x rest s :
  retryCount x = 0 -> open_connection s r = Some ws -> (length (buffer s r) < 100)%nat ->
  exists s1, flush_next now false r (x :: rest) s = (s1, resend ws now [x]) /\
    map_get (timers s1) (next s) = Some (now + 100, FlushNext r rest) /\ next s1 = S (next s) /\
    open_connection s1 r = Some ws /\ buffer s1 r = buffer s r ++ rebuffer now [x] /\ promises s1 = promises s.
Proof.
  intros Hx Ho Hb. destruct x as [txt spk ts retry st en]. simpl in Hx. subst retry. cbn [flush_next sendStatement Z.eqb].
  set (s0 := addToStatementBuffer now r txt spk st en s).
  assert (open_connection s0 r = Some ws) as Ho0 by exact Ho. rewrite Ho0. eexists. split; [reflexivity|]. split_and!.
  - exact (map_get_set_eq (timers s) (next s) _).
  - reflexivity.
  - exact Ho.
  - unfold buffer at 1. change (statementBuffers (set_timeout now 100 (FlushNext r rest) s0)) with (statementBuffers s0).
    unfold s0, addToStatementBuffer. cbv zeta. fold (buffer s r). unfold STATEMENT_BUFFER_MAX_SIZE.
    rewrite (proj2 (Nat.leb_gt _ _) Hb). etransitivity; [apply (f_equal (default [])), map_get_set_eq|]. reflexivity.
  - reflexivity.
Qed.

Lemma flush_rest rest : forall now t s,
  Forall (fun x => retryCount x = 0) rest -> map_get (timers s) t = Some (now + 100, FlushNext r rest) -> next s = S t ->
  open_connection s r = Some ws -> (length (buffer s r) + length rest <= 100)%nat ->
  exists s', run (mkTurn (now + 100) None (Fires t) :: pauses (now + 100) (S t) rest) s = Some (s', resend ws (now + 100) rest) /\
    buffer s' r = buffer s r ++ rebuffer (now + 100) rest.
Proof.
  induction rest as [|x rest IH]; intros now t s Hr Ht Hn Ho Hl.
  - exists (clear_timeout t s). split; [|by rewrite app_nil_r]. apply run_one.
    cbn [step]. rewrite Ht. cbn [mbind option_bind]. by rewrite Z.leb_refl.
  - inversion_clear Hr as [|? ? Hx Hrest]. cbn [length] in Hl.
    destruct (flush_one (now + 100) x rest (clear_timeout t s) Hx) as (s1 & Hs1 & Ht1 & Hn1 & Ho1 & Hb1 & _);
      [exact Ho|change (buffer (clear_timeout t s) r) with (buffer s r); lia|].
    change (next (clear_timeout t s)) with (next s) in *. change (buffer (clear_timeout t s) r) with (buffer s r) in Hb1.
    rewrite Hn in Ht1, Hn1.
    destruct (IH (now + 100) (S t) s1 Hrest Ht1 Hn1 Ho1) as (s' & Hrun & Hb'); [rewrite Hb1, length_app; simpl; lia|].
    exists s'. split; [|by rewrite Hb', Hb1, <- app_assoc]. refine (run_turn _ _ _ _ _ _ _ (resend ws (now + 100) [x]) _ _ Hrun).
    cbn [step]. rewrite Ht. cbn [mbind option_bind]. rewrite Z.leb_refl. unfold run_callback.
    change (bool_decide (is_Some None)) with false. by rewrite Hs1.
Qed.
End Flush.

(** opening a connection sends the buffer again.  When the socket of a room
    opens, every statement of the buffer that is not older than a minute is
    sent, in order, a tenth of a second apart, and the buffer then holds the same
    statements as if they were new; statements that a previous connection has
    sent are still in the buffer and are sent once more. *)
Theorem opening_resends_buffer (s : RagState) (ws : nat) (k : Socket) (now : Z) :
  map_get (sockets s) ws = Some k -> readyState k = CONNECTING -> purpose_of s (connecting k) = Some (Connecting (room k)) ->
  (length (buffer s (room k)) <= 100)%nat -> Forall (fun x => retryCount x = 0) (buffer s (room k)) ->
  let stmts := List.filter (not_expired now) (buffer s (room k)) in
  exists s', run (mkTurn now None (Opened ws) :: pauses now (next s) stmts) s = Some (s', resend ws now stmts) /\
    buffer s' (room k) = rebuffer now stmts.
Proof.
  intros Hk Hst Hpur Hlen Hretry stmts.
  assert (step now None (Opened ws) s = Some (on_open now false ws k s)) as Hstep by (cbn [step]; rewrite Hk; cbn [mbind option_bind]; by rewrite Hst).
  revert Hstep. unfold on_open. cbv zeta.
  match goal with |- context [flushStatementBuffer now false (room k) ?t] => set (s1 := t) end.
  assert (open_connection s1 (room k) = Some ws) as Ho1.
  { unfold open_connection. change (connections s1) with (map_set (connections (set_ready ws OPEN s)) (room k) ws). rewrite map_get_set_eq.
    rewrite decide_True; [done|]. unfold state_of. change (sockets s1) with (sockets (set_ready ws OPEN s)). unfold set_ready. rewrite Hk.
    destruct k. simpl. by rewrite map_get_set_eq. }
  assert (statementBuffers s1 = statementBuffers s /\ promises s1 = promises s /\ next s1 = next s) as (Hb1 & Hp1 & Hn1)
    by (unfold s1, set_ready; rewrite Hk; by destruct k).
  clearbody s1.
  assert (forall s2, promises s2 = promises s1 -> exists s3, settle (connecting k) (Resolved Connected) s2 = (s3, []) /\
    timers s3 = timers s2 /\ next s3 = next s2 /\ open_connection s3 (room k) = open_connection s2 (room k) /\ statementBuffers s3 = statementBuffers s2) as Hsettle.
  { intros s2 Hp2. unfold purpose_of in Hpur. unfold settle. rewrite Hp2, Hp1.
    destruct (map_get (promises s) (connecting k)) as [[w t a [y|]]|]; [by eexists| |done]. injection Hpur as ->. destruct a; by eexists. }
  unfold flushStatementBuffer. unfold buffer in Hlen, Hretry, stmts. rewrite Hb1.
  destruct (map_get (statementBuffers s) (room k)) as [[|x0 b0]|] eqn:Eb.
  - destruct (Hsettle s1 eq_refl) as (s3 & -> & _ & _ & _ & Hb3). intros Hstep. exists s3.
    split; [exact (run_one _ _ _ _ _ _ Hstep)|]. unfold buffer. by rewrite Hb3, Hb1, Eb.
  - set (b := x0 :: b0) in *. change (length b <= 100)%nat in Hlen. change (List.filter (not_expired now) b) with stmts.
    set (s2 := s1 <| statementBuffers := map_delete (statementBuffers s) (room k) |>).
    assert (buffer s2 (room k) = []) as Hb2 by exact (f_equal (default []) (map_get_delete_eq (statementBuffers s) (room k))).
    assert (Forall (fun x => retryCount x = 0) stmts /\ (length stmts <= 100)%nat) as [Hr Hl].
    { split; [|refine (Nat.le_trans _ _ _ _ Hlen); apply length_bfilter].
      apply Forall_forall. intros x [Hx _]%elem_of_bfilter. by apply (proj1 (Forall_forall _ _) Hretry). }
    clearbody stmts. destruct stmts as [|x rest].
    + cbn [flush_next]. destruct (Hsettle s2 eq_refl) as (s3 & -> & _ & _ & _ & Hb3). intros Hstep. exists s3.
      split; [exact (run_one _ _ _ _ _ _ Hstep)|]. unfold buffer. by rewrite Hb3.
    + inversion_clear Hr as [|? ? Hx Hrest].
      destruct (flush_one (room k) ws now x rest s2 Hx Ho1) as (s3 & -> & Ht3 & Hn3 & Ho3 & Hb3 & Hp3); [rewrite Hb2; simpl; lia|].
      destruct (Hsettle s3 Hp3) as (s4 & -> & Ht4 & Hn4 & Ho4 & Hb4). intros Hstep.
      change (next s2) with (next s1) in *. rewrite Hn1 in *. rewrite Hb2 in Hb3.
      assert (buffer s4 (room k) = rebuffer now [x]) as Hb4' by (unfold buffer at 1; rewrite Hb4; exact Hb3).
      destruct (flush_rest (room k) ws rest now (next s) s4 Hrest) as (s' & Hrun & Hb'); [by rewrite Ht4|by rewrite Hn4|by rewrite Ho4|rewrite Hb4'; simpl in *; lia|].
      exists s'. split; [exact (run_turn _ _ _ _ _ _ _ _ _ Hstep Hrun)|]. by rewrite Hb', Hb4'.
  - destruct (Hsettle s1 eq_refl) as (s3 & -> & _ & _ & _ & Hb3). intros Hstep. exists s3.
    split; [exact (run_one _ _ _ _ _ _ Hstep)|]. unfold buffer. by rewrite Hb3, Hb1, Eb.
Qed.

(** A statement that was sent, then a lost connection *)
Definition sample_loss : list Turn :=
  [mkTurn 0 None (Connect sample_room); mkTurn 100 None (Opened 1); mkTurn 1000 None (SendStatement sample_room (js "시작") (js "민수") None None);
   mkTurn 2000 None (Closed 1 1006); mkTurn 12000 None (Fires 3)].

Definition sample_written (now : Z) : json := statement_message now (js "시작") (js "민수") None None.

Lemma opening_resends_buffer_witness :
  exists s s', run sample_loss initial = Some (s, [Wrote 1 (sample_written 1000)]) /\
    run (mkTurn 12100 None (Opened 5) :: pauses 12100 7 [mkStatement (js "시작") (js "민수") 1000 0 None None]) s = Some (s', [Wrote 5 (sample_written 12100)]).
Proof.
  assert (exists s k, run sample_loss initial = Some (s, [Wrote 1 (sample_written 1000)]) /\ map_get (sockets s) 5%nat = Some k /\
    readyState k = CONNECTING /\ room k = sample_room /\ purpose_of s (connecting k) = Some (Connecting sample_room) /\ next s = 7%nat /\
    buffer s sample_room = [mkStatement (js "시작") (js "민수") 1000 0 None None]) as (s & k & Hs & Hk & Hst & Hr & Hp & Hn & Hb)
    by (eexists _, _; split_and!; vm_compute; reflexivity).
  rewrite <- Hr in Hp, Hb.
  destruct (opening_resends_buffer s 5 k 12100 Hk Hst Hp) as (s' & Hrun & _); [rewrite Hb; simpl; lia|rewrite Hb; by repeat constructor|].
  rewrite Hb, Hn in Hrun. exists s, s'. split; [exact Hs|exact Hrun].
Defined.

(* ------------------------------------------------------------------ *)
(** ** Connections that get lost *)

Lemma same_settle p r s : sockets (settle p r s).1 = sockets s /\ connections (settle p r s).1 = connections s.
Proof.
  unfold settle. destruct (map_get (promises s) p) as [[w t a [y|]]|]; try done. destruct a; [|done]. destruct w; try done. by destruct r.
Qed.

Lemma drop_context_spec roomId ws s :
  sockets (drop_context roomId ws s).1 = sockets (close_socket ws s) /\ map_get (connections (drop_context roomId ws s).1) roomId = None.
Proof.
  unfold drop_context. cbv zeta. set (l := rev (pendingRequests (context_of s ws))).
  assert (sockets (foldr reject_request s l) = sockets s) as H1.
  { induction l as [|e l IH]; [done|]. cbn [foldr]. rewrite <- IH. unfold reject_request at 1. by rewrite (proj1 (same_settle _ _ _)). }
  set (s1 := foldr reject_request s l) in *. match goal with |- context [s1 <| contexts := ?v |>] => set (s2 := s1 <| contexts := v |>) end.
  match goal with |- context [let '(_, _) := ?x in _] => set (y := x) end.
  assert (sockets y.1 = sockets s) as H2.
  { unfold y. destruct (map_get (pendingReportRequests s2) roomId) as [e|]; [|exact H1]. rewrite (proj1 (same_settle _ _ _)). exact H1. }
  destruct y as [s3 out]. cbn [fst] in *.
  assert (sockets (close_socket ws s3) = sockets (close_socket ws s)) as H3.
  { unfold close_socket, state_of, set_ready. rewrite H2. destruct (map_get (sockets s) ws) as [[rm r0 t p]|]; [|exact H2]. simpl.
    destruct r0; simpl; congruence. }
  set (s4 := (close_socket ws s3) <| connections := map_delete (connections (close_socket ws s3)) roomId |>).
  assert (map_get (connections s4) roomId = None) as H4 by apply map_get_delete_eq.
  destruct (map_get (statementBuffers s4) roomId) as [[|]|]; by split.
Qed.

Lemma sockets_flush now thrown roomId s :
  sockets (flushStatementBuffer now thrown roomId s).1 = sockets s /\ connections (flushStatementBuffer now thrown roomId s).1 = connections s.
Proof.
  assert (forall stmt s, sockets (sendStatement now thrown roomId stmt s).1 = sockets s /\ connections (sendStatement now thrown roomId stmt s).1 = connections s) as Hs.
  { intros [txt spk ts retry st en] s0. unfold sendStatement. cbv zeta. set (s1 := if retry =? 0 then _ else s0).
    assert (sockets s1 = sockets s0 /\ connections s1 = connections s0) as H1 by (unfold s1; by destruct (retry =? 0)).
    destruct (open_connection s1 roomId); [|exact H1]. destruct thrown; [|exact H1]. by destruct (retry <? MAX_STATEMENT_RETRY). }
  unfold flushStatementBuffer. destruct (map_get (statementBuffers s) roomId) as [[|x b]|]; [done| |done].
  unfold flush_next. destruct (List.filter (not_expired now) (x :: b)) as [|y rest]; [done|].
  specialize (Hs y (s <| statementBuffers := map_delete (statementBuffers s) roomId |>)).
  by destruct (sendStatement now thrown roomId y (s <| statementBuffers := map_delete (statementBuffers s) roomId |>)).
Qed.

Lemma on_open_connects now thrown ws k s : map_get (sockets s) ws = Some k -> isConnected (on_open now thrown ws k s).1 (room k) = true.
Proof.
  intros Hk. unfold on_open. cbv zeta. match goal with |- context [flushStatementBuffer now thrown (room k) ?t] => set (s1 := t) end.
  destruct (sockets_flush now thrown (room k) s1) as [H1 H2]. destruct (flushStatementBuffer now thrown (room k) s1) as [s2 out].
  destruct (same_settle (connecting k) (Resolved Connected) s2) as [H3 H4]. destruct (settle (connecting k) (Resolved Connected) s2) as [s3 out'].
  cbn [fst] in *. unfold isConnected, open_connection, state_of. rewrite H4, H2, H3, H1.
  change (connections s1) with (map_set (connections (set_ready ws OPEN s)) (room k) ws). rewrite map_get_set_eq.
  change (sockets s1) with (sockets (set_ready ws OPEN s)). unfold set_ready. rewrite Hk. destruct k as [rm r0 t p]. simpl.
  by rewrite map_get_set_eq.
Qed.

(** disconnecting misses a connection that is being made.  When a room is
    disconnected while a socket for it is still connecting, the room counts as
    disconnected until the socket opens, and is connected again then. *)
Theorem disconnect_misses_connecting (s : RagState) (ws : nat) (k : Socket) (now now' : Z) :
  map_get (sockets s) ws = Some k -> readyState k = CONNECTING -> map_get (connections s) (room k) <> Some ws ->
  exists s1 out1 s2 out2, step now None (Disconnect (room k)) s = Some (s1, out1) /\ isConnected s1 (room k) = false /\
    step now' None (Opened ws) s1 = Some (s2, out2) /\ isConnected s2 (room k) = true.
Proof.
  intros Hk Hst Hne. cbn [step]. destruct (disconnect (room k) s) as [s1 out1] eqn:E.
  assert (map_get (sockets s1) ws = Some k /\ isConnected s1 (room k) = false) as [Hk1 Hc].
  { change s1 with ((s1, out1).1). rewrite <- E. clear E. unfold disconnect. cbv zeta.
    set (s0 := match map_get (reconnectTimers s) (room k) with Some _ => _ | None => s end).
    assert (sockets s0 = sockets s /\ connections s0 = connections s) as [Hs0 Hc0] by (unfold s0; by destruct (map_get (reconnectTimers s) (room k))).
    clearbody s0. set (s2 := s0 <| reconnectAttemptCounts := map_delete (reconnectAttemptCounts s0) (room k) |>).
    change (connections s2) with (connections s0). rewrite Hc0. destruct (map_get (connections s) (room k)) as [ws'|] eqn:Ec.
    - destruct (drop_context_spec (room k) ws' s2) as [H1 H2]. split.
      + rewrite H1. unfold close_socket, set_ready. change (sockets s2) with (sockets s0). destruct (state_of s2 ws') as [[]|]; try (by rewrite <- Hk, <- Hs0);
          destruct (map_get (sockets s0) ws') as [[]|]; try (by rewrite <- Hk, <- Hs0); simpl; (rewrite map_get_set_ne by congruence; by rewrite Hs0).
      + unfold isConnected, open_connection. by rewrite H2.
    - cbn [fst]. change (sockets s2) with (sockets s0). rewrite Hs0. split; [done|]. unfold isConnected, open_connection.
      change (connections s2) with (connections s0). by rewrite Hc0, Ec. }
  assert (step now' None (Opened ws) s1 = Some (on_open now' false ws k s1)) as Hstep
    by (cbn [step]; rewrite Hk1; cbn [mbind option_bind]; by rewrite Hst).
  pose proof (on_open_connects now' false ws k s1 Hk1) as Ho. destruct (on_open now' false ws k s1) as [s2 out2].
  by exists s1, out1, s2, out2.
Qed.

Lemma disconnect_misses_connecting_witness :
  exists s out s1 out1 s2 out2, run [mkTurn 0 None (Connect sample_room)] initial = Some (s, out) /\
    step 50 None (Disconnect sample_room) s = Some (s1, out1) /\ isConnected s1 sample_room = false /\
    step 100 None (Opened 1) s1 = Some (s2, out2) /\ isConnected s2 sample_room = true.
Proof.
  assert (exists s out k, run [mkTurn 0 None (Connect sample_room)] initial = Some (s, out) /\ map_get (sockets s) 1%nat = Some k /\
    readyState k = CONNECTING /\ room k = sample_room /\ connections s = []) as (s & out & k & Hs & Hk & Hst & Hr & Hc)
    by (eexists _, _, _; split_and!; vm_compute; reflexivity).
  destruct (disconnect_misses_connecting s 1 k 50 100 Hk Hst) as (s1 & out1 & s2 & out2 & H); [by rewrite Hc|].
  rewrite Hr in H. by exists s, out, s1, out1, s2, out2.
Defined.

(** a late close drops the new connection.  When an old socket of a room
    reports its regular end after a new socket was opened, the room counts as
    disconnected although the new socket stays open. *)
Theorem late_close_drops_connection (s : RagState) (ws ws' : nat) (k : Socket) (now : Z) :
  map_get (sockets s) ws = Some k -> readyState k <> CLOSED -> ws <> ws' -> open_connection s (room k) = Some ws' ->
  exists s' out, step now None (Closed ws 1000) s = Some (s', out) /\ isConnected s' (room k) = false /\ state_of s' ws' = Some OPEN.
Proof.
  intros Hk Hst Hne Ho. apply open_connection_Some in Ho as [_ Hopen].
  exists (on_close now 1000 ws k s), []. split_and!.
  - cbn [step]. rewrite Hk. cbn [mbind option_bind]. by destruct (readyState k).
  - unfold isConnected, open_connection. change (connections (on_close now 1000 ws k s)) with (map_delete (connections (set_ready ws CLOSED s)) (room k)).
    by rewrite map_get_delete_eq.
  - unfold state_of in *. change (sockets (on_close now 1000 ws k s)) with (sockets (set_ready ws CLOSED s)). unfold set_ready. rewrite Hk.
    destruct k as [rm r0 t p]. simpl. by rewrite map_get_set_ne.
Qed.

Lemma late_close_drops_connection_witness :
  exists s out s' out',
    run [mkTurn 0 None (Connect sample_room); mkTurn 100 None (Opened 1); mkTurn 200 None (Disconnect sample_room);
         mkTurn 210 None (Connect sample_room); mkTurn 250 None (Opened 4)] initial = Some (s, out) /\
    step 300 None (Closed 1 1000) s = Some (s', out') /\ isConnected s' sample_room = false /\ state_of s' 4%nat = Some OPEN.
Proof.
  assert (exists s out k,
    run [mkTurn 0 None (Connect sample_room); mkTurn 100 None (Opened 1); mkTurn 200 None (Disconnect sample_room);
         mkTurn 210 None (Connect sample_room); mkTurn 250 None (Opened 4)] initial = Some (s, out) /\
    map_get (sockets s) 1%nat = Some k /\ readyState k = CLOSING /\ room k = sample_room /\ open_connection s sample_room = Some 4%nat)
    as (s & out & k & Hs & Hk & Hst & Hr & Ho) by (eexists _, _, _; split_and!; vm_compute; reflexivity).
  rewrite <- Hr in Ho.
  destruct (late_close_drops_connection s 1 4 k 300 Hk ltac:(by rewrite Hst) ltac:(done) Ho) as (s' & out' & H).
  rewrite Hr in H. by exists s, out, s', out'.
Defined.

(* ------------------------------------------------------------------ *)
(** ** Requests that get lost *)

(** an answer with malformed sources loses the question.  When the sources of
    an answer are neither a list of values other than null nor left out, the
    question that asked for sources loses its entry and its timeout but is not
    settled. *)
Theorem malformed_sources_lose_question (s : RagState) (ws : nat) (m : json) (txt answer : jsstr) (e : PendingRequest) :
  map_get (pendingRequestsWithSources (context_of s ws)) txt = Some e -> pending s (request e) ->
  prop m (js "text") = Some (JStr txt) -> json_or (prop m (js "answer")) (JStr []) = JStr answer ->
  sources_of (json_or (prop m (js "sources")) (JArr [])) = None ->
  let s' := (on_answer ws m s).1 in
  pending s' (request e) /\ map_get (timers s') (timer e) = None /\ map_get (pendingRequestsWithSources (context_of s' ws)) txt = None.
Proof.
  intros He Hp Ht Ha Hs. cbv zeta. unfold on_answer. cbv zeta. rewrite Ht, Ha, Hs. cbn [get_json]. rewrite He. cbn [fst]. split_and!.
  - exact Hp.
  - apply (map_get_delete_eq (timers s) (timer e)).
  - unfold context_of at 1. etransitivity; [apply (f_equal (fun x => map_get (pendingRequestsWithSources (default (mkContext [] []) x)) txt)), map_get_set_eq|].
    apply map_get_delete_eq.
Qed.

(** The sources as an object instead of a list *)
Definition sample_malformed : json :=
  JObj [(js "type", JStr (js "answer")); (js "text", JStr (js "안건?")); (js "answer", JStr (js "예산")); (js "sources", JObj [])].

Lemma malformed_sources_lose_question_witness :
  exists s out, run [mkTurn 0 None (Connect sample_room); mkTurn 100 None (Opened 1); mkTurn 200 None (SendQuestionWithSources sample_room (js "안건?"))] initial = Some (s, out) /\
    let s' := (on_answer 1 sample_malformed s).1 in
    pending s' 3 /\ map_get (timers s') 4%nat = None /\ map_get (pendingRequestsWithSources (context_of s' 1)) (js "안건?") = None.
Proof.
  assert (exists s out, run [mkTurn 0 None (Connect sample_room); mkTurn 100 None (Opened 1); mkTurn 200 None (SendQuestionWithSources sample_room (js "안건?"))] initial = Some (s, out) /\
    map_get (pendingRequestsWithSources (context_of s 1)) (js "안건?") = Some (mkPending 3 4 200) /\
    map_get (promises s) 3%nat = Some (mkPromise (AskingSources sample_room (js "안건?")) 200 true None)) as (s & out & Hs & He & Hp)
    by (eexists _, _; split_and!; vm_compute; reflexivity).
  exists s, out. split; [exact Hs|].
  refine (malformed_sources_lose_question s 1 sample_malformed (js "안건?") (js "예산") (mkPending 3 4 200) He _ eq_refl eq_refl eq_refl). by eexists _, _, _.
Defined.

(** a report that cannot be requested ends in an unhandled rejection.  When
    the HTTP request for a report fails, the caller gets the failure, but the
    timeout stays set; after the minute it rejects a promise nobody waits for. *)
Theorem failed_report_rejection_unhandled (turns : list Turn) (s : RagState) (out : list Output) (now : Z) (m : jsstr) (p : nat) (roomId : jsstr) (t : Z) :
  run turns initial = Some (s, out) -> Forall proper_turn turns -> p ∈ posts s ->
  map_get (promises s) p = Some (mkPromise (Reporting roomId) t false None) ->
  exists s1 tm, step now (Some m) (ReportPosted p) s = Some (s1, [ReportReturned false m]) /\
    forall now' thrown, t + REPORT_TIMEOUT <= now' ->
      exists s2 m', step now' thrown (Fires tm) s1 = Some (s2, [UnhandledRejection m']).
Proof.
  intros Hrun Hproper Hposts Hp. pose proof (run_good _ _ _ _ good_initial Hproper Hrun) as G.
  assert (exists s1, step now (Some m) (ReportPosted p) s = Some (s1, [ReportReturned false m]) /\ promises s1 = promises s) as (s1 & Hs1 & Hp1).
  { cbn [step]. unfold report_posted. rewrite Hp, decide_True by done. by eexists. }
  assert (Good [] s1) as G1 by (eapply step_good; [exact G| |exact Hs1]; done).
  rewrite <- Hp1 in Hp. destruct (good_waiting _ _ G1 p _ t false Hp ltac:(apply not_elem_of_nil)) as (tm & cb & Htm & Hcb).
  change (limit (Reporting roomId)) with REPORT_TIMEOUT in Htm. exists s1, tm. split; [exact Hs1|]. intros now' thrown Hnow. cbn [step]. rewrite Htm. cbn [mbind option_bind]. rewrite (proj2 (Z.leb_le _ _) Hnow).
  assert (forall s2 x, promises s2 = promises s1 -> exists s3, settle p (Rejected x) s2 = (s3, [UnhandledRejection x])) as Hsettle.
  { intros s2 x Hp2. unfold settle. rewrite Hp2, Hp. by eexists. }
  assert (forall s2 x, promises s2 = promises s1 -> exists s3 m', Some (settle p (Rejected x) s2) = Some (s3, [UnhandledRejection m'])) as Hend.
  { intros s2 x Hp2. destruct (Hsettle s2 x Hp2) as [s3 ->]. by exists s3, x. }
  destruct cb as [ws q|r|ws txt q|ws txt q|r q|r stmt|r stmts]; try done; injection Hcb as ->; unfold run_callback; try by apply Hend.
  destruct (decide (state_of (clear_timeout tm s1) ws = Some OPEN)) as [HO|].
  - destruct (good_connecting _ _ G1 tm _ ws p Htm) as (k & Hk & <-).
    unfold state_of in HO. cbn in HO. rewrite Hk in HO. injection HO as HO.
    pose proof (good_open _ _ G1 ws k Hk HO ltac:(by eexists _, _, _)) as []%elem_of_nil.
  - apply Hend. unfold close_socket, set_ready. destruct (state_of _ ws) as [[]|]; try done; by destruct (map_get _ ws) as [[]|].
Qed.

Lemma failed_report_rejection_unhandled_witness :
  exists s out s1 tm, run [mkTurn 0 None (Connect sample_room); mkTurn 100 None (Opened 1); mkTurn 200 None (RequestReport sample_room)] initial = Some (s, out) /\
    step 900 (Some (js "ECONNREFUSED")) (ReportPosted 3) s = Some (s1, [ReportReturned false (js "ECONNREFUSED")]) /\
    forall now' thrown, 200 + REPORT_TIMEOUT <= now' -> exists s2 m', step now' thrown (Fires tm) s1 = Some (s2, [UnhandledRejection m']).
Proof.
  assert (exists s out, run [mkTurn 0 None (Connect sample_room); mkTurn 100 None (Opened 1); mkTurn 200 None (RequestReport sample_room)] initial = Some (s, out) /\
    posts s = [3%nat] /\ map_get (promises s) 3%nat = Some (mkPromise (Reporting sample_room) 200 false None)) as (s & out & Hs & Hposts & Hp)
    by (eexists _, _; split_and!; vm_compute; reflexivity).
  destruct (failed_report_rejection_unhandled _ s out 900 (js "ECONNREFUSED") 3 sample_room 200 Hs) as (s1 & tm & H);
    [by repeat constructor|rewrite Hposts; apply list_elem_of_here|exact Hp|]. by exists s, out, s1, tm.
Defined.
