(* ===== verification/Stt.v ===== *)
(** * Speech recognition

    [src/stt/stt.service.ts], [clova-stt.adapter.ts] and [daglo-stt.adapter.ts]:
    which provider transcribes an utterance, how its answers become a transcript,
    and the two stages that correct the transcript, by a table of words and by the
    language model.

    Answers of the providers and of the language model are arguments; messages of
    the Clova service are taken at the types of its protocol. *)

From Stdlib Require Import ZArith QArith Lia.
From stdpp Require Import base strings option sets sorting list.
From S2P Require Import Prelude JsString JsMap Json Regex Substitution IntentTables Intent.

#[local] Open Scope Z_scope.

(* ------------------------------------------------------------------ *)
(** ** Hints and corrections *)

Definition WAKE_WORD_HINTS : list jsstr :=
  js <$> ["아우라"; "아우라야"; "헤이 아우라"; "헤이아우라"; "아우라 야"; "아우라요"; "아 우라"; "오라"; "오라야"; "어라"; "어라야"; "아러"; "아러야"; "아으라"; "아아라"; "아울라";
    "아울라야"; "아우나"; "오우라"; "어우라"].

Definition LOCATION_HINTS : list jsstr :=
  js <$> ["서울"; "부산"; "대구"; "인천"; "광주"; "대전"; "울산"; "세종"; "강남"; "홍대"; "신촌"; "잠실"; "여의도"; "판교"; "성수"; "이태원"; "명동"; "종로"; "압구정";
    "청담"; "삼성"; "역삼"; "선릉"; "건대"; "합정"; "망원"; "연남"; "을지로"; "성북"; "혜화"; "대학로"; "분당"; "일산"; "수원"; "용인"; "화성"; "평택"; "안양";
    "부천"; "강서"; "마포"; "서초"; "송파"; "영등포"; "용산"; "동대문"; "중구"; "한남"; "한남동"; "이촌"; "서래마을"; "방배"; "사당"; "교대"; "노량진"; "신림"; "봉천";
    "낙성대"; "서울대입구"; "신대방"; "가로수길"; "경리단길"; "망리단길"; "송리단길"; "연트럴파크"; "북촌"; "서촌"; "익선동"; "광장시장"; "남대문"; "동묘"; "뚝섬"; "서울숲";
    "왕십리"; "답십리"; "장안동"; "청량리"; "회기"; "경희대"; "외대"; "고려대"; "안암"; "제기동"; "목동"; "당산"; "문래"; "신도림"; "구로"; "가산"; "금천"].

Definition CATEGORY_HINTS : list jsstr :=
  js <$> ["카페"; "커피"; "커피숍"; "스타벅스"; "투썸"; "이디야"; "블루보틀"; "카공"; "맛집"; "식당"; "레스토랑"; "밥집"; "음식점"; "저녁"; "점심"; "브런치"; "술집"; "바";
    "포차"; "호프"; "이자카야"; "와인바"; "회식"; "분식"; "떡볶이"; "김밥"; "라면"; "치킨"; "피자"; "빵집"; "베이커리"; "디저트"; "케이크"; "마카롱"; "아이스크림"; "팝업";
    "팝업스토어"; "전시"; "전시회"; "갤러리"; "날씨"; "기온"; "온도"; "미세먼지"; "우산"; "추천"; "알려줘"; "찾아줘"; "검색"; "애견카페"; "고양이카페"; "보드게임카페";
    "방탈출카페"; "스터디카페"; "북카페"; "루프탑"; "테라스"; "오션뷰"; "한강뷰"; "한식"; "중식"; "일식"; "양식"; "이탈리안"; "프렌치"; "멕시칸"; "태국음식"; "베트남음식";
    "인도음식"; "퓨전"; "오마카세"; "고기"; "삼겹살"; "소고기"; "곱창"; "막창"; "회"; "초밥"; "횟집"; "국밥"; "설렁탕"; "감자탕"; "순대국"; "해장국"; "칼국수"; "냉면";
    "데이트"; "소개팅"; "기념일"; "생일"; "모임"; "단체"; "혼밥"; "혼술"; "비즈니스"; "미팅"; "조용한"; "분위기좋은"; "인스타"; "사진"].

Definition ALL_HINTS : list jsstr := WAKE_WORD_HINTS ++ LOCATION_HINTS ++ CATEGORY_HINTS.

(** What is heard and what is meant, in the order in which they are replaced *)
Definition PHONETIC_CORRECTIONS : list (jsstr * jsstr) :=
  (fun p => (js p.1, js p.2)) <$> [
    ("성숙", "성수"); ("성수기", "성수"); ("성숙하게", "성수 카페"); ("성숙해", "성수"); ("강남역", "강남"); ("홍대입구", "홍대");
    ("신촌역", "신촌"); ("합정역", "합정"); ("건대입구", "건대"); ("선릉역", "선릉"); ("역삼역", "역삼"); ("삼성역", "삼성"); ("잠실역", "잠실");
    ("여의도역", "여의도"); ("판교역", "판교"); ("카패", "카페"); ("커피숍", "카페"); ("캬페", "카페"); ("맛있집", "맛집"); ("마집", "맛집");
    ("술 집", "술집"); ("분 식", "분식"); ("떡복이", "떡볶이"); ("팝 업", "팝업"); ("전 시", "전시"); ("날 씨", "날씨");
    ("아 우라", "아우라"); ("아우 라", "아우라"); ("아우라 야", "아우라야"); ("아울라", "아우라"); ("아울라야", "아우라야"); ("아우나", "아우라");
    ("아우나야", "아우라야"); ("아우러", "아우라"); ("아우러야", "아우라야"); ("아오라", "아우라"); ("아오라야", "아우라야"); ("오우라", "아우라");
    ("오우라야", "아우라야"); ("어우라", "아우라"); ("어우라야", "아우라야"); ("헤이 아울라", "헤이 아우라"); ("헤이 아우나", "헤이 아우라");
    ("헤이 오우라", "헤이 아우라"); ("해이아우라", "헤이 아우라"); ("에이아우라", "헤이 아우라"); ("오라", "아우라"); ("오라야", "아우라야");
    ("어라", "아우라"); ("어라야", "아우라야"); ("아러", "아우라"); ("아러야", "아우라야"); ("아 라", "아우라"); ("아 라야", "아우라야");
    ("오 라", "아우라"); ("오 라야", "아우라야"); ("아으라", "아우라"); ("아으라야", "아우라야"); ("아아라", "아우라"); ("아아라야", "아우라야");
    ("아 어 라", "아우라"); ("헤이 오라", "헤이 아우라"); ("헤이 어라", "헤이 아우라"); ("해 아우라", "헤이 아우라"); ("해 오라", "헤이 아우라");
    ("이태원", "이태원"); ("잇태원", "이태원"); ("이테원", "이태원"); ("한남동", "한남동"); ("한남", "한남"); ("압구정", "압구정");
    ("압꾸정", "압구정"); ("청담동", "청담"); ("가로수길", "가로수길"); ("가로수 길", "가로수길"); ("경리단길", "경리단길"); ("경리단 길", "경리단길");
    ("망리단길", "망리단길"); ("망리단 길", "망리단길"); ("송리단길", "송리단길"); ("송리단 길", "송리단길"); ("브런치", "브런치");
    ("브런 치", "브런치"); ("부런치", "브런치"); ("애견카페", "애견카페"); ("애견 카페", "애견카페"); ("고양이카페", "고양이카페");
    ("고양이 카페", "고양이카페"); ("스터디카페", "스터디카페"); ("스터디 카페", "스터디카페"); ("북카페", "북카페"); ("북 카페", "북카페");
    ("루프탑", "루프탑"); ("루프 탑", "루프탑"); ("룹탑", "루프탑")].

Definition correct_word (result : jsstr) (rule : jsstr * jsstr) : jsstr :=
  replace_all (compile (mkRegExp rule.1 true)) rule.2 result.

Definition applyPhoneticCorrections (text : jsstr) : jsstr :=
  trim (replace_all (compile (rx "\s+")) (js " ") (foldl correct_word text PHONETIC_CORRECTIONS)).

Definition properNounPatterns : list RegExp :=
  rx <$> ["대학교"; "대학"; "고등학교"; "중학교"; "초등학교"; "회사"; "기업"; "그룹"; "주식회사"].

Definition wakePatterns : list RegExp :=
  rx <$> ["아울라"; "아우나"; "아우러"; "아오라"; "오우라"; "어우라"; "^오라"; "^어라"; "^아러"; "아으라"; "아아라"].

Definition weirdWords : RegExp := rx "성숙|캬페|마집|떡복".

Definition shouldUseLlmCorrection (text : jsstr) : bool :=
  let lowerText := to_lower text in
  if existsb (fun p => test (compile p) text) properNounPatterns then false
  else existsb (fun p => test (compile p) lowerText) wakePatterns || test (compile weirdWords) lowerText.

Definition correction_prompt (rawText : jsstr) : jsstr :=
  lines [
    js "음성인식(STT) 결과를 교정해주세요.";
    [];
    js "## 배경";
    jq "- 화상회의에서 AI 비서 `아우라`를 호출하는 음성입니다";
    jq "- 웨이크워드: `아우라야`, `헤이 아우라` 등";
    js "- 주로 장소 검색(카페, 맛집 등)이나 날씨를 물어봅니다";
    [];
    js "## 교정 규칙 (중요!)";
    js "1. 웨이크워드 오인식만 교정 (아울라야→아우라야)";
    js "2. 고유명사(학교명, 회사명, 사람이름)는 절대 변경 금지!";
    jq "3. `성숙`→`성수`처럼 명백한 오타만 교정";
    js "4. 확실하지 않으면 원본 유지";
    [];
    js "## 절대 변경하지 말 것";
    js "- 대학교 이름 (상명대, 성균관대, 한양대 등)";
    js "- 회사 이름 (크래프톤, 삼성, 네이버 등)";
    js "- 사람 이름";
    [];
    js "## 자주 오인식되는 패턴";
    jq "- `아울라야/아우나야/오우라야` → `아우라야` (한국어 발음)";
    jq "- `오라야/어라야/아러야` → `아우라야` (영어 AURA 발음)";
    jq "- `성숙` → `성수` (지역명인 경우만)";
    jq "- `캬페/카패` → `카페`";
    [];
    js "## 입력 (STT 원본)";
    jq "`" ++ rawText ++ jq "`";
    [];
    js "## 출력 규칙";
    js "1. 오인식된 단어만 교정";
    js "2. 문맥상 자연스러운 문장으로";
    js "3. 교정된 문장만 출력 (설명 없이)";
    js "4. 교정할 내용이 없으면 원본 그대로 출력";
    [];
    js "## 출력 (교정된 문장만)"].

(** [body.content?.[0]?.text] *)
Definition first_text (body : json) : option json :=
  c ← prop body (js "content");
  b ← match c with JArr (b :: _) => Some b | JObj fs => map_get fs (js "0") | _ => None end;
  prop b (js "text").

(** [corrected.replace(/^[`']|[`']$/g, '').trim()] with the double quote for the back quote *)
Definition unquote (text : jsstr) : jsstr :=
  trim (replace_all (compile (mkRegExp (jq "^[`']|[`']$") false)) [] text).

(** [answer]: the body the language model answers to the prompt, or the message of an error *)
Definition correctWithLlm (answer : jsstr -> outcome jsstr json) (rawText : jsstr) : outcome jsstr jsstr :=
  match answer (correction_prompt rawText) with
  | Throw m => Throw m
  | Return JNull => Throw (js "TypeError")
  | Return body =>
    match first_text body with
    | None | Some JNull => Return (unquote rawText)
    | Some (JStr t) => Return (unquote (match trim t with [] => rawText | t => t end))
    | Some _ => Throw (js "TypeError")
    end
  end.

Definition postProcess (answer : jsstr -> outcome jsstr json) (rawTranscript : jsstr) : jsstr :=
  match trim rawTranscript with
  | [] => rawTranscript
  | _ =>
    let corrected := applyPhoneticCorrections rawTranscript in
    if shouldUseLlmCorrection corrected then
      match correctWithLlm answer corrected with
      | Return ((_ :: _) as llmCorrected) => llmCorrected
      | _ => corrected
      end
    else corrected
  end.

(* ------------------------------------------------------------------ *)
(** ** Providers *)

Inductive SttProvider := deepgram | azure | clova | daglo.

(** [STT_PROVIDER]; unknown names are the default *)
Definition provider_of (configured : option jsstr) : SttProvider :=
  let requestedProvider := to_lower (match configured with Some ((_ :: _) as p) => p | _ => js "deepgram" end) in
  if bool_decide (requestedProvider = js "azure") then azure
  else if bool_decide (requestedProvider = js "clova") then clova
  else if bool_decide (requestedProvider = js "daglo") then daglo
  else deepgram.

(** The service: its provider and the adapters and configurations that exist *)
Record SttService := mkService { provider : SttProvider; azureSpeechConfig : bool; clovaAdapter : bool; dagloAdapter : bool }.

(** [configService.get(name)] is set and not empty *)
Definition configured (env : jsstr -> option jsstr) (name : string) : bool :=
  match env (js name) with Some (_ :: _) => true | _ => false end.

Definition construct (env : jsstr -> option jsstr) : SttService :=
  let provider := provider_of (env (js "STT_PROVIDER")) in
  match provider with
  | daglo => mkService provider false false (configured env "DAGLO_API_KEY")
  | clova => mkService provider false (configured env "CLOVA_CLIENT_SECRET") false
  | azure => mkService provider (configured env "AZURE_SPEECH_KEY") false false
  | deepgram => mkService provider false false false
  end.

Definition onModuleDestroy (s : SttService) : SttService := mkService (provider s) (azureSpeechConfig s) false false.

(** The words sent along with a request *)
Definition deepgram_keywords : list jsstr := take 100 ALL_HINTS.
Definition clova_keywords : list jsstr := take 50 ALL_HINTS.

(** How the recognition of Azure ends; only the first end counts *)
Inductive AzureEnd :=
| AzureTimeout
| RecognizedSpeech (text : jsstr)
| NoMatch
| Canceled (endOfStream : bool) (errorDetails : jsstr)
| OtherReason
| AzureError (message : jsstr).

Definition recognizeOnceAzure (s : SttService) (e : AzureEnd) : outcome jsstr jsstr :=
  if negb (azureSpeechConfig s) then Throw (js "AZURE_SPEECH_KEY is not set")
  else
    match e with
    | AzureTimeout | NoMatch | OtherReason => Return []
    | RecognizedSpeech text => Return text
    | Canceled true _ => Return []
    | Canceled false [] => Throw (js "Azure STT canceled")
    | Canceled false details => Throw details
    | AzureError m => Throw m
    end.

Definition transcribeStreamAzure (s : SttService) (chunks : list (list Z)) (e : AzureEnd) : outcome jsstr jsstr :=
  match concat chunks with [] => Return [] | _ => recognizeOnceAzure s e end.

(** Transcripts of a connection to Deepgram, until it is closed or fails *)
Definition live_transcript (transcripts : list jsstr) (failed : option jsstr) : outcome jsstr jsstr :=
  match failed with
  | Some m => Throw m
  | None => Return (join (js " ") (List.filter (fun t => negb (bool_decide (trim t = []))) transcripts))
  end.

(** What the providers answer to one utterance; [clovaStream] and [dagloStream]
    are the results of the streaming calls, each with whether it is final *)
Record SttAnswers := mkAnswers {
  deepgramFile : outcome jsstr jsstr;
  deepgramLive : list jsstr;
  deepgramFailed : option jsstr;
  azureEnd : AzureEnd;
  clovaAnswer : outcome jsstr jsstr;
  dagloAnswer : outcome jsstr jsstr;
  clovaStream : outcome jsstr (list (jsstr * bool));
  dagloStream : outcome jsstr (list (jsstr * bool))
}.

Definition transcribeFromBufferClova (s : SttService) (a : SttAnswers) : outcome jsstr jsstr :=
  if clovaAdapter s then clovaAnswer a else Throw (js "Clova STT adapter is not initialized").

Definition transcribeFromBufferDaglo (s : SttService) (a : SttAnswers) : outcome jsstr jsstr :=
  if dagloAdapter s then dagloAnswer a else Throw (js "Daglo STT adapter is not initialized").

(** The final texts that are not empty, with spaces between them *)
Definition final_texts (results : list (jsstr * bool)) : jsstr :=
  trim (join (js " ") (fst <$> List.filter (fun r => r.2 && negb (bool_decide (r.1 = []))) results)).

Definition transcribeStreamClova (s : SttService) (a : SttAnswers) : outcome jsstr jsstr :=
  if clovaAdapter s then (rs <-- clovaStream a ;; Return (final_texts rs))%aura else Throw (js "Clova STT adapter is not initialized").

Definition transcribeStreamDaglo (s : SttService) (a : SttAnswers) : outcome jsstr jsstr :=
  if dagloAdapter s then (rs <-- dagloStream a ;; Return (final_texts rs))%aura else Throw (js "Daglo STT adapter is not initialized").

Definition rawTranscribeFromBuffer (s : SttService) (a : SttAnswers) : outcome jsstr jsstr :=
  match provider s with
  | daglo => transcribeFromBufferDaglo s a
  | clova => transcribeFromBufferClova s a
  | azure => recognizeOnceAzure s (azureEnd a)
  | deepgram => deepgramFile a
  end.

Definition rawTranscribeStream (s : SttService) (a : SttAnswers) (chunks : list (list Z)) : outcome jsstr jsstr :=
  match provider s with
  | daglo => transcribeStreamDaglo s a
  | clova => transcribeStreamClova s a
  | azure => transcribeStreamAzure s chunks (azureEnd a)
  | deepgram => live_transcript (deepgramLive a) (deepgramFailed a)
  end.

Definition rawTranscribeFromBufferStream (s : SttService) (a : SttAnswers) (audioBuffer : list Z) : outcome jsstr jsstr :=
  match provider s with
  | daglo => transcribeFromBufferDaglo s a
  | clova => transcribeFromBufferClova s a
  | azure => transcribeStreamAzure s [audioBuffer] (azureEnd a)
  | deepgram => rawTranscribeStream s a [audioBuffer]
  end.

Record SttResult := mkStt { raw : jsstr; corrected : jsstr }.

Definition with_raw (answer : jsstr -> outcome jsstr json) (r : outcome jsstr jsstr) : outcome jsstr SttResult :=
  (r <-- r ;; Return (mkStt r (postProcess answer r)))%aura.

Definition transcribeFromBufferWithRaw (s : SttService) (a : SttAnswers) (answer : jsstr -> outcome jsstr json) : outcome jsstr SttResult :=
  with_raw answer (rawTranscribeFromBuffer s a).

Definition transcribeStreamWithRaw (s : SttService) (a : SttAnswers) (chunks : list (list Z)) (answer : jsstr -> outcome jsstr json)
  : outcome jsstr SttResult :=
  with_raw answer (rawTranscribeStream s a chunks).

Definition transcribeFromBufferStreamWithRaw (s : SttService) (a : SttAnswers) (audioBuffer : list Z) (answer : jsstr -> outcome jsstr json)
  : outcome jsstr SttResult :=
  with_raw answer (rawTranscribeFromBufferStream s a audioBuffer).

(* ------------------------------------------------------------------ *)
(** ** The adapter of Clova *)

Definition CHUNK_SIZE : nat := Z.to_nat 32000.

(** A message with audio: number, end of the utterance, audio *)
Record ClovaChunk := mkChunk { seqId : nat; epFlag : bool; chunk : list Z }.

(** [while (offset < audioBuffer.length)]; the fuel is the number of rounds *)
Fixpoint send_from (fuel : nat) (audioBuffer : list Z) (offset chunkCount : nat) : list ClovaChunk :=
  match fuel with
  | O => []
  | S f =>
    if (offset <? length audioBuffer)%nat then
      mkChunk (S chunkCount) (length audioBuffer <=? offset + CHUNK_SIZE)%nat (take CHUNK_SIZE (drop offset audioBuffer))
      :: send_from f audioBuffer (offset + CHUNK_SIZE) (S chunkCount)
    else []
  end.

Definition sendAudioData (audioBuffer : list Z) : list ClovaChunk := send_from (length audioBuffer) audioBuffer 0 0.

Inductive ClovaMessage :=
| ConfigReply (success : bool)
| Transcription (text : jsstr) (position : option Z) (ends : bool)
| OtherReply.

(** A call: transcripts by position, chunks written, whether it was ended by us *)
Record ClovaCall := mkCall { transcriptMap : jsmap Z jsstr; written : list ClovaChunk; ended : bool }.

Definition on_data (audioBuffer : list Z) (call : ClovaCall) (m : ClovaMessage) : ClovaCall :=
  match m with
  | ConfigReply _ => mkCall (transcriptMap call) (written call ++ sendAudioData audioBuffer) (ended call)
  | Transcription text position ends =>
    mkCall (match text with [] => transcriptMap call | _ => map_set (transcriptMap call) (default 0 position) text end)
      (written call) (ended call || ends)
  | OtherReply => call
  end.

(** [call.on('end')]: the texts in the order of their positions *)
Definition finalTranscript (m : jsmap Z jsstr) : jsstr :=
  trim (concat ((fun pos => default [] (map_get m pos)) <$> ssort Z.leb (map_keys m))).

Definition clova_transcribe (audioBuffer : list Z) (messages : list ClovaMessage) : jsstr :=
  finalTranscript (transcriptMap (foldl (on_data audioBuffer) (mkCall [] [] false) messages)).

(** [parseResponse]: every text is final *)
Definition parseResponse (m : ClovaMessage) : option (jsstr * bool) :=
  match m with Transcription text _ _ => Some (text, true) | _ => None end.

(** The generator [transcribeStream] of both adapters: what happens on the call
    between the rounds of its loop, and the rounds. [yielded] is what the caller has
    received, [finished] how the generator ended. *)
Inductive StreamEvent :=
| Results (rs : list (jsstr * bool))
| CallEnd
| CallError (message : jsstr)
| Round.

Record Stream := mkStream {
  responseQueue : list (jsstr * bool);
  isEnded : bool;
  error : option jsstr;
  yielded : list (jsstr * bool);
  finished : option (outcome jsstr (list (jsstr * bool)))
}.

Definition stream_step (st : Stream) (e : StreamEvent) : Stream :=
  match e with
  | Results rs => mkStream (responseQueue st ++ rs) (isEnded st) (error st) (yielded st) (finished st)
  | CallEnd => mkStream (responseQueue st) true (error st) (yielded st) (finished st)
  | CallError m => mkStream (responseQueue st) true (Some m) (yielded st) (finished st)
  | Round =>
    match finished st with
    | Some _ => st
    | None =>
      match responseQueue st with
      | [] =>
        if isEnded st then mkStream [] true (error st) (yielded st) (Some (Return (yielded st)))
        else match error st with
             | Some m => mkStream [] false (error st) (yielded st) (Some (Throw m))
             | None => st
             end
      | r :: rs =>
        match error st with
        | Some m => mkStream (r :: rs) (isEnded st) (error st) (yielded st) (Some (Throw m))
        | None => mkStream rs (isEnded st) None (yielded st ++ [r]) None
        end
      end
    end
  end.

Definition transcribeStream (events : list StreamEvent) : Stream := foldl stream_step (mkStream [] false None [] None) events.

(** A message of Clova as an event of its stream *)
Definition clova_event (m : ClovaMessage) : StreamEvent := Results (option_list (parseResponse m)).

(** [buildConfigMessage] *)
Definition buildConfigMessage (language : option jsstr) (keywordBoosting : list jsstr) : json :=
  JObj ([(js "transcription", JObj [(js "language", JStr (match language with Some ((_ :: _) as l) => l | _ => js "ko" end))])] ++
        match keywordBoosting with
        | [] => []
        | _ => [(js "keywordBoosting", JObj [(js "boostings", JArr [JObj [(js "words", JStr (join (js ",") keywordBoosting)); (js "weight", JNum 2)]])])]
        end).

(* ------------------------------------------------------------------ *)
(** ** The adapter of Daglo *)

Record DagloResult := mkDaglo { transcript : jsstr; is_final : bool }.

(** The responses of a call, each with its results; an error ends the call *)
Definition daglo_transcribe (responses : list (list DagloResult)) (failed : option jsstr) : outcome jsstr jsstr :=
  match failed with
  | Some m => Throw m
  | None =>
    Return (trim (join (js " ") (transcript <$> List.filter (fun r => is_final r && negb (bool_decide (transcript r = []))) (concat responses))))
  end.

(** The chunks of 32000 bytes, without numbers *)
Definition daglo_chunks (audioBuffer : list Z) : list (list Z) := chunk <$> sendAudioData audioBuffer.

(** The first message of a call *)
Definition daglo_config (language : option jsstr) (sampleRate : option Z) (interimResults : option bool) : json :=
  JObj [(js "config", JObj [
    (js "encoding", JStr (js "LINEAR16"));
    (js "sample_rate_hertz", JNum (inject_Z (match sampleRate with Some r => if r =? 0 then 16000 else r | None => 16000 end)));
    (js "language_code", JStr (match language with Some ((_ :: _) as l) => l | _ => js "ko-KR" end));
    (js "interim_results", JBool (match interimResults with Some false => false | _ => true end));
    (js "audio_channel_count", JNum 1)])].

(** The task that sends audio: chunks of the generator, each with whether the call had
    ended when it was there *)
Fixpoint daglo_send (chunks : list (list Z * bool)) : list (list Z) :=
  match chunks with
  | (chunk, false) :: chunks' => chunk :: daglo_send chunks'
  | _ => []
  end.

(** A response of Daglo as an event of its stream *)
Definition daglo_event (results : list DagloResult) : StreamEvent := Results ((fun r => (transcript r, is_final r)) <$> results).

(* ------------------------------------------------------------------ *)
(** ** Words through the corrections *)

(** Rules that leave the occurrences of a word, and rules that make no new one *)
Definition keeps (x : jsstr) (rule : jsstr * jsstr) : bool := negb (overlap x rule.1) || includes rule.2 x.
Definition makes (x : jsstr) (rule : jsstr * jsstr) : bool := overlap x rule.2.

Lemma rules_literal : Forall (fun rule : jsstr * jsstr => rule.1 <> [] /\ forallb plain rule.1 = true /\ compile (mkRegExp rule.1 true) = literal true rule.1) PHONETIC_CORRECTIONS.
Proof. cbv [PHONETIC_CORRECTIONS fmap list_fmap]. repeat (constructor; [split_and!; [discriminate|reflexivity|reflexivity]|]). constructor. Qed.

Lemma correct_word_pieces rule s :
  rule ∈ PHONETIC_CORRECTIONS -> pieces (fun g => includes g rule.1 = false) (eq rule.1) rule.2 s (correct_word s rule).
Proof.
  intros H. pose proof (proj1 (Forall_forall _ _) rules_literal _ H) as (H1 & H2 & H3). unfold correct_word. rewrite H3. by apply replace_literal.
Qed.

Lemma corrections_keep x rules s :
  rules ⊆ PHONETIC_CORRECTIONS -> forallb (keeps x) rules = true -> includes s x = true -> includes (foldl correct_word s rules) x = true.
Proof.
  revert s. induction rules as [|rule rules IH]; intros s Hsub; simpl; [done|]. intros [Hk Hks]%andb_true_iff Hx.
  apply IH; [set_solver|done|]. refine (pieces_keep _ _ _ _ _ _ (correct_word_pieces rule s _) _ Hx); [set_solver|].
  apply orb_true_iff in Hk as [Hk|Hk]; [left|by right]. intros m <-. by apply negb_true_iff.
Qed.

Lemma corrections_make_none x rules s :
  rules ⊆ PHONETIC_CORRECTIONS -> existsb (makes x) rules = false -> includes (foldl correct_word s rules) x = true -> includes s x = true.
Proof.
  revert s. induction rules as [|rule rules IH]; intros s Hsub; simpl; [done|]. intros [Hm Hms]%orb_false_iff Hx.
  apply IH in Hx; [|set_solver|done]. by apply (pieces_no_new _ _ _ _ _ _ (correct_word_pieces rule s ltac:(set_solver)) Hm Hx).
Qed.

(** Some rule removes the word, and neither it nor a later one makes it *)
Fixpoint removed (x : jsstr) (rules : list (jsstr * jsstr)) : bool :=
  match rules with
  | [] => false
  | rule :: rest => includes x rule.1 && negb (existsb (makes x) rules) || removed x rest
  end.

Lemma corrections_remove x rules s :
  rules ⊆ PHONETIC_CORRECTIONS -> removed x rules = true -> includes (foldl correct_word s rules) x = false.
Proof.
  revert s. induction rules as [|rule rules IH]; intros s Hsub; [done|]. cbn [removed foldl].
  intros [[Hx Hm%negb_true_iff]%andb_true_iff|H]%orb_true_iff; [|apply IH; [set_solver|done]]. cbn [existsb] in Hm. apply orb_false_iff in Hm as [Hm Hms].
  apply not_true_iff_false. intros Hi%corrections_make_none; [|set_solver|done].
  destruct (pieces_no_new _ _ _ _ _ _ (correct_word_pieces rule s ltac:(set_solver)) Hm Hi) as (_ & g & Hg & Hgx).
  apply not_true_iff_false in Hg. apply Hg. apply includes_spec in Hgx as (l & r & ->). apply includes_app_r, includes_app_l, Hx.
Qed.

(** White space at the end of the corrections does not touch words *)
Lemma includes_corrected x text :
  solid x = true -> includes (applyPhoneticCorrections text) x = includes (foldl correct_word text PHONETIC_CORRECTIONS) x.
Proof.
  intros Hx. unfold applyPhoneticCorrections. rewrite (includes_trim x _ Hx). apply eq_bool_prop_intro. rewrite !Is_true_true.
  change (compile (rx "\s+")) with spaces_pattern. split; intros H.
  - refine (proj1 (pieces_no_new _ _ _ _ _ _ (pieces_spaces _) _ H)). by apply overlap_spaces.
  - refine (pieces_keep _ _ _ _ _ _ (pieces_spaces _) _ H). left. intros m [Hm Hs]. by apply overlap_spaces.
Qed.

Definition correctable : list jsstr :=
  js <$> ["아울라"; "아우나"; "아우러"; "아오라"; "오우라"; "어우라"; "오라"; "어라"; "아러"; "아으라"; "아아라"; "캬페"; "마집"].

Lemma corrected_words text : Forall (fun w => includes (to_lower (applyPhoneticCorrections text)) w = false) correctable.
Proof.
  assert (forallb (fun w => solid w && forallb plain w && forallb (fun c => lower_unit c =? c) w && removed w PHONETIC_CORRECTIONS) correctable = true) as H
    by (vm_compute; reflexivity).
  rewrite forallb_forall in H. apply Forall_forall. intros w Hw%list_elem_of_In. specialize (H w Hw).
  rewrite !andb_true_iff in H. destruct H as [[[H1 H2] H3] H4]. apply not_true_iff_false. intros Hi%includes_to_lower; [|done..].
  rewrite includes_corrected in Hi by done. rewrite corrections_remove in Hi; done.
Qed.

#[local] Ltac needs_word :=
  match goal with |- exists w, _ /\ forall s, test (compile (rx ?p)) s = true -> _ =>
    let w := eval vm_compute in (match js p with c :: w => if c =? 94 then w else c :: w | [] => [] end) in
    exists w; split; [apply list_elem_of_In; vm_compute; tauto|];
    let s := fresh in intros s; rewrite <- (test_literal false w s) by reflexivity;
    first [exact (fun H => H) | exact (test_anchored _ s)]
  end.

Lemma wake_patterns_need : Forall (fun p => exists w, w ∈ correctable /\ forall s, test (compile p) s = true -> includes s w = true) wakePatterns.
Proof.
  cbn [wakePatterns fmap list_fmap]. do 11 (apply Forall_cons_2; [needs_word|]). apply Forall_nil_2.
Qed.

Lemma weird_words s : test (compile weirdWords) s = existsb (includes s) (js <$> ["성숙"; "캬페"; "마집"; "떡복"]).
Proof.
  change (compile weirdWords) with
    (RAlt (literal false (js "성숙")) (RAlt (literal false (js "캬페")) (RAlt (literal false (js "마집")) (literal false (js "떡복"))))).
  rewrite !test_alt, !test_literal by reflexivity. cbn [existsb fmap list_fmap]. by rewrite orb_false_r.
Qed.

Lemma not_corrected_further text :
  shouldUseLlmCorrection (applyPhoneticCorrections text) = true ->
  includes (applyPhoneticCorrections text) (js "성숙") = true \/ includes (applyPhoneticCorrections text) (js "떡복") = true.
Proof.
  pose proof (proj1 (Forall_forall _ _) (corrected_words text)) as Hc. unfold shouldUseLlmCorrection. cbv zeta.
  generalize dependent (applyPhoneticCorrections text). intros s Hc. destruct (existsb _ properNounPatterns); [done|].
  intros [(p & Hp & Ht)%existsb_exists|Hw]%orb_true_iff.
  - apply list_elem_of_In in Hp. destruct (proj1 (Forall_forall _ _) wake_patterns_need p Hp) as (w & Hw & Hn). apply Hn in Ht. by rewrite (Hc w Hw) in Ht.
  - rewrite weird_words in Hw. cbn [existsb fmap list_fmap] in Hw. rewrite !orb_true_iff in Hw.
    destruct Hw as [Hw|[Hw|[Hw|[Hw|Hw]]]]; [left|exfalso|exfalso|right|done].
    + by apply includes_to_lower in Hw.
    + rewrite (Hc (js "캬페")) in Hw; [done|]. apply list_elem_of_In; vm_compute; tauto.
    + rewrite (Hc (js "마집")) in Hw; [done|]. apply list_elem_of_In; vm_compute; tauto.
    + by apply includes_to_lower in Hw.
Qed.

(** A rule puts its replacement in the place of its word when the rules before
    it leave the word and the rules after it the replacement *)
Lemma word_becomes before after x y text :
  PHONETIC_CORRECTIONS = before ++ (x, y) :: after -> forallb (keeps x) before = true -> forallb (keeps y) after = true -> solid y = true ->
  includes text x = true -> includes (applyPhoneticCorrections text) y = true.
Proof.
  intros He Hb Ha Hy Hx. rewrite (includes_corrected _ _ Hy), He, foldl_app. cbn [foldl].
  apply corrections_keep; [rewrite He; set_solver|done|].
  refine (pieces_replaced _ _ _ _ _ x (correct_word_pieces (x, y) _ _) (fun g Hg => Hg) _); [rewrite He; set_solver|].
  apply corrections_keep; [rewrite He; set_solver|done|done].
Qed.

Definition rule_index : nat := default O (fst <$> list_find (fun r : jsstr * jsstr => r.1 = js "어라") PHONETIC_CORRECTIONS).

Lemma imperative_becomes_wake_word text :
  includes text (js "어라") = true -> includes (applyPhoneticCorrections text) (js "아우라") = true.
Proof.
  apply (word_becomes (take rule_index PHONETIC_CORRECTIONS) (drop (S rule_index) PHONETIC_CORRECTIONS));
    vm_compute; reflexivity.
Qed.

(* ------------------------------------------------------------------ *)
(** ** Chunks *)

Lemma send_from_chunks fuel audio offset n :
  (length audio - offset <= fuel)%nat ->
  let cs := send_from fuel audio offset n in
  concat (chunk <$> cs) = drop offset audio /\ (seqId <$> cs) = seq (S n) (length cs) /\
  Forall (fun c => 0 < length (chunk c) <= CHUNK_SIZE)%nat cs /\
  (forall i c, cs !! i = Some c -> epFlag c = (S i =? length cs)%nat).
Proof.
  revert offset n. induction fuel as [|f IH]; intros offset n Hf; cbn [send_from].
  - split_and!; [by rewrite drop_ge by lia|done|constructor|done].
  - assert (0 < CHUNK_SIZE)%nat as H0 by (unfold CHUNK_SIZE; lia). destruct (Nat.ltb_spec offset (length audio)) as [Hlt|Hge].
    2: { split_and!; [by rewrite drop_ge by lia|done|constructor|done]. }
    destruct (IH (offset + CHUNK_SIZE)%nat (S n) ltac:(lia)) as (H1 & H2 & H3 & H4).
    remember CHUNK_SIZE as K eqn:EK. clear EK. set (cs := send_from f audio (offset + K) (S n)) in *.
    cbn [fmap list_fmap concat length seq chunk seqId]. split_and!.
    + change (list_fmap _ _ chunk cs) with (chunk <$> cs). rewrite H1, <- drop_drop. apply take_drop.
    + f_equal. exact H2.
    + constructor; [|done]. cbn [chunk]. rewrite length_take, length_drop. lia.
    + intros [|i] c; cbn [lookup list_lookup].
      * intros [= <-]. cbn [epFlag]. apply (f_equal length) in H1. rewrite length_drop in H1.
        destruct cs as [|c' cs']; cbn in H1 |- *; [apply Nat.leb_le; lia|apply Nat.leb_gt].
        rewrite length_app in H1. apply Forall_cons in H3 as [H3 _]. lia.
      * intros Hi. exact (H4 i c Hi).
Qed.

Definition clova_entry (m : ClovaMessage) : option (Z * jsstr) :=
  match m with Transcription ((_ :: _) as text) position _ => Some (default 0 position, text) | _ => None end.

Lemma map_set_all {V} (m es : jsmap Z V) :
  NoDup (map_keys (m ++ es)) -> foldl (fun m e => map_set m e.1 e.2) m es = m ++ es.
Proof.
  revert m. induction es as [|[k v] es IH]; intros m Hnd; cbn [foldl]; [by rewrite app_nil_r|].
  unfold map_keys in Hnd. rewrite fmap_app in Hnd. cbn in Hnd. apply NoDup_app in Hnd as (H1 & H2 & H3).
  rewrite map_set_absent.
  2: { apply eq_None_not_Some. cbn. intros Hk%map_keys_get. apply (H2 k Hk). left. }
  rewrite IH, <- app_assoc; [done|]. unfold map_keys. rewrite <- app_assoc, fmap_app. cbn. by apply NoDup_app.
Qed.

Lemma clova_entries audio call ms :
  transcriptMap (foldl (on_data audio) call ms) = foldl (fun m e => map_set m e.1 e.2) (transcriptMap call) (omap clova_entry ms).
Proof.
  revert call. induction ms as [|m ms IH]; intros call; cbn [foldl]; [done|]. rewrite IH.
  destruct m as [b|[|c t] p e|]; done.
Qed.

Lemma finalTranscript_perm (es es' : jsmap Z jsstr) :
  NoDup (map_keys es) -> es ≡ₚ es' -> finalTranscript es = finalTranscript es'.
Proof.
  intros Hnd Hp. unfold finalTranscript. do 2 f_equal.
  assert (ssort Z.leb (map_keys es) = ssort Z.leb (map_keys es')) as ->.
  { apply (StronglySorted_unique Z.le).
    1, 2: apply (StronglySorted_weaken (fun x y => Z.leb x y = true)); [by intros x y ?%Z.leb_le|apply ssort_sorted; lia].
    rewrite !ssort_perm. by apply fmap_Permutation. }
  apply list_fmap_ext. intros i k _. f_equal. apply option_eq. intros v.
  split; intros H%map_get_elem; (apply map_elem_get; [unfold map_wf, map_keys in *|]).
  - by rewrite <- Hp.
  - by rewrite <- Hp.
  - done.
  - by rewrite Hp.
Qed.

(* ------------------------------------------------------------------ *)
(** ** Properties *)

(** C27: the audio of an utterance reaches Clova unchanged: the chunks put together
    are the audio, none is empty or larger than 32000 bytes, they are numbered from
    one, and exactly the last one carries the flag that ends the utterance. *)
Theorem audio_is_chunked (audio : list Z) :
  let cs := sendAudioData audio in
  concat (chunk <$> cs) = audio /\ (seqId <$> cs) = seq 1%nat (length cs) /\
  Forall (fun c => 0 < length (chunk c) <= CHUNK_SIZE)%nat cs /\
  (forall i c, cs !! i = Some c -> epFlag c = (S i =? length cs)%nat).
Proof. apply (send_from_chunks (length audio) audio 0 0). lia. Qed.

(** the transcript of Clova does not depend on the order in which texts at
    different positions arrive, nor on other messages between them. *)
Theorem arrival_order_is_irrelevant audio audio' messages messages' :
  NoDup (omap clova_entry messages).*1 -> omap clova_entry messages ≡ₚ omap clova_entry messages' ->
  clova_transcribe audio messages = clova_transcribe audio' messages'.
Proof.
  intros Hnd Hp. unfold clova_transcribe. rewrite !clova_entries. cbn [transcriptMap].
  rewrite !map_set_all; [by apply finalTranscript_perm|simpl; unfold map_keys; by rewrite <- Hp|done].
Qed.

Lemma arrival_order_is_irrelevant_witness :
  clova_transcribe [1; 2] [ConfigReply true; Transcription (js "알려줘") (Some 9) false; Transcription (js "날씨 ") None true] =
  clova_transcribe [] [Transcription (js "날씨 ") None false; OtherReply; Transcription (js "알려줘") (Some 9) true].
Proof.
  apply arrival_order_is_irrelevant.
  - vm_compute. repeat constructor; set_solver.
  - vm_compute. apply Permutation_swap.
Defined.

(** the corrected transcript is the one of the table of words whatever the
    language model would answer, unless it holds one of two words; the mistaken wake
    words, for which the model is meant to be asked, are all replaced before. *)
Theorem model_is_rarely_asked answer rawTranscript :
  let corrected := applyPhoneticCorrections rawTranscript in
  trim rawTranscript <> [] -> includes corrected (js "성숙") = false -> includes corrected (js "떡복") = false ->
  postProcess answer rawTranscript = corrected.
Proof.
  cbv zeta. intros Hne H1 H2. unfold postProcess. destruct (trim rawTranscript); [done|]. cbv zeta.
  destruct (shouldUseLlmCorrection _) eqn:E; [|done]. destruct (not_corrected_further _ E); congruence.
Qed.

Lemma model_is_rarely_asked_witness :
  postProcess (fun _ => Return JNull) (js "어우라야 성숙 캬페 알려줘") = js "아우라야 성수 카페 알려줘".
Proof.
  rewrite (model_is_rarely_asked (fun _ => Return JNull) (js "어우라야 성숙 캬페 알려줘")); vm_compute; done.
Defined.

(** every utterance with the two syllables of the imperative ending becomes one
    with the wake word, unless one of the two words for which the model is asked is left. *)
Theorem imperative_calls_assistant answer text :
  trim text <> [] -> includes text (js "어라") = true ->
  includes (applyPhoneticCorrections text) (js "성숙") = false -> includes (applyPhoneticCorrections text) (js "떡복") = false ->
  includes (postProcess answer text) (js "아우라") = true.
Proof.
  intros Hne Hx H1 H2. unfold postProcess. destruct (trim text); [done|]. cbv zeta.
  destruct (shouldUseLlmCorrection _) eqn:E; [|by apply imperative_becomes_wake_word].
  destruct (not_corrected_further _ E); congruence.
Qed.

Lemma imperative_calls_assistant_witness :
  isCallIntent (classify (js "그만 먹어라")) = false /\ isCallIntent (classify (postProcess (fun _ => Return JNull) (js "그만 먹어라"))) = true /\
  includes (postProcess (fun _ => Return JNull) (js "그만 먹어라")) (js "아우라") = true.
Proof.
  split_and!; [vm_compute; reflexivity|vm_compute; reflexivity|].
  apply imperative_calls_assistant; vm_compute; done.
Defined.

(** an error of the call that arrives when the caller has received every result
    so far does not reach the caller: the stream ends as if it were complete. *)
Theorem stream_error_is_lost events message :
  let st := transcribeStream events in
  responseQueue st = [] -> finished st = None ->
  finished (transcribeStream (events ++ [CallError message; Round])) = Some (Return (yielded st)).
Proof.
  cbv zeta. unfold transcribeStream. rewrite foldl_app. destruct (foldl _ _ events) as [q e er y f]. cbn. by intros -> ->.
Qed.

Lemma stream_error_is_lost_witness :
  finished (transcribeStream ([clova_event (Transcription (js "오늘") None false); Round] ++ [CallError (js "UNAVAILABLE"); Round]))
  = Some (Return [(js "오늘", true)]).
Proof. apply stream_error_is_lost; reflexivity. Defined.
