(* ===== verification/Calendar.v ===== *)
(** * Calendar

    [src/calendar/calendar.service.ts], and the calendar part of
    [src/llm/llm.service.ts]: ranges of weeks, requests to the calendar of the
    backend, and spoken requests, from whose text a date, a time and a title are
    taken.

    The current time, the offset of local time, the formats of the locale and the
    answers to requests are arguments.  [new Date(text)] is modelled on texts of the
    format the standard fixes; on other texts its result is left to the
    implementation and is an argument. *)

From Stdlib Require Import ZArith QArith Lia.
From stdpp Require Import base strings option list.
From S2P Require Import Prelude JsString Dates JsMap Json Regex IntentTables Intent.

#[local] Open Scope Z_scope.
#[local] Ltac Zify.zify_post_hook ::= Z.to_euclidean_division_equations.

(* ------------------------------------------------------------------ *)
(** ** Ranges of weeks *)

(** [n % 7 || 7] *)
Definition or_week (n : Z) : Z := if Z.rem n 7 =? 0 then 7 else Z.rem n 7.

(** [getNextWeekRange] and [getThisWeekRemaining] as instants *)
Definition next_week (tz now : Z) : Z * Z :=
  let nextMonday := setDate tz now (getDate tz now + or_week (1 + 7 - getDay tz now)) in
  let nextMonday := setHours tz nextMonday 9 0 0 0 in
  let nextFriday := setDate tz nextMonday (getDate tz nextMonday + 4) in
  let nextFriday := setHours tz nextFriday 18 0 0 0 in
  (nextMonday, nextFriday).

Definition this_week (tz now : Z) : Z * Z :=
  let timeMin := setHours tz now (getHours tz now + 1) 0 0 0 in
  let daysUntilFriday := or_week (5 - getDay tz now + 7) in
  let friday := setDate tz now (getDate tz now + daysUntilFriday) in
  let friday := setHours tz friday 18 0 0 0 in
  (timeMin, friday).

Definition getNextWeekRange (tz now : Z) : jsstr * jsstr := let '(a, b) := next_week tz now in (toISOString a, toISOString b).
Definition getThisWeekRemaining (tz now : Z) : jsstr * jsstr := let '(a, b) := this_week tz now in (toISOString a, toISOString b).

(* ------------------------------------------------------------------ *)
(** ** Requests to the backend *)

(** [d?.key || []] of the answer [d] *)
Definition field_or_empty (key : string) (d : json) : json :=
  match prop d (js key) with Some v => if json_truthy (Some v) then v else JArr [] | None => JArr [] end.

Definition find_body (userIds : list jsstr) (timeMin timeMax : jsstr) (durationMinutes : option Z) : json :=
  JObj [(js "userIds", JArr (JStr <$> userIds)); (js "timeMin", JStr timeMin); (js "timeMax", JStr timeMax);
        (js "durationMinutes", JNum (inject_Z (default 60 durationMinutes)))].

Definition findCommonFreeSlots (answer : json -> outcome jsstr json) (userIds : list jsstr) (timeMin timeMax : jsstr) (durationMinutes : option Z) : json :=
  match answer (find_body userIds timeMin timeMax durationMinutes) with
  | Return d => field_or_empty "freeSlots" d
  | Throw _ => JArr []
  end.

Definition getUserCalendarEvents (answer : outcome jsstr json) : json :=
  match answer with Return d => field_or_empty "events" d | Throw _ => JArr [] end.

Definition checkGoogleConnection (answer : outcome jsstr json) : bool :=
  match answer with Return d => match prop d (js "connected") with Some (JBool true) => true | _ => false end | Throw _ => false end.

Record AddResult := mkAdd { success : bool; message : jsstr; successCount : nat; failCount : nat }.

Definition add_failed (userIds : list jsstr) (m : jsstr) : AddResult :=
  mkAdd false (js "일정 생성에 실패했습니다: " ++ m) 0 (length userIds).

(** [results.filter((r) => r.success)]: [None] when an element is [null] *)
Definition succeeded (results : list json) : option (list bool) :=
  mapM (fun r => match r with JNull => None | _ => Some (json_truthy (prop r (js "success"))) end) results.

Definition add_body (userIds : list jsstr) (title date : jsstr) (time description : option jsstr) (durationMinutes : option Z) : json :=
  JObj ([(js "userIds", JArr (JStr <$> userIds)); (js "title", JStr title); (js "date", JStr date)]
        ++ opt_field "time" (JStr <$> time) ++ opt_field "description" (JStr <$> description)
        ++ [(js "durationMinutes", JNum (inject_Z (default 60 durationMinutes)))]).

(** [typeError] is the message of the exception when the answer has no list of results *)
Definition addEventToUsers (typeError : jsstr) (answer : json -> outcome jsstr json) (number_text : Q -> jsstr)
  (userIds : list jsstr) (title date : jsstr) (time description : option jsstr) (durationMinutes : option Z) : AddResult :=
  match answer (add_body userIds title date time description durationMinutes) with
  | Throw m => add_failed userIds m
  | Return d =>
    match field_or_empty "results" d with
    | JArr results =>
      match succeeded results with
      | None => add_failed userIds typeError
      | Some rs =>
        let successCount := length (List.filter id rs) in
        let failCount := length (List.filter negb rs) in
        let message :=
          if json_truthy (prop d (js "message")) then to_text number_text (prop d (js "message"))
          else js_of_Z (Z.of_nat successCount) ++ js "명의 캘린더에 일정이 추가되었습니다." in
        mkAdd (0 <? successCount)%nat message successCount failCount
      end
    | _ => add_failed userIds typeError
    end
  end.

Record FreeSlot := mkSlot { slot_start : jsstr; slot_end : jsstr }.

(** [localeDate] and [localeTime]: the formats of the Korean locale *)
Definition slot_line (localeDate localeTime : jsstr -> jsstr) (index : nat) (slot : FreeSlot) : jsstr :=
  js_of_Z (Z.of_nat index + 1) ++ js ". " ++ localeDate (slot_start slot) ++ js " " ++ localeTime (slot_start slot) ++ js " ~ " ++ localeTime (slot_end slot).

Definition formatFreeSlotsResponse (localeDate localeTime : jsstr -> jsstr) (freeSlots : list FreeSlot) (participantCount : Z) : jsstr :=
  match freeSlots with
  | [] =>
    js_of_Z participantCount ++
    js "명의 참여자 일정을 확인했지만, 공통으로 비어 있는 시간을 찾지 못했습니다. 개별적으로 일정을 조율해 보시는 것이 좋겠습니다."
  | _ =>
    js_of_Z participantCount ++ js "명의 참여자 일정을 분석한 결과, 다음 시간대가 모두 비어 있습니다." ++ nl ++ nl ++
    join nl (imap (slot_line localeDate localeTime) (take 5 freeSlots)) ++
    (if (5 <? length freeSlots)%nat
     then nl ++ nl ++ js "이 외에도 " ++ js_of_Z (Z.of_nat (length freeSlots) - 5) ++ js "개의 가능한 시간대가 더 있습니다." else []) ++
    nl ++ nl ++ js "원하시는 시간대가 있으시면 말씀해 주세요."
  end.

(* ------------------------------------------------------------------ *)
(** ** Spoken requests *)

Definition CALENDAR_PATTERNS : list RegExp :=
  rx <$> ["일정.*(?:잡아|추가|등록|넣어)"; "(?:잡아|추가|등록|넣어).*일정"; "캘린더.*(?:추가|등록|넣어)"; "약속.*(?:잡아|추가)";
          "(\d+)월\s*(\d+)일.*(?:잡아|추가|등록|회의|미팅)"; "(?:내일|모레|다음주).*(?:잡아|추가|등록|회의|미팅)"].

Definition RELATIVE_DATES : list (jsstr * Z) := [(js "오늘", 0); (js "내일", 1); (js "모레", 2); (js "글피", 3)].

Definition isCalendarIntent (text : jsstr) : bool := existsb (fun p => regexp_test p text) CALENDAR_PATTERNS.

(** [match[n]] as a text; the groups of these patterns take part in every match *)
Definition group (m : nat -> option jsstr) (n : nat) : jsstr := default [] (m n).
Definition group_int (m : nat -> option jsstr) (n : nat) : Z := default 0 (parse_int (group m n)).

(** A day and a month without a year: this year, or the next when it is over *)
Definition date_this_year (tz now month day : Z) : Z * Z * Z :=
  let year := getFullYear tz now in
  let target := new_Date tz year (month - 1) day in
  (if target <? now then year + 1 else year, month, day).

Definition extractDate (tz now : Z) (text : jsstr) : option jsstr :=
  match find_first (fun e : jsstr * Z => includes text e.1) RELATIVE_DATES with
  | Some (_, days) => Some (formatDate tz (setDate tz now (getDate tz now + days)))
  | None =>
    if includes text (js "다음주") || includes text (js "다음 주") then
      let daysUntilMonday := Z.rem (7 - getDay tz now) 7 + 7 in
      Some (formatDate tz (setDate tz now (getDate tz now + daysUntilMonday)))
    else
      match exec (compile (rx "(\d{4})년\s*(\d{1,2})월\s*(\d{1,2})일")) text with
      | Some m => Some (group m 1 ++ js "-" ++ pad_start 2 (group m 2) ++ js "-" ++ pad_start 2 (group m 3))
      | None =>
        match exec (compile (rx "(\d{1,2})월\s*(\d{1,2})일")) text with
        | Some m => let '(y, mo, d) := date_this_year tz now (group_int m 1) (group_int m 2) in Some (date_text y mo d)
        | None => None
        end
      end
  end.

(** [match[2] ? parseInt(match[2]) : 0] *)
Definition minute_of (m : nat -> option jsstr) : Z := match m 2%nat with Some ((_ :: _) as s) => default 0 (parse_int s) | _ => 0 end.
Definition time_text (hour minute : Z) : jsstr := padded 2 hour ++ js ":" ++ padded 2 minute.

Definition extractTime (text : jsstr) : option jsstr :=
  match exec (compile (rx "오후\s*(\d{1,2})시\s*(\d{1,2})?분?")) text with
  | Some m => let hour := group_int m 1 in Some (time_text (if hour <? 12 then hour + 12 else hour) (minute_of m))
  | None =>
    match exec (compile (rx "오전\s*(\d{1,2})시\s*(\d{1,2})?분?")) text with
    | Some m => Some (time_text (group_int m 1) (minute_of m))
    | None =>
      match exec (compile (rx "(\d{1,2})시\s*(\d{1,2})?분?")) text with
      | Some m => Some (time_text (group_int m 1) (minute_of m))
      | None =>
        match exec (compile (rx "(\d{1,2}):(\d{2})")) text with
        | Some m => Some (pad_start 2 (group m 1) ++ js ":" ++ group m 2)
        | None => None
        end
      end
    end
  end.

(** What is removed from a request to find its title, in this order *)
Definition TITLE_PATTERNS : list RegExp :=
  rx <$> ["\d{4}년\s*"; "\d{1,2}월\s*\d{1,2}일"; "오늘|내일|모레|다음주|다음 주";
          "오전\s*\d{1,2}시\s*\d*분?"; "오후\s*\d{1,2}시\s*\d*분?"; "\d{1,2}시\s*\d*분?"; "\d{1,2}:\d{2}";
          "일정\s*(?:잡아|추가|등록|넣어)(?:줘|줄래|줄 수 있어)?"; "캘린더에?\s*(?:추가|등록|넣어)(?:줘)?"; "(?:잡아|추가|등록|넣어)(?:줘)?"; "에\s*$";
          "아우라야?|헤이\s*아우라"].

Definition extractTitle (text : jsstr) : jsstr :=
  match trim (foldl (fun cleaned p => replace_all (compile p) [] cleaned) text TITLE_PATTERNS) with
  | [] => js "회의"
  | cleaned => cleaned
  end.

(** [new Date(s)] on [YYYY-MM-DDTHH:mm:ss]: local time *)
Definition two (a b : Z) : option Z := if is_digit a && is_digit b then Some (10 * (a - 48) + (b - 48)) else None.

Definition parse_datetime (s : jsstr) : option (Z * Z * Z * Z * Z * Z) :=
  match s with
  | [y1; y2; y3; y4; 45; m1; m2; 45; d1; d2; 84; h1; h2; 58; i1; i2; 58; s1; s2] =>
    yh ← two y1 y2; yl ← two y3 y4; m ← two m1 m2; d ← two d1 d2; h ← two h1 h2; i ← two i1 i2; s ← two s1 s2;
    Some (100 * yh + yl, m, d, h, i, s)
  | _ => None
  end.

Definition legal (t : Z * Z * Z * Z * Z * Z) : bool :=
  let '(y, m, d, h, i, s) := t in
  (1 <=? m) && (m <=? 12) && (1 <=? d) && (d <=? days_in_month y m) &&
  (((h <=? 23) && (i <=? 59) && (s <=? 59)) || ((h =? 24) && (i =? 0) && (s =? 0))).

(** [other]: the result on texts the standard leaves open; [None] is an invalid date *)
Definition Date_of_text (other : jsstr -> option Z) (tz : Z) (s : jsstr) : option Z :=
  match parse_datetime s with
  | Some ((y, m, d, h, i, sec) as t) =>
    if legal t then Some (instant tz (make_day y (m - 1) d) (h * 3600000 + i * 60000 + sec * 1000)) else other s
  | None => other s
  end.

Inductive EventTime := AtTime (dateTime : jsstr) | AllDay (date : jsstr).

(** The event that is inserted; [timeZone] is [Asia/Seoul] *)
Record NewEvent := mkEvent { summary : jsstr; event_start : EventTime; event_end : EventTime }.

(** [None] when [toISOString] throws *)
Definition new_event (other : jsstr -> option Z) (tz : Z) (date : jsstr) (time : option jsstr) (title : jsstr) : option NewEvent :=
  match time with
  | Some ((_ :: _) as time) =>
    let startDateTime := date ++ js "T" ++ time ++ js ":00" in
    endDate ← Date_of_text other tz startDateTime;
    let endDate := setMinutes tz endDate (getMinutes tz endDate + 60) in
    Some (mkEvent title (AtTime startDateTime) (AtTime (take 19 (toISOString endDate))))
  | _ => Some (mkEvent title (AllDay date) (AllDay date))
  end.

Definition spoken_date (date : jsstr) : jsstr :=
  match exec (compile (rx "(\d{4})-(\d{2})-(\d{2})")) date with
  | Some m => js_of_Z (group_int m 2) ++ js "월 " ++ js_of_Z (group_int m 3) ++ js "일"
  | None => date
  end.

(** [initialised]: the client of the calendar exists; [insert]: its answer to an event *)
Definition handleCalendarRequest (initialised : bool) (other : jsstr -> option Z) (insert : NewEvent -> outcome jsstr unit) (tz now : Z) (text : jsstr) : jsstr :=
  if negb initialised then js "캘린더 서비스가 초기화되지 않았습니다."
  else
    match extractDate tz now text with
    | None => jq "날짜를 인식하지 못했습니다. `1월 15일` 또는 `내일` 같은 형식으로 말씀해주세요."
    | Some date =>
      let time := extractTime text in
      let title := extractTitle text in
      match new_event other tz date time title with
      | None => js "일정 추가에 실패했습니다: Invalid time value"
      | Some event =>
        match insert event with
        | Throw m => js "일정 추가에 실패했습니다: " ++ m
        | Return _ =>
          jq "네, `" ++ title ++ jq "` 일정을 " ++ spoken_date date ++
          match time with Some ((_ :: _) as t) => js " " ++ t | _ => [] end ++ js "에 추가했습니다."
        end
      end
    end.

(* ------------------------------------------------------------------ *)
(** ** Lemmas *)

Definition calendar_patterns : list RegExp :=
  CALENDAR_PATTERNS ++ TITLE_PATTERNS ++
  (rx <$> ["(\d{4})년\s*(\d{1,2})월\s*(\d{1,2})일"; "(\d{1,2})월\s*(\d{1,2})일"; "오후\s*(\d{1,2})시\s*(\d{1,2})?분?";
           "오전\s*(\d{1,2})시\s*(\d{1,2})?분?"; "(\d{1,2})시\s*(\d{1,2})?분?"; "(\d{1,2}):(\d{2})"; "(\d{4})-(\d{2})-(\d{2})"]).

Example calendar_patterns_parse : forallb compiles calendar_patterns = true.
Proof. vm_compute. done. Qed.

Example requests_ex :
  let now := 1767657845123 in
  extractDate 32400000 now (js "3월 5일 오후 2시 30분에 기획 회의 일정 잡아줘") = Some (js "2026-03-05") /\
  extractTime (js "3월 5일 오후 2시 30분에 기획 회의 일정 잡아줘") = Some (js "14:30") /\
  extractTitle (js "3월 5일 오후 2시 30분에 기획 회의 일정 잡아줘") = js "에 기획 회의" /\
  extractTime (js "오전 12시") = Some (js "12:00") /\
  extractDate 32400000 now (js "다음주 회의 잡아줘") = Some (js "2026-01-18") /\
  extractDate 32400000 now (js "1월 6일 회의 잡아줘") = Some (js "2027-01-06") /\
  getNextWeekRange 32400000 now = (js "2026-01-12T00:00:00.000Z", js "2026-01-16T09:00:00.000Z").
Proof. vm_compute. done. Qed.

Lemma getDay_range tz t : 0 <= getDay tz t < 7.
Proof. unfold getDay, week_day. lia. Qed.

(** The number of days to the next day of the week [w], from one to seven *)
Lemma or_week_spec w day :
  0 <= w < 7 -> let n := or_week (w + 7 - week_day day) in 1 <= n <= 7 /\ week_day (day + n) = w.
Proof.
  intros Hw. cbv zeta. unfold or_week, week_day. set (d := (day + 4) mod 7). assert (0 <= d < 7) by (subst d; lia).
  assert ((day + 4) = 7 * ((day + 4) / 7) + d) by (subst d; lia). destruct (Z.eqb_spec (Z.rem (w + 7 - d) 7) 0); lia.
Qed.

Lemma day_start tz t h : 0 <= h < 24 -> setHours tz t h 0 0 0 = instant tz (local_day tz t) (h * 3600000).
Proof. intros _. unfold setHours. f_equal. lia. Qed.

(** The start and end of the next week, by local days *)
Lemma next_week_days tz now :
  let n := or_week (1 + 7 - getDay tz now) in
  next_week tz now = (instant tz (local_day tz now + n) (9 * 3600000), instant tz (local_day tz now + n + 4) (18 * 3600000)).
Proof.
  cbv zeta. unfold next_week. cbv zeta. rewrite setDate_add, (day_start tz _ 9), local_day_add by lia. set (monday := local_day tz now + _).
  rewrite setDate_add, (day_start tz _ 18), local_day_add, local_day_instant by lia. rewrite Z.div_small by (unfold MS_PER_DAY; lia). by rewrite Z.add_0_r.
Qed.

Lemma this_week_days tz now :
  let n := or_week (5 - getDay tz now + 7) in
  this_week tz now = (instant tz (local_day tz now) ((getHours tz now + 1) * 3600000), instant tz (local_day tz now + n) (18 * 3600000)).
Proof.
  cbv zeta. unfold this_week. cbv zeta. rewrite setDate_add, (day_start tz _ 18), local_day_add by lia. do 2 f_equal. unfold setHours. f_equal. lia.
Qed.

(** The text of the date of a local day *)
Definition day_text (day : Z) : jsstr := let '(y, m, d) := civil day in date_text y m d.

Lemma formatDate_add tz now n : formatDate tz (setDate tz now (getDate tz now + n)) = day_text (local_day tz now + n).
Proof.
  rewrite setDate_add. unfold formatDate, getFullYear, month_of, getDate, day_text. rewrite local_day_add.
  by destruct (civil _) as [[y m] d].
Qed.

(** Every day of the next year is to come *)
Lemma year_over tz now month day :
  1 <= month <= 12 -> 1 <= day -> now <= new_Date tz (getFullYear tz now + 1) (month - 1) day.
Proof.
  intros Hm Hd. pose proof (days_civil (local_day tz now)) as Hc. unfold getFullYear. destruct (civil (local_day tz now)) as [[y m] d]. cbn [fst snd].
  destruct Hc as (Hc & Hm' & Hd'). pose proof (year_bounds y m Hm'). pose proof (year_bounds (y + 1) month Hm).
  pose proof (instant_local tz now) as Hnow. pose proof (time_in_day_range tz now). unfold new_Date, instant, make_day, MS_PER_DAY in *.
  replace (m - 1) with (0 * 12 + (m - 1)) in Hc by lia. replace (month - 1) with (0 * 12 + (month - 1)) by lia.
  assert (forall k, 1 <= k <= 12 -> (0 * 12 + (k - 1)) / 12 = 0 /\ (0 * 12 + (k - 1)) mod 12 + 1 = k) as K by (intros; split; lia).
  destruct (K m Hm') as [E1 E2], (K month Hm) as [E3 E4]. rewrite E1, E2, Z.add_0_r in Hc. rewrite E3, E4, !Z.add_0_r. clear K E1 E2 E3 E4.
  generalize dependent (days_from_month y m). generalize dependent (days_from_month (y + 1) month). generalize (days_from_month (y + 1 + 1) 1) (days_from_month y 1) (days_from_month (y + 1) 1).
  intros. lia.
Qed.

(** The event of a legal date and time, and what its end says *)
Lemma new_event_end other tz date time title t :
  time <> [] -> parse_datetime (date ++ js "T" ++ time ++ js ":00") = Some t -> legal t = true ->
  exists start,
    Date_of_text other tz (date ++ js "T" ++ time ++ js ":00") = Some start /\
    new_event other tz date (Some time) title
    = Some (mkEvent title (AtTime (date ++ js "T" ++ time ++ js ":00")) (AtTime (take 19 (toISOString (start + 3600000))))).
Proof.
  intros Hne Hp Hl. unfold new_event, Date_of_text. destruct time as [|c time]; [done|]. rewrite Hp. destruct t as [[[[[y m] d] h] i] s]. rewrite Hl.
  eexists. split; [done|]. cbn [mbind option_bind]. do 4 f_equal. f_equal. set (t := instant tz _ _).
  pose proof (instant_local tz t) as Ht. pose proof (time_in_day_range tz t).
  unfold setMinutes, getHours, getMinutes, instant in *. lia.
Qed.

(* ------------------------------------------------------------------ *)
(** ** Properties *)

(** the range for the next week starts at nine on the Monday one to seven days
    ahead, and ends at six in the evening of the Friday after it, in local time and
    over the ends of months and years. *)
Theorem next_week_is_monday_to_friday tz now :
  exists monday,
    local_day tz now + 1 <= monday <= local_day tz now + 7 /\ week_day monday = 1 /\ week_day (monday + 4) = 5 /\
    getNextWeekRange tz now = (toISOString (instant tz monday (9 * 3600000)), toISOString (instant tz (monday + 4) (18 * 3600000))).
Proof.
  exists (local_day tz now + or_week (1 + 7 - getDay tz now)). destruct (or_week_spec 1 (local_day tz now)) as [H1 H2]; [lia|].
  unfold getNextWeekRange. rewrite next_week_days. unfold getDay in *. split_and!; [lia|lia|done| |done].
  unfold week_day in *. lia.
Qed.

(** the range for the rest of the week is never empty; it begins at the next
    full hour and ends on a Friday after today, which on Fridays is that of the
    next week. *)
Theorem rest_of_week_is_not_empty tz now :
  let '(timeMin, timeMax) := this_week tz now in
  getThisWeekRemaining tz now = (toISOString timeMin, toISOString timeMax) /\
  now < timeMin <= now + 3600000 /\ timeMin < timeMax /\ week_day (local_day tz timeMax) = 5 /\
  (getDay tz now = 5 -> local_day tz timeMax = local_day tz now + 7).
Proof.
  unfold getThisWeekRemaining. rewrite this_week_days. cbv zeta. destruct (or_week_spec 5 (local_day tz now)) as [H1 H2]; [lia|].
  replace (5 - getDay tz now + 7) with (5 + 7 - week_day (local_day tz now)) by (unfold getDay; lia).
  rewrite local_day_instant, Z.div_small by (unfold MS_PER_DAY; lia). rewrite Z.add_0_r. pose proof (time_in_day_range tz now) as Ht.
  pose proof (instant_local tz now) as Hnow. set (n := or_week _) in *. unfold instant, getHours, MS_PER_DAY in *.
  split_and!; [done|lia|lia|lia|done|]. intros Hd. subst n. unfold getDay in Hd. rewrite Hd. reflexivity.
Qed.

(** a spoken request for the next week is entered on a Sunday, seven to
    thirteen days ahead; the code means its Monday. *)
Theorem next_week_request_is_sunday tz now text :
  Forall (fun e : jsstr * Z => includes text e.1 = false) RELATIVE_DATES ->
  includes text (js "다음주") = true \/ includes text (js "다음 주") = true ->
  exists day, extractDate tz now text = Some (day_text day) /\ week_day day = 0 /\ local_day tz now + 7 <= day <= local_day tz now + 13.
Proof.
  intros Hno Hweek. unfold extractDate.
  assert (find_first (fun e : jsstr * Z => includes text e.1) RELATIVE_DATES = None) as ->.
  { unfold RELATIVE_DATES in *. rewrite !Forall_cons in Hno. destruct Hno as (H1 & H2 & H3 & H4 & _). cbn [find_first fst] in *. by rewrite H1, H2, H3, H4. }
  assert (includes text (js "다음주") || includes text (js "다음 주") = true) as -> by (apply orb_true_iff; exact Hweek).
  cbv zeta. rewrite formatDate_add. eexists. split; [done|]. unfold getDay, week_day. lia.
Qed.

Lemma next_week_request_is_sunday_witness :
  exists day, extractDate 32400000 1767657845123 (js "다음주 회의 잡아줘") = Some (day_text day) /\ week_day day = 0 /\ 20459 + 7 <= day <= 20459 + 13.
Proof.
  apply (next_week_request_is_sunday 32400000 1767657845123 (js "다음주 회의 잡아줘")).
  - unfold RELATIVE_DATES. repeat constructor.
  - left. reflexivity.
Defined.

(** a month and a day without a year are read as the next time that day begins:
    this year when its midnight is not over, else, also on the day itself, the next
    year; the day that is entered has not begun. *)
Theorem spoken_day_is_ahead tz now month day :
  1 <= month <= 12 -> 1 <= day ->
  let '(y, m, d) := date_this_year tz now month day in
  m = month /\ d = day /\ now <= new_Date tz y (month - 1) day /\
  (y = getFullYear tz now \/ y = getFullYear tz now + 1 /\ new_Date tz (getFullYear tz now) (month - 1) day < now).
Proof.
  intros Hm Hd. unfold date_this_year. cbv zeta.
  destruct (Z.ltb_spec (new_Date tz (getFullYear tz now) (month - 1) day) now); split_and!; try done; [|by right|by left].
  apply (year_over tz now month day); done.
Qed.

Lemma spoken_day_is_ahead_witness :
  date_this_year 32400000 1767657845123 1 6 = (2027, 1, 6) /\ 1767657845123 <= new_Date 32400000 2027 0 6.
Proof.
  split; [vm_compute; reflexivity|].
  exact (proj1 (proj2 (proj2 (spoken_day_is_ahead 32400000 1767657845123 1 6 ltac:(lia) ltac:(lia))))).
Defined.

(** the end of a spoken event is written in UTC and read in Korean time, as its
    start is: it is an hour after the start only where local time is UTC, and before
    the start where local time is Korean. *)
Theorem event_ends_by_offset other tz date time title t :
  time <> [] -> parse_datetime (date ++ js "T" ++ time ++ js ":00") = Some t -> legal t = true ->
  exists startUtc,
    Date_of_text other 0 (date ++ js "T" ++ time ++ js ":00") = Some startUtc /\
    new_event other tz date (Some time) title
    = Some (mkEvent title (AtTime (date ++ js "T" ++ time ++ js ":00")) (AtTime (take 19 (toISOString (startUtc + 3600000 - tz))))).
Proof.
  intros Hne Hp Hl. destruct (new_event_end other tz date time title t Hne Hp Hl) as (start & Hs & ->).
  unfold Date_of_text in *. rewrite Hp in *. destruct t as [[[[[y m] d] h] i] s]. rewrite Hl in *. injection Hs as <-.
  eexists. split; [done|]. do 5 f_equal. unfold instant. lia.
Qed.

Lemma event_ends_by_offset_witness :
  new_event (fun _ => None) 32400000 (js "2026-03-05") (Some (js "14:30")) (js "회의")
  = Some (mkEvent (js "회의") (AtTime (js "2026-03-05T14:30:00")) (AtTime (js "2026-03-05T06:30:00"))).
Proof.
  destruct (event_ends_by_offset (fun _ => None) 32400000 (js "2026-03-05") (js "14:30") (js "회의") (2026, 3, 5, 14, 30, 0)) as (u & Hu & H).
  - discriminate.
  - reflexivity.
  - reflexivity.
  - vm_compute in Hu. injection Hu as <-. rewrite H. vm_compute. reflexivity.
Defined.
