(* ===== verification/Search.v ===== *)
(** * Search

    [src/llm/search.service.ts]: what to search for in a request of a user, the
    search itself with its cache, and what is made of the answers of the search
    engine.

    Answers of the engine are taken at the types of its protocol; they and the
    timeout of a search are arguments.  A search is split at its wait, so that
    searches overlap on the cache. *)

From Stdlib Require Import ZArith Lia.
From stdpp Require Import base strings option sets list.
From S2P Require Import Prelude JsString Utf8 JsMap Records Regex Substitution IntentTables.

#[local] Open Scope Z_scope.

(* ------------------------------------------------------------------ *)
(** ** [encodeURIComponent] *)

Definition unreserved (c : Z) : bool :=
  ((48 <=? c) && (c <=? 57)) || ((65 <=? c) && (c <=? 90)) || ((97 <=? c) && (c <=? 122)) ||
  existsb (Z.eqb c) [45; 95; 46; 33; 126; 42; 39; 40; 41].

(** Code points; [None] for a surrogate without its partner *)
Fixpoint code_point_list (s : jsstr) : option (list Z) :=
  match s with
  | [] => Some []
  | c :: s' =>
    if (55296 <=? c) && (c <=? 56319) then
      match s' with
      | d :: s'' => if (56320 <=? d) && (d <=? 57343) then cons (65536 + (c - 55296) * 1024 + (d - 56320)) <$> code_point_list s'' else None
      | [] => None
      end
    else if (56320 <=? c) && (c <=? 57343) then None
    else cons c <$> code_point_list s'
  end.

Definition hex (n : Z) : Z := if n <? 10 then 48 + n else 55 + n.
Definition percent (b : Z) : jsstr := [37; hex (b / 16); hex (b mod 16)].

Definition encodeURIComponent (s : jsstr) : outcome jsstr jsstr :=
  match code_point_list s with
  | None => Throw (js "URI malformed")
  | Some cs => Return (cs ≫= fun c => if (c <? 128) && unreserved c then [c] else encode c ≫= percent)
  end.

Example encode_ex : encodeURIComponent (js "강남 A-1") = Return (js "%EA%B0%95%EB%82%A8%20A-1").
Proof. vm_compute. done. Qed.

(* ------------------------------------------------------------------ *)
(** ** Tables *)

Inductive SearchType := local | news | web | encyc | hybrid | none.

Definition type_name (t : SearchType) : jsstr :=
  js match t with local => "local" | news => "news" | web => "web" | encyc => "encyc" | hybrid => "hybrid" | none => "none" end.

Definition SEARCH_TIMEOUT_MS : Z := 4000.
Definition SEARCH_CACHE_TTL_MS : Z := 5 * 60 * 1000.

Definition MEANINGLESS_KEYWORDS : list jsstr :=
  js <$> ["어"; "음"; "그"; "저"; "아"; "응"; "네"; "예"; "뭐"; "야"; "."; ".."; "..."; "?"; "!"; ","].

Definition GREETING_KEYWORDS : list jsstr :=
  js <$> ["안녕"; "안녕하세요"; "안녕하십니까"; "반가워"; "반갑습니다"; "하이"; "헬로"; "굿모닝"; "굿나잇"; "좋은 아침"; "좋은 저녁"; "좋은 하루";
          "수고"; "수고해"; "수고하세요"; "고마워"; "고맙습니다"; "감사합니다"; "잘자"; "잘가"; "바이"; "바이바이"; "또봐"; "다음에"].

Definition CATEGORY_KEYWORDS : list (jsstr * list jsstr * SearchType) :=
  (fun e : string * list string * SearchType => (js e.1.1, js <$> e.1.2, e.2)) <$> [
   ("카페", ["카페"; "커피"; "커피숍"; "카페테리아"; "스타벅스"; "투썸"; "이디야"; "할리스"; "블루보틀"; "카공"], local);
   ("맛집", ["맛집"; "식당"; "레스토랑"; "밥집"; "음식점"; "맛있는"; "먹을만한"; "저녁"; "점심"; "아침"; "브런치"], local);
   ("술집", ["술집"; "바"; "포차"; "호프"; "이자카야"; "와인바"; "칵테일"; "소주"; "맥주"; "회식"], local);
   ("분식", ["분식"; "떡볶이"; "김밥"; "라면"; "튀김"; "순대"; "어묵"], local);
   ("치킨", ["치킨"; "BBQ"; "BHC"; "교촌"; "굽네"; "네네"; "페리카나"], local);
   ("피자", ["피자"; "도미노"; "피자헛"; "파파존스"; "미스터피자"], local);
   ("빵집", ["빵집"; "베이커리"; "제과점"; "빵"; "케이크"; "파리바게뜨"; "뚜레쥬르"; "성심당"], local);
   ("디저트", ["디저트"; "케이크"; "마카롱"; "아이스크림"; "젤라또"; "와플"; "크로플"; "타르트"], local);
   ("쇼핑", ["쇼핑"; "백화점"; "마트"; "아울렛"; "몰"; "매장"; "가게"; "상점"], local);
   ("팝업", ["팝업"; "팝업스토어"; "팝업 스토어"; "한정"; "오픈"], local);
   ("전시", ["전시"; "전시회"; "갤러리"; "미술관"; "박물관"; "아트"], local);
   ("날씨", ["날씨"; "기온"; "온도"; "비"; "눈"; "바람"; "흐림"; "맑음"; "습도"; "미세먼지"; "우산"; "더워"; "추워"; "덥"; "춥"; "기상"; "일기예보"], news);
   ("뉴스", ["뉴스"; "소식"; "기사"; "속보"; "이슈"; "사건"; "사고"], news);
   ("주식", ["주식"; "주가"; "코스피"; "코스닥"; "나스닥"; "증시"; "투자"; "종목"], news);
   ("스포츠", ["스포츠"; "축구"; "야구"; "농구"; "배구"; "경기"; "결과"; "스코어"; "승패"], news);
   ("영화", ["영화"; "개봉"; "상영"; "박스오피스"; "영화관"; "CGV"; "롯데시네마"; "메가박스"], news);
   ("백과", ["무엇인가"; "정의"; "의미"; "개념"; "역사"; "원리"; "효능"; "효과"; "부작용"; "성분"; "알려줘"; "설명해"], encyc)].

Definition HYBRID_CATEGORIES : list jsstr := js <$> ["팝업"; "전시"; "영화"].

Definition LLM_ANSWERABLE_PATTERNS : list RegExp :=
  rx <$> ["노래.*(추천|알려|뭐|좋아)"; "음악.*(추천|알려|뭐|좋아)"; "책.*(추천|알려|뭐)"; "드라마.*(추천|알려)"; "게임.*(추천|알려)"; "운동.*(추천|알려|방법)";
          "어떻게.*생각"; ".*에 대해.*어떻게"; ".*란\s*뭐"; ".*가\s*뭐야"; ".*이\s*뭐야"; "뭐.*할까"; "심심한데"; "재밌는\s*(거|것|이야기)"; "농담|유머|웃긴"].

Definition LOCATIONS : list jsstr :=
  js <$> ["서울"; "부산"; "대구"; "인천"; "광주"; "대전"; "울산"; "세종"; "경기"; "강원"; "충북"; "충남"; "전북"; "전남"; "경북"; "경남"; "제주";
          "강남"; "홍대"; "신촌"; "잠실"; "여의도"; "판교"; "성수"; "이태원"; "명동"; "종로"; "압구정"; "청담"; "삼성"; "역삼"; "선릉"; "건대";
          "합정"; "망원"; "연남"; "을지로"; "성북"; "혜화"; "대학로"; "분당"; "일산"; "수원"; "용인"; "화성"; "평택"; "안양"; "부천"].

(* ------------------------------------------------------------------ *)
(** ** The plan of a search *)

Definition replace (pattern : string) (c : jsstr) (s : jsstr) : jsstr := replace_all (compile (rx pattern)) c s.

Definition normalizeSearchQuery (rawQuery : jsstr) : jsstr :=
  let s := trim rawQuery in
  let s := replace_all (compile (rxi "^(아우라야?|헤이\s*아우라|아울라야?|아우나야?|오우라야?)\s*")) [] s in
  let s := replace "^(와|과|그리고|또|좀|아|어|야)\s+" [] s in
  let s := replace "\b(추천해줘|추천해 줘|알려줘|알려 줘|찾아줘|찾아 줘|보여줘|보여 줘)\b" [] s in
  trim (replace "\s+" (js " ") s).

Definition extractLocation (text : jsstr) : option jsstr := find_first (includes text) LOCATIONS.

Definition isMeaninglessQuery (query : jsstr) : bool :=
  match trim query with
  | [] => true
  | trimmed =>
    negb (existsb (fun word => let cleaned := replace "[.,?!]" [] word in
                               negb (bool_decide (cleaned = [])) && negb (bool_decide (cleaned ∈ MEANINGLESS_KEYWORDS)))
            (split_ws trimmed))
  end.

Definition isGreeting (query : jsstr) : bool :=
  let trimmed := to_lower (trim query) in
  existsb (fun g => bool_decide (trimmed = g) || bool_decide (trimmed = g ++ js "요") || bool_decide (trimmed = g ++ js "용")) GREETING_KEYWORDS
  || ((length trimmed <=? 5)%nat && existsb (starts_with trimmed) GREETING_KEYWORDS).

Record SearchPlan := mkPlan { query : jsstr; cacheKey : jsstr; searchType : SearchType; category : option jsstr }.

Definition no_search : SearchPlan := mkPlan [] [] none None.

(** The first keyword that occurs, with its category and type *)
Definition match_category (lowerBase : jsstr) : option (jsstr * jsstr * SearchType) :=
  first_some (fun e : jsstr * list jsstr * SearchType =>
    (fun keyword => (e.1.1, keyword, e.2)) <$> find_first (fun keyword => includes lowerBase (to_lower keyword)) e.1.2) CATEGORY_KEYWORDS.

Definition is_korean (c : Z) : bool := (44032 <=? c) && (c <=? 55203).

Definition timeWord (base : jsstr) : jsstr :=
  if includes base (js "내일") then js "내일"
  else if includes base (js "모레") then js "모레"
  else if includes base (js "이번주") then js "이번주" else js "오늘".

Definition without_particles (base : jsstr) : jsstr := replace "[을를이가은는에서의으로]" (js " ") base.

Definition plan_key (t : SearchType) (q : jsstr) : jsstr := type_name t ++ js "|" ++ q.

Definition web_plan (base : jsstr) : SearchPlan :=
  let cleanedQuery := trim (replace "\s+" (js " ") (replace "알려줘|추천해줘|찾아줘|검색해줘|에 대해|대해서" [] (without_particles base))) in
  if isMeaninglessQuery cleanedQuery then no_search
  else if isGreeting cleanedQuery then no_search
  else if (length (List.filter is_korean cleanedQuery) <? 2)%nat then no_search
  else mkPlan cleanedQuery (js "web|" ++ cleanedQuery) web (Some (js "일반")).

Definition category_plan (base matchedCategory matchedKeyword : jsstr) (baseSearchType : SearchType) : SearchPlan :=
  let location := extractLocation base in
  let searchType := if bool_decide (matchedCategory ∈ HYBRID_CATEGORIES) then hybrid else baseSearchType in
  let query :=
    if bool_decide (matchedCategory = js "날씨") then default (js "서울") location ++ js " " ++ timeWord base ++ js " 날씨"
    else
      match searchType with
      | local | hybrid => default (js "서울") location ++ js " " ++ matchedCategory
      | _ =>
        match trim (replace "\s+" (js " ") (replace "알려줘|추천해줘|찾아줘|검색해줘" [] (without_particles base))) with
        | [] => matchedKeyword
        | q => q
        end
      end in
  mkPlan query (plan_key searchType query) searchType (Some matchedCategory).

Definition buildSearchPlan (rawQuery : jsstr) : SearchPlan :=
  let base := match normalizeSearchQuery rawQuery with [] => trim rawQuery | b => b end in
  let lowerBase := to_lower base in
  let hasLocation := existsb (fun loc => includes lowerBase (to_lower loc)) LOCATIONS in
  if negb hasLocation && existsb (fun p => regexp_test p lowerBase) LLM_ANSWERABLE_PATTERNS then no_search
  else
    match match_category lowerBase with
    | None => web_plan base
    | Some (matchedCategory, matchedKeyword, baseSearchType) => category_plan base matchedCategory matchedKeyword baseSearchType
    end.

(* ------------------------------------------------------------------ *)
(** ** Answers of the search engine *)

Record SearchResult := mkResult {
  title : jsstr;
  url : jsstr;
  content : jsstr;
  address : option jsstr;
  roadAddress : option jsstr;
  mapx : option jsstr;
  mapy : option jsstr;
  placeId : option jsstr;
  mapUrl : option jsstr;
  newsHighlight : option jsstr
}.

#[export] Instance SearchResult_eta : Eta _ :=
  fun r => mkResult (title r) (url r) (content r) (address r) (roadAddress r) (mapx r) (mapy r) (placeId r) (mapUrl r) (newsHighlight r).

(** An item of an answer; a field that is missing is empty *)
Record NaverItem := mkItem {
  item_title : jsstr; item_link : jsstr; item_originallink : jsstr; item_description : jsstr;
  item_roadAddress : jsstr; item_address : jsstr; item_mapx : jsstr; item_mapy : jsstr; item_id : jsstr
}.

Definition stripHtml (text : jsstr) : jsstr :=
  replace "&amp;" (js "&") (replace "&quot;" dq (replace "<[^>]+>" [] text)).

(** [a || b] and [a || undefined] on texts *)
Definition or_text (a b : jsstr) : jsstr := match a with [] => b | _ => a end.
Definition text_opt (a : jsstr) : option jsstr := match a with [] => None | _ => Some a end.

Definition item_result (type : SearchType) (item : NaverItem) : outcome jsstr SearchResult :=
  let title := stripHtml (item_title item) in
  let description := stripHtml (item_description item) in
  let is_local := match type with local => true | _ => false end in
  (mapUrl <-- (if is_local && negb (bool_decide (title = []))
               then (t <-- encodeURIComponent title ;; Return (js "https://map.naver.com/v5/search/" ++ t))%aura else Return []) ;;
   Return (mkResult title (or_text (item_link item) (item_originallink item))
     (if is_local then or_text (item_roadAddress item) (or_text (item_address item) description) else description)
     (text_opt (item_address item)) (text_opt (item_roadAddress item)) (text_opt (item_mapx item)) (text_opt (item_mapy item))
     (text_opt (item_id item)) (text_opt mapUrl) None))%aura.

Fixpoint all_results (type : SearchType) (items : list NaverItem) : outcome jsstr (list SearchResult) :=
  match items with
  | [] => Return []
  | i :: items' => (r <-- item_result type i ;; rs <-- all_results type items' ;; Return (r :: rs))%aura
  end.

Inductive Sort := date | comment.

(** [keys]: the keys of the engine are configured; [answer]: its answer *)
Definition searchWithNaver (keys : bool) (answer : jsstr -> SearchType -> nat -> Sort -> outcome jsstr (list NaverItem))
  (query : jsstr) (type : SearchType) (display : nat) (sort : Sort) : outcome jsstr (list SearchResult) :=
  if keys then (items <-- answer query type display sort ;; all_results type items)%aura else Return [].

Definition highlight_patterns : list RegExp :=
  rx <$> ["(\d{1,2}월\s*\d{1,2}일까지)"; "(\d{1,2}월\s*\d{1,2}일부터\s*\d{1,2}월\s*\d{1,2}일까지)"; "(\d+일까지)"; "(\d{1,2}월\s*\d{1,2}일)"; "(이번\s*주|이번\s*달|올해)"].

Definition extractNewsHighlight (newsResult : SearchResult) : option jsstr :=
  match first_some (fun p => exec (compile p) (content newsResult)) highlight_patterns with
  | Some m => m 1%nat
  | None => text_opt (trim (take 50 (content newsResult)))
  end.

Definition mergeHybridResults (newsResults localResults : list SearchResult) : list SearchResult :=
  let merged :=
    match localResults with
    | primary :: _ =>
      let highlight := match newsResults with n :: _ => extractNewsHighlight n | [] => None end in
      [primary <| newsHighlight := highlight ≫= text_opt |>]
    | [] => []
    end in
  let merged := foldl (fun merged news => if existsb (fun m => bool_decide (title m = title news)) merged then merged else merged ++ [news])
                      merged (take 1 newsResults) in
  take 3 merged.

(** [timeout]: the timeout of the search is first *)
Definition executeSearch (timeout keys : bool) (answer : jsstr -> SearchType -> nat -> Sort -> outcome jsstr (list NaverItem))
  (query : jsstr) (searchType : SearchType) : outcome jsstr (list SearchResult) :=
  if timeout then Throw (js "Search timeout")
  else
    match searchType with
    | hybrid =>
      (newsResults <-- searchWithNaver keys answer query news 2 date ;;
       localResults <-- searchWithNaver keys answer query local 2 comment ;;
       Return (mergeHybridResults newsResults localResults))%aura
    | _ =>
      let sort := match searchType with local => comment | _ => date end in
      (results <-- searchWithNaver keys answer query searchType 3 sort ;; Return (take 3 results))%aura
    end.

(* ------------------------------------------------------------------ *)
(** ** The cache *)

Record CacheEntry := mkEntry { expiresAt : Z; results : list SearchResult }.
Abbreviation Cache := (jsmap jsstr CacheEntry).

Definition getCachedSearch (now : Z) (cache : Cache) (key : jsstr) : Cache * option (list SearchResult) :=
  match map_get cache key with
  | Some e => if expiresAt e <? now then (map_delete cache key, None) else (cache, Some (results e))
  | None => (map_delete cache key, None)
  end.

Definition setCachedSearch (now : Z) (cache : Cache) (key : jsstr) (rs : list SearchResult) : Cache :=
  map_set cache key (mkEntry (now + SEARCH_CACHE_TTL_MS) rs).

(** [search] up to its wait: the results when there is nothing to wait for *)
Definition search_begin (now : Z) (cache : Cache) (query : jsstr) (searchType : SearchType) : Cache * option (list SearchResult) :=
  match searchType with none => (cache, Some []) | _ => getCachedSearch now cache (plan_key searchType query) end.

(** [search] after its wait *)
Definition search_end (now : Z) (cache : Cache) (query : jsstr) (searchType : SearchType) (o : outcome jsstr (list SearchResult))
  : Cache * list SearchResult :=
  match o with
  | Return rs => (setCachedSearch now cache (plan_key searchType query) rs, rs)
  | Throw _ => (cache, [])
  end.

(** Searches of the program on one cache: a call, and the answer to the [i]-th
    search that waits.  What was answered and returned is recorded. *)
Record Searches := mkSearches {
  cache : Cache;
  waiting : list (jsstr * SearchType);
  answered : list (Z * jsstr * SearchType * list SearchResult);
  returned : list (Z * jsstr * SearchType * list SearchResult)
}.

Inductive SearchEvent :=
| Ask (now : Z) (q : jsstr) (t : SearchType)
| Answer (now : Z) (i : nat) (o : outcome jsstr (list SearchResult)).

Definition search_step (s : Searches) (e : SearchEvent) : Searches :=
  match e with
  | Ask now q t =>
    match search_begin now (cache s) q t with
    | (c, Some rs) => mkSearches c (waiting s) (answered s) ((now, q, t, rs) :: returned s)
    | (c, None) => mkSearches c (waiting s ++ [(q, t)]) (answered s) (returned s)
    end
  | Answer now i o =>
    match waiting s !! i with
    | None => s
    | Some (q, t) =>
      let '(c, rs) := search_end now (cache s) q t o in
      mkSearches c (delete i (waiting s)) (match o with Return rs => (now, q, t, rs) :: answered s | Throw _ => answered s end) ((now, q, t, rs) :: returned s)
    end
  end.

Definition no_searches : Searches := mkSearches [] [] [] [].

(* ------------------------------------------------------------------ *)
(** ** Lemmas *)

Definition search_patterns : list RegExp :=
  LLM_ANSWERABLE_PATTERNS ++ highlight_patterns ++ [rxi "^(아우라야?|헤이\s*아우라|아울라야?|아우나야?|오우라야?)\s*"] ++
  (rx <$> ["^(와|과|그리고|또|좀|아|어|야)\s+"; "\b(추천해줘|추천해 줘|알려줘|알려 줘|찾아줘|찾아 줘|보여줘|보여 줘)\b"; "\s+"; "[.,?!]"; "[을를이가은는에서의으로]";
           "알려줘|추천해줘|찾아줘|검색해줘|에 대해|대해서"; "알려줘|추천해줘|찾아줘|검색해줘"; "<[^>]+>"; "&quot;"; "&amp;"]).

Example search_patterns_parse : forallb compiles search_patterns = true.
Proof. vm_compute. done. Qed.

Example plans_ex :
  buildSearchPlan (js "아우라야 강남 카페 추천해줘") = mkPlan (js "강남 카페") (js "local|강남 카페") local (Some (js "카페")) /\
  buildSearchPlan (js "노래 추천해줘") = no_search /\
  buildSearchPlan (js "삼성전자 주가 알려줘") = mkPlan (js "삼성전자 주") (js "news|삼성전자 주") news (Some (js "주식")) /\
  buildSearchPlan (js "좋은 아침") = mkPlan (js "서울 맛집") (js "local|서울 맛집") local (Some (js "맛집")) /\
  buildSearchPlan (js "오늘 바람 많이 불어?") = mkPlan (js "서울 술집") (js "local|서울 술집") local (Some (js "술집")) /\
  buildSearchPlan (js "안녕하세요") = no_search.
Proof. vm_compute. done. Qed.

Lemma plan_key_inj t t' q q' : plan_key t q = plan_key t' q' -> t = t' /\ q = q'.
Proof.
  unfold plan_key. intros H. change (js "|" ++ q) with (124 :: q) in H. change (js "|" ++ q') with (124 :: q') in H.
  assert (forall t, 124 ∉ type_name t) as Hn by (intros t''; apply (bool_decide_eq_false_1 (124 ∈ type_name t'')); by destruct t'').
  destruct (key_inj 124 _ _ _ _ (Hn t) (Hn t') H) as [Ht ->]. split; [|done]. destruct t, t'; done.
Qed.

(** Every entry of the cache is the answer to a search with its key, and is kept
    for five minutes from it *)
Definition cache_sound (s : Searches) : Prop :=
  forall key e, map_get (cache s) key = Some e ->
    exists now q t, key = plan_key t q /\ (now, q, t, results e) ∈ answered s /\ expiresAt e = now + SEARCH_CACHE_TTL_MS.

(** What was returned at [now] for a search *)
Definition fresh (answered : list (Z * jsstr * SearchType * list SearchResult)) (r : Z * jsstr * SearchType * list SearchResult) : Prop :=
  let '(now, q, t, rs) := r in rs = [] \/ exists now', (now', q, t, rs) ∈ answered /\ now <= now' + SEARCH_CACHE_TTL_MS.

Lemma cached_fresh s now q t c rs :
  cache_sound s -> search_begin now (cache s) q t = (c, Some rs) -> fresh (answered s) (now, q, t, rs) /\ c = cache s.
Proof.
  intros Hs H. assert (t = none /\ c = cache s /\ rs = [] \/ getCachedSearch now (cache s) (plan_key t q) = (c, Some rs)) as [(-> & -> & ->)|K]
    by (destruct t; naive_solver); [split; [by left|done]|]. clear H.
  unfold getCachedSearch in K. destruct (map_get _ _) as [e|] eqn:E; [|done]. destruct (Z.ltb_spec (expiresAt e) now); [done|]. injection K as <- <-.
  destruct (Hs _ _ E) as (now' & q' & t' & Hk & Ha & He). apply plan_key_inj in Hk as [<- <-]. split; [|done]. right. exists now'. split; [done|lia].
Qed.

Lemma uncached_sound s now q t c :
  cache_sound s -> search_begin now (cache s) q t = (c, None) -> forall w r, cache_sound (mkSearches c w (answered s) r).
Proof.
  intros Hs H w r key e He. cbn in *. apply (Hs key e).
  assert (c = map_delete (cache s) (plan_key t q)) as ->.
  { destruct t; try done; cbn in H; unfold getCachedSearch in H; (destruct (map_get _ _); [destruct (_ <? _); [|done]|]); naive_solver. }
  by apply map_get_delete_Some in He as [_ He].
Qed.

Lemma fresh_more a a' r : a ⊆ a' -> fresh a r -> fresh a' r.
Proof. destruct r as [[[now q] t] rs]. intros Ha [->|(now' & Hin & Hle)]; [by left|right; eauto]. Qed.

Lemma search_step_sound s e :
  cache_sound s /\ Forall (fresh (answered s)) (returned s) ->
  cache_sound (search_step s e) /\ Forall (fresh (answered (search_step s e))) (returned (search_step s e)).
Proof.
  intros [Hs Hf]. destruct e as [now q t|now i o]; cbn [search_step].
  - destruct (search_begin _ _ _ _) as [c [rs|]] eqn:E.
    + destruct (cached_fresh _ _ _ _ _ _ Hs E) as [Hr ->]. split; [exact Hs|]. by constructor.
    + split; [exact (uncached_sound _ _ _ _ _ Hs E _ _)|done].
  - destruct (waiting s !! i) as [[q t]|]; [|done]. destruct o as [rs|m]; cbn.
    + split.
      * intros key e He. cbn in *. apply map_get_set_Some in He as [[<- <-]|[_ He]].
        { exists now, q, t. split_and!; [done|left|done]. }
        destruct (Hs _ _ He) as (n & q' & t' & Hk & Ha & Hx). exists n, q', t'. split_and!; [done|by right|done].
      * constructor; [right; exists now; split; [left|unfold SEARCH_CACHE_TTL_MS; lia]|].
        eapply Forall_impl; [exact Hf|]. intros r. apply fresh_more. intros x Hx. by right.
    + split; [exact Hs|]. constructor; [by left|done].
Qed.

(** Every plan with a search has something to search for, and the key of its search *)
Definition planned (p : SearchPlan) : Prop :=
  match searchType p with none => query p = [] | t => query p <> [] /\ cacheKey p = plan_key t (query p) end.

Definition keyword_entries : list (jsstr * jsstr * SearchType) := CATEGORY_KEYWORDS ≫= fun e => (fun k => (e.1.1, k, e.2)) <$> e.1.2.

Lemma keyword_entries_ok c k t : (c, k, t) ∈ keyword_entries -> k <> [] /\ t <> none.
Proof.
  intros H. assert (forallb (fun x : jsstr * jsstr * SearchType => negb (bool_decide (x.1.2 = [])) && match x.2 with none => false | _ => true end) keyword_entries = true) as F
    by (vm_compute; reflexivity).
  rewrite forallb_forall in F. specialize (F _ (proj1 (list_elem_of_In _ _) H)). cbn in F. apply andb_true_iff in F as [F1 F2].
  split; [by apply negb_true_iff, bool_decide_eq_false in F1|by intros ->].
Qed.

Lemma match_category_entry b c k t : match_category b = Some (c, k, t) -> (c, k, t) ∈ keyword_entries.
Proof.
  unfold match_category. intros ([[c' ks] t'] & He & H)%first_some_Some. cbn in H.
  destruct (find_first _ ks) as [k'|] eqn:E; [|done]. cbn in H. injection H as <- <- <-. apply find_first_Some in E as [E _].
  unfold keyword_entries. apply list_elem_of_bind. exists (c', ks, t'). split; [|done]. by apply (list_elem_of_fmap_2 (fun k => (c', k, t'))).
Qed.

Lemma category_plan_planned base c k t : (c, k, t) ∈ keyword_entries -> planned (category_plan base c k t).
Proof.
  intros [Hk Ht]%keyword_entries_ok. assert (forall a b : jsstr, a ++ js " " ++ b <> []) as Ha by (by intros []).
  unfold category_plan, planned. cbv zeta. cbn [searchType query cacheKey].
  set (st := if bool_decide (c ∈ HYBRID_CATEGORIES) then hybrid else t). assert (st <> none) as Hst by (subst st; destruct (bool_decide _); done).
  clearbody st. destruct (bool_decide (c = js "날씨")); [destruct st; try done; split; try done; apply Ha|].
  destruct (trim _) as [|x q]; destruct st; try done; split; try done; apply Ha.
Qed.

Lemma web_plan_planned base : planned (web_plan base).
Proof.
  unfold web_plan. cbv zeta. generalize (trim (replace "\s+" (js " ") (replace "알려줘|추천해줘|찾아줘|검색해줘|에 대해|대해서" [] (without_particles base)))).
  intros q. destruct (isMeaninglessQuery q); [done|]. destruct (isGreeting q); [done|]. destruct (_ <? 2)%nat eqn:E; [done|].
  split; [|done]. cbn. intros ->. done.
Qed.

(** The first entry that has a result comes from a prefix that has one *)
Lemma first_some_prefix {A B} (f : A -> option B) pre post x :
  x ∈ pre -> is_Some (f x) -> exists x' y, x' ∈ pre /\ f x' = Some y /\ first_some f (pre ++ post) = Some y.
Proof.
  induction pre as [|a pre IH]; intros Hx Hf; [by apply elem_of_nil in Hx|]. cbn [app first_some]. destruct (f a) as [y|] eqn:E.
  - exists a, y. split_and!; [left|done|done].
  - apply elem_of_cons in Hx as [->|Hx]; [rewrite E in Hf; by destruct Hf|]. destruct (IH Hx Hf) as (x' & y & H1 & H2 & H3).
    exists x', y. split_and!; [by right|done|done].
Qed.

Lemma bar_category b :
  includes b (js "바") = true -> exists c k t, match_category b = Some (c, k, t) /\ c ∈ [js "카페"; js "맛집"; js "술집"].
Proof.
  intros Hb. unfold match_category. set (f := fun e : jsstr * list jsstr * SearchType => _).
  rewrite <- (take_drop 3 CATEGORY_KEYWORDS).
  destruct (first_some_prefix f (take 3 CATEGORY_KEYWORDS) (drop 3 CATEGORY_KEYWORDS) (js "술집", js <$> ["술집"; "바"; "포차"; "호프"; "이자카야"; "와인바"; "칵테일"; "소주"; "맥주"; "회식"], local))
    as ([[c ks] t] & y & Hin & Hf & ->).
  - right. right. left.
  - subst f. cbn [fst snd]. destruct (find_first _ _) eqn:E; [by eexists|]. apply find_first_None in E. rewrite Forall_forall in E.
    specialize (E (js "바") ltac:(right; left)). cbv beta in E. change (to_lower (js "바")) with (js "바") in E. congruence.
  - subst f. cbn [fst snd] in Hf. destruct (find_first _ ks) as [k|]; [|done]. cbn in Hf. injection Hf as <-. exists c, k, t. split; [done|].
    change (take 3 CATEGORY_KEYWORDS) with [(js "카페", js <$> ["카페"; "커피"; "커피숍"; "카페테리아"; "스타벅스"; "투썸"; "이디야"; "할리스"; "블루보틀"; "카공"], local);
      (js "맛집", js <$> ["맛집"; "식당"; "레스토랑"; "밥집"; "음식점"; "맛있는"; "먹을만한"; "저녁"; "점심"; "아침"; "브런치"], local);
      (js "술집", js <$> ["술집"; "바"; "포차"; "호프"; "이자카야"; "와인바"; "칵테일"; "소주"; "맥주"; "회식"], local)] in Hin.
    apply elem_of_cons in Hin as [[= -> _ _]|Hin]; [left|]. apply elem_of_cons in Hin as [[= -> _ _]|Hin]; [right; left|].
    apply list_elem_of_singleton in Hin as [= -> _ _]. right. right. left.
Qed.

(* ------------------------------------------------------------------ *)
(** ** Properties *)

(** C24: whatever searches and answers overlap, the results a search returns are
    empty or an answer of the search engine to the same query and type of search
    that is not older than five minutes. *)
Theorem cached_results_are_fresh events :
  let s := foldl search_step no_searches events in Forall (fresh (answered s)) (returned s).
Proof.
  cbv zeta. assert (forall s, cache_sound s /\ Forall (fresh (answered s)) (returned s) ->
    let s' := foldl search_step s events in cache_sound s' /\ Forall (fresh (answered s')) (returned s')) as H.
  { induction events as [|e es IH]; intros s Hs; [done|]. apply IH, search_step_sound, Hs. }
  apply H. split; [by intros ? ?|constructor].
Qed.

(** a plan either asks for no search or has something to search for and the
    key under which its results are cached. *)
Theorem plans_have_queries rawQuery : planned (buildSearchPlan rawQuery).
Proof.
  unfold buildSearchPlan. cbv zeta. destruct (negb _ && _); [done|]. destruct (match_category _) as [[[c k] t]|] eqn:E.
  - by apply category_plan_planned, (match_category_entry _ _ _ _ E).
  - apply web_plan_planned.
Qed.

(** the keywords of the categories are found inside of words, in the order of
    the table: a request in which the syllable for bars occurs, as in the word for
    wind, is never about the weather. *)
Theorem wind_is_not_weather rawQuery :
  let base := match normalizeSearchQuery rawQuery with [] => trim rawQuery | b => b end in
  includes (to_lower base) (js "바") = true ->
  category (buildSearchPlan rawQuery) ∈ [None; Some (js "카페"); Some (js "맛집"); Some (js "술집")].
Proof.
  cbv zeta. unfold buildSearchPlan. cbv zeta. set (base := match normalizeSearchQuery rawQuery with [] => _ | _ => _ end). clearbody base. intros Hb.
  destruct (negb _ && _); [left|]. destruct (bar_category (to_lower base) Hb) as (c & k & t & -> & Hc).
  change (category (category_plan base c k t)) with (Some c). right. revert Hc. rewrite !elem_of_cons. intros [->|[->|[->|[]%elem_of_nil]]]; auto.
Qed.

Lemma wind_is_not_weather_witness :
  category (buildSearchPlan (js "오늘 바람 많이 불어?")) ∈ [None; Some (js "카페"); Some (js "맛집"); Some (js "술집")].
Proof. apply wind_is_not_weather. vm_compute. reflexivity. Defined.
