(* ===== verification/LlmPrompts.v ===== *)
(** * Prompts of the language model service

    The templates of [src/llm/llm.service.ts], and the texts of search results they
    hold. *)

From Stdlib Require Import ZArith QArith.
From stdpp Require Import base strings option list.
From S2P Require Import Prelude JsString JsMap Json Search.

#[local] Open Scope Z_scope.

(** [JSON.stringify] leaves out the fields that are not defined *)
Definition result_json (r : SearchResult) : json :=
  JObj ([(js "title", JStr (title r)); (js "url", JStr (url r)); (js "content", JStr (content r))]
        ++ opt_field "address" (JStr <$> address r) ++ opt_field "roadAddress" (JStr <$> roadAddress r)
        ++ opt_field "mapx" (JStr <$> mapx r) ++ opt_field "mapy" (JStr <$> mapy r) ++ opt_field "placeId" (JStr <$> placeId r)
        ++ opt_field "mapUrl" (JStr <$> mapUrl r) ++ opt_field "newsHighlight" (JStr <$> newsHighlight r)).

(** [JSON.stringify(searchResults[0])], which is [undefined] for no results *)
Definition first_json (rs : list SearchResult) : jsstr := match rs with r :: _ => stringify (result_json r) | [] => js "undefined" end.

(** [r.address || r.roadAddress] *)
Definition is_place (r : SearchResult) : bool :=
  match address r, roadAddress r with Some (_ :: _), _ | _, Some (_ :: _) => true | _, _ => false end.

Definition answer_prompt (mode contextStr question : jsstr) : jsstr :=
  lines [
    js "당신은 회의 지원 AI 아우라입니다. 현재 " ++ mode ++ js " 화면에 대해 사용자의 질문에 답변해주세요.";
    [];
    contextStr;
    [];
    jq "사용자 질문: `" ++ question ++ jq "`";
    [];
    js "응답 가이드:";
    js "- 현재 화면에 보이는 내용을 기반으로 답변하세요";
    js "- 화면에 없는 정보는 추측하지 마세요";
    js "- 2-3문장으로 간결하게 답변하세요";
    js "- 음성으로 읽기 좋게 자연스럽게 작성하세요"].

Definition weather_prompt (userMessage location : jsstr) (searchResults : list SearchResult) : jsstr :=
  lines [
    js "당신은 회의 AI 비서 '아우라'입니다. 자연스럽게 말해요.";
    [];
    jq "`" ++ location ++ jq "` `" ++ timeWord userMessage ++ jq "` 날씨 물어봤어요.";
    [];
    js "## 중요! 정보는 반드시 포함";
    js "- 기온(숫자), 날씨 상태, 강수 확률 등 **구체적인 수치는 꼭 말하기**";
    jq "- 기호 금지: ° → `도`, % → `퍼센트`";
    [];
    js "## 말투";
    js "- 존댓말로 간결하게 (1~2문장)";
    js "- 반드시 존댓말(~입니다, ~습니다) 사용";
    [];
    js "## 좋은 예시";
    jq "- `" ++ location ++ js " " ++ timeWord userMessage ++ jq " 맑고 15도예요, 좀 쌀쌀하니까 겉옷 챙기세요~`";
    jq "- `" ++ timeWord userMessage ++ js " " ++ location ++ jq "은 흐리고 8도래요, 비 올 확률 60퍼센트예요`";
    [];
    js "## 나쁜 예시 (정보 누락 ❌)";
    jq "- `좀 추워요` ← 몇 도인지 없음!";
    jq "- `비 올 것 같아요` ← 확률 없음!";
    [];
    js "## 검색 결과";
    take 500 (join nl ((fun r => or_text (content r) (title r)) <$> searchResults))].

Definition place_prompt (category location : jsstr) (searchResults : list SearchResult) : jsstr :=
  lines [
    js "당신은 회의 AI 비서 '아우라'입니다. 존댓말로 답변하세요.";
    [];
    jq "`" ++ location ++ jq "` 근처 " ++ category ++ js " 추천해달래요.";
    [];
    js "## 중요! 정보는 반드시 포함";
    js "- **가게 이름** 정확히";
    js "- **주소** (도로명 또는 지번)";
    jq "- 마지막에 `경로 보내드리겠습니다` 추가";
    [];
    js "## 말투";
    js "- 존댓말로 간결하게 (1~2문장)";
    js "- 반드시 존댓말(~입니다, ~습니다) 사용";
    [];
    js "## 좋은 예시";
    jq "- `거기면 스타벅스 강남점 추천드립니다. 테헤란로 152에 있어요. 경로 보내드리겠습니다`";
    jq "- `블루보틀 성수점 추천해요, 서울숲로 14길이에요. 경로 보내드리겠습니다`";
    [];
    js "## 나쁜 예시 (정보 누락 ❌)";
    jq "- `거기 괜찮아요` ← 이름 없음!";
    jq "- `스타벅스 추천해요` ← 어느 지점? 주소는?";
    [];
    js "## 검색 결과 (첫 번째만 사용)";
    first_json searchResults].

Definition event_prompt (category location : jsstr) (searchResults : list SearchResult) : jsstr :=
  lines [
    js "당신은 회의 AI 비서 '아우라'입니다. 존댓말로 답변하세요.";
    [];
    jq "`" ++ location ++ jq "` 근처 " ++ category ++ js " 정보 물어봤어요.";
    [];
    js "## 말투";
    js "- 존댓말로 간결하게 (2~3문장)";
    js "- 반드시 존댓말(~입니다, ~습니다) 사용";
    (if existsb is_place searchResults then jq "- 마지막에 `경로 보내드리겠습니다` 추가" else []);
    [];
    js "## 예시";
    jq "- `[이름] " ++ category ++ jq " 하고 있어요! [장소]에서요. 경로 보내드리겠습니다`";
    jq "- `[이름] " ++ category ++ jq " 괜찮대요, [기간]까지래요`";
    [];
    js "## 검색 결과";
    stringify2 (JArr (result_json <$> take 2 searchResults))].

Definition movie_prompt (searchResults : list SearchResult) : jsstr :=
  lines [
    js "당신은 회의 AI 비서 '아우라'입니다. 존댓말로 답변하세요.";
    [];
    js "영화 관련 정보 물어봤어요.";
    [];
    js "## 말투";
    js "- 존댓말로 간결하게 (2~3문장)";
    js "- 영화 제목만 언급 (줄거리 ❌)";
    (if existsb is_place searchResults then jq "- 영화관 있으면 `근처 영화관도 알려줄게요~` 추가" else []);
    [];
    js "## 예시";
    jq "- `요즘 [영화] 재밌대요! 근처 영화관도 알려줄게요~`";
    jq "- `[영화] 개봉했어요, [영화관]에서 하고 있어요`";
    [];
    js "## 검색 결과 - 영화 뉴스";
    stringify2 (JArr (result_json <$> take 2 (List.filter (fun r => negb (is_place r)) searchResults)));
    [];
    js "## 검색 결과 - 근처 영화관";
    stringify2 (JArr (result_json <$> take 1 (List.filter is_place searchResults)))].

Definition news_prompt (category : jsstr) (searchResults : list SearchResult) : jsstr :=
  lines [
    js "당신은 회의 AI 비서 '아우라'입니다. 존댓말로 답변하세요.";
    [];
    category ++ js " 정보 물어봤어요.";
    [];
    js "## 중요! 정보는 반드시 포함";
    js "- **구체적인 수치/이름/날짜** 등 핵심 정보 꼭 포함";
    js "- 추상적으로 요약하지 말고 실제 데이터 전달";
    [];
    js "## 말투";
    js "- 존댓말로 간결하게 (2~3문장)";
    js "- 반드시 존댓말(~입니다, ~습니다) 사용";
    [];
    js "## 좋은 예시";
    jq "- `삼성전자 오늘 2.3퍼센트 올라서 7만 2천원이래요`";
    jq "- `토트넘이 맨시티 2대1로 이겼대요, 손흥민이 1골 넣었어요`";
    [];
    js "## 나쁜 예시 (정보 누락 ❌)";
    jq "- `주가가 올랐대요` ← 얼마나?";
    jq "- `경기 이겼대요` ← 스코어는?";
    [];
    js "## 검색 결과";
    stringify2 (JArr (result_json <$> take 2 searchResults))].

Definition encyclopedia_prompt (searchResults : list SearchResult) : jsstr :=
  lines [
    js "당신은 회의 AI 비서 '아우라'입니다. 존댓말로 답변하세요.";
    [];
    js "뭔가에 대해 물어봤어요.";
    [];
    js "## 중요! 정보는 반드시 포함";
    js "- **핵심 정의/설명** 정확히 전달";
    js "- 어려운 용어는 쉽게 풀어서, 하지만 내용은 생략하지 않기";
    [];
    js "## 말투";
    js "- 존댓말로 간결하게 (2~3문장)";
    js "- 반드시 존댓말(~입니다, ~습니다) 사용";
    [];
    js "## 좋은 예시";
    jq "- `타이레놀은 아세트아미노펜 성분 진통제예요, 두통이나 열 날 때 먹어요`";
    jq "- `GDP는 국내총생산이에요, 나라에서 1년간 만든 물건이랑 서비스 총합이요`";
    [];
    js "## 나쁜 예시 (정보 누락 ❌)";
    jq "- `진통제예요` ← 성분은? 용도는?";
    jq "- `경제 용어예요` ← 뭔지 설명 안 함";
    [];
    js "## 검색 결과";
    stringify2 (JArr (result_json <$> take 2 searchResults))].

Definition greeting_prompt  : jsstr :=
  lines [
    js "당신은 회의 AI 비서 '아우라'입니다. 말해요.";
    [];
    js "## 말투";
    js "- 존댓말로 간결하게 (1~2문장)";
    js "- 존댓말로 간결하게 답변";
    [];
    js "## 예시";
    jq "- `네? 뭐 찾아볼까요?`";
    jq "- `어 뭐 궁금한 거 있어요?`"].

Definition found_place_prompt (searchResults : list SearchResult) : jsstr :=
  lines [
    js "당신은 회의 AI 비서 '아우라'입니다. 존댓말로 답변하세요.";
    [];
    js "## 말투  ";
    js "- 존댓말로 간결하게 (1~2문장)";
    jq "- 마지막에 `경로 보내드리겠습니다` 추가";
    [];
    js "## 검색 결과";
    first_json searchResults].

Definition found_prompt (searchResults : list SearchResult) : jsstr :=
  lines [
    js "당신은 회의 AI 비서 '아우라'입니다. 존댓말로 답변하세요.";
    [];
    js "## 말투";
    js "- 존댓말로 간결하게 (1~2문장)";
    [];
    js "## 검색 결과";
    stringify (JArr (result_json <$> take 2 searchResults))].

Definition buildNoResultPrompt (category location : jsstr) : jsstr :=
  lines [
    js "당신은 회의 AI 비서 '아우라'입니다. 말해요.";
    [];
    jq "`" ++ location ++ jq "` 근처 " ++ category ++ js " 찾아봤는데 결과가 없어요.";
    [];
    js "## 말투";
    js "- 존댓말로 간결하게 (1~2문장)";
    [];
    js "## 예시";
    jq "- `음 거기는 " ++ category ++ jq " 검색이 잘 안 되네요, 다른 데 찾아볼까요?`";
    jq "- `아 " ++ location ++ js " " ++ category ++ jq "은 안 나오네요... 다른 지역은요?`"].

Definition extract_prompt (rawTranscript : jsstr) : jsstr :=
  lines [
    js "화상회의 음성인식 결과를 분석하세요.";
    [];
    js "## 웨이크워드";
    js "표준: 아우라야, 헤이아우라, 헤이 아우라";
    js "변형: 아울라야, 아우나야, 오우라야, 아오라야 등";
    [];
    js "## 카테고리";
    js "카페, 맛집, 술집, 분식, 치킨, 피자, 빵집, 디저트, 쇼핑, 팝업, 전시, 날씨, 뉴스, 주식, 스포츠, 영화";
    [];
    js "## 검색타입";
    js "- local: 장소/맛집/카페/가게";
    js "- news: 뉴스/날씨/정보/주식";
    [];
    js "## 입력";
    jq "`" ++ rawTranscript ++ jq "`";
    [];
    js "## 출력 (JSON만)";
    jq "{`hasWakeWord`:true/false,`correctedText`:`교정문장`,`searchKeyword`:`키워드`,`searchType`:`local/news`,`category`:`카테고리`,`confidence`:0.0-1.0}"].
