(* ===== verification/Llm.v ===== *)
(** * The language model service

    [src/llm/llm.service.ts]: a request of a user is a calendar entry, a search, a
    question about the meeting or a question to the language model; requests to the
    model are spaced and repeated when it is busy.

    The service is a program of [Async].  The model, the search service, the
    retrieval server, HTTP requests and waits are effects; an answer of the model is
    the list of its blocks.  The loop that waits until no request is processed is
    given a number of rounds.  The rooms to which the retrieval server is connected
    belong to the retrieval client and are read from the state. *)

From Stdlib Require Import ZArith QArith Lia.
From stdpp Require Import base strings option list.
From S2P Require Import Prelude JsString JsMap Json Records Regex IntentTables Async Pool Calendar Search LlmPrompts.

#[local] Open Scope Z_scope.
#[local] Open Scope prog_scope.

(* ------------------------------------------------------------------ *)
(** ** State and effects *)

Definition MIN_REQUEST_INTERVAL : Z := 1500.
Definition MAX_RETRIES : nat := 3.
Definition PURE_MIN_INTERVAL : Z := 300.
Definition PURE_MAX_RETRIES : nat := 2.

Record LlmState := mkLlm {
  lastRequestTime : Z;
  isProcessing : bool;
  lastPureRequestTime : Z;
  topicCache : jsmap jsstr jsstr;
  ragConnected : list jsstr
}.

#[export] Instance LlmState_eta : Eta _ := fun s => mkLlm (lastRequestTime s) (isProcessing s) (lastPureRequestTime s) (topicCache s) (ragConnected s).

Definition initial : LlmState := mkLlm 0 false 0 [] [].

(** Settings; [calendarReady]: the client of the calendar exists *)
Record LlmConfig := mkConfig { restApiUrl : jsstr; serviceApiKey : jsstr; calendarReady : bool; zone : Z; dateOfText : jsstr -> option Z }.

Inductive Block := TextBlock (t : jsstr) | OtherBlock.

Inductive ModelAnswer := Blocks (content : list Block) | Failure (name message : jsstr).

(** The answer to an HTTP request: its status is good, and its body *)
Record HttpAnswer := mkHttp { ok : bool; body : json }.

Inductive LlmEff : Type -> Type :=
| Sleep (ms : Z) : LlmEff unit
| Invoke (payload : json) : LlmEff ModelAnswer
| RunSearch (query : jsstr) (type : SearchType) : LlmEff (list SearchResult)
| Fetch (url : jsstr) (serviceKey : option jsstr) : LlmEff HttpAnswer
| RagConnect (room : jsstr) : LlmEff unit
| RagQuestion (room question : jsstr) : LlmEff (jsstr * list (jsstr * option jsstr))
| InsertEvent (event : NewEvent) : LlmEff unit.

Abbreviation llm := (@prog LlmState LlmEff).

(** What [sendMessage] returns *)
Record Answer := mkAnswer { text : jsstr; searchResults : option (list SearchResult); ragSources : option (list (jsstr * option jsstr)) }.

(* ------------------------------------------------------------------ *)
(** ** Requests to the model *)

Definition message (content : jsstr) : json := JObj [(js "role", JStr (js "user")); (js "content", JStr content)].

Definition payload (max_tokens : Z) (system : option jsstr) (messages : list jsstr) : json :=
  JObj ([(js "anthropic_version", JStr (js "bedrock-2023-05-31")); (js "max_tokens", JNum (inject_Z max_tokens))]
        ++ opt_field "system" (JStr <$> system) ++ [(js "messages", JArr (message <$> messages))]).

Definition throttled (name message : jsstr) : bool := bool_decide (name = js "ThrottlingException") || includes message (js "Too many requests").

(** [content?.[0]?.text || ''] and [content?.find((b) => b.type === 'text')?.text] *)
Definition first_block (content : list Block) : jsstr := match content with TextBlock t :: _ => t | _ => [] end.
Definition text_block (content : list Block) : jsstr :=
  match find_first (fun b => match b with TextBlock _ => true | OtherBlock => false end) content with Some (TextBlock t) => t | _ => [] end.

(** An answer or the error, with its name *)
Definition invoke (p : json) : llm ModelAnswer := try_catch (await (Invoke p)) (fun m => Ret (Failure [] m)).

Fixpoint sendMessagePureWithRetry (retries : nat) (prompt : jsstr) (maxTokens : Z) : llm jsstr :=
  r <- invoke (payload maxTokens None [prompt]) ;;
  match r with
  | Blocks content => Ret (trim (first_block content))
  | Failure name m =>
    if throttled name m then
      match retries with
      | S n => await (Sleep (2 ^ (Z.of_nat (PURE_MAX_RETRIES - retries) + 1) * 1000)) ;;; sendMessagePureWithRetry n prompt maxTokens
      | O => Raise m
      end
    else Raise m
  end.

Definition sendMessagePure (prompt : jsstr) (maxTokens : Z) : llm jsstr :=
  t <- now ;; s <- get ;;
  (if t - lastPureRequestTime s <? PURE_MIN_INTERVAL then await (Sleep (PURE_MIN_INTERVAL - (t - lastPureRequestTime s))) else Ret tt) ;;;
  modify (fun t s => s <| lastPureRequestTime := t |>) ;;;
  sendMessagePureWithRetry PURE_MAX_RETRIES prompt maxTokens.

Definition answerWithContext (question contextStr mode : jsstr) : llm jsstr :=
  try_catch (r <- sendMessagePure (answer_prompt mode contextStr question) 300 ;;
             Ret match r with [] => mode ++ js "에 대해 말씀해주세요." | _ => r end)
            (fun _ => Ret (js "죄송합니다. " ++ mode ++ js " 분석 중 오류가 발생했습니다.")).

(* ------------------------------------------------------------------ *)
(** ** System prompts *)

Definition categoryKeywords : list (jsstr * list jsstr) :=
  (fun e : string * list string => (js e.1, js <$> e.2)) <$> [
    ("날씨", ["날씨"; "기온"; "온도"; "비"; "눈"; "바람"]); ("카페", ["카페"; "커피"]); ("맛집", ["맛집"; "식당"; "레스토랑"; "밥집"; "저녁"; "점심"]);
    ("술집", ["술집"; "바"; "포차"; "호프"]); ("팝업", ["팝업"; "팝업스토어"]); ("전시", ["전시"; "전시회"; "갤러리"]); ("영화", ["영화"; "개봉"; "영화관"]);
    ("뉴스", ["뉴스"; "소식"; "기사"]); ("주식", ["주식"; "주가"; "코스피"]); ("스포츠", ["스포츠"; "축구"; "야구"]); ("백과", ["정의"; "의미"; "개념"; "효능"])].

Definition prompt_category (userMessage : jsstr) : option jsstr :=
  fst <$> find_first (fun e : jsstr * list jsstr => existsb (includes (to_lower userMessage)) e.2) categoryKeywords.

Definition buildSystemPrompt (userMessage : jsstr) (results : list SearchResult) : jsstr :=
  let location := match extractLocation userMessage with Some l => l | None => js "서울" end in
  let hasLocation := existsb is_place results in
  match prompt_category userMessage with
  | Some c =>
    if decide (c = js "날씨") then weather_prompt userMessage location results
    else if decide (c ∈ (js <$> ["카페"; "맛집"; "술집"])) then
      if negb hasLocation || (length results =? 0)%nat then buildNoResultPrompt c location else place_prompt c location results
    else if decide (c ∈ (js <$> ["팝업"; "전시"])) then event_prompt c location results
    else if decide (c = js "영화") then movie_prompt results
    else if decide (c ∈ (js <$> ["뉴스"; "주식"; "스포츠"])) then news_prompt c results
    else encyclopedia_prompt results
  | None =>
    match results with
    | [] => greeting_prompt
    | _ => if hasLocation then found_place_prompt results else found_prompt results
    end
  end.

(* ------------------------------------------------------------------ *)
(** ** Answers *)

Definition buildPlaceRecommendation (result : SearchResult) : jsstr :=
  let response := or_text (title result) (js "그 장소") ++ js " 추천드립니다." in
  let response := match newsHighlight result with Some ((_ :: _) as h) => response ++ js " " ++ h ++ js "까지래요." | _ => response end in
  trim (replace "\s+" (js " ") (response ++ js " 경로 보내드릴게요.")).

Definition placePatterns : list string :=
  ["을?\s*추천해요\.?"; "해당\s*지점까지\s*경로를\s*채팅창으로\s*공유드릴게요\.?"; "경로를\s*공유드릴게요\.?"; "위치까지\s*경로를.*?공유.*?\.?"].

Definition validateAndBuildNewsResponse (llmResponse : jsstr) (results : list SearchResult) : jsstr :=
  let cleaned := foldl (fun s p => replace p [] s) llmResponse placePatterns in
  let cleaned := trim (replace "\s+" (js " ") cleaned) in
  if (length cleaned <? 10)%nat then
    match results with
    | first :: _ => title first ++ js "에 대한 소식이에요. " ++ take 80 (content first)
    | [] => js "관련 정보를 찾았어요. 검색 결과를 확인해주세요."
    end
  else cleaned.

(** The answer of the model, or the text for the results that were found *)
Definition final_message (content : list Block) (results : option (list SearchResult)) : jsstr :=
  let finalMessage := or_text (text_block content) (js "죄송합니다, 응답을 생성할 수 없습니다.") in
  match results with
  | Some ((_ :: _) as rs) =>
    match find_first is_place rs with
    | Some place => buildPlaceRecommendation place
    | None => validateAndBuildNewsResponse finalMessage rs
    end
  | _ => finalMessage
  end.

Definition search_lines (rs : list SearchResult) : jsstr :=
  js "[검색 결과]" ++ nl ++ join nl ((fun r => js "- " ++ title r ++ js ": " ++ content r) <$> rs).

(** The search in front of the first request; [None] when the text is too short *)
Definition find_results (userMessage : jsstr) : llm (option (list SearchResult)) :=
  let trimmedQuery := trim userMessage in
  if (5 <? length trimmedQuery)%nat then
    let plan := buildSearchPlan trimmedQuery in
    match searchType plan with
    | none => Ret (Some [])
    | type => rs <- await (RunSearch (query plan) type) ;; Ret (Some rs)
    end
  else Ret None.

Fixpoint ask_model (retries : nat) (userMessage : jsstr) (results : option (list SearchResult)) : llm Answer :=
  let systemPrompt := buildSystemPrompt userMessage (default [] results) in
  let messages := userMessage :: match results with Some ((_ :: _) as rs) => [search_lines rs] | _ => [] end in
  r <- invoke (payload 400 (Some systemPrompt) messages) ;;
  match r with
  | Blocks content => Ret (mkAnswer (final_message content results) results None)
  | Failure name m =>
    if throttled name m then
      match retries with
      | S n => await (Sleep (2 ^ (Z.of_nat (MAX_RETRIES - retries) + 1) * 2000)) ;;; ask_model n userMessage results
      | O => Raise m
      end
    else Raise m
  end.

(** [processWithTools] as it is called: with one message and a search *)
Definition processWithTools (userMessage : jsstr) : llm Answer :=
  results <- find_results userMessage ;; ask_model MAX_RETRIES userMessage results.

(* ------------------------------------------------------------------ *)
(** ** Rooms *)

(** [data?.roomId] when it is a text that is not empty *)
Definition room_of (data : json) : option jsstr :=
  match prop data (js "roomId") with Some (JStr ((_ :: _) as r)) => Some r | _ => None end.

Definition getRoomIdByTopic (cfg : LlmConfig) (topicOrId : jsstr) : llm jsstr :=
  match topicOrId with
  | [] => Ret topicOrId
  | _ =>
    if (30 <=? length topicOrId)%nat && includes topicOrId (js "-") then Ret topicOrId
    else
      s <- get ;;
      match map_get (topicCache s) topicOrId with
      | Some ((_ :: _) as cached) => Ret cached
      | _ =>
        match restApiUrl cfg with
        | [] => Ret topicOrId
        | _ =>
          try_catch
            (match encodeURIComponent topicOrId with
             | Throw m => Raise m
             | Return encoded =>
               resp <- await (Fetch (restApiUrl cfg ++ js "/restapi/rooms/topic/" ++ encoded) (text_opt (serviceApiKey cfg))) ;;
               if ok resp then
                 match room_of (body resp) with
                 | Some roomId => modify (fun _ s => s <| topicCache := map_set (topicCache s) topicOrId roomId |>) ;;; Ret roomId
                 | None => Ret topicOrId
                 end
               else Ret topicOrId
             end)
            (fun _ => Ret topicOrId)
        end
      end
  end.

(* ------------------------------------------------------------------ *)
(** ** Requests of users *)

Definition realTimeSearchPatterns : list RegExp :=
  rx <$> ["카페|커피|커피숍|스타벅스|투썸|이디야|카공"; "맛집|식당|레스토랑|밥집|음식점|저녁|점심|브런치"; "술집|바|포차|호프|이자카야|와인바|회식"; "분식|떡볶이|김밥|순대";
          "치킨|BBQ|BHC|교촌"; "피자|도미노|피자헛"; "빵집|베이커리|제과점|파리바게뜨"; "디저트|마카롱|아이스크림|젤라또|와플"; "쇼핑|백화점|마트|아울렛"; "팝업|팝업스토어";
          "전시|전시회|갤러리|미술관|박물관"; "날씨|기온|온도|비|눈|미세먼지|우산|더워|추워"; "뉴스|소식|기사|속보|이슈"; "주식|주가|코스피|코스닥|나스닥|증시";
          "스포츠|축구|야구|농구|배구|경기|스코어"; "영화|개봉|상영|박스오피스|CGV|롯데시네마"].

Definition pastReferencePatterns : list RegExp :=
  rx <$> ["지난"; "이전"; "방금"; "아까"; "전에"; "저번"; "좀\s*전"; "뭐라고\s*(했|한|하셨)"; "뭐(였|더라|였더라)"; "다시\s*(말해|알려|설명)"; "한번\s*더";
          "(회의|미팅).{0,10}(내용|정리|요약)"; "누가.{0,10}(말|발언|얘기)"; "(결정|논의|안건).{0,5}(된|한|했)"].

Definition isRealTimeSearch (userMessage : jsstr) : bool := existsb (fun p => regexp_test p userMessage) realTimeSearchPatterns.
Definition isPastReference (userMessage : jsstr) : bool := existsb (fun p => regexp_test p userMessage) pastReferencePatterns.

(** [this.isProcessing = true; ... try { ... } finally { this.isProcessing = false }] *)
Definition begin_processing : llm unit := modify (fun t s => s <| isProcessing := true |> <| lastRequestTime := t |>).
Definition end_processing : llm unit := modify (fun _ s => s <| isProcessing := false |>).
Definition processing (userMessage : jsstr) : llm Answer := begin_processing ;;; finally (processWithTools userMessage) end_processing.

(** [handleCalendarRequest], whose only wait is for the calendar *)
Definition calendar_answer (cfg : LlmConfig) (userMessage : jsstr) : llm Answer :=
  t <- now ;;
  let reply insert := handleCalendarRequest (calendarReady cfg) (dateOfText cfg) insert (zone cfg) t userMessage in
  let event := if calendarReady cfg then
                 date ← extractDate (zone cfg) t userMessage;
                 new_event (dateOfText cfg) (zone cfg) date (extractTime userMessage) (extractTitle userMessage)
               else None in
  match event with
  | None => Ret (mkAnswer (reply (fun _ => Return tt)) None None)
  | Some event =>
    r <- try_catch (await (InsertEvent event) ;;; Ret (Return tt)) (fun m => Ret (Throw m)) ;;
    Ret (mkAnswer (reply (fun _ => r)) None None)
  end.

(** The retrieval server's answer; [None] when it cannot be asked or fails *)
Definition rag_answer (cfg : LlmConfig) (roomId userMessage : jsstr) : llm (option Answer) :=
  room <- getRoomIdByTopic cfg roomId ;;
  try_catch
    (s <- get ;;
     (if decide (room ∈ ragConnected s) then Ret tt else try_catch (await (RagConnect room)) (fun _ => Ret tt)) ;;;
     s <- get ;;
     if decide (room ∈ ragConnected s)
     then r <- await (RagQuestion room userMessage) ;; Ret (Some (mkAnswer r.1 None (Some r.2)))
     else Ret None)
    (fun _ => Ret None).

(** [while (this.isProcessing) await this.sleep(100)], for a number of rounds *)
Fixpoint wait_turn (rounds : nat) : llm unit :=
  match rounds with
  | O => Raise (js "out of rounds")
  | S n => s <- get ;; if isProcessing s then await (Sleep 100) ;;; wait_turn n else Ret tt
  end.

Definition model_answer (rounds : nat) (userMessage : jsstr) : llm Answer :=
  wait_turn rounds ;;;
  t <- now ;; s <- get ;;
  (if t - lastRequestTime s <? MIN_REQUEST_INTERVAL then await (Sleep (MIN_REQUEST_INTERVAL - (t - lastRequestTime s))) else Ret tt) ;;;
  processing userMessage.

Definition sendMessage (rounds : nat) (cfg : LlmConfig) (userMessage : jsstr) (roomId : option jsstr) : llm Answer :=
  if isCalendarIntent userMessage then calendar_answer cfg userMessage
  else if isRealTimeSearch userMessage then processing userMessage
  else
    match roomId with
    | Some ((_ :: _) as room) =>
      if isPastReference userMessage then
        r <- rag_answer cfg room userMessage ;;
        match r with Some a => Ret a | None => model_answer rounds userMessage end
      else model_answer rounds userMessage
    | _ => model_answer rounds userMessage
    end.

(* ------------------------------------------------------------------ *)
(** ** Intents of spoken requests *)

(** What the intent classifier found *)
Record IntentAnalysis := mkIntentAnalysis {
  ia_isCallIntent : bool; ia_confidence : Q; ia_normalizedText : jsstr; ia_category : option jsstr;
  ia_extractedKeyword : option jsstr; ia_searchType : option SearchType; ia_needsLlmCorrection : bool
}.

(** Fields are values the model may have chosen *)
Record VoiceIntent := mkVoice { shouldRespond : json; correctedText : json; searchKeyword : json; voiceType : option SearchType; voiceCategory : json }.

Definition opt_json (o : option jsstr) : json := match o with Some s => JStr s | None => JNull end.

Definition type_of_json (v : option json) : option SearchType :=
  match v with Some (JStr s) => find_first (fun t => bool_decide (type_name t = s)) [local; news; web; encyc; hybrid; none] | _ => None end.

(** [v ?? d] *)
Definition or_default (v : option json) (d : json) : json := match v with None | Some JNull => d | Some x => x end.

Definition not_corrected (rawTranscript : jsstr) : VoiceIntent := mkVoice (JBool false) (JStr rawTranscript) JNull None JNull.

Definition correctAndExtract (rawTranscript : jsstr) : llm VoiceIntent :=
  r <- invoke (payload 200 None [extract_prompt rawTranscript]) ;;
  Ret match r with
      | Failure _ _ => not_corrected rawTranscript
      | Blocks content =>
        match match_text (compile (rx "\{[\s\S]*\}")) (or_text (first_block content) (js "{}")) ≫= Json.parse with
        | None => not_corrected rawTranscript
        | Some result =>
          mkVoice (or_default (prop result (js "hasWakeWord")) (JBool false)) (or_default (prop result (js "correctedText")) (JStr rawTranscript))
            (or_default (prop result (js "searchKeyword")) JNull) (type_of_json (prop result (js "searchType"))) (or_default (prop result (js "category")) JNull)
        end
      end.

Definition processVoiceIntent (rawTranscript : jsstr) (a : IntentAnalysis) : llm VoiceIntent :=
  if ia_isCallIntent a && Qle_bool (6 # 10) (ia_confidence a) then
    match ia_extractedKeyword a with
    | Some ((_ :: _) as keyword) =>
      Ret (mkVoice (JBool true) (JStr (ia_normalizedText a)) (JStr keyword) (Some (default web (ia_searchType a))) (opt_json (ia_category a ≫= text_opt)))
    | _ =>
      let plan := buildSearchPlan (ia_normalizedText a) in
      match searchType plan with
      | none => Ret (mkVoice (JBool true) (JStr (ia_normalizedText a)) JNull None JNull)
      | type => Ret (mkVoice (JBool true) (JStr (ia_normalizedText a)) (JStr (query plan)) (Some type) (opt_json (category plan)))
      end
    end
  else if ia_needsLlmCorrection a then correctAndExtract rawTranscript
  else Ret (mkVoice (JBool false) (JStr (ia_normalizedText a)) JNull None JNull).

Definition llm_patterns : list RegExp := realTimeSearchPatterns ++ pastReferencePatterns ++ (rx <$> placePatterns) ++ [rx "\{[\s\S]*\}"].

Example llm_patterns_parse : forallb compiles llm_patterns = true.
Proof. vm_compute. done. Qed.

(* ------------------------------------------------------------------ *)
(** ** Lemmas *)

#[local] Ltac quiet_tac :=
  repeat first
    [ exact Logic.I
    | apply quiet_await
    | apply quiet_modify; done
    | progress intros
    | apply quiet_bind
    | apply quiet_try
    | match goal with |- context [match ?x with _ => _ end] => destruct x end
    | progress cbn [quiet get now] ].

Lemma getRoomIdByTopic_quiet cfg topic s : quiet isProcessing (getRoomIdByTopic cfg topic) s.
Proof. unfold getRoomIdByTopic. quiet_tac. Qed.

Lemma rag_answer_quiet cfg room m s : quiet isProcessing (rag_answer cfg room m) s.
Proof. unfold rag_answer. apply quiet_bind; [apply getRoomIdByTopic_quiet|]. quiet_tac. Qed.

Lemma calendar_answer_quiet cfg m s : quiet isProcessing (calendar_answer cfg m) s.
Proof. unfold calendar_answer. quiet_tac. Qed.

Lemma wait_turn_quiet n s : quiet isProcessing (wait_turn n) s.
Proof. revert s. induction n as [|n IH]; intros s; cbn [wait_turn]; quiet_tac; apply IH. Qed.

(** The flag is set in front of the [try] that resets it *)
Lemma processing_tame m b s : tame isProcessing b (processing m) s.
Proof. intros t. cbn. by apply finally_tame. Qed.

Lemma model_answer_tame n m s : tame isProcessing (isProcessing s) (model_answer n m) s.
Proof.
  unfold model_answer. apply tame_quiet_bind; [done|apply wait_turn_quiet|]. intros _ s1. intros t t'. cbn [bind].
  apply tame_quiet_bind; [done|destruct (_ <? _); [apply quiet_await|done]|]. intros _ s2. apply processing_tame.
Qed.

Lemma sendMessage_tame n cfg m room s : tame isProcessing (isProcessing s) (sendMessage n cfg m room) s.
Proof.
  unfold sendMessage. destruct (isCalendarIntent m); [apply tame_quiet, calendar_answer_quiet|].
  destruct (isRealTimeSearch m); [apply processing_tame|]. destruct room as [[|c room]|]; try apply model_answer_tame.
  destruct (isPastReference m); [|apply model_answer_tame]. apply tame_quiet_bind; [done|apply rag_answer_quiet|].
  intros [a|] s'; [exact (fun H => H)|apply model_answer_tame].
Qed.

(** At most [n] requests to the model, on every path *)
Definition is_invoke {R} (e : LlmEff R) : bool := match e with Invoke _ => true | _ => false end.

Fixpoint at_most {A} (n : nat) (p : llm A) : Prop :=
  match p with
  | Ret _ | Raise _ => True
  | Get k => forall t s, at_most n (k t s)
  | Put _ p => at_most n p
  | Await e k => if is_invoke e then match n with O => False | S n => forall r, at_most n (k r) end else forall r, at_most n (k r)
  end.

Lemma at_most_bind {A B} n m (p : llm A) (f : A -> llm B) : at_most n p -> (forall a, at_most m (f a)) -> at_most (n + m) (bind p f).
Proof.
  revert n. induction p as [a|e|k IH|s p IH|R e k IH]; intros n Hp Hf; cbn [bind at_most] in *; auto.
  - specialize (Hf a). revert Hf. generalize (f a). clear. intros q. induction n as [|n IH]; intros Hq; [done|]. cbn [Nat.add].
    specialize (IH Hq). revert IH. generalize (n + m)%nat. clear. induction q as [a|e|k IH|s p IH|R e k IH]; intros n Hq; cbn [at_most] in *; auto.
    destruct (is_invoke e); [|auto]. destruct n as [|n]; [done|]. auto.
  - destruct (is_invoke e); [|auto]. destruct n as [|n]; [done|]. cbn [Nat.add]. auto.
Qed.

Lemma find_results_asks m : at_most 0 (find_results m).
Proof. unfold find_results. destruct (_ <? _)%nat; [|exact Logic.I]. cbv zeta. destruct (searchType _); try exact Logic.I; by intros [|]. Qed.

Lemma invoke_asks p : at_most 1 (invoke p).
Proof. by intros [|]. Qed.

Lemma ask_model_asks n m rs : at_most (S n) (ask_model n m rs).
Proof.
  induction n as [|n IH]; cbn [ask_model].
  - apply (at_most_bind 1 0); [apply invoke_asks|]. intros [content|name e]; [exact Logic.I|]. destruct (throttled name e); exact Logic.I.
  - apply (at_most_bind 1 (S n)); [apply invoke_asks|]. intros [content|name e]; [exact Logic.I|]. destruct (throttled name e); [|exact Logic.I].
    apply (at_most_bind 0 (S n)); [by intros [|]|]. intros _. exact IH.
Qed.

(** *** An execution in which requests overlap *)

(** A model that answers and clocks that go on *)
Definition answers (R : Type) (e : LlmEff R) : outcome jsstr R :=
  match e with
  | Sleep _ => Return tt
  | Invoke _ => Return (Blocks [TextBlock (js "네")])
  | RunSearch _ _ => Return []
  | Fetch _ _ => Return (mkHttp false JNull)
  | RagConnect _ => Return tt
  | RagQuestion _ _ => Return ([], [])
  | InsertEvent _ => Return tt
  end.

Definition some_config : LlmConfig := mkConfig [] [] false 0 (fun _ => None).

(** Three questions: the second and the third come while the first is processed *)
Definition overlap : list (PoolEvent (State := LlmState) (Eff := LlmEff) (A := Answer)) :=
  [Call 10000 (sendMessage 9 some_config (js "안녕?") None); Call 10010 (sendMessage 9 some_config (js "뭐해?") None);
   Call 10020 (sendMessage 9 some_config (js "누구?") None);
   Resume 10030 0 answers; Resume 10110 1 answers; Resume 10120 2 answers; Resume 11500 1 answers; Resume 11501 2 answers].

Definition asks_model {A} (p : llm A) : bool := match p with Await e _ => is_invoke e | _ => false end.

(** A question that holds the syllable for rain is one for the search engine *)
Lemma rain_is_searched m : includes m (js "비") = true -> isRealTimeSearch m = true.
Proof.
  intros H. apply existsb_exists. exists (rx "날씨|기온|온도|비|눈|미세먼지|우산|더워|추워"). split; [do 11 right; left; reflexivity|].
  unfold regexp_test. match goal with |- test ?r m = true =>
    change r with (RAlt (Substitution.literal false (js "날씨")) (RAlt (Substitution.literal false (js "기온")) (RAlt (Substitution.literal false (js "온도"))
      (RAlt (Substitution.literal false (js "비")) (RAlt (Substitution.literal false (js "눈")) (RAlt (Substitution.literal false (js "미세먼지"))
      (RAlt (Substitution.literal false (js "우산")) (RAlt (Substitution.literal false (js "더워")) (Substitution.literal false (js "추워"))))))))))
  end.
  rewrite !Substitution.test_alt, !Substitution.test_literal by reflexivity. rewrite H, !orb_true_r. done.
Qed.

(* ------------------------------------------------------------------ *)
(** ** Properties *)

(** C5: however requests of users overlap, fail and wait, the mark that a request
    is processed is reset: while it is set some request that will reset it is on its
    way, and when all requests are done it is not set. *)
Theorem processing_is_released events :
  Forall (fun e => match e with Call _ p => exists n cfg m room, p = sendMessage n cfg m room | Resume _ _ _ => True end) events ->
  let '(s, calls) := foldl pool_step (initial, []) events in
  (isProcessing s = true -> exists p, p ∈ calls /\ owner isProcessing p) /\
  (Forall (fun p => is_done p = true) calls -> isProcessing s = false).
Proof.
  intros He. assert (owned isProcessing (foldl pool_step (initial, []) events)) as H.
  { apply flag_has_owner; [done|]. eapply Forall_impl; [exact He|]. intros [t p|t i answer]; [|done].
    intros (n & cfg & m & room & ->) s. apply sendMessage_tame. }
  destruct (foldl _ _ events) as [s calls]. destruct H as [H _]. split; [exact H|]. intros Hd. apply not_true_iff_false. intros Hs.
  destruct (H Hs) as (p & Hp & Ho). rewrite Forall_forall in Hd. specialize (Hd p Hp). by destruct p.
Qed.

Lemma processing_is_released_witness :
  let '(s, calls) := foldl pool_step (initial, []) (overlap ++ [Resume 11600 1 answers; Resume 11700 2 answers]) in
  isProcessing s = false /\ Forall (fun p => is_done p = true) calls.
Proof.
  pose proof (processing_is_released (overlap ++ [Resume 11600 1 answers; Resume 11700 2 answers])) as H.
  assert (Forall (fun p => is_done p = true) (foldl pool_step (initial, []) (overlap ++ [Resume 11600 1 answers; Resume 11700 2 answers])).2) as Hd
    by (vm_compute; repeat constructor).
  destruct (foldl _ _ _) as [s calls] in *. split; [|exact Hd]. apply H; [|exact Hd]. unfold overlap. repeat constructor; eauto 6.
Defined.

(** the mark does not keep requests apart: two questions that waited for a third
    both pass the check, wait out the interval and are at the model at once. *)
Theorem waiting_requests_overlap :
  let '(s, calls) := foldl pool_step (initial, []) overlap in
  (asks_model <$> calls) = [false; true; true] /\ isProcessing s = true /\
  isProcessing (pool_step (s, calls) (Resume 11600 1 answers)).1 = false.
Proof. vm_compute. done. Qed.

(** a request is sent to the model at most four times, once and after three
    answers that it is busy, whatever it answers. *)
Theorem requests_are_bounded userMessage : at_most 4 (processWithTools userMessage).
Proof. apply (at_most_bind 0 4); [apply find_results_asks|]. intros rs. apply ask_model_asks. Qed.

(** a question about the meeting in which the syllable for rain occurs, as in
    the words for cost and preparation, goes to the search engine and never to the
    retrieval server. *)
Theorem cost_questions_are_searched n cfg userMessage roomId :
  includes userMessage (js "비") = true -> isCalendarIntent userMessage = false ->
  sendMessage n cfg userMessage roomId = processing userMessage.
Proof. intros H1 H2. unfold sendMessage. by rewrite H2, (rain_is_searched _ H1). Qed.

Lemma cost_questions_are_searched_witness :
  isPastReference (js "지난 회의에서 정한 비용 뭐였지") = true /\
  sendMessage 3 some_config (js "지난 회의에서 정한 비용 뭐였지") (Some (js "r1")) = processing (js "지난 회의에서 정한 비용 뭐였지").
Proof. split; [vm_compute; reflexivity|]. apply cost_questions_are_searched; vm_compute; reflexivity. Defined.
