(* ===== verification/ToolPrompts.v ===== *)
(** * Prompts of the diagram tools

    The templates of [src/mcp/tools/*.tool.ts]. *)

From Stdlib Require Import ZArith.
From stdpp Require Import base strings list.
From S2P Require Import Prelude JsString.

Definition FLOWCHART_PROMPT : jsstr :=
  lines [
    js "당신은 회의 내용을 분석하여 플로우차트 데이터를 생성하는 전문가입니다.";
    [];
    js "주어진 회의 내용에서 프로세스, 워크플로우, 또는 의사결정 흐름을 추출하여 JSON 형식의 플로우차트 데이터로 변환하세요.";
    [];
    js "## 규칙";
    js "1. 노드 타입:";
    js "   - start: 시작점 (하나만)";
    js "   - end: 종료점 (하나 이상)";
    js "   - process: 일반 처리 단계";
    js "   - decision: 조건 분기 (예/아니오)";
    js "   - io: 입출력 (사용자 입력, API 호출 등)";
    [];
    js "2. 연결(Edge) 규칙:";
    jq "   - decision 노드에서 나가는 edge는 label 필수 (예: `Yes`, `No`, `성공`, `실패`)";
    js "   - 모든 노드는 연결되어야 함";
    js "   - 순환(cycle)은 허용되지만 무한루프는 피할 것";
    [];
    js "3. 출력 형식 (반드시 JSON만 출력):";
    js "{";
    jq "  `nodes`: [";
    jq "    { `id`: `node1`, `type`: `start`, `label`: `시작` },";
    jq "    { `id`: `node2`, `type`: `process`, `label`: `처리 단계` },";
    jq "    { `id`: `node3`, `type`: `decision`, `label`: `조건 확인?` },";
    jq "    { `id`: `node4`, `type`: `end`, `label`: `종료` }";
    js "  ],";
    jq "  `edges`: [";
    jq "    { `id`: `e1`, `source`: `node1`, `target`: `node2` },";
    jq "    { `id`: `e2`, `source`: `node2`, `target`: `node3` },";
    jq "    { `id`: `e3`, `source`: `node3`, `target`: `node4`, `label`: `Yes` }";
    js "  ]";
    js "}";
    [];
    js "회의 내용:";
    []].

Definition flowchart_focused (keywords : list jsstr) : jsstr :=
  lines [
    js "당신은 회의 내용을 분석하여 플로우차트 데이터를 생성하는 전문가입니다.";
    [];
    js "다음은 회의에서 프로세스/워크플로우와 관련된 발화들입니다.";
    js "감지된 키워드를 중심으로 플로우차트를 생성해주세요.";
    [];
    js "## 감지된 키워드";
    join (js ", ") keywords;
    [];
    js "## 요구사항";
    js "1. 키워드를 중심으로 노드 생성";
    js "2. 발화 순서를 고려하여 흐름 연결";
    jq "3. 조건문(`만약`, `~하면`)은 decision 노드로 처리";
    jq "4. 반복(`반복`, `~할 때까지`)은 루프로 표현";
    [];
    js "## 규칙";
    js "1. 노드 타입:";
    js "   - start: 시작점 (하나만)";
    js "   - end: 종료점 (하나 이상)";
    js "   - process: 일반 처리 단계";
    js "   - decision: 조건 분기 (예/아니오)";
    js "   - io: 입출력 (사용자 입력, API 호출 등)";
    [];
    js "2. 연결(Edge) 규칙:";
    jq "   - decision 노드에서 나가는 edge는 label 필수 (예: `Yes`, `No`, `성공`, `실패`)";
    js "   - 모든 노드는 연결되어야 함";
    js "   - 순환(cycle)은 허용되지만 무한루프는 피할 것";
    [];
    js "3. 출력 형식 (반드시 JSON만 출력):";
    js "{";
    jq "  `nodes`: [";
    jq "    { `id`: `node1`, `type`: `start`, `label`: `시작` },";
    jq "    { `id`: `node2`, `type`: `process`, `label`: `처리 단계` },";
    jq "    { `id`: `node3`, `type`: `decision`, `label`: `조건 확인?` },";
    jq "    { `id`: `node4`, `type`: `end`, `label`: `종료` }";
    js "  ],";
    jq "  `edges`: [";
    jq "    { `id`: `e1`, `source`: `node1`, `target`: `node2` },";
    jq "    { `id`: `e2`, `source`: `node2`, `target`: `node3` },";
    jq "    { `id`: `e3`, `source`: `node3`, `target`: `node4`, `label`: `Yes` }";
    js "  ]";
    js "}";
    [];
    js "관련 발화:";
    []].

Definition SEQUENCE_PROMPT : jsstr :=
  lines [
    js "당신은 회의 내용을 분석하여 시퀀스 다이어그램 데이터를 생성하는 전문가입니다.";
    [];
    js "주어진 회의 내용에서 시스템/컴포넌트 간의 상호작용을 추출하여 JSON 형식의 시퀀스 다이어그램 데이터로 변환하세요.";
    [];
    js "## 규칙";
    js "1. Actor 타입:";
    js "   - user: 사용자/클라이언트";
    js "   - frontend: 프론트엔드 (웹, 앱)";
    js "   - backend: 백엔드 서버/API";
    js "   - database: 데이터베이스";
    js "   - external: 외부 서비스 (결제, 알림 등)";
    [];
    js "2. Message 타입:";
    js "   - sync: 동기 호출 (실선 화살표 →)";
    js "   - async: 비동기 호출 (점선 화살표 -→)";
    js "   - response: 응답 (점선 화살표 ←--)";
    [];
    js "3. 메시지 순서:";
    js "   - 시간순으로 배열";
    js "   - 요청-응답 쌍을 명확히";
    [];
    js "4. 출력 형식 (반드시 JSON만 출력):";
    js "{";
    jq "  `actors`: [";
    jq "    { `id`: `user`, `name`: `사용자`, `type`: `user` },";
    jq "    { `id`: `fe`, `name`: `Frontend`, `type`: `frontend` },";
    jq "    { `id`: `api`, `name`: `API Server`, `type`: `backend` },";
    jq "    { `id`: `db`, `name`: `Database`, `type`: `database` }";
    js "  ],";
    jq "  `messages`: [";
    jq "    { `id`: `m1`, `from`: `user`, `to`: `fe`, `label`: `로그인 버튼 클릭`, `type`: `sync` },";
    jq "    { `id`: `m2`, `from`: `fe`, `to`: `api`, `label`: `POST /auth/login`, `type`: `sync` },";
    jq "    { `id`: `m3`, `from`: `api`, `to`: `db`, `label`: `SELECT user`, `type`: `sync` },";
    jq "    { `id`: `m4`, `from`: `db`, `to`: `api`, `label`: `user data`, `type`: `response` },";
    jq "    { `id`: `m5`, `from`: `api`, `to`: `fe`, `label`: `JWT token`, `type`: `response` }";
    js "  ]";
    js "}";
    [];
    js "회의 내용:";
    []].

Definition sequence_focused (keywords : list jsstr) : jsstr :=
  lines [
    js "당신은 회의 내용을 분석하여 시퀀스 다이어그램 데이터를 생성하는 전문가입니다.";
    [];
    js "다음은 회의에서 시스템 간 상호작용과 관련된 발화들입니다.";
    js "감지된 키워드를 중심으로 시퀀스 다이어그램을 생성해주세요.";
    [];
    js "## 감지된 키워드";
    join (js ", ") keywords;
    [];
    js "## 요구사항";
    js "1. 참여 시스템/컴포넌트 식별 (프론트엔드, 백엔드, DB 등)";
    js "2. API 호출 순서대로 메시지 정의";
    js "3. 요청-응답 패턴 표현";
    js "4. 조건부 분기가 있으면 alt/opt 블록 고려";
    [];
    js "## 규칙";
    js "1. Actor 타입:";
    js "   - user: 사용자/클라이언트";
    js "   - frontend: 프론트엔드 (웹, 앱)";
    js "   - backend: 백엔드 서버/API";
    js "   - database: 데이터베이스";
    js "   - external: 외부 서비스 (결제, 알림 등)";
    [];
    js "2. Message 타입:";
    js "   - sync: 동기 호출 (실선 화살표 →)";
    js "   - async: 비동기 호출 (점선 화살표 -→)";
    js "   - response: 응답 (점선 화살표 ←--)";
    [];
    js "3. 메시지 순서:";
    js "   - 시간순으로 배열";
    js "   - 요청-응답 쌍을 명확히";
    [];
    js "4. 출력 형식 (반드시 JSON만 출력):";
    js "{";
    jq "  `actors`: [";
    jq "    { `id`: `user`, `name`: `사용자`, `type`: `user` },";
    jq "    { `id`: `fe`, `name`: `Frontend`, `type`: `frontend` },";
    jq "    { `id`: `api`, `name`: `API Server`, `type`: `backend` },";
    jq "    { `id`: `db`, `name`: `Database`, `type`: `database` }";
    js "  ],";
    jq "  `messages`: [";
    jq "    { `id`: `m1`, `from`: `user`, `to`: `fe`, `label`: `로그인 버튼 클릭`, `type`: `sync` },";
    jq "    { `id`: `m2`, `from`: `fe`, `to`: `api`, `label`: `POST /auth/login`, `type`: `sync` },";
    jq "    { `id`: `m3`, `from`: `api`, `to`: `db`, `label`: `SELECT user`, `type`: `sync` },";
    jq "    { `id`: `m4`, `from`: `db`, `to`: `api`, `label`: `user data`, `type`: `response` },";
    jq "    { `id`: `m5`, `from`: `api`, `to`: `fe`, `label`: `JWT token`, `type`: `response` }";
    js "  ]";
    js "}";
    [];
    js "관련 발화:";
    []].

Definition ERD_PROMPT : jsstr :=
  lines [
    js "당신은 회의 내용을 분석하여 ERD(Entity Relationship Diagram) 데이터를 생성하는 전문가입니다.";
    [];
    js "주어진 회의 내용에서 데이터 모델, 엔티티, 관계를 추출하여 JSON 형식의 ERD 데이터로 변환하세요.";
    [];
    js "## 규칙";
    js "1. 테이블 명명:";
    js "   - PascalCase 사용 (예: User, OrderItem)";
    js "   - 복수형 피하기 (Users X → User O)";
    [];
    js "2. 컬럼 속성:";
    js "   - pk: Primary Key 여부";
    jq "   - fk: Foreign Key 참조 테이블 (예: `User`)";
    js "   - nullable: NULL 허용 여부";
    [];
    js "3. 관계 타입:";
    js "   - 1:1 (일대일)";
    js "   - 1:N (일대다)";
    js "   - N:M (다대다)";
    [];
    js "4. 필수 컬럼:";
    js "   - id (PK)";
    js "   - createdAt, updatedAt (타임스탬프)";
    [];
    js "5. 출력 형식 (반드시 JSON만 출력):";
    js "{";
    jq "  `tables`: [";
    js "    {";
    jq "      `name`: `User`,";
    jq "      `columns`: [";
    jq "        { `name`: `id`, `type`: `uuid`, `pk`: true },";
    jq "        { `name`: `email`, `type`: `varchar(255)`, `nullable`: false },";
    jq "        { `name`: `name`, `type`: `varchar(100)`, `nullable`: false },";
    jq "        { `name`: `createdAt`, `type`: `timestamp`, `nullable`: false },";
    jq "        { `name`: `updatedAt`, `type`: `timestamp`, `nullable`: false }";
    js "      ]";
    js "    },";
    js "    {";
    jq "      `name`: `Order`,";
    jq "      `columns`: [";
    jq "        { `name`: `id`, `type`: `uuid`, `pk`: true },";
    jq "        { `name`: `userId`, `type`: `uuid`, `fk`: `User`, `nullable`: false },";
    jq "        { `name`: `status`, `type`: `varchar(20)`, `nullable`: false },";
    jq "        { `name`: `totalAmount`, `type`: `decimal(10,2)`, `nullable`: false }";
    js "      ]";
    js "    }";
    js "  ],";
    jq "  `relations`: [";
    jq "    { `from`: `User`, `to`: `Order`, `type`: `1:N`, `label`: `has` }";
    js "  ]";
    js "}";
    [];
    js "회의 내용:";
    []].

Definition erd_focused (keywords : list jsstr) : jsstr :=
  lines [
    js "당신은 회의 내용을 분석하여 ERD(Entity Relationship Diagram) 데이터를 생성하는 전문가입니다.";
    [];
    js "다음은 회의에서 데이터 모델과 관련된 발화들입니다.";
    js "감지된 키워드를 중심으로 ERD를 생성해주세요.";
    [];
    js "## 감지된 키워드";
    join (js ", ") keywords;
    [];
    js "## 요구사항";
    js "1. 엔티티(테이블) 식별";
    js "2. 각 엔티티의 주요 속성 정의";
    js "3. 엔티티 간 관계 (1:1, 1:N, N:M) 표현";
    js "4. PK/FK 관계 명시";
    [];
    js "## 규칙";
    js "1. 테이블 명명:";
    js "   - PascalCase 사용 (예: User, OrderItem)";
    js "   - 복수형 피하기 (Users X → User O)";
    [];
    js "2. 컬럼 속성:";
    js "   - pk: Primary Key 여부";
    jq "   - fk: Foreign Key 참조 테이블 (예: `User`)";
    js "   - nullable: NULL 허용 여부";
    [];
    js "3. 관계 타입:";
    js "   - 1:1 (일대일)";
    js "   - 1:N (일대다)";
    js "   - N:M (다대다)";
    [];
    js "4. 필수 컬럼:";
    js "   - id (PK)";
    js "   - createdAt, updatedAt (타임스탬프)";
    [];
    js "5. 출력 형식 (반드시 JSON만 출력):";
    js "{";
    jq "  `tables`: [";
    js "    {";
    jq "      `name`: `User`,";
    jq "      `columns`: [";
    jq "        { `name`: `id`, `type`: `uuid`, `pk`: true },";
    jq "        { `name`: `email`, `type`: `varchar(255)`, `nullable`: false },";
    jq "        { `name`: `name`, `type`: `varchar(100)`, `nullable`: false },";
    jq "        { `name`: `createdAt`, `type`: `timestamp`, `nullable`: false },";
    jq "        { `name`: `updatedAt`, `type`: `timestamp`, `nullable`: false }";
    js "      ]";
    js "    },";
    js "    {";
    jq "      `name`: `Order`,";
    jq "      `columns`: [";
    jq "        { `name`: `id`, `type`: `uuid`, `pk`: true },";
    jq "        { `name`: `userId`, `type`: `uuid`, `fk`: `User`, `nullable`: false },";
    jq "        { `name`: `status`, `type`: `varchar(20)`, `nullable`: false },";
    jq "        { `name`: `totalAmount`, `type`: `decimal(10,2)`, `nullable`: false }";
    js "      ]";
    js "    }";
    js "  ],";
    jq "  `relations`: [";
    jq "    { `from`: `User`, `to`: `Order`, `type`: `1:N`, `label`: `has` }";
    js "  ]";
    js "}";
    [];
    js "관련 발화:";
    []].

Definition ARCHITECTURE_PROMPT : jsstr :=
  lines [
    js "당신은 회의 내용을 분석하여 시스템 아키텍처 다이어그램 데이터를 생성하는 전문가입니다.";
    [];
    js "주어진 회의 내용에서 시스템 구성요소와 연결관계를 추출하여 JSON 형식의 아키텍처 데이터로 변환하세요.";
    [];
    js "## 규칙";
    js "1. 노드 타입:";
    js "   - client: 클라이언트 (웹, 모바일, 데스크톱)";
    js "   - server: 서버/API";
    js "   - database: 데이터베이스";
    js "   - cache: 캐시 (Redis, Memcached)";
    js "   - queue: 메시지 큐 (Kafka, RabbitMQ)";
    js "   - external: 외부 서비스 (AWS, GCP, 3rd party)";
    js "   - loadbalancer: 로드밸런서/게이트웨이";
    [];
    js "2. 그룹(group):";
    jq "   - 논리적 그룹핑 (예: `Frontend`, `Backend`, `Data Layer`)";
    js "   - 선택적 속성";
    [];
    js "3. 연결(Connection):";
    js "   - protocol: 통신 프로토콜 (HTTP, gRPC, WebSocket, TCP 등)";
    js "   - label: 연결 설명";
    [];
    js "4. 출력 형식 (반드시 JSON만 출력):";
    js "{";
    jq "  `nodes`: [";
    jq "    { `id`: `web`, `name`: `Web App`, `type`: `client`, `group`: `Frontend` },";
    jq "    { `id`: `mobile`, `name`: `Mobile App`, `type`: `client`, `group`: `Frontend` },";
    jq "    { `id`: `lb`, `name`: `Load Balancer`, `type`: `loadbalancer` },";
    jq "    { `id`: `api1`, `name`: `API Server 1`, `type`: `server`, `group`: `Backend` },";
    jq "    { `id`: `api2`, `name`: `API Server 2`, `type`: `server`, `group`: `Backend` },";
    jq "    { `id`: `redis`, `name`: `Redis`, `type`: `cache`, `group`: `Data` },";
    jq "    { `id`: `postgres`, `name`: `PostgreSQL`, `type`: `database`, `group`: `Data` },";
    jq "    { `id`: `s3`, `name`: `AWS S3`, `type`: `external` }";
    js "  ],";
    jq "  `connections`: [";
    jq "    { `from`: `web`, `to`: `lb`, `protocol`: `HTTPS` },";
    jq "    { `from`: `mobile`, `to`: `lb`, `protocol`: `HTTPS` },";
    jq "    { `from`: `lb`, `to`: `api1`, `protocol`: `HTTP` },";
    jq "    { `from`: `lb`, `to`: `api2`, `protocol`: `HTTP` },";
    jq "    { `from`: `api1`, `to`: `redis`, `protocol`: `TCP`, `label`: `Session` },";
    jq "    { `from`: `api1`, `to`: `postgres`, `protocol`: `TCP` },";
    jq "    { `from`: `api1`, `to`: `s3`, `protocol`: `HTTPS`, `label`: `File Upload` }";
    js "  ]";
    js "}";
    [];
    js "회의 내용:";
    []].

Definition architecture_focused (keywords : list jsstr) : jsstr :=
  lines [
    js "당신은 회의 내용을 분석하여 시스템 아키텍처 다이어그램 데이터를 생성하는 전문가입니다.";
    [];
    js "다음은 회의에서 시스템 아키텍처와 관련된 발화들입니다.";
    js "감지된 키워드를 중심으로 아키텍처 다이어그램을 생성해주세요.";
    [];
    js "## 감지된 키워드";
    join (js ", ") keywords;
    [];
    js "## 요구사항";
    js "1. 주요 컴포넌트/서비스 식별";
    js "2. 레이어 구분 (프레젠테이션, 비즈니스, 데이터)";
    js "3. 컴포넌트 간 연결/의존성 표현";
    js "4. 외부 시스템 연동 포함";
    [];
    js "## 규칙";
    js "1. 노드 타입:";
    js "   - client: 클라이언트 (웹, 모바일, 데스크톱)";
    js "   - server: 서버/API";
    js "   - database: 데이터베이스";
    js "   - cache: 캐시 (Redis, Memcached)";
    js "   - queue: 메시지 큐 (Kafka, RabbitMQ)";
    js "   - external: 외부 서비스 (AWS, GCP, 3rd party)";
    js "   - loadbalancer: 로드밸런서/게이트웨이";
    [];
    js "2. 그룹(group):";
    jq "   - 논리적 그룹핑 (예: `Frontend`, `Backend`, `Data Layer`)";
    js "   - 선택적 속성";
    [];
    js "3. 연결(Connection):";
    js "   - protocol: 통신 프로토콜 (HTTP, gRPC, WebSocket, TCP 등)";
    js "   - label: 연결 설명";
    [];
    js "4. 출력 형식 (반드시 JSON만 출력):";
    js "{";
    jq "  `nodes`: [";
    jq "    { `id`: `web`, `name`: `Web App`, `type`: `client`, `group`: `Frontend` },";
    jq "    { `id`: `mobile`, `name`: `Mobile App`, `type`: `client`, `group`: `Frontend` },";
    jq "    { `id`: `lb`, `name`: `Load Balancer`, `type`: `loadbalancer` },";
    jq "    { `id`: `api1`, `name`: `API Server 1`, `type`: `server`, `group`: `Backend` },";
    jq "    { `id`: `api2`, `name`: `API Server 2`, `type`: `server`, `group`: `Backend` },";
    jq "    { `id`: `redis`, `name`: `Redis`, `type`: `cache`, `group`: `Data` },";
    jq "    { `id`: `postgres`, `name`: `PostgreSQL`, `type`: `database`, `group`: `Data` },";
    jq "    { `id`: `s3`, `name`: `AWS S3`, `type`: `external` }";
    js "  ],";
    jq "  `connections`: [";
    jq "    { `from`: `web`, `to`: `lb`, `protocol`: `HTTPS` },";
    jq "    { `from`: `mobile`, `to`: `lb`, `protocol`: `HTTPS` },";
    jq "    { `from`: `lb`, `to`: `api1`, `protocol`: `HTTP` },";
    jq "    { `from`: `lb`, `to`: `api2`, `protocol`: `HTTP` },";
    jq "    { `from`: `api1`, `to`: `redis`, `protocol`: `TCP`, `label`: `Session` },";
    jq "    { `from`: `api1`, `to`: `postgres`, `protocol`: `TCP` },";
    jq "    { `from`: `api1`, `to`: `s3`, `protocol`: `HTTPS`, `label`: `File Upload` }";
    js "  ]";
    js "}";
    [];
    js "관련 발화:";
    []].

Definition KANBAN_PROMPT : jsstr :=
  lines [
    js "당신은 회의 내용을 분석하여 칸반 보드 형태의 WBS(Work Breakdown Structure) 데이터를 생성하는 전문가입니다.";
    [];
    js "주어진 회의 내용에서 업무, 담당자, 일정을 추출하여 JSON 형식의 칸반 데이터로 변환하세요.";
    [];
    js "## 규칙";
    js "1. 태스크 상태:";
    js "   - todo: 해야 할 일";
    js "   - in_progress: 진행 중";
    js "   - review: 검토 중";
    js "   - done: 완료";
    [];
    js "2. 태스크 속성:";
    js "   - title: 명확하고 구체적인 업무 제목";
    js "   - assignee: 담당자 (언급된 경우)";
    js "   - dueDate: 마감일 (YYYY-MM-DD 형식, 언급된 경우)";
    js "   - tags: 관련 태그 (기능, 버그, 문서 등)";
    [];
    js "3. 우선순위:";
    js "   - 먼저 언급된 업무가 더 중요한 경향";
    jq "   - 명시적으로 `급한`, `먼저` 등이 언급되면 상단 배치";
    [];
    js "4. 출력 형식 (반드시 JSON만 출력):";
    js "{";
    jq "  `title`: `스프린트 #1 - 회원가입 기능`,";
    jq "  `tasks`: [";
    js "    {";
    jq "      `id`: `task1`,";
    jq "      `title`: `회원가입 API 설계`,";
    jq "      `assignee`: `김철수`,";
    jq "      `dueDate`: `2024-01-15`,";
    jq "      `status`: `in_progress`,";
    jq "      `tags`: [`backend`, `api`]";
    js "    },";
    js "    {";
    jq "      `id`: `task2`,";
    jq "      `title`: `회원가입 UI 구현`,";
    jq "      `assignee`: `이영희`,";
    jq "      `status`: `todo`,";
    jq "      `tags`: [`frontend`, `ui`]";
    js "    },";
    js "    {";
    jq "      `id`: `task3`,";
    jq "      `title`: `이메일 인증 로직 구현`,";
    jq "      `status`: `todo`,";
    jq "      `tags`: [`backend`, `email`]";
    js "    }";
    js "  ]";
    js "}";
    [];
    js "회의 내용:";
    []].
