(* ===== verification/DiagramTools.v ===== *)
(** * Diagram tools

    [src/mcp/tools/]: a tool asks the language model for a diagram as JSON, checks
    the answer and writes it as a Mermaid diagram or, for tasks, as tables.

    The answer of the model is any JSON value: fields may be missing or of another
    type, in which case they appear as [undefined] or their text, or an exception is
    thrown.  The text of numbers and the message of a type error are arguments. *)

From Stdlib Require Import ZArith QArith Lia.
From stdpp Require Import base strings option list.
From S2P Require Import Prelude JsString JsMap Json Dates Regex IntentTables Intent Search ToolPrompts.

#[local] Open Scope Z_scope.
#[local] Open Scope aura_scope.

Record ToolContext := mkContext { ctx_roomId : option jsstr; ctx_keywords : list jsstr; useFocusedContext : bool }.
Record ToolInput := mkInput { transcript : jsstr; context : option ToolContext }.
Record ToolOutput := mkOutput { type : jsstr; data : json; markdown : jsstr; generatedAt : jsstr }.

Section Tools.
Context (number_text : Q -> jsstr) (typeError : jsstr).

(* ------------------------------------------------------------------ *)
(** ** Values of the model *)

(** [`${v}`] *)
Definition show (v : option json) : jsstr := to_text number_text v.

(** [v.key], which throws for [null] *)
Definition field (v : json) (key : string) : outcome jsstr (option json) :=
  match v with JNull => Throw typeError | _ => Return (prop v (js key)) end.

(** The elements of [for (const x of v)] *)
Definition elements (v : option json) : outcome jsstr (list json) :=
  match v with
  | Some (JArr l) => Return l
  | Some (JStr s) => Return (JStr <$> code_points s)
  | _ => Throw typeError
  end.

(** [v.length === 0] *)
Definition is_empty (v : json) : bool :=
  match v with JArr [] | JStr [] => true | JObj fs => match map_get fs (js "length") with Some (JNum n) => Qeq_bool n 0 | _ => false end | _ => false end.

Fixpoint each {A} (f : json -> outcome jsstr A) (l : list json) : outcome jsstr (list A) :=
  match l with
  | [] => Return []
  | v :: l' => r <-- f v ;; rs <-- each f l' ;; Return (r :: rs)
  end.

(** [v === 'text'] *)
Definition is_text (v : option json) (s : string) : bool := match v with Some (JStr t) => bool_decide (t = js s) | _ => false end.

(** The fence of a code block: three backquotes *)
Definition fence : jsstr := [96; 96; 96].

(* ------------------------------------------------------------------ *)
(** ** Flowcharts *)

Definition flowchart_node (node : json) : outcome jsstr jsstr :=
  type <-- field node "type" ;;
  let id := show (prop node (js "id")) in
  let label := show (prop node (js "label")) in
  Return (js "    " ++
    if is_text type "start" || is_text type "end" then id ++ js "((" ++ label ++ js "))"
    else if is_text type "decision" then id ++ js "{" ++ label ++ js "}"
    else if is_text type "io" then id ++ js "[/" ++ label ++ js "/]"
    else id ++ js "[" ++ label ++ js "]").

Definition labelled (label : option json) : jsstr := if json_truthy label then js "|" ++ show label ++ js "|" else [].

Definition flowchart_edge (edge : json) : outcome jsstr jsstr :=
  label <-- field edge "label" ;;
  Return (js "    " ++ show (prop edge (js "source")) ++ js " -->" ++ labelled label ++ js " " ++ show (prop edge (js "target"))).

Definition generateMermaidFlowchart (data : json) : outcome jsstr jsstr :=
  nodes <-- elements (prop data (js "nodes")) ;;
  nodeLines <-- each flowchart_node nodes ;;
  edges <-- elements (prop data (js "edges")) ;;
  edgeLines <-- each flowchart_edge edges ;;
  Return (lines ([fence ++ js "mermaid"; js "flowchart TD"] ++ nodeLines ++ edgeLines ++ [fence])).

(* ------------------------------------------------------------------ *)
(** ** Sequence diagrams *)

Definition sequence_actor (actor : json) : outcome jsstr jsstr :=
  id <-- field actor "id" ;;
  Return (js "    participant " ++ show id ++ js " as " ++ show (prop actor (js "name"))).

Definition sequence_message (msg : json) : outcome jsstr jsstr :=
  type <-- field msg "type" ;;
  let arrow := if is_text type "async" || is_text type "response" then js "-->>" else js "->>" in
  Return (js "    " ++ show (prop msg (js "from")) ++ arrow ++ show (prop msg (js "to")) ++ js ": " ++ show (prop msg (js "label"))).

Definition generateMermaidSequence (data : json) : outcome jsstr jsstr :=
  actors <-- elements (prop data (js "actors")) ;;
  actorLines <-- each sequence_actor actors ;;
  messages <-- elements (prop data (js "messages")) ;;
  messageLines <-- each sequence_message messages ;;
  Return (lines ([fence ++ js "mermaid"; js "sequenceDiagram"] ++ actorLines ++ [[]] ++ messageLines ++ [fence])).

(* ------------------------------------------------------------------ *)
(** ** Entity relationships *)

Definition trim_end (s : jsstr) : jsstr := reverse (trim_start (reverse s)).

Definition erd_column (col : json) : outcome jsstr jsstr :=
  pk <-- field col "pk" ;;
  let pkMark := if json_truthy pk then js "PK" else if json_truthy (prop col (js "fk")) then js "FK" else [] in
  let nullMark := match prop col (js "nullable") with Some (JBool false) => [] | _ => jq "`nullable`" end in
  match prop col (js "type") with
  | Some (JStr type) =>
    Return (trim_end (js "        " ++ replace "[(),]" (js "_") type ++ js " " ++ show (prop col (js "name")) ++ js " " ++ pkMark ++ js " " ++ nullMark))
  | _ => Throw typeError
  end.

Definition erd_table (table : json) : outcome jsstr (list jsstr) :=
  name <-- field table "name" ;;
  columns <-- elements (prop table (js "columns")) ;;
  columnLines <-- each erd_column columns ;;
  Return ([js "    " ++ show name ++ js " {"] ++ columnLines ++ [js "    }"]).

Definition erd_relation (rel : json) : outcome jsstr jsstr :=
  type <-- field rel "type" ;;
  let relSymbol := if is_text type "1:N" then js "||--o{" else if is_text type "N:M" then js "}o--o{" else js "||--||" in
  let label := prop rel (js "label") in
  Return (js "    " ++ show (prop rel (js "from")) ++ js " " ++ relSymbol ++ js " " ++ show (prop rel (js "to")) ++ js " : " ++
          dq ++ (if json_truthy label then show label else []) ++ dq).

Definition generateMermaidERD (data : json) : outcome jsstr jsstr :=
  tables <-- elements (prop data (js "tables")) ;;
  tableLines <-- each erd_table tables ;;
  relations <-- elements (prop data (js "relations")) ;;
  relationLines <-- each erd_relation relations ;;
  Return (lines ([fence ++ js "mermaid"; js "erDiagram"] ++ concat tableLines ++ [[]] ++ relationLines ++ [fence])).

(* ------------------------------------------------------------------ *)
(** ** Architectures *)

Definition getNodeShape (type : option json) : jsstr * jsstr :=
  if is_text type "client" then (js "([", js "])")
  else if is_text type "database" || is_text type "cache" then (js "[(", js ")]")
  else if is_text type "queue" then (js "[[", js "]]")
  else if is_text type "loadbalancer" then (js "{{", js "}}")
  else if is_text type "external" then (js "((", js "))")
  else (js "[", js "]").

Definition arch_node (indent : jsstr) (node : json) : jsstr :=
  let shape := getNodeShape (prop node (js "type")) in
  indent ++ show (prop node (js "id")) ++ shape.1 ++ show (prop node (js "name")) ++ shape.2.

(** Nodes by group, in the order of the groups, and the nodes without a group; a
    group that is not a text has no [replace] *)
Definition arch_group (gs : outcome jsstr (jsmap jsstr (list json) * list json)) (node : json) : outcome jsstr (jsmap jsstr (list json) * list json) :=
  gs <-- gs ;;
  group <-- field node "group" ;;
  if json_truthy group then
    match group with
    | Some (JStr g) => Return (map_set gs.1 g (default [] (map_get gs.1 g) ++ [node]), gs.2)
    | _ => Throw typeError
    end
  else Return (gs.1, gs.2 ++ [node]).

Definition arch_subgraph (g : jsstr * list json) : list jsstr :=
  [js "    subgraph " ++ replace "\s+" (js "_") g.1 ++ jq "[`" ++ g.1 ++ jq "`]"] ++ (arch_node (js "        ") <$> g.2) ++ [js "    end"].

Definition arch_connection (conn : json) : outcome jsstr jsstr :=
  label <-- field conn "label" ;;
  let label := if json_truthy label then label else prop conn (js "protocol") in
  Return (js "    " ++ show (prop conn (js "from")) ++ js " -->" ++ labelled label ++ js " " ++ show (prop conn (js "to"))).

Definition generateMermaidArchitecture (data : json) : outcome jsstr jsstr :=
  nodes <-- elements (prop data (js "nodes")) ;;
  gs <-- foldl arch_group (Return ([], [])) nodes ;;
  connections <-- elements (prop data (js "connections")) ;;
  connectionLines <-- each arch_connection connections ;;
  Return (lines ([fence ++ js "mermaid"; js "flowchart TB"] ++ concat (arch_subgraph <$> gs.1) ++ (arch_node (js "    ") <$> gs.2) ++ [[]] ++
                 connectionLines ++ [fence])).

(* ------------------------------------------------------------------ *)
(** ** Tasks *)

Inductive Status := todo | in_progress | review | done.

Definition statuses : list Status := [todo; in_progress; review; done].
Definition status_key (s : Status) : string := match s with todo => "todo" | in_progress => "in_progress" | review => "review" | done => "done" end.
Definition statusLabels (s : Status) : jsstr := js match s with todo => "To Do" | in_progress => "In Progress" | review => "Review" | done => "Done" end.

#[export] Instance Status_eq : EqDecision Status.
Proof. solve_decision. Defined.

(** [statusGroups[task.status]]; [push] fails for every other status *)
Definition status_of (task : json) : outcome jsstr Status :=
  s <-- field task "status" ;;
  match find_first (fun k => is_text s (status_key k)) statuses with Some k => Return k | None => Throw typeError end.

Definition kanban_row (task : json) : outcome jsstr jsstr :=
  let or_dash v := if json_truthy v then show v else js "-" in
  tags <-- match prop task (js "tags") with
           | None | Some JNull => Return (js "-")
           | Some (JArr l) =>
             Return (or_text (join (js " ") ((fun t => [96] ++ json_text number_text t ++ [96]) <$> l)) (js "-"))
           | Some _ => Throw typeError
           end ;;
  Return (js "| " ++ show (prop task (js "title")) ++ js " | " ++ or_dash (prop task (js "assignee")) ++ js " | " ++
          or_dash (prop task (js "dueDate")) ++ js " | " ++ tags ++ js " |").

Definition kanban_head (s : Status) (count : nat) : list jsstr :=
  [js "### " ++ statusLabels s ++ js " (" ++ js_of_Z (Z.of_nat count) ++ js ")"; []; js "| Task | Assignee | Due Date | Tags |";
   js "|------|----------|----------|------|"].

(** The table of a status, none when no task has it *)
Definition kanban_table (tasks : list (Status * json)) (s : Status) : outcome jsstr (list jsstr) :=
  match List.filter (fun t => bool_decide (t.1 = s)) tasks with
  | [] => Return []
  | group =>
    rows <-- each kanban_row (snd <$> group) ;;
    Return (kanban_head s (length group) ++ rows ++ [[]])
  end.

Fixpoint kanban_tables (tasks : list (Status * json)) (l : list Status) : outcome jsstr (list jsstr) :=
  match l with
  | [] => Return []
  | s :: l' => t <-- kanban_table tasks s ;; ts <-- kanban_tables tasks l' ;; Return (t ++ ts)
  end.

Definition generateKanbanMarkdown (data : json) : outcome jsstr jsstr :=
  tasks <-- elements (prop data (js "tasks")) ;;
  grouped <-- each (fun t => s <-- status_of t ;; Return (s, t)) tasks ;;
  tables <-- kanban_tables grouped statuses ;;
  Return (lines ([js "## " ++ show (prop data (js "title")); []] ++ tables)).

(* ------------------------------------------------------------------ *)
(** ** Execution *)

Inductive DiagramTool := flowchart | sequence | erd | architecture | kanban.

Definition tool_name (t : DiagramTool) : jsstr :=
  js match t with flowchart => "flowchart" | sequence => "sequence" | erd => "erd" | architecture => "architecture" | kanban => "kanban" end.

Definition max_tokens (t : DiagramTool) : Z := match t with erd | architecture => 3000 | _ => 2000 end.

Definition tool_prompt (t : DiagramTool) (input : ToolInput) : jsstr :=
  let focused k := match context input with
                   | Some c => match useFocusedContext c, ctx_keywords c with true, (_ :: _) as ks => Some (k ks) | _, _ => None end
                   | None => None
                   end in
  match t with
  | flowchart => default FLOWCHART_PROMPT (focused flowchart_focused)
  | sequence => default SEQUENCE_PROMPT (focused sequence_focused)
  | erd => default ERD_PROMPT (focused erd_focused)
  | architecture => default ARCHITECTURE_PROMPT (focused architecture_focused)
  | kanban => KANBAN_PROMPT
  end ++ transcript input.

(** [!data.key] or [data.key.length === 0] *)
Definition missing (data : json) (key : string) : bool := negb (json_truthy (prop data (js key))).
Definition missing_or_empty (data : json) (key : string) : bool := missing data key || match prop data (js key) with Some v => is_empty v | None => true end.

Definition incomplete (t : DiagramTool) (data : json) : option jsstr :=
  match t with
  | flowchart => if missing data "nodes" || missing data "edges" || missing_or_empty data "nodes" then Some (js "플로우차트 데이터가 불완전합니다") else None
  | sequence => if missing data "actors" || missing data "messages" || missing_or_empty data "actors" then Some (js "시퀀스 다이어그램 데이터가 불완전합니다") else None
  | erd => if missing_or_empty data "tables" then Some (js "ERD 데이터가 불완전합니다") else None
  | architecture => if missing_or_empty data "nodes" then Some (js "아키텍처 데이터가 불완전합니다") else None
  | kanban => if missing_or_empty data "tasks" then Some (js "칸반 데이터가 불완전합니다") else None
  end.

Definition tool_markdown (t : DiagramTool) (data : json) : outcome jsstr jsstr :=
  match t with
  | flowchart => generateMermaidFlowchart data
  | sequence => generateMermaidSequence data
  | erd => generateMermaidERD data
  | architecture => generateMermaidArchitecture data
  | kanban => generateKanbanMarkdown data
  end.

(** [execute] after the wait for the model; [syntaxError] is the message of [JSON.parse] *)
Definition tool_result (syntaxError : jsstr) (t : DiagramTool) (now : Z) (response : jsstr) : outcome jsstr ToolOutput :=
  match match_text (compile (rx "\{[\s\S]*\}")) response with
  | None => Throw (js "LLM이 유효한 JSON을 생성하지 못했습니다")
  | Some text =>
    match Json.parse text with
    | None => Throw syntaxError
    | Some data =>
      match incomplete t data with
      | Some m => Throw m
      | None => markdown <-- tool_markdown t data ;; Return (mkOutput (tool_name t) data markdown (toISOString now))
      end
    end
  end.

(* ------------------------------------------------------------------ *)
(** ** Lemmas *)

Lemma Return_inj {E A} (a b : A) : Return (E := E) a = Return b -> a = b.
Proof. congruence. Qed.

Lemma each_Return {A} (f : json -> outcome jsstr A) l rs :
  each f l = Return rs <-> Forall2 (fun v r => f v = Return r) l rs.
Proof.
  split.
  - revert rs. induction l as [|v l IH]; intros rs; cbn [each].
    + intros [= <-]. constructor.
    + destruct (f v) as [r|] eqn:E; [|done]. destruct (each f l) as [rs'|]; [|done]. intros [= <-]. constructor; auto.
  - induction 1 as [|v r l rs Hv _ IH]; [done|]. cbn [each]. rewrite Hv. cbn. by rewrite IH.
Qed.

Lemma existsb_filter {A} (p : A -> bool) l : existsb p l = match List.filter p l with [] => false | _ => true end.
Proof. induction l as [|x l IH]; [done|]. cbn. by destruct (p x). Qed.

(** The groups of the statuses hold every task once *)
Lemma groups_perm (tasks : list (Status * json)) : (statuses ≫= fun s => List.filter (fun t => bool_decide (t.1 = s)) tasks) ≡ₚ tasks.
Proof.
  induction tasks as [|[s t] tasks IH]; [done|]. transitivity ((s, t) :: (statuses ≫= fun s => List.filter (fun t => bool_decide (t.1 = s)) tasks)); [|by constructor].
  cbn [statuses mbind list_bind List.filter fst]. rewrite !app_nil_r.
  destruct s; repeat (rewrite bool_decide_eq_true_2 by done || rewrite bool_decide_eq_false_2 by done); solve_Permutation.
Qed.

(** The lines of one table: its rows and, when it has any, five others *)
Lemma kanban_table_lines tasks s ls :
  kanban_table tasks s = Return ls ->
  let group := List.filter (fun t => bool_decide (t.1 = s)) tasks in
  exists rows heads, each kanban_row (snd <$> group) = Return rows /\ ls ≡ₚ rows ++ heads /\ length heads = match group with [] => 0%nat | _ => 5%nat end.
Proof.
  unfold kanban_table. cbv zeta. destruct (List.filter _ tasks) as [|x group]; [intros [= <-]; by exists [], []|].
  destruct (each kanban_row (snd <$> x :: group)) as [rows|]; [|done]. cbn [outcome_bind]. intros <-%Return_inj.
  exists rows, (kanban_head s (length (x :: group)) ++ [[]]). split_and!; [done| |by rewrite length_app].
  rewrite (Permutation_app_comm rows (_ ++ _)), <- app_assoc. apply Permutation_app_head, Permutation_app_comm.
Qed.

Lemma kanban_tables_lines tasks l ls :
  kanban_tables tasks l = Return ls ->
  exists rows heads, each kanban_row (snd <$> (l ≫= fun s => List.filter (fun t => bool_decide (t.1 = s)) tasks)) = Return rows /\ ls ≡ₚ rows ++ heads /\
    length heads = (5 * length (List.filter (fun s => existsb (fun t => bool_decide (t.1 = s)) tasks) l))%nat.
Proof.
  revert ls. induction l as [|s l IH]; intros ls; cbn [kanban_tables]; [intros [= <-]; by exists [], []|].
  destruct (kanban_table tasks s) as [t|] eqn:Et; [|done]. destruct (kanban_tables tasks l) as [ts|]; [|done]. cbn [outcome_bind]. intros <-%Return_inj.
  destruct (kanban_table_lines _ _ _ Et) as (r1 & h1 & E1 & P1 & L1). destruct (IH ts eq_refl) as (r2 & h2 & E2 & P2 & L2).
  exists (r1 ++ r2), (h1 ++ h2). split_and!.
  - cbn [mbind list_bind]. rewrite fmap_app. apply each_Return. apply Forall2_app; by apply each_Return.
  - rewrite P1, P2. solve_Permutation.
  - rewrite length_app, L1, L2. cbn [List.filter]. rewrite (existsb_filter (fun t : Status * json => bool_decide (t.1 = s))).
    destruct (List.filter _ tasks); cbn [length]; lia.
Qed.

Lemma each_perm {A} (f : json -> outcome jsstr A) l l' rs : l ≡ₚ l' -> each f l = Return rs -> exists rs', each f l' = Return rs' /\ rs ≡ₚ rs'.
Proof.
  intros Hp H%each_Return. destruct (Permutation_Forall2 Hp H) as (rs' & Hr & H').
  exists rs'. split; [by apply each_Return|done].
Qed.
(** The tasks with their statuses *)
Lemma grouped_tasks tasks grouped :
  each (fun t => s <-- status_of t ;; Return (s, t)) tasks = Return grouped ->
  snd <$> grouped = tasks /\ Forall (fun g => status_of g.2 = Return g.1) grouped.
Proof.
  intros H%each_Return. induction H as [|t [s t'] tasks grouped Ht _ [IH1 IH2]]; [by split|]. destruct (status_of t) as [s'|] eqn:E; [|done].
  apply Return_inj in Ht. injection Ht as -> ->. cbn. by rewrite IH1; split; [|constructor].
Qed.

Lemma each_throws {A} (f : json -> outcome jsstr A) l v :
  (forall x m, f x = Throw m -> m = typeError) -> v ∈ l -> f v = Throw typeError -> each f l = Throw typeError.
Proof.
  intros Hf Hv Hx. induction l as [|x l IH]; [by apply elem_of_nil in Hv|]. cbn [each]. destruct (f x) as [r|m] eqn:E; cbn [outcome_bind].
  - apply elem_of_cons in Hv as [->|Hv]; [congruence|]. by rewrite (IH Hv).
  - f_equal. by apply (Hf x).
Qed.

Lemma status_of_throws t m : status_of t = Throw m -> m = typeError.
Proof. unfold status_of, field. destruct t; cbn [outcome_bind]; try (destruct (find_first _ _)); congruence. Qed.
End Tools.

(* ------------------------------------------------------------------ *)
(** ** Properties *)

(** the board of tasks lists every task of the model's answer exactly once, in
    the table of its status: the lines after the title are the rows of the tasks and
    five lines for each status that occurs. *)
Theorem kanban_lists_tasks_once number_text typeError data m :
  generateKanbanMarkdown number_text typeError data = Return m ->
  exists tasks grouped rows heads ls,
    elements typeError (prop data (js "tasks")) = Return tasks /\
    snd <$> grouped = tasks /\ Forall (fun g => status_of typeError g.2 = Return g.1) grouped /\
    each (kanban_row number_text typeError) tasks = Return rows /\
    m = lines ([js "## " ++ show number_text (prop data (js "title")); []] ++ ls) /\ ls ≡ₚ rows ++ heads /\
    length heads = (5 * length (List.filter (fun s => existsb (fun g : Status * json => bool_decide (g.1 = s)) grouped) statuses))%nat.
Proof.
  unfold generateKanbanMarkdown. destruct (elements _ _) as [tasks|]; [|done]. cbn [outcome_bind].
  destruct (each _ tasks) as [grouped|] eqn:Eg; [|done]. cbn [outcome_bind]. destruct (kanban_tables _ _ grouped statuses) as [ls|] eqn:Et; [|done]. cbn [outcome_bind].
  intros <-%Return_inj. apply grouped_tasks in Eg as [Eg Ef]. destruct (kanban_tables_lines _ _ _ _ _ Et) as (rows & heads & Er & Hp & Hl).
  destruct (each_perm _ _ _ _ (fmap_Permutation snd _ _ (groups_perm grouped)) Er) as (rows' & Er' & Hr). rewrite Eg in Er'.
  exists tasks, grouped, rows', heads, ls. split_and!; try done. by rewrite Hp, Hr.
Qed.

Definition some_board : json :=
  JObj [(js "title", JStr (js "S1")); (js "tasks", JArr [JObj [(js "title", JStr (js "A")); (js "status", JStr (js "done"))];
        JObj [(js "title", JStr (js "B")); (js "status", JStr (js "todo")); (js "tags", JArr [JStr (js "x")])]])].

Lemma kanban_lists_tasks_once_witness :
  exists tasks grouped rows heads ls,
    elements [] (prop some_board (js "tasks")) = Return tasks /\
    snd <$> grouped = tasks /\ Forall (fun g => status_of [] g.2 = Return g.1) grouped /\
    each (kanban_row (fun _ => []) []) tasks = Return rows /\
    lines [js "## S1"; []; js "### To Do (1)"; []; js "| Task | Assignee | Due Date | Tags |"; js "|------|----------|----------|------|"; js "| B | - | - | " ++ [96; 120; 96] ++ js " |"; [];
           js "### Done (1)"; []; js "| Task | Assignee | Due Date | Tags |"; js "|------|----------|----------|------|"; js "| A | - | - | - |"; []]
    = lines ([js "## " ++ show (fun _ => []) (prop some_board (js "title")); []] ++ ls) /\ ls ≡ₚ rows ++ heads /\
    length heads = (5 * length (List.filter (fun s => existsb (fun g : Status * json => bool_decide (g.1 = s)) grouped) statuses))%nat.
Proof. apply (kanban_lists_tasks_once (fun _ => []) []). vm_compute. reflexivity. Defined.

(** one task whose status is not one of the four makes the whole board fail. *)
Theorem kanban_needs_known_statuses number_text typeError data tasks task :
  elements typeError (prop data (js "tasks")) = Return tasks -> task ∈ tasks -> status_of typeError task = Throw typeError ->
  generateKanbanMarkdown number_text typeError data = Throw typeError.
Proof.
  intros He Ht Hs. unfold generateKanbanMarkdown. rewrite He. cbn [outcome_bind].
  rewrite (each_throws typeError _ tasks task); [done| |done|by rewrite Hs].
  intros x m. destruct (status_of typeError x) eqn:E; [done|]. intros [= <-]. by apply (status_of_throws _ _ _ E).
Qed.

Lemma kanban_needs_known_statuses_witness :
  generateKanbanMarkdown (fun _ => []) (js "TypeError") (JObj [(js "tasks", JArr [JObj [(js "status", JStr (js "blocked"))]; JObj [(js "status", JStr (js "todo"))]])]) = Throw (js "TypeError").
Proof.
  apply (kanban_needs_known_statuses (fun _ => []) (js "TypeError") _ [JObj [(js "status", JStr (js "blocked"))]; JObj [(js "status", JStr (js "todo"))]] (JObj [(js "status", JStr (js "blocked"))])).
  - reflexivity.
  - left.
  - vm_compute. reflexivity.
Defined.
