(* ===== verification/JsonLines.v ===== *)
(** * Values as lines

    JSON values, one per line: the text of a value has no line break and is not
    blank, and text that is cut into lines piece by piece gives the lines of the
    whole. *)

From Stdlib Require Import ZArith QArith Lia DecimalString.
From stdpp Require Import base strings option list.
From S2P Require Import Prelude JsString JsMap Json.

#[local] Open Scope Z_scope.

(* ------------------------------------------------------------------ *)
(** ** Lines of a text *)

Definition full_lines (s : jsstr) : list jsstr := removelast (split_char 10 s).
Definition last_line (s : jsstr) : jsstr := List.last (split_char 10 s) [].

Lemma last_app_ne {A} (l l' : list A) d : l' <> [] -> List.last (l ++ l') d = List.last l' d.
Proof.
  intros H. induction l as [|x l IH]; [done|]. cbn [app]. rewrite <- IH. cbn. destruct (l ++ l') eqn:E; [|done].
  by apply app_eq_nil in E as [_ E].
Qed.

(** No line break *)
Definition one_line (s : jsstr) : Prop := Forall (fun c => c <> 10) s.

Lemma split_lines s : split_char 10 s = full_lines s ++ [last_line s].
Proof. apply app_removelast_last, split_on_not_nil. Qed.

Lemma split_one_line s t : one_line s -> split_char 10 (s ++ t) = match split_char 10 t with w :: ws => (s ++ w) :: ws | [] => [] end.
Proof.
  unfold split_char. induction 1 as [|c s Hc _ IH]; cbn [app split_on].
  - destruct (split_on _ t) eqn:E; [by apply split_on_not_nil in E|done].
  - destruct (Z.eqb_spec 10 c); [done|]. rewrite IH. pose proof (split_on_not_nil (Z.eqb 10) t). by destruct (split_on _ t).
Qed.

Lemma split_app s t : split_char 10 (s ++ t) = full_lines s ++ split_char 10 (last_line s ++ t).
Proof.
  unfold full_lines, last_line, split_char. induction s as [|c s IH]; [done|]. cbn [app split_on].
  pose proof (split_on_not_nil (Z.eqb 10) s) as Hne. destruct (Z.eqb_spec 10 c) as [<-|Hc].
  - destruct (split_on _ s) as [|w ws]; [done|]. by rewrite IH.
  - rewrite IH. destruct (split_on _ s) as [|w [|w' ws]]; [done| |done]. cbn [removelast List.last app split_on].
    destruct (Z.eqb_spec 10 c); [done|]. destruct (split_on _ (w ++ t)) eqn:E; [by apply split_on_not_nil in E|done].
Qed.

Lemma full_lines_app s t : full_lines (s ++ t) = full_lines s ++ full_lines (last_line s ++ t).
Proof. unfold full_lines at 1 3. rewrite split_app. apply removelast_app, split_on_not_nil. Qed.

Lemma last_line_app s t : last_line (s ++ t) = last_line (last_line s ++ t).
Proof. unfold last_line at 1 2. rewrite split_app. apply last_app_ne, split_on_not_nil. Qed.

Lemma last_line_one_line s : one_line (last_line s).
Proof.
  unfold one_line, last_line, split_char. induction s as [|c s IH]; [constructor|]. cbn [split_on].
  pose proof (split_on_not_nil (Z.eqb 10) s) as Hne. destruct (Z.eqb_spec 10 c); [by destruct (split_on _ s)|].
  destruct (split_on _ s) as [|w [|w' ws]]; [done| |done]. by constructor.
Qed.

Lemma one_line_split s : one_line s -> split_char 10 s = [s].
Proof. intros H. rewrite <- (app_nil_r s) at 1. rewrite (split_one_line _ _ H). cbn. by rewrite app_nil_r. Qed.

(** Lines, each with its break *)
Lemma split_framed ls : Forall one_line ls -> split_char 10 (concat ((fun l => l ++ nl) <$> ls)) = ls ++ [[]].
Proof.
  induction 1 as [|l ls Hl _ IH]; [done|]. cbn [fmap list_fmap concat]. rewrite <- app_assoc, (split_one_line _ _ Hl).
  unfold nl, split_char in *. cbn [app split_on]. rewrite Z.eqb_refl. rewrite IH. by rewrite app_nil_r.
Qed.

Lemma full_lines_framed ls : Forall one_line ls -> full_lines (concat ((fun l => l ++ nl) <$> ls)) = ls.
Proof. intros H. unfold full_lines. rewrite (split_framed _ H). apply removelast_last. Qed.

Lemma last_line_framed ls : Forall one_line ls -> last_line (concat ((fun l => l ++ nl) <$> ls)) = [].
Proof. intros H. unfold last_line. rewrite (split_framed _ H). apply last_last. Qed.

(* ------------------------------------------------------------------ *)
(** ** Text of a value *)

Lemma one_line_app s t : one_line (s ++ t) <-> one_line s /\ one_line t.
Proof. apply Forall_app. Qed.

Lemma hex_digit_line n : 0 <= n < 16 -> hex_digit n <> 10.
Proof. unfold hex_digit. destruct (Z.ltb_spec n 10); lia. Qed.

Lemma unicode_escape_line c : one_line (unicode_escape c).
Proof.
  unfold unicode_escape, one_line. repeat (apply Forall_cons_2; [first [lia|apply hex_digit_line, Z.mod_pos_bound; lia]|]). constructor.
Qed.

Lemma escape_one_line c : one_line (escape_one c).
Proof.
  unfold escape_one. repeat (case_match; [first [apply unicode_escape_line|unfold one_line; repeat (apply Forall_cons_2; [lia|]); constructor]|]).
  apply Forall_singleton. lia.
Qed.

Lemma escape_line n s : (length s <= n)%nat -> one_line (escape s).
Proof.
  revert s. induction n as [|n IH]; intros [|c [|d s]] H; cbn [length] in H; try lia; cbn [escape]; try apply Forall_nil_2; try apply escape_one_line.
  destruct (is_surrogate_high c && is_surrogate_low d) eqn:E.
  - unfold is_surrogate_high, is_surrogate_low in E. repeat (constructor; [lia|]). apply IH. lia.
  - apply one_line_app. split; [apply escape_one_line|]. apply (IH (d :: s)). cbn [length]. lia.
Qed.

Lemma quote_line s : one_line (quote s).
Proof. constructor; [done|]. apply one_line_app. split; [by apply (escape_line (length s))|by repeat constructor]. Qed.

Lemma js_of_Z_line n : one_line (js_of_Z n).
Proof.
  assert (forall p, one_line (pos_units p)) as H.
  { intros p. unfold pos_units. eapply Forall_impl; [apply units_dec|]. intros c Hc. unfold is_dec in Hc. lia. }
  destruct n; [by repeat constructor|rewrite js_of_Z_pos; apply H|rewrite js_of_Z_neg; constructor; [done|apply H]].
Qed.

Lemma bracketed_line l r items : l <> 10 -> r <> 10 -> Forall one_line items -> one_line (bracketed [] [] l r items).
Proof.
  intros Hl Hr H. destruct items as [|x items]; [by repeat constructor|]. cbn [bracketed break app]. constructor; [done|]. apply one_line_app. split; [|by repeat constructor].
  unfold items_text. induction H as [|y ys Hy Hys IH]; [constructor|]. destruct ys as [|z ys]; [done|].
  change (join [44] (y :: z :: ys)) with (y ++ [44] ++ join [44] (z :: ys)). rewrite !one_line_app. by repeat constructor.
Qed.

Lemma stringify_one_line v : one_line (stringify v).
Proof.
  unfold stringify. induction v as [|[]|n|s|l IH|fs IH] using json_induction; cbn [print]; try (by apply (bool_decide_unpack _)).
  - apply js_of_Z_line.
  - apply quote_line.
  - apply bracketed_line; [done|done|]. by apply Forall_fmap.
  - apply bracketed_line; [done|done|]. apply Forall_fmap. eapply Forall_impl; [exact IH|]. intros f Hf. apply (proj2 (one_line_app (quote f.1) _)). split; [apply quote_line|].
    by constructor.
Qed.

(* ------------------------------------------------------------------ *)
(** ** Values are not blank *)

Lemma trim_solid c s : is_space c = false -> trim (c :: s) <> [].
Proof.
  intros Hc. unfold trim. cbn [trim_start]. rewrite Hc, reverse_cons. intros H%(f_equal reverse). rewrite reverse_involutive in H.
  change (reverse []) with (@nil Z) in H. revert H. generalize (reverse s). intros l. induction l as [|d l IH]; cbn [app trim_start]; [by rewrite Hc|by destruct (is_space d)].
Qed.

Lemma stringify_not_blank v : trim (stringify v) <> [].
Proof.
  assert (exists c t, stringify v = c :: t /\ is_space c = false) as (c & t & -> & Hc); [|by apply trim_solid].
  unfold stringify. destruct v as [|b|n|s|l|fs]; cbn [print].
  - by eexists _, _; split; [vm_compute; reflexivity|].
  - destruct b; by eexists _, _; split; [vm_compute; reflexivity|].
  - destruct (js_of_Z_starts (Qnum n)) as (c & t & -> & Hc). exists c, t. split; [done|]. unfold is_space. lia.
  - by eexists _, _; split; [reflexivity|].
  - destruct (print [] ([] ++ []) <$> l); by eexists _, _; split; [reflexivity|].
  - destruct ((fun f => _) <$> fs); by eexists _, _; split; [reflexivity|].
Qed.
