(* ===== verification/McpClient.v ===== *)
(** * The client of tool servers

    [src/mcp/client/mcp-client.service.ts] and [mcp-config.service.ts]: external
    servers are processes that are asked with JSON-RPC, one message per line.

    Connections are objects that closures share: [conns] holds them, by number, with
    their processes, and [connections] refers to them by name.  A promise is a place
    of [promises].  [connect], [listTools] and [callTool] are programs of [Async] that
    wait for promises.  [client_step] is one turn of the event loop: a call, the
    continuation of a call whose promise is settled, output or the end of a process,
    the end of a write, or a timeout that is due. *)

From Stdlib Require Import ZArith QArith Qround Lia.
From stdpp Require Import base strings option sets list.
From S2P Require Import Prelude JsString JsMap Json Records JsonLines Utf8 Async Pool.

#[local] Open Scope Z_scope.
#[local] Open Scope prog_scope.

(* ------------------------------------------------------------------ *)
(** ** State *)

Inductive McpConnectionState := disconnected | connecting | connected | error.

#[export] Instance McpConnectionState_eq : EqDecision McpConnectionState.
Proof. solve_decision. Defined.

Record McpServerConfig := mkConfig { name : jsstr; command : jsstr; args : list jsstr }.

(** [process] is the process with the number of the connection; [tools] is what the
    server sent; [pendingRequests] refers to promises *)
Record McpConnection := mkConnection {
  config : McpServerConfig;
  state : McpConnectionState;
  tools : option json;
  pendingRequests : jsmap Z nat;
  requestId : Z;
  buffer : jsstr
}.

#[export] Instance McpConnection_eta : Eta _ :=
  fun c => mkConnection (config c) (state c) (tools c) (pendingRequests c) (requestId c) (buffer c).

(** A request that was written, with the time *)
Record Request := mkRequest { conn_of : nat; id_of : Z; method_of : jsstr; promise_of : nat; sent_at : Z }.

(** The callback of a write: of a request, or of a notification with its promise *)
Inductive WriteCallback := RequestWritten (r : Request) | NotificationWritten (p : nat).

Record Client := mkClient {
  connections : jsmap jsstr nat;
  conns : list McpConnection;
  promises : list (option (outcome jsstr (option json)));
  writes : list (nat * jsstr * WriteCallback);
  timers : list (Z * Request);
  killed : list nat;
  servers : list McpServerConfig
}.

#[export] Instance Client_eta : Eta _ :=
  fun s => mkClient (connections s) (conns s) (promises s) (writes s) (timers s) (killed s) (servers s).

Definition initial : Client := mkClient [] [] [] [] [] [] [].

Definition REQUEST_TIMEOUT : Z := 30000.

(** The only effect is to wait for a promise *)
Inductive ClientEff : Type -> Type :=
| Wait (p : nat) : ClientEff (option json).

Abbreviation client := (@Async.prog Client ClientEff).

(* ------------------------------------------------------------------ *)
(** ** Promises and connections *)

Definition update (cid : nat) (f : McpConnection -> McpConnection) (s : Client) : Client := s <| conns := alter f cid (conns s) |>.

(** [resolve] or [reject]; only the first call counts *)
Definition settle (p : nat) (r : outcome jsstr (option json)) (s : Client) : Client :=
  match promises s !! p with
  | Some None => s <| promises := <[p := Some r]> (promises s) |>
  | _ => s
  end.

Definition new_promise (r : option (outcome jsstr (option json))) (s : Client) : nat * Client :=
  (length (promises s), s <| promises := promises s ++ [r] |>).

Definition set_state (cid : nat) (st : McpConnectionState) : Client -> Client := update cid (fun c => c <| state := st |>).

Definition delete_request (cid : nat) (id : Z) : Client -> Client := update cid (fun c => c <| pendingRequests := map_delete (pendingRequests c) id |>).

Definition not_connected (serverName : jsstr) : jsstr := js "MCP server not connected: " ++ serverName.

(* ------------------------------------------------------------------ *)
(** ** Requests *)

(** The text of a message, and the line break that ends it *)
Definition message_text (id : option Z) (method : jsstr) (params : option json) : jsstr :=
  stringify (JObj ([(js "jsonrpc", JStr (js "2.0"))] ++ opt_field "id" ((fun i => JNum (inject_Z i)) <$> id) ++
                   [(js "method", JStr method)] ++ opt_field "params" params)) ++ nl.

Definition sendRequest (now : Z) (serverName method : jsstr) (params : option json) (s : Client) : nat * Client :=
  match map_get (connections s) serverName with
  | None => new_promise (Some (Throw (not_connected serverName))) s
  | Some cid =>
    let id := from_option requestId 0 (conns s !! cid) + 1 in
    let '(p, s) := new_promise None (update cid (fun c => c <| requestId := id |>) s) in
    let r := mkRequest cid id method p now in
    (p, (update cid (fun c => c <| pendingRequests := map_set (pendingRequests c) id p |>) s)
          <| writes := writes s ++ [(cid, message_text (Some id) method params, RequestWritten r)] |>
          <| timers := timers s ++ [(now + REQUEST_TIMEOUT, r)] |>)
  end.

Definition sendNotification (serverName method : jsstr) (params : option json) (s : Client) : nat * Client :=
  match map_get (connections s) serverName with
  | None => new_promise (Some (Throw (not_connected serverName))) s
  | Some cid =>
    let '(p, s) := new_promise None s in
    (p, s <| writes := writes s ++ [(cid, message_text None method params, NotificationWritten p)] |>)
  end.

(** The callback of a write *)
Definition written (cb : WriteCallback) (err : option jsstr) (s : Client) : Client :=
  match cb, err with
  | RequestWritten r, Some m => settle (promise_of r) (Throw m) (delete_request (conn_of r) (id_of r) s)
  | RequestWritten _, None => s
  | NotificationWritten p, Some m => settle p (Throw m) s
  | NotificationWritten p, None => settle p (Return None) s
  end.

(** The callback of the timeout *)
Definition timed_out (r : Request) (s : Client) : Client :=
  match conns s !! conn_of r ≫= fun c => map_get (pendingRequests c) (id_of r) with
  | Some _ => settle (promise_of r) (Throw (js "Request timeout: " ++ method_of r)) (delete_request (conn_of r) (id_of r) s)
  | None => s
  end.

(* ------------------------------------------------------------------ *)
(** ** Answers *)

Section Answers.
(** The text of numbers *)
Context (number_text : Q -> jsstr).

(** A number that a key of [pendingRequests] equals *)
Definition key_of (v : option json) : option Z :=
  match v with Some (JNum q) => if Qeq_bool q (inject_Z (Qfloor q)) then Some (Qfloor q) else None | _ => None end.

(** [new Error(response.error.message)]: the message is its text, empty for [undefined] *)
Definition error_message (e : json) : jsstr :=
  match prop e (js "message") with None => [] | m => to_text number_text m end.

(** [null] has no fields: the exception is caught by the caller *)
Definition handleResponse (serverName : jsstr) (s : Client) (response : json) : Client :=
  match map_get (connections s) serverName with
  | None => s
  | Some cid =>
    match key_of (prop response (js "id")) with
    | None => s
    | Some id =>
      match conns s !! cid ≫= fun c => map_get (pendingRequests c) id with
      | None => s
      | Some p =>
        let s := delete_request cid id s in
        match prop response (js "error") with
        | Some e => if json_truthy (Some e) then settle p (Throw (error_message e)) s else settle p (Return (prop response (js "result"))) s
        | None => settle p (Return (prop response (js "result"))) s
        end
      end
    end
  end.

Definition handle_line (serverName : jsstr) (s : Client) (line : jsstr) : Client :=
  match trim line with
  | [] => s
  | _ => match Json.parse line with Some v => handleResponse serverName s v | None => s end
  end.

(** [handleStdout] for the text of the data: the lines that are complete, and the rest *)
Definition receive (serverName : jsstr) (s : Client) (text : jsstr) : Client :=
  match map_get (connections s) serverName with
  | None => s
  | Some cid =>
    let text := from_option buffer [] (conns s !! cid) ++ text in
    foldl (handle_line serverName) (update cid (fun c => c <| buffer := last_line text |>) s) (full_lines text)
  end.

Definition handleStdout (serverName : jsstr) (s : Client) (data : list Z) : Client := receive serverName s (toString data).

(* ------------------------------------------------------------------ *)
(** ** Calls *)

(** The message of an error of the runtime *)
Context (typeError : jsstr).

(** A promise of [f], awaited *)
Definition request (f : Z -> Client -> nat * Client) : client (option json) :=
  t <- now ;; s <- get ;; let '(p, s') := f t s in modify (fun _ _ => s') ;;; await (Wait p).

Definition callTool (serverName toolName : jsstr) (args : option json) : client (option json) :=
  request (fun t => sendRequest t serverName (js "tools/call") (Some (JObj ([(js "name", JStr toolName)] ++ opt_field "arguments" args)))).

Definition listTools (serverName : jsstr) : client (option json) :=
  result <- request (fun t => sendRequest t serverName (js "tools/list") None) ;;
  match result with
  | None | Some JNull => Raise typeError
  | Some r => Ret (prop r (js "tools"))
  end.

Definition initialize_params : json :=
  JObj [(js "protocolVersion", JStr (js "2024-11-05"));
        (js "capabilities", JObj [(js "roots", JObj [(js "listChanged", JBool true)])]);
        (js "clientInfo", JObj [(js "name", JStr (js "aura-mcp-client")); (js "version", JStr (js "1.0.0"))])].

Definition initialize (serverName : jsstr) : client (option json) :=
  result <- request (fun t => sendRequest t serverName (js "initialize") (Some initialize_params)) ;;
  request (fun _ => sendNotification serverName (js "notifications/initialized") None) ;;;
  Ret result.

(** A new process with its connection *)
Definition spawn (cfg : McpServerConfig) (s : Client) : Client :=
  s <| conns := conns s ++ [mkConnection cfg connecting None [] 0 []] |>
    <| connections := map_set (connections s) (name cfg) (length (conns s)) |>.

(** [tools.length] in the log throws for [undefined] and [null] *)
Definition connect (cfg : McpServerConfig) : client (option json) :=
  s <- get ;;
  if map_has (connections s) (name cfg) then Ret None
  else
    let cid := length (conns s) in
    modify (fun _ _ => spawn cfg s) ;;;
    try_catch
      (initialize (name cfg) ;;;
       modify (fun _ => set_state cid connected) ;;;
       l <- listTools (name cfg) ;;
       modify (fun _ => update cid (fun c => c <| tools := l |>)) ;;;
       match l with None | Some JNull => Raise typeError | Some _ => Ret None end)
      (fun m => modify (fun _ => set_state cid error) ;;; Raise m).

Definition disconnect (serverName : jsstr) (s : Client) : Client :=
  match map_get (connections s) serverName with
  | Some cid => s <| killed := killed s ++ [cid] |> <| connections := map_delete (connections s) serverName |>
  | None => s
  end.

Definition onModuleDestroy (s : Client) : Client :=
  s <| killed := killed s ++ map_values (connections s) |> <| connections := [] |>.

Definition getAllTools (s : Client) : jsmap jsstr (option json) :=
  omap (fun e => c ← conns s !! e.2; if decide (state c = connected) then Some (e.1, tools c) else None) (connections s).

Definition getConnectionState (s : Client) (serverName : jsstr) : McpConnectionState :=
  match map_get (connections s) serverName ≫= fun cid => conns s !! cid with Some c => state c | None => disconnected end.

(* ------------------------------------------------------------------ *)
(** ** Servers *)

Definition DEFAULT_SERVERS (path : option jsstr) : list McpServerConfig :=
  [mkConfig (js "filesystem") (js "npx")
     [js "-y"; js "@modelcontextprotocol/server-filesystem"; match path with Some ((_ :: _) as p) => p | _ => js "/tmp/aura" end]].

(** The variable [MCP_SERVERS], in which an array holds configurations *)
Inductive EnvServers := NotSet | NotJson | NotArray | EnvArray (l : list McpServerConfig).

Definition loadServersFromEnv (env : EnvServers) (s : Client) : Client :=
  match env with EnvArray l => s <| servers := servers s ++ l |> | _ => s end.

Definition getServer (s : Client) (n : jsstr) : option McpServerConfig := find_first (fun c => bool_decide (name c = n)) (servers s).

Definition addServer (cfg : McpServerConfig) (s : Client) : Client :=
  match getServer s (name cfg) with Some _ => s | None => s <| servers := servers s ++ [cfg] |> end.

Definition removeServer (n : jsstr) (s : Client) : Client :=
  disconnect n (s <| servers := List.filter (fun c => negb (bool_decide (name c = n))) (servers s) |>).

(** The servers at the time of the call, one after the other *)
Fixpoint connect_each (l : list McpServerConfig) : client (option json) :=
  match l with
  | [] => Ret None
  | cfg :: l' => try_catch (connect cfg) (fun _ => Ret None) ;;; connect_each l'
  end.

Definition connectAll : client (option json) := s <- get ;; connect_each (servers s).

Definition connectServer (n : jsstr) : client (option json) :=
  s <- get ;;
  match getServer s n with Some cfg => connect cfg | None => Raise (js "MCP server not configured: " ++ n) end.

(** [MCP_AUTO_CONNECT] is a text when it is set, and every text but the empty one is true *)
Definition onModuleInit (env : EnvServers) (path autoConnect : option jsstr) : client (option json) :=
  modify (fun _ s => (loadServersFromEnv env s) <| servers := servers (loadServersFromEnv env s) ++ DEFAULT_SERVERS path |>) ;;;
  match autoConnect with Some (_ :: _) => connectAll | _ => Ret None end.

(* ------------------------------------------------------------------ *)
(** ** Executions *)

Inductive CallOf :=
| CallTool (serverName toolName : jsstr) (args : option json)
| Connect (cfg : McpServerConfig)
| ConnectServer (n : jsstr)
| ConnectAll
| Init (env : EnvServers) (path autoConnect : option jsstr).

Definition program (c : CallOf) : client (option json) :=
  match c with
  | CallTool n tool args => callTool n tool args
  | Connect cfg => connect cfg
  | ConnectServer n => connectServer n
  | ConnectAll => connectAll
  | Init env path auto => onModuleInit env path auto
  end.

Inductive ClientEvent :=
| Begins (c : CallOf)
| Continues (i : nat)
| Outputs (cid : nat) (data : list Z)
| Closes (cid : nat)
| Fails (cid : nat)
| WriteEnds (w : nat) (err : option jsstr)
| Fires (k : nat)
| Disconnects (serverName : jsstr)
| Adds (cfg : McpServerConfig)
| Removes (n : jsstr)
| Destroyed.

(** The answer to a wait, once the promise is settled *)
Definition answer (s : Client) {R} (e : ClientEff R) : option (outcome jsstr R) :=
  match e in ClientEff R return option (outcome jsstr R) with Wait p => mjoin (promises s !! p) end.

(** One turn of the event loop at time [t]; an event that cannot occur does nothing *)
Definition client_step (c : Client * list (client (option json))) (turn : Z * ClientEvent) : Client * list (client (option json)) :=
  let '(s, calls) := c in
  let '(t, e) := turn in
  match e with
  | Begins c => let '(s', p) := segment t s (program c) in (s', calls ++ [p])
  | Continues i =>
    match calls !! i with
    | Some (Await e k) =>
      match answer s e with
      | Some r => let '(s', p) := segment t s (k r) in (s', <[i := p]> calls)
      | None => (s, calls)
      end
    | _ => (s, calls)
    end
  | Outputs cid data => (match conns s !! cid with Some c => handleStdout (name (config c)) s data | None => s end, calls)
  | Closes cid => (set_state cid disconnected s, calls)
  | Fails cid => (set_state cid error s, calls)
  | WriteEnds w err => (match writes s !! w with Some x => written x.2 err s | None => s end, calls)
  | Fires k => (match timers s !! k with Some (due, r) => if due <=? t then timed_out r s else s | None => s end, calls)
  | Disconnects n => (disconnect n s, calls)
  | Adds cfg => (addServer cfg s, calls)
  | Removes n => (removeServer n s, calls)
  | Destroyed => (onModuleDestroy s, calls)
  end.

(* ------------------------------------------------------------------ *)
(** ** Output in pieces *)

Definition set_buffer (cid : nat) (b : jsstr) : Client -> Client := update cid (fun c => c <| buffer := b |>).

Lemma settle_update p r cid f s : settle p r (update cid f s) = update cid f (settle p r s).
Proof. unfold settle. cbn. by destruct (promises s !! p) as [[]|]. Qed.

Lemma delete_set_buffer i id j b s : delete_request i id (set_buffer j b s) = set_buffer j b (delete_request i id s).
Proof.
  unfold delete_request, set_buffer, update. destruct s as [? l ? ? ? ? ?]. cbn. f_equal.
  destruct (decide (i = j)) as [->|H]; [|by apply list_alter_alter_ne]. rewrite !list_alter_alter_eq. by apply list_alter_ext.
Qed.

Lemma pending_set_buffer i j b s id :
  conns (set_buffer j b s) !! i ≫= (fun c => map_get (pendingRequests c) id) = conns s !! i ≫= fun c => map_get (pendingRequests c) id.
Proof. unfold set_buffer, update. cbn. rewrite list_lookup_alter. destruct (decide (j = i)) as [<-|]; [by destruct (conns s !! j)|done]. Qed.

Lemma handleResponse_set_buffer n j b s v : handleResponse n (set_buffer j b s) v = set_buffer j b (handleResponse n s v).
Proof.
  unfold handleResponse. cbn [connections]. change (connections (set_buffer j b s)) with (connections s).
  destruct (map_get (connections s) n) as [cid|]; [|done]. destruct (key_of _) as [id|]; [|done]. rewrite pending_set_buffer.
  destruct (_ ≫= _) as [p|]; [|done]. cbv zeta. rewrite delete_set_buffer. unfold set_buffer.
  destruct (prop v (js "error")) as [e|]; [destruct (json_truthy (Some e))|]; by rewrite settle_update.
Qed.

Lemma handle_line_set_buffer n j b s l : handle_line n (set_buffer j b s) l = set_buffer j b (handle_line n s l).
Proof. unfold handle_line. destruct (trim l); [done|]. destruct (Json.parse l); [|done]. apply handleResponse_set_buffer. Qed.

Lemma handle_lines_set_buffer n j b ls s : foldl (handle_line n) (set_buffer j b s) ls = set_buffer j b (foldl (handle_line n) s ls).
Proof. revert s. induction ls as [|l ls IH]; intros s; [done|]. cbn [foldl]. by rewrite handle_line_set_buffer, IH. Qed.

(** A connection of a name, with what it has received of a line *)
Definition at_line (n : jsstr) (cid : nat) (b : jsstr) (s : Client) : Prop :=
  map_get (connections s) n = Some cid /\ exists c, conns s !! cid = Some c /\ buffer c = b.

Lemma at_line_settle n cid b p r s : at_line n cid b s -> at_line n cid b (settle p r s).
Proof. unfold settle. by destruct (promises s !! p) as [[]|]. Qed.

Lemma at_line_delete n cid b i id s : at_line n cid b s -> at_line n cid b (delete_request i id s).
Proof.
  intros [Hn (c & Hc & Hb)]. split; [done|]. unfold delete_request, update. cbn. rewrite list_lookup_alter.
  destruct (decide (i = cid)) as [->|]; rewrite Hc; (eexists; split; [reflexivity|exact Hb]).
Qed.

Lemma at_line_handle n m cid b s l : at_line n cid b s -> at_line n cid b (handle_line m s l).
Proof.
  intros H. unfold handle_line, handleResponse. destruct (trim l); [done|]. destruct (Json.parse l) as [v|]; [|done]. destruct (map_get (connections s) m) as [i|]; [|done].
  destruct (key_of _) as [id|]; [|done]. destruct (_ ≫= _) as [p|]; [|done]. cbv zeta.
  destruct (prop v (js "error")) as [e|]; [destruct (json_truthy (Some e))|]; by apply at_line_settle, at_line_delete.
Qed.

Lemma at_line_handles n m cid b s ls : at_line n cid b s -> at_line n cid b (foldl (handle_line m) s ls).
Proof. revert s. induction ls as [|l ls IH]; intros s H; [done|]. by apply IH, at_line_handle. Qed.

Lemma at_line_set_buffer n cid b b' s : at_line n cid b s -> at_line n cid b' (set_buffer cid b' s).
Proof. intros [Hn (c & Hc & Hb)]. split; [done|]. unfold set_buffer, update. cbn. rewrite list_lookup_alter_eq, Hc. eexists. by split. Qed.

Lemma set_buffer_twice cid b b' s : set_buffer cid b' (set_buffer cid b s) = set_buffer cid b' s.
Proof. unfold set_buffer, update. destruct s. cbn. f_equal. rewrite list_alter_alter_eq. by apply list_alter_ext. Qed.

Lemma set_buffer_same n cid b s : at_line n cid b s -> set_buffer cid b s = s.
Proof.
  intros [Hn (c & Hc & Hb)]. unfold set_buffer, update. destruct s. cbn in *. f_equal. apply list_eq. intros i. rewrite list_lookup_alter.
  destruct (decide (cid = i)) as [<-|]; [|done]. rewrite Hc, <- Hb. by destruct c.
Qed.

Lemma receive_at_line n cid b s text :
  at_line n cid b s -> receive n s text = set_buffer cid (last_line (b ++ text)) (foldl (handle_line n) s (full_lines (b ++ text))).
Proof. intros [Hn (c & Hc & Hb)]. unfold receive. rewrite Hn, Hc. cbn [from_option]. rewrite Hb. apply handle_lines_set_buffer. Qed.

Lemma at_line_receive n cid b s text : at_line n cid b s -> at_line n cid (last_line (b ++ text)) (receive n s text).
Proof. intros H. rewrite (receive_at_line _ _ _ _ _ H). by apply (at_line_set_buffer _ _ b), at_line_handles. Qed.

(** Two pieces of output are handled as one *)
Lemma receive_app n cid b s t1 t2 : at_line n cid b s -> receive n (receive n s t1) t2 = receive n s (t1 ++ t2).
Proof.
  intros H. rewrite (receive_at_line n cid _ _ t2 (at_line_receive _ _ _ _ t1 H)), !(receive_at_line n cid b) by done.
  rewrite (app_assoc b), (full_lines_app (b ++ t1) t2), (last_line_app (b ++ t1) t2), foldl_app.
  by rewrite handle_lines_set_buffer, set_buffer_twice.
Qed.

Lemma receive_pieces n cid b s ts : one_line b -> at_line n cid b s -> foldl (receive n) s ts = receive n s (concat ts).
Proof.
  revert b s. induction ts as [|t ts IH]; intros b s Hb H; cbn [foldl concat].
  - rewrite (receive_at_line _ _ _ _ _ H), app_nil_r. unfold full_lines, last_line. rewrite (one_line_split _ Hb). cbn. by rewrite (set_buffer_same _ _ _ _ H).
  - rewrite (IH (last_line (b ++ t))); [by apply (receive_app n cid b)|apply last_line_one_line|by apply at_line_receive].
Qed.

Lemma handle_line_stringify n s v : printable v -> handle_line n s (stringify v) = handleResponse n s v.
Proof. intros H. unfold handle_line. rewrite (parse_stringify _ H). pose proof (stringify_not_blank v). by destruct (trim (stringify v)). Qed.

Lemma handle_lines_stringify n s vs : Forall printable vs -> foldl (handle_line n) s (stringify <$> vs) = foldl (handleResponse n) s vs.
Proof. intros H. revert s. induction H as [|v vs Hv _ IH]; intros s; [done|]. cbn [fmap list_fmap foldl]. by rewrite handle_line_stringify. Qed.
End Answers.

(* ------------------------------------------------------------------ *)
(** ** Properties *)

(** C9: answers that a server writes, one per line, are handled in their order and
    each once, however the output is cut into pieces between characters. *)
Theorem answers_in_pieces number_text n cid s data vs :
  at_line n cid [] s -> Forall printable vs ->
  concat (toString <$> data) = concat ((fun v => stringify v ++ nl) <$> vs) ->
  foldl (handleStdout number_text n) s data = foldl (handleResponse number_text n) s vs.
Proof.
  intros H Hv He. transitivity (foldl (receive number_text n) s (toString <$> data)).
  { clear. revert s. induction data as [|d data IH]; intros s; [done|]. apply IH. }
  rewrite (receive_pieces _ _ cid []) by (done || constructor). rewrite He, (receive_at_line _ _ cid []) by done. cbn [app].
  assert (Forall one_line (stringify <$> vs)) as Hl by (apply Forall_fmap, Forall_true; intros v; apply stringify_one_line).
  replace (concat _) with (concat ((fun l => l ++ nl) <$> (stringify <$> vs))) by (by rewrite <- list_fmap_compose).
  rewrite (full_lines_framed _ Hl), (last_line_framed _ Hl), handle_lines_stringify by done.
  eapply set_buffer_same. rewrite <- handle_lines_stringify by done. apply at_line_handles, H.
Qed.

(** A client with one server, whose output is empty so far *)
Definition some_client : Client :=
  mkClient [(js "fs", 0%nat)] [mkConnection (mkConfig (js "fs") [] []) connected None [(1, 0%nat); (2, 1%nat)] 2 []] [None; None] [] [] [] [].

Lemma answers_in_pieces_witness :
  let answer id := JObj [(js "id", JNum (inject_Z id)); (js "result", JStr (js "ok"))] in
  let bytes := stringify (answer 2) ++ nl ++ stringify (answer 1) ++ nl in
  let data := [take 5 bytes; drop 5 (take 30 bytes); drop 30 bytes] in
  foldl (handleStdout (fun _ => []) (js "fs")) some_client data = foldl (handleResponse (fun _ => []) (js "fs")) some_client [answer 2; answer 1] /\
  promises (foldl (handleStdout (fun _ => []) (js "fs")) some_client data) = [Some (Return (Some (JStr (js "ok")))); Some (Return (Some (JStr (js "ok"))))].
Proof.
  cbv zeta. split; [|vm_compute; reflexivity]. apply (answers_in_pieces (fun _ => []) (js "fs") 0).
  - split; [vm_compute; reflexivity|]. eexists. split; reflexivity.
  - repeat constructor; try (apply (bool_decide_unpack _); vm_compute; exact I).
  - vm_compute. reflexivity.
Defined.
