(* ===== verification/McpRequests.v ===== *)
(** * Requests to tool servers

    Every request of [McpClient] that is not answered is in the map of its connection
    and has a timeout that ends it: [requests_are_ended].  A server that failed stays
    in the map and is not started again: [servers_are_started_once]. *)

From Stdlib Require Import ZArith QArith Lia.
From stdpp Require Import base strings option sets list.
From S2P Require Import Prelude JsString JsMap Json Records JsonLines Utf8 Async Pool McpClient.

#[local] Open Scope Z_scope.
#[local] Open Scope prog_scope.

(* ------------------------------------------------------------------ *)
(** ** The invariant *)

Definition requests (s : Client) : list Request :=
  omap (fun w => match w.2 with RequestWritten r => Some r | NotificationWritten _ => None end) (writes s).

(** A request is in the map of its connection until it is settled *)
Definition request_ok (s : Client) (r : Request) : Prop :=
  exists c, conns s !! conn_of r = Some c /\ id_of r <= requestId c /\ (sent_at r + REQUEST_TIMEOUT, r) ∈ timers s /\
    (promise_of r < length (promises s))%nat /\
    (promises s !! promise_of r = Some None -> map_get (pendingRequests c) (id_of r) = Some (promise_of r)).

Record tracked (s : Client) : Prop := {
  t_request : forall r, r ∈ requests s -> request_ok s r;
  t_pending : forall cid c id p, conns s !! cid = Some c -> map_get (pendingRequests c) id = Some p ->
    exists r, r ∈ requests s /\ conn_of r = cid /\ id_of r = id /\ promise_of r = p;
  t_unique : forall r r', r ∈ requests s -> r' ∈ requests s -> conn_of r = conn_of r' -> id_of r = id_of r' -> promise_of r = promise_of r';
  t_conns : forall n cid, map_get (connections s) n = Some cid -> is_Some (conns s !! cid);
  t_timers : forall due r, (due, r) ∈ timers s -> r ∈ requests s
}.

Lemma tracked_initial : tracked initial.
Proof. split; try done; [intros r []%elem_of_nil|intros r r' []%elem_of_nil|intros due r []%elem_of_nil]. Qed.

(** *** Single changes *)

Lemma settle_lookup p o s q : promises (settle p o s) !! q = Some None <-> promises s !! q = Some None /\ p <> q.
Proof.
  unfold settle. destruct (promises s !! p) as [[x|]|] eqn:E; cbn; [naive_solver|..|naive_solver].
  rewrite list_lookup_insert. case_decide as Hd; [destruct Hd as [-> _]; naive_solver|]. split; [|tauto]. intros H. split; [done|]. intros ->.
  apply Hd. split; [done|]. by eapply lookup_lt_Some.
Qed.

Lemma settle_length p o s : length (promises (settle p o s)) = length (promises s).
Proof. unfold settle. destruct (promises s !! p) as [[]|]; cbn; by rewrite ?length_insert. Qed.

Lemma settle_others p o s :
  conns (settle p o s) = conns s /\ writes (settle p o s) = writes s /\ timers (settle p o s) = timers s /\ connections (settle p o s) = connections s.
Proof. unfold settle. by destruct (promises s !! p) as [[]|]. Qed.

Lemma tracked_settle p o s : tracked s -> tracked (settle p o s).
Proof.
  intros [H1 H2 H3 H4 H5]. destruct (settle_others p o s) as (Ec & Ew & Et & En). split; unfold requests, request_ok; rewrite ?Ec, ?Ew, ?Et, ?En; try done.
  intros r (c & Hc & Hi & Ht & Hp & Hm)%H1. exists c. split_and!; [done..|by rewrite settle_length|]. intros [Hs _]%settle_lookup. auto.
Qed.

(** A change of a connection that keeps its requests *)
Lemma tracked_update cid f s :
  (forall c, pendingRequests (f c) = pendingRequests c /\ requestId (f c) = requestId c) -> tracked s -> tracked (update cid f s).
Proof.
  intros Hf [H1 H2 H3 H4 H5]. split; cbn.
  - intros r (c & Hc & Hi & Ht & Hp & Hm)%H1. unfold request_ok. cbn. rewrite list_lookup_alter, Hc.
    destruct (decide _) as [->|]; [|by exists c]. rewrite Hc. exists (f c). destruct (Hf c) as [-> ->]. by split_and!.
  - intros i c id p. rewrite list_lookup_alter. destruct (decide (cid = i)) as [<-|]; [|by apply H2].
    destruct (conns s !! cid) as [c'|] eqn:E; [|done]. intros [= <-]. destruct (Hf c') as [-> _]. by apply H2.
  - exact H3.
  - intros n i Hi. rewrite list_lookup_alter. destruct (decide (cid = i)) as [<-|]; [|by eapply H4]. by apply fmap_is_Some, (H4 n).
  - exact H5.
Qed.

(** A request is taken out of its map and settled *)
Lemma tracked_remove cid id p o s :
  (forall r, r ∈ requests s -> conn_of r = cid -> id_of r = id -> promise_of r = p) ->
  tracked s -> tracked (settle p o (delete_request cid id s)).
Proof.
  intros Hp [H1 H2 H3 H4 H5]. set (s1 := delete_request cid id s). destruct (settle_others p o s1) as (Ec & Ew & Et & En).
  assert (forall i, conns s1 !! i = (if decide (cid = i) then (fun c => c <| pendingRequests := map_delete (pendingRequests c) id |>) <$> conns s !! i else conns s !! i)) as El.
  { intros i. unfold s1. cbn. rewrite list_lookup_alter. by destruct (decide (cid = i)) as [<-|]. }
  split; unfold requests, request_ok; rewrite ?Ec, ?Ew, ?Et, ?En.
  - intros r Hr. destruct (H1 r Hr) as (c & Hc & Hi & Ht & Hl & Hm). rewrite El, Hc. destruct (decide (cid = conn_of r)) as [->|Hne]; eexists; (split; [reflexivity|]);
      cbn; (split_and!; [done|done|by rewrite settle_length|]); intros [Hs Hpr]%settle_lookup; [|by apply Hm].
    rewrite map_get_delete_ne; [by apply Hm|]. intros Hid. by apply Hpr; symmetry; apply Hp.
  - intros i c id' p'. rewrite El. destruct (decide (cid = i)); [|by apply H2]. destruct (conns s !! i) as [c'|] eqn:E; [|done]. intros [= <-]. cbn.
    intros [_ Hg]%map_get_delete_Some. by apply (H2 i c').
  - exact H3.
  - intros n i Hi. rewrite El. destruct (decide _); [apply fmap_is_Some|]; by eapply H4.
  - exact H5.
Qed.

Lemma tracked_servers l s : tracked s -> tracked (s <| servers := l |>).
Proof. by intros [H1 H2 H3 H4 H5]. Qed.

Lemma tracked_disconnect n s : tracked s -> tracked (disconnect n s).
Proof.
  intros [H1 H2 H3 H4 H5]. unfold disconnect. destruct (map_get (connections s) n) as [cid|]; [|done]. split; try done. cbn.
  intros m i [_ Hi]%map_get_delete_Some. by eapply H4.
Qed.

Lemma tracked_destroy s : tracked s -> tracked (onModuleDestroy s).
Proof. by intros [H1 H2 H3 H4 H5]. Qed.

Lemma tracked_promise o s : tracked s -> tracked (new_promise o s).2.
Proof.
  intros [H1 H2 H3 H4 H5]. split; try done. cbn. intros r (c & Hc & Hi & Ht & Hl & Hm)%H1. exists c. cbn. rewrite length_app. split_and!; [done..|lia|].
  rewrite lookup_app_l by done. exact Hm.
Qed.

Lemma tracked_spawn cfg s : tracked s -> tracked (spawn cfg s).
Proof.
  intros [H1 H2 H3 H4 H5]. assert (forall i c, conns s !! i = Some c -> (conns s ++ [mkConnection cfg connecting None [] 0 []]) !! i = Some c) as Hold.
  { intros i c Hc. rewrite lookup_app_l; [done|]. by eapply lookup_lt_Some. }
  split; cbn.
  - intros r (c & Hc & H)%H1. exists c. split; [by apply Hold|done].
  - intros i c id p [Hc|[_ Hc]]%lookup_app_Some; [by apply H2|]. apply list_lookup_singleton_Some in Hc as [_ <-]. done.
  - exact H3.
  - intros n i [[_ Hi]|[_ Hi]]%map_get_set_Some.
    + subst i. rewrite lookup_app_r, Nat.sub_diag by lia. by eexists.
    + destruct (H4 n i Hi) as [c Hc]. exists c. by apply Hold.
  - exact H5.
Qed.

Lemma tracked_notification n method params s : tracked s -> tracked (sendNotification n method params s).2.
Proof.
  intros H. unfold sendNotification. destruct (map_get (connections s) n) as [cid|]; [|by apply tracked_promise].
  destruct (tracked_promise None s H) as [H1 H2 H3 H4 H5]. cbn [new_promise] in *. split; unfold request_ok, requests; cbn; try done;
    rewrite omap_app, app_nil_r; done.
Qed.

Lemma tracked_request t n method params s : tracked s -> tracked (sendRequest t n method params s).2.
Proof.
  intros H. unfold sendRequest. destruct (map_get (connections s) n) as [cid|] eqn:En; [|by apply tracked_promise].
  destruct H as [H1 H2 H3 H4 H5]. destruct (H4 n cid En) as [c Hc]. rewrite Hc. cbn [from_option new_promise].
  set (r := mkRequest cid (requestId c + 1) method (length (promises s)) t).
  set (c' := c <| requestId := requestId c + 1 |> <| pendingRequests := map_set (pendingRequests c) (requestId c + 1) (length (promises s)) |>).
  match goal with |- tracked (_, ?x).2 => set (s' := x) end.
  assert (forall i, conns s' !! i = if decide (cid = i) then Some c' else conns s !! i) as El.
  { intros i. unfold s'. cbn. rewrite list_alter_alter_eq, list_lookup_alter. destruct (decide (cid = i)) as [<-|]; [by rewrite Hc|done]. }
  assert (requests s' = requests s ++ [r]) as Er by (unfold requests, s'; cbn; by rewrite omap_app).
  assert (forall x, x ∈ requests s -> conn_of x = cid -> id_of x <= requestId c) as Hid.
  { intros x Hx <-. destruct (H1 x Hx) as (c0 & Hc0 & Hi & _). congruence. }
  split; cbn [snd]; rewrite ?Er.
  - intros x [Hx| ->%list_elem_of_singleton]%elem_of_app; unfold request_ok; rewrite El.
    + destruct (H1 x Hx) as (c0 & Hc0 & Hi & Ht & Hl & Hm). change (promises s') with (promises s ++ [None]). change (timers s') with (timers s ++ [(t + REQUEST_TIMEOUT, r)]).
      rewrite lookup_app_l, length_app by done. destruct (decide (cid = conn_of x)) as [->|]; eexists; (split; [first [reflexivity|exact Hc0]|]).
      * assert (c0 = c) as -> by congruence. unfold c'. cbn. split_and!; [lia|set_solver|lia|]. intros Hs. rewrite map_get_set_ne; [by apply Hm|]. specialize (Hid x Hx eq_refl). lia.
      * split_and!; [done|set_solver|lia|done].
    + rewrite decide_True by done. exists c'. change (promises s') with (promises s ++ [None]). change (timers s') with (timers s ++ [(t + REQUEST_TIMEOUT, r)]).
      cbn. split_and!; [done|lia|set_solver|rewrite length_app; cbn; lia|]. intros _. apply map_get_set_eq.
  - intros i c0 id p. rewrite El. intros Hc0 Hp. assert ((exists x, x ∈ requests s /\ conn_of x = i /\ id_of x = id /\ promise_of x = p) \/ (cid = i /\ id = requestId c + 1 /\ p = length (promises s)))
      as [(x & Hx & Hx')|(-> & -> & ->)]; [|by exists x; set_solver|by exists r; set_solver].
    destruct (decide (cid = i)) as [<-|]; [|left; by eapply H2]. injection Hc0 as <-. cbn in Hp. apply map_get_set_Some in Hp as [[-> ->]|[_ Hp]]; [by right|]. left. by eapply H2.
  - intros x y [Hx| ->%list_elem_of_singleton]%elem_of_app [Hy| ->%list_elem_of_singleton]%elem_of_app; [by apply H3|..|done]; cbn; intros Ei Ej.
    + specialize (Hid x Hx Ei). lia.
    + specialize (Hid y Hy (eq_sym Ei)). lia.
  - intros m i Hi. rewrite El. destruct (decide _); [by eexists|]. by eapply H4.
  - intros due x. change (timers s') with (timers s ++ [(t + REQUEST_TIMEOUT, r)]). intros [Hx|Hx%list_elem_of_singleton]%elem_of_app; [|injection Hx as -> ->]; set_solver.
Qed.

(** *** Programs and events *)

Create HintDb tracked.
#[export] Hint Resolve tracked_settle tracked_servers tracked_disconnect tracked_destroy tracked_promise tracked_spawn tracked_notification tracked_request : tracked.

Lemma keeps_request (I : Client -> Prop) f : (forall t s, I s -> I (f t s).2) -> keeps I (McpClient.request f).
Proof.
  intros Hf t s Hs. intros t' s' Hs'. cbn. specialize (Hf t s' Hs'). destruct (f t s') as [p s2]. intros t2 s3 Hs3. split; [exact Hf|]. by intros [|].
Qed.

Section Programs.
Context (number_text : Q -> jsstr) (typeError : jsstr).

(** What programs need of an invariant *)
Record kept_by_calls (I : Client -> Prop) : Prop := {
  k_request : forall t n m ps s, I s -> I (sendRequest t n m ps s).2;
  k_notification : forall n m ps s, I s -> I (sendNotification n m ps s).2;
  k_spawn : forall cfg s, I s -> map_has (connections s) (name cfg) = false -> I (spawn cfg s);
  k_state : forall cid st s, I s -> I (set_state cid st s);
  k_tools : forall cid l s, I s -> I (update cid (fun c => c <| tools := l |>) s);
  k_servers : forall l s, I s -> I (s <| servers := l |>)
}.

Section Kept.
Context (I : Client -> Prop) (HI : kept_by_calls I).

Lemma keeps_callTool n tool args : keeps I (callTool n tool args).
Proof using HI. apply keeps_request. intros. by apply HI. Qed.

Lemma keeps_initialize n : keeps I (initialize n).
Proof using HI.
  apply keeps_bind; [apply keeps_request; intros; by apply HI|]. intros r. apply keeps_bind; [apply keeps_request; intros; by apply HI|done].
Qed.

Lemma keeps_listTools n : keeps I (listTools typeError n).
Proof using HI. apply keeps_bind; [apply keeps_request; intros; by apply HI|]. by intros [[]|]. Qed.

Lemma keeps_connect cfg : keeps I (connect typeError cfg).
Proof using HI.
  intros t s Hs. cbn [bind]. destruct (map_has (connections s) (name cfg)) eqn:Hn; [exact Logic.I|].
  apply keeps_bind; [apply keeps_modify; intros _ _ _; by apply HI|]. intros _. apply keeps_try.
  - apply keeps_bind; [apply keeps_initialize|]. intros _. apply keeps_bind; [apply keeps_modify; intros; by apply HI|]. intros _.
    apply keeps_bind; [apply keeps_listTools|]. intros l. apply keeps_bind; [apply keeps_modify; intros; by apply HI|]. intros _. by destruct l as [[]|].
  - intros m. apply keeps_bind; [apply keeps_modify; intros; by apply HI|done].
Qed.

Lemma keeps_connectAll : keeps I (connectAll typeError).
Proof using HI.
  intros t s Hs. cbn [bind]. generalize (servers s). intros l. induction l as [|cfg l IH]; [exact Logic.I|]. apply keeps_bind; [|done].
  apply keeps_try; [apply keeps_connect|done].
Qed.

Lemma keeps_program c : keeps I (program typeError c).
Proof using HI.
  destruct c as [n tool args|cfg|n| |env path auto]; cbn [program].
  - apply keeps_callTool.
  - apply keeps_connect.
  - intros t s Hs. cbn [bind]. destruct (getServer s n); [apply keeps_connect|exact Logic.I].
  - apply keeps_connectAll.
  - apply keeps_bind; [|intros _; destruct auto as [[]|]; try exact Logic.I; apply keeps_connectAll].
    apply keeps_modify. intros t s Hs. apply HI. unfold loadServersFromEnv. destruct env; try done. by apply HI.
Qed.

(** A call that begins or goes on *)
Lemma call_keeps t s c : I s -> I (segment t s (program typeError c)).1 /\ keeps I (segment t s (program typeError c)).2.
Proof using HI. intros Hs. by apply segment_keeps; [apply keeps_program|]. Qed.

(** The invariant of an execution, given the events other than calls *)
Lemma client_step_keeps c turn :
  I c.1 -> Forall (keeps I) c.2 ->
  (forall t e, turn = (t, e) -> match e with Begins _ | Continues _ => True | _ => I (client_step number_text typeError (c.1, []) (t, e)).1 end) ->
  I (client_step number_text typeError c turn).1 /\ Forall (keeps I) (client_step number_text typeError c turn).2.
Proof using HI.
  destruct c as [s calls], turn as [t e]. cbn [fst snd]. intros Hs Hc He. specialize (He t e eq_refl). destruct e as [c|i| | | | | | | | |]; cbn in *; try by split.
  - pose proof (call_keeps t s c Hs) as [H1 H2]. destruct (segment t s (program typeError c)) as [s' p]. split; [done|]. by apply Forall_app, conj, Forall_singleton.
  - destruct (calls !! i) as [[| | | |R e k]|] eqn:E; try by split. destruct (answer s e) as [r|]; [|by split].
    pose proof (proj1 (Forall_lookup _ _) Hc i _ E) as Hk. pose proof (segment_keeps I t s (k r) (Hk r) Hs) as [H1 H2].
    destruct (segment t s (k r)) as [s' p]. split; [done|]. by apply Forall_insert.
Qed.
End Kept.

(* ------------------------------------------------------------------ *)
(** ** Requests end *)

Lemma tracked_kept : kept_by_calls tracked.
Proof. split; auto with tracked; intros; by apply tracked_update. Qed.

Lemma tracked_response n s v : tracked s -> tracked (handleResponse number_text n s v).
Proof.
  intros H. unfold handleResponse. destruct (map_get (connections s) n) as [cid|]; [|done]. destruct (key_of _) as [id|]; [|done].
  destruct (conns s !! cid) as [c|] eqn:Hc; [|done]. cbn [mbind option_bind]. destruct (map_get (pendingRequests c) id) as [p|] eqn:Hp; [|done].
  assert (forall o, tracked (settle p o (delete_request cid id s))) as Hr.
  { intros o. apply tracked_remove; [|done]. intros r Hr Hcid Hid. destruct (t_pending s H cid c id p Hc Hp) as (r' & Hr' & <- & <- & <-).
    by apply (t_unique s H). }
  cbv zeta. destruct (prop v (js "error")) as [e|]; [|apply Hr]. destruct (json_truthy (Some e)); apply Hr.
Qed.

Lemma tracked_lines n s ls : tracked s -> tracked (foldl (handle_line number_text n) s ls).
Proof.
  revert s. induction ls as [|l ls IH]; intros s H; [done|]. cbn [foldl]. apply IH. unfold handle_line. destruct (trim l); [done|].
  destruct (Json.parse l); [by apply tracked_response|done].
Qed.

Lemma tracked_stdout n s data : tracked s -> tracked (handleStdout number_text n s data).
Proof. intros H. unfold handleStdout, receive. destruct (map_get _ _) as [cid|]; [|done]. cbv zeta. by apply tracked_lines, tracked_update. Qed.

Lemma tracked_remove_request r o s : tracked s -> r ∈ requests s -> tracked (settle (promise_of r) o (delete_request (conn_of r) (id_of r) s)).
Proof. intros H Hr. apply tracked_remove; [|done]. intros r' Hr' Hc Hi. by apply (t_unique s H). Qed.

Lemma tracked_events s t e :
  tracked s -> match e with Begins _ | Continues _ => True | _ => tracked (client_step number_text typeError (s, []) (t, e)).1 end.
Proof.
  intros H. destruct e as [c|i|cid data|cid|cid|w err|k|n|cfg|n|]; try done; cbn [client_step fst].
  - destruct (conns s !! cid); [by apply tracked_stdout|done].
  - by apply tracked_update.
  - by apply tracked_update.
  - destruct (writes s !! w) as [[x cb]|] eqn:E; [|done]. destruct cb as [r|p], err as [m|]; cbn [written snd]; auto with tracked.
    apply tracked_remove_request; [done|]. apply list_elem_of_omap. exists (x, RequestWritten r). split; [by eapply list_elem_of_lookup_2|done].
  - destruct (timers s !! k) as [[due r]|] eqn:E; [|done]. destruct (due <=? t); [|done]. unfold timed_out. destruct (_ ≫= _); [|done].
    apply tracked_remove_request; [done|]. eapply (t_timers s H), list_elem_of_lookup_2, E.
  - auto with tracked.
  - unfold addServer. destruct (getServer _ _); auto with tracked.
  - apply tracked_disconnect. auto with tracked.
  - auto with tracked.
Qed.

Lemma tracked_run turns c : tracked c.1 -> Forall (keeps tracked) c.2 -> tracked (foldl (client_step number_text typeError) c turns).1.
Proof.
  revert c. induction turns as [|turn turns IH]; intros c Hs Hc; [done|]. cbn [foldl].
  destruct (client_step_keeps tracked tracked_kept c turn Hs Hc) as [H1 H2]; [|by apply IH]. intros t e ->. by apply tracked_events.
Qed.

(* ------------------------------------------------------------------ *)
(** ** Servers are started once *)

Definition names (s : Client) : list jsstr := (fun c => name (config c)) <$> conns s.

(** The processes that were started for a name *)
Definition started (n : jsstr) (s : Client) : nat := length (List.filter (fun m => bool_decide (m = n)) (names s)).

Definition present (n : jsstr) (k : nat) (s : Client) : Prop := map_has (connections s) n = true /\ started n s = k.

Lemma names_alter cid f (l : list McpConnection) : (forall c, config (f c) = config c) -> (fun c => name (config c)) <$> alter f cid l = (fun c => name (config c)) <$> l.
Proof.
  intros Hf. apply list_eq. intros i. rewrite !list_lookup_fmap, list_lookup_alter.
  destruct (decide (cid = i)) as [<-|]; [|done]. destruct (l !! cid) as [c|]; [|done]. cbn. by rewrite Hf.
Qed.

Lemma names_update cid f s : (forall c, config (f c) = config c) -> names (update cid f s) = names s.
Proof. apply names_alter. Qed.

Lemma present_same n k s s' : names s' = names s -> connections s' = connections s -> present n k s -> present n k s'.
Proof. unfold present, started. by intros -> ->. Qed.

Lemma present_update n k cid f s : (forall c, config (f c) = config c) -> present n k s -> present n k (update cid f s).
Proof. intros Hf. apply present_same; [by apply names_update|done]. Qed.

Lemma present_settle n k p o s : present n k s -> present n k (settle p o s).
Proof. destruct (settle_others p o s) as (E & _ & _ & E'). apply present_same; [|done]. unfold names. by rewrite E. Qed.

Lemma present_kept n k : kept_by_calls (present n k).
Proof.
  split; intros; try (by apply present_update); try done.
  - unfold sendRequest. destruct (map_get (connections s) n0) as [cid|]; [|by revert H; apply present_same]. cbn [new_promise snd].
    revert H. apply present_same; [|done]. unfold names. cbn. by rewrite !names_alter.
  - unfold sendNotification. destruct (map_get (connections s) n0) as [cid|]; by revert H; apply present_same.
  - destruct H as [H1 H2]. destruct (decide (name cfg = n)) as [<-|Hn]; [congruence|]. split.
    + cbn. apply map_has_true. rewrite map_get_set_ne by done. by apply map_has_true.
    + rewrite <- H2. unfold started, names. cbn. rewrite fmap_app, List.filter_app. cbn. rewrite bool_decide_eq_false_2 by done. by rewrite app_nil_r.
Qed.

Lemma present_response n k m s v : present n k s -> present n k (handleResponse number_text m s v).
Proof.
  intros H. unfold handleResponse. destruct (map_get _ m) as [cid|]; [|done]. destruct (key_of _) as [id|]; [|done]. destruct (_ ≫= _) as [p|]; [|done].
  cbv zeta. destruct (prop v (js "error")) as [e|]; [destruct (json_truthy _)|]; by apply present_settle, present_update.
Qed.

Lemma present_lines n k m s ls : present n k s -> present n k (foldl (handle_line number_text m) s ls).
Proof.
  revert s. induction ls as [|l ls IH]; intros s H; [done|]. cbn [foldl]. apply IH. unfold handle_line. destruct (trim l); [done|].
  destruct (Json.parse l); [by apply present_response|done].
Qed.

Lemma present_stdout n k m s data : present n k s -> present n k (handleStdout number_text m s data).
Proof. intros H. unfold handleStdout, receive. destruct (map_get _ m) as [cid|]; [|done]. cbv zeta. by apply present_lines, present_update. Qed.

(** The server is given up *)
Definition gives_up (n : jsstr) (e : ClientEvent) : Prop := match e with Disconnects m | Removes m => m = n | Destroyed => True | _ => False end.

Lemma present_disconnect n k m s : m <> n -> present n k s -> present n k (disconnect m s).
Proof.
  intros Hm [H1 H2]. unfold disconnect. destruct (map_get (connections s) m); [|by split]. split; [|done]. cbn. apply map_has_true. rewrite map_get_delete_ne by done.
  by apply map_has_true.
Qed.

Lemma present_events n k s t e :
  ~ gives_up n e -> present n k s ->
  match e with Begins _ | Continues _ => True | _ => present n k (client_step number_text typeError (s, []) (t, e)).1 end.
Proof.
  intros He H. destruct e as [c|i|cid data|cid|cid|w err|j|m|cfg|m|]; try done; cbn [client_step fst].
  - destruct (conns s !! cid); [by apply present_stdout|done].
  - by apply present_update.
  - by apply present_update.
  - destruct (writes s !! w) as [[x cb]|]; [|done]. destruct cb as [r|p], err as [m|]; cbn [written snd]; auto using present_settle. by apply present_settle, present_update.
  - destruct (timers s !! j) as [[due r]|]; [|done]. destruct (due <=? t); [|done]. unfold timed_out. destruct (_ ≫= _); [|done]. by apply present_settle, present_update.
  - by apply present_disconnect.
  - unfold addServer. by destruct (getServer _ _).
  - by apply present_disconnect.
Qed.

Lemma present_run n k turns c :
  Forall (fun turn => ~ gives_up n turn.2) turns -> present n k c.1 -> Forall (keeps (present n k)) c.2 -> present n k (foldl (client_step number_text typeError) c turns).1.
Proof.
  intros Ht. revert c. induction Ht as [|turn turns Hturn _ IH]; intros c Hs Hc; [done|]. cbn [foldl].
  destruct (client_step_keeps (present n k) (present_kept n k) c turn Hs Hc) as [H1 H2]; [|by apply IH]. intros t e ->. by apply present_events.
Qed.
End Programs.

(* ------------------------------------------------------------------ *)
(** ** Properties *)

(** Bytes of a literal in which a back quote stands for a double quote, with a line break *)
Definition output (s : string) : list Z := ((fun c => if c =? 96 then 34 else c) <$> bytes_of_string s) ++ [10].

Definition some_server : McpServerConfig := mkConfig (js "filesystem") (js "npx") [].
Definition no_text (_ : Q) : jsstr := [].
Abbreviation run := (foldl (client_step no_text [])).

(** A server that is connected, and then loses its process *)
Definition some_turns : list (Z * ClientEvent) :=
  [(0, Begins (Connect some_server)); (100, Outputs 0 (output "{`jsonrpc`:`2.0`,`id`:1,`result`:{}}")); (100, Continues 0); (101, WriteEnds 1 None); (101, Continues 0);
   (200, Outputs 0 (output "{`jsonrpc`:`2.0`,`id`:2,`result`:{`tools`:[]}}")); (200, Continues 0);
   (300, Begins (CallTool (js "filesystem") (js "write_file") None)); (400, Closes 0)].

Example some_turns_ex :
  let '(s, calls) := run (initial, []) some_turns in
  getConnectionState s (js "filesystem") = disconnected /\ promises s = [Some (Return (Some (JObj []))); Some (Return None); Some (Return (Some (JObj [(js "tools", JArr [])]))); None] /\
  (is_done <$> calls) = [true; false] /\ getConnectionState (run (initial, []) (take 8 some_turns)).1 (js "filesystem") = connected.
Proof. vm_compute. done. Qed.

(** C8: every request to a server comes to an end: in every execution, one that is
    not settled has a timeout, thirty seconds after it was sent, that rejects it when
    it fires. *)
Theorem requests_are_ended number_text typeError turns s calls r :
  foldl (client_step number_text typeError) (initial, []) turns = (s, calls) ->
  r ∈ requests s -> promises s !! promise_of r = Some None ->
  exists k, timers s !! k = Some (sent_at r + REQUEST_TIMEOUT, r) /\
    forall t, sent_at r + REQUEST_TIMEOUT <= t ->
      promises (client_step number_text typeError (s, calls) (t, Fires k)).1 !! promise_of r = Some (Some (Throw (js "Request timeout: " ++ method_of r))).
Proof.
  intros Hrun Hr Hp. assert (tracked s) as H.
  { pose proof (tracked_run number_text typeError turns (initial, []) tracked_initial (Forall_nil_2 _)) as H. by rewrite Hrun in H. }
  destruct (t_request s H r Hr) as (c & Hc & _ & Ht & Hl & Hm). apply list_elem_of_lookup in Ht as [k Hk]. exists k. split; [done|]. intros t Hdue.
  cbn [client_step]. rewrite Hk, (proj2 (Z.leb_le _ _) Hdue). cbn [fst]. unfold timed_out. rewrite Hc. cbn [mbind option_bind]. rewrite (Hm Hp).
  unfold settle, delete_request, update. cbn [promises]. change (promises (s <| conns := _ |>)) with (promises s). rewrite Hp. cbn. by apply list_lookup_insert_eq.
Qed.

Lemma requests_are_ended_witness :
  let c := run (initial, []) some_turns in
  exists k, forall t, 300 + REQUEST_TIMEOUT <= t ->
    promises (client_step no_text [] c (t, Fires k)).1 !! 3%nat = Some (Some (Throw (js "Request timeout: tools/call"))).
Proof.
  cbv zeta. destruct (run (initial, []) some_turns) as [s calls] eqn:E.
  assert (promises s !! 3%nat = Some None /\ mkRequest 0 3 (js "tools/call") 3 300 ∈ requests s) as [Hp Hr].
  { assert (s = (run (initial, []) some_turns).1) as -> by (by rewrite E). split; [vm_compute; reflexivity|]. apply (list_elem_of_lookup_2 _ 2). vm_compute. reflexivity. }
  destruct (requests_are_ended no_text [] some_turns s calls (mkRequest 0 3 (js "tools/call") 3 300) E Hr Hp) as (k & _ & Hk). by exists k.
Defined.

(** a server whose connection is in the map, be it lost or failed, is not started
    again by any number of calls of [connect], [connectServer] and [connectAll], until
    it is disconnected or removed. *)
Theorem servers_are_started_once number_text typeError n s turns :
  map_has (connections s) n = true -> Forall (fun turn => ~ gives_up n turn.2) turns ->
  started n (foldl (client_step number_text typeError) (s, []) turns).1 = started n s.
Proof. intros Hn Ht. by apply (present_run number_text typeError n (started n s) turns (s, [])); [|split|constructor]. Qed.

Lemma servers_are_started_once_witness :
  let s := (run (initial, []) some_turns).1 in
  let again := [(500, Begins (Connect some_server)); (600, Fires 2); (700, Begins (Init NotSet None (Some (js "false"))))] in
  getConnectionState s (js "filesystem") = disconnected /\ started (js "filesystem") s = 1%nat /\
  started (js "filesystem") (run (s, []) again).1 = started (js "filesystem") s.
Proof.
  cbv zeta. split; [vm_compute; reflexivity|]. split; [vm_compute; reflexivity|]. apply servers_are_started_once; [vm_compute; reflexivity|].
  repeat constructor; cbn; tauto.
Defined.

(** output is handled by the name of the server: when a server was disconnected and
    connected again, an answer of the old process settles the request of the new one
    with the same number. *)
Theorem old_answers_settle_new_requests :
  let '(s, _) := run (initial, [])
    [(0, Begins (Connect some_server)); (10, Disconnects (js "filesystem")); (20, Begins (Connect some_server));
     (30, Outputs 0 (output "{`jsonrpc`:`2.0`,`id`:1,`result`:`old`}"))] in
  killed s = [0%nat] /\ started (js "filesystem") s = 2%nat /\ promises s = [None; Some (Return (Some (JStr (js "old"))))].
Proof. vm_compute. done. Qed.

(** every piece of output is decoded on its own: a character whose bytes arrive in two
    pieces is replaced in the answer, which is whole when they arrive together. *)
Theorem split_characters_are_lost :
  let bytes := output "{`jsonrpc`:`2.0`,`id`:1,`result`:`가`}" in
  let s := (run (initial, []) [(0, Begins (Connect some_server))]).1 in
  promises (handleStdout no_text (js "filesystem") s bytes) = [Some (Return (Some (JStr (js "가"))))] /\
  promises (foldl (handleStdout no_text (js "filesystem")) s [take 36 bytes; drop 36 bytes]) = [Some (Return (Some (JStr [replacement; replacement])))].
Proof. vm_compute. done. Qed.
