(* ===== verification/Mcp.v ===== *)
(** * The tools server

    [src/mcp/mcp.service.ts] and [src/mcp/mcp.controller.ts]: diagrams are made by the
    tools of [DiagramTools] and kept in a cache; they are saved or shared through
    external servers; the controller makes diagrams from what was said in a room.

    The service is a program of [Async].  The state holds the cache, the settings of
    the controller, and what it reads of other components: the rooms of the voice
    bot, the buffers of the retrieval client and the client of the external servers. *)

From Stdlib Require Import ZArith QArith Lia.
From stdpp Require Import base strings option sets list.
From S2P Require Import McpClient Prelude JsString JsMap Json Records Dates Regex IntentTables Async Timer Room Diagram RagClient DiagramTools Search.

#[local] Open Scope Z_scope.
#[local] Open Scope prog_scope.

(* ------------------------------------------------------------------ *)
(** ** State and effects *)

Inductive InternalToolResult := Made (output : DiagramTools.ToolOutput) | NotMade (error : jsstr).
Inductive ExternalToolResult := Called (content : jsstr) | NotCalled (error : jsstr).

Record DiagramCacheEntry := mkCached { result : InternalToolResult; timestamp : Z; transcriptHash : jsstr }.

Record AutoSpeak := mkAutoSpeak { enabled : bool; triggers : list jsstr }.

Record McpState := mkMcp {
  diagramCache : jsmap jsstr DiagramCacheEntry;
  autoSpeakSettings : jsmap jsstr AutoSpeak;
  bots : Rooms;
  rag : RagState;
  mcpClient : Client
}.

#[export] Instance McpState_eta : Eta _ := fun s => mkMcp (diagramCache s) (autoSpeakSettings s) (bots s) (rag s) (mcpClient s).

Definition CACHE_TTL : Z := 5 * 60 * 1000.

(** The answer of an external server: its parts, with the text of those that have one *)
Record ToolCallResult := mkCallResult { content : list (bool * option jsstr); isError : bool }.

Inductive McpEff : Type -> Type :=
| AskLlm (prompt : jsstr) (maxTokens : Z) : McpEff jsstr
| CallTool (server tool : jsstr) (args : list (jsstr * jsstr)) : McpEff ToolCallResult.

Abbreviation mcp := (@prog McpState McpEff).

(* ------------------------------------------------------------------ *)
(** ** Tools *)

Inductive McpTool := Diagrams (t : DiagramTool) | TimerTool.

Definition mcp_name (t : McpTool) : jsstr := match t with Diagrams d => tool_name d | TimerTool => js "timer" end.

Definition mcp_keywords (t : McpTool) : list jsstr :=
  js <$> match t with
  | Diagrams DiagramTools.flowchart => ["플로우차트"; "flowchart"; "흐름도"; "프로세스"; "워크플로우"; "순서도"; "단계"]
  | Diagrams DiagramTools.sequence => ["시퀀스"; "sequence"; "상호작용"; "API"; "호출"; "요청"; "응답"; "흐름"]
  | Diagrams DiagramTools.erd => ["ERD"; "erd"; "데이터베이스"; "DB"; "테이블"; "엔티티"; "관계"; "스키마"; "모델"]
  | Diagrams DiagramTools.architecture => ["아키텍처"; "architecture"; "시스템"; "구성"; "인프라"; "서버"; "구조"]
  | Diagrams kanban => ["칸반"; "kanban"; "WBS"; "업무"; "태스크"; "할일"; "담당"; "일정"; "스프린트"]
  | TimerTool => ["타이머"; "timer"; "시간"; "알림"; "회의시간"; "종료"]
  end.

Definition allTools : list McpTool :=
  [Diagrams DiagramTools.flowchart; Diagrams DiagramTools.sequence; Diagrams DiagramTools.erd; Diagrams DiagramTools.architecture; Diagrams kanban; TimerTool].

(** [toolMap.get(name)] *)
Definition toolMap (name : jsstr) : option McpTool := find_first (fun t => bool_decide (mcp_name t = name)) allTools.

Definition findDiagramToolByKeyword (keyword : jsstr) : option McpTool :=
  let normalizedKeyword := trim (to_lower keyword) in
  find_first (fun t => bool_decide (to_lower (mcp_name t) = normalizedKeyword)
                       || existsb (fun kw => includes (to_lower kw) normalizedKeyword) (mcp_keywords t)) allTools.

Section Service.
(** The text of numbers, and the messages of errors of the runtime *)
Context (number_text : Q -> jsstr) (typeError syntaxError : jsstr).

(* ------------------------------------------------------------------ *)
(** ** Diagrams *)

Definition hashTranscript (transcript : jsstr) : jsstr := take 100 transcript ++ js "_" ++ js_of_Z (Z.of_nat (length transcript)).

Definition cleanupCache (now : Z) (s : McpState) : McpState :=
  s <| diagramCache := List.filter (fun e => negb (CACHE_TTL <? now - timestamp e.2)) (diagramCache s) |>.

Definition room_id (input : ToolInput) : option jsstr := context input ≫= ctx_roomId.

(** [tool.execute]; the timer is called without an action, and throws *)
Definition run_tool (tool : McpTool) (input : ToolInput) : mcp DiagramTools.ToolOutput :=
  match tool with
  | Diagrams d =>
    response <- await (AskLlm (tool_prompt d input) (max_tokens d)) ;;
    t <- now ;;
    match tool_result number_text typeError syntaxError d t response with Return o => Ret o | Throw m => Raise m end
  | TimerTool =>
    match room_id input with
    | Some (_ :: _) => Raise (js "알 수 없는 액션: undefined")
    | _ => Raise (js "roomId가 필요합니다")
    end
  end.

Definition cache_key (tool : McpTool) (input : ToolInput) : jsstr := mcp_name tool ++ js "_" ++ hashTranscript (transcript input).

(** The transcript is a text, as the declared type of the request says: without one
    [hashTranscript] throws, before the [try] *)
Definition generateDiagram (toolName : jsstr) (input : ToolInput) : mcp InternalToolResult :=
  match toolMap toolName with
  | None => Ret (NotMade (js "다이어그램 도구를 찾을 수 없습니다: " ++ toolName))
  | Some tool =>
    let cacheKey := cache_key tool input in
    let make :=
      try_catch
        (output <- run_tool tool input ;;
         modify (fun t s => s <| diagramCache := map_set (diagramCache s) cacheKey (mkCached (Made output) t (hashTranscript (transcript input))) |>) ;;;
         Ret (Made output))
        (fun m => Ret (NotMade m)) in
    t <- now ;; s <- get ;;
    match map_get (diagramCache s) cacheKey with
    | Some cached => if t - timestamp cached <? CACHE_TTL then Ret (result cached) else make
    | None => make
    end
  end.

(* ------------------------------------------------------------------ *)
(** ** External servers *)

Definition callExternalTool (serverName toolName : jsstr) (args : list (jsstr * jsstr)) : mcp ExternalToolResult :=
  try_catch
    (r <- await (CallTool serverName toolName args) ;;
     Ret (if isError r then
            NotCalled (match content r with (_, Some ((_ :: _) as t)) :: _ => t | _ => js "Unknown error" end)
          else Called (join nl ((fun c => default [] c.2) <$> List.filter fst (content r)))))
    (fun m => Ret (NotCalled m)).

Definition file_name (roomId : option jsstr) (diagramType : jsstr) (t : Z) : jsstr :=
  match roomId with Some ((_ :: _) as r) => r | _ => js "meeting" end ++ js "_" ++ diagramType ++ js "_" ++ replace "[:.]" (js "-") (toISOString t) ++ js ".md".

(** A diagram, and what an external server that is connected does with it *)
Definition generate_and (serverName diagramType transcript : jsstr) (send : Z -> DiagramTools.ToolOutput -> mcp ExternalToolResult)
  : mcp (InternalToolResult * option ExternalToolResult) :=
  diagram <- generateDiagram diagramType (mkInput transcript None) ;;
  match diagram with
  | NotMade _ => Ret (diagram, None)
  | Made output =>
    s <- get ;;
    if decide (getConnectionState (mcpClient s) serverName = connected) then
      t <- now ;; r <- send t output ;; Ret (diagram, Some r)
    else Ret (diagram, None)
  end.

Definition generateAndSaveToFile (diagramType transcript : jsstr) (roomId : option jsstr) : mcp (InternalToolResult * option ExternalToolResult) :=
  generate_and (js "filesystem") diagramType transcript (fun t output =>
    callExternalTool (js "filesystem") (js "write_file") [(js "path", file_name roomId diagramType t); (js "content", markdown output)]).

Definition generateAndShareToSlack (diagramType transcript slackChannel : jsstr) : mcp (InternalToolResult * option ExternalToolResult) :=
  generate_and (js "slack") diagramType transcript (fun _ output =>
    callExternalTool (js "slack") (js "slack_post_message")
      [(js "channel_id", slackChannel); (js "text", js "새 " ++ diagramType ++ js " 다이어그램이 생성되었습니다:" ++ nl ++ nl ++ markdown output)]).

(* ------------------------------------------------------------------ *)
(** ** The controller *)

Definition of_room (transcript : jsstr) (roomId : option jsstr) : ToolInput := mkInput transcript (Some (mkContext roomId [] false)).

Definition post_generate (type transcript : jsstr) (roomId : option jsstr) : mcp InternalToolResult := generateDiagram type (of_room transcript roomId).

(** [diagram/save]: the code of the diagram takes the place of the conversation *)
Definition saveDiagram (type mermaidCode : jsstr) (roomId : option jsstr) : mcp (InternalToolResult * option ExternalToolResult) :=
  generateAndSaveToFile type mermaidCode roomId.

Definition generateByKeyword (keyword transcript : jsstr) (roomId : option jsstr) : mcp (InternalToolResult * option jsstr) :=
  match findDiagramToolByKeyword keyword with
  | None => Ret (NotMade (js "키워드와 매칭되는 도구를 찾을 수 없습니다: " ++ keyword), None)
  | Some tool => r <- generateDiagram (mcp_name tool) (of_room transcript roomId) ;; Ret (r, Some (mcp_name tool))
  end.

Definition setAutoSpeak (roomId : jsstr) (enabled : bool) (triggers : option (list jsstr)) (s : McpState) : McpState :=
  s <| autoSpeakSettings := map_set (autoSpeakSettings s) roomId
         (mkAutoSpeak enabled (default (js <$> ["board_open"; "tab_change"; "diagram_update"]) triggers)) |>.

(** The transcript of a room and who speaks in it *)
Definition getMeetingContext (s : McpState) (roomId : jsstr) : jsstr * list jsstr :=
  match getBufferContent (rag s) roomId with
  | [] => ([], [])
  | buffer => (getFormattedTranscript (rag s) roomId, union_keywords [] ((fun e => e.1.1) <$> buffer))
  end.

Definition analysis_prompt (transcript : jsstr) : jsstr :=
  lines [
    js "다음 회의 내용을 분석하여 어떤 다이어그램이 적합한지 판단해주세요.";
    [];
    js "가능한 다이어그램 타입:";
    js "- flowchart: 프로세스, 워크플로우, 순서, 단계가 있는 경우";
    js "- erd: 엔티티, 테이블, 데이터 모델, 관계가 있는 경우";
    js "- sequence: API 호출, 시스템 간 통신, 요청-응답 패턴이 있는 경우";
    js "- architecture: 시스템 구조, 컴포넌트, 서비스 구성이 있는 경우";
    [];
    js "회의 내용:";
    transcript;
    [];
    js "응답 형식 (JSON 배열만 출력):";
    jq "[`flowchart`, `erd`]";
    [];
    js "주의:";
    js "- 내용이 해당 다이어그램에 적합한 경우에만 포함";
    js "- 빈 배열 가능 (적합한 다이어그램 없음)";
    js "- 반드시 JSON 배열만 출력"].

Definition diagram_types : list (jsstr * Room.DiagramType) :=
  [(js "flowchart", Room.flowchart); (js "sequence", Room.sequence); (js "erd", Room.erd); (js "architecture", Room.architecture)].

(** The names of types in the answer; the pattern has the flag [s] *)
Definition valid_types (response : jsstr) : list jsstr :=
  match match_text (compile (rx "\[[\s\S]*\]")) response ≫= Json.parse with
  | Some (JArr l) => omap (fun v => match v with JStr t => if decide (t ∈ diagram_types.*1) then Some t else None | _ => None end) l
  | _ => []
  end.

Definition analyzeDiagramTypes (transcript : jsstr) : mcp (list jsstr) :=
  try_catch (response <- await (AskLlm (analysis_prompt transcript) 200) ;; Ret (valid_types response)) (fun _ => Ret []).

(** Answers of [diagram/generate-from-context] *)
Inductive FromContext :=
| NothingSaid
| NoDiagram (transcript : jsstr)
| FromContextMade (diagrams : jsmap jsstr jsstr) (suggestedTypes : list jsstr) (transcript : jsstr)
| FromContextFailed (error : jsstr).

Definition type_of_name (name : jsstr) : option Room.DiagramType := snd <$> find_first (fun e => bool_decide (e.1 = name)) diagram_types.

Definition summary_of (summary : option (list (Room.DiagramType * Summary))) (name : jsstr) : option Summary :=
  l ← summary; ty ← type_of_name name; snd <$> find_first (fun e => bool_decide (e.1 = ty)) l.

Fixpoint make_diagrams (roomId transcript : jsstr) (summary : option (list (Room.DiagramType * Summary))) (withContext : list jsstr)
  (types : list jsstr) (diagrams : jsmap jsstr jsstr) : mcp (jsmap jsstr jsstr) :=
  match types with
  | [] => Ret diagrams
  | type :: types' =>
    s <- get ;;
    let focused := if decide (type ∈ withContext) then type_of_name type ≫= buildFocusedTranscript (bots s) roomId else None in
    let target := match focused with Some ((_ :: _) as f) => f | _ => transcript end in
    let keywords := match summary_of summary type with Some x => s_keywords x | None => [] end in
    r <- generateDiagram type (mkInput target (Some (mkContext (Some roomId) keywords (bool_decide (type ∈ withContext))))) ;;
    make_diagrams roomId transcript summary withContext types'
      (match r with Made o => match markdown o with [] => diagrams | m => map_set diagrams type m end | NotMade _ => diagrams end)
  end.

Definition generateFromContext (roomId : jsstr) : mcp FromContext :=
  try_catch
    (s <- get ;;
     let transcript := getFormattedTranscript (rag s) roomId in
     match trim transcript with
     | [] => Ret NothingSaid
     | _ =>
       let summary := getDiagramContextsSummary (bots s) roomId in
       let withContext := List.filter (fun name => match summary_of summary name with Some x => hasContent x | None => false end) diagram_types.*1 in
       diagramTypes <- (match withContext with [] => analyzeDiagramTypes transcript | _ => Ret withContext end) ;;
       match diagramTypes with
       | [] => Ret (NoDiagram transcript)
       | _ =>
         diagrams <- make_diagrams roomId transcript summary withContext diagramTypes [] ;;
         Ret (FromContextMade diagrams diagramTypes transcript)
       end
     end)
    (fun m => Ret (FromContextFailed m)).

Definition explain_prompt (diagramType mermaidCode : jsstr) : jsstr :=
  lines [js "다음 " ++ diagramType ++ js " 다이어그램을 간단하게 설명해주세요. 2-3문장으로 핵심만 설명하세요."; []; js "다이어그램 코드:"; mermaidCode; []; js "설명:"].

Definition explainDiagram (diagramType mermaidCode : jsstr) : mcp (outcome jsstr jsstr) :=
  try_catch (explanation <- await (AskLlm (explain_prompt diagramType mermaidCode) 300) ;; Ret (Return (trim explanation))) (fun m => Ret (Throw m)).

(* ------------------------------------------------------------------ *)
(** ** The cache *)

(** An entry holds a diagram of the kind that its key names *)
Definition entry_ok (e : jsstr * DiagramCacheEntry) : Prop :=
  exists tool o, result e.2 = Made o /\ DiagramTools.type o = mcp_name tool /\ e.1 = mcp_name tool ++ js "_" ++ transcriptHash e.2.

Definition cache_ok (s : McpState) : Prop := Forall entry_ok (diagramCache s).

Lemma toolMap_name name tool : toolMap name = Some tool -> mcp_name tool = name.
Proof. unfold toolMap. intros H. apply find_first_Some in H as [_ H]. by apply bool_decide_eq_true in H. Qed.

(** No name of a tool has an underscore, so that keys of different tools differ *)
Lemma key_tool tool tool' (h h' : jsstr) :
  mcp_name tool ++ js "_" ++ h = mcp_name tool' ++ js "_" ++ h' -> mcp_name tool = mcp_name tool'.
Proof. destruct tool as [[]|], tool' as [[]|]; vm_compute; congruence. Qed.

Lemma tool_result_type d t response o : tool_result number_text typeError syntaxError d t response = Return o -> DiagramTools.type o = tool_name d.
Proof.
  unfold tool_result. destruct (match_text _ _); [|done]. destruct (Json.parse _); [|done]. destruct (incomplete _ _); [done|].
  destruct (tool_markdown _ _ _ _); [|done]. cbn [outcome_bind]. by intros <-%Return_inj.
Qed.

(** [run_tool] does what the timer tool does for an input without options *)
Lemma run_tool_timer input t w :
  exists m, run_tool TimerTool input = Raise m /\ Timer.execute (room_id input) (mkToolOptions None None None None) t w = Throw m.
Proof. unfold run_tool, Timer.execute. destruct (room_id input) as [[|c r]|]; eexists; (split; [reflexivity|]); vm_compute; reflexivity. Qed.

Section Others.
(** What the others do while a function waits *)
Context (Rely : McpState -> McpState -> Prop) (rely_cache : forall s s', Rely s s' -> cache_ok s -> cache_ok s').

Lemma run_tool_type tool input s :
  cache_ok s -> wp Rely (run_tool tool input) (fun o s => cache_ok s /\ forall out, o = Return out -> DiagramTools.type out = mcp_name tool) s.
Proof using rely_cache.
  intros Hs. destruct tool as [d|]; cbn [run_tool].
  - apply wp_bind, wp_await. intros [response|m] s1 Hr; [|split; [by eauto|discriminate]]. apply wp_bind. intros t. cbn [wp].
    destruct (tool_result _ _ _ _ _ _) as [o|] eqn:E; cbn [wp]; (split; [by eauto|]); [|discriminate]. intros out <-%Return_inj. exact (tool_result_type _ _ _ _ E).
  - destruct (room_id input) as [[|]|]; cbn [wp]; (split; [done|discriminate]).
Qed.

Lemma cache_ok_set s tool input out t :
  cache_ok s -> DiagramTools.type out = mcp_name tool ->
  cache_ok (s <| diagramCache := map_set (diagramCache s) (cache_key tool input) (mkCached (Made out) t (hashTranscript (transcript input))) |>).
Proof.
  intros Hs Ht. unfold cache_ok in *. cbn. rewrite Forall_forall in *. intros [k e] [[-> ->]|H]%elem_of_map_set; [|by apply Hs].
  by exists tool, out.
Qed.

Definition of_kind (name : jsstr) (o : outcome jsstr InternalToolResult) : Prop :=
  match o with Return (Made out) => DiagramTools.type out = name | Return (NotMade _) => True | Throw _ => False end.

Lemma generateDiagram_wp name input s : cache_ok s -> wp Rely (generateDiagram name input) (fun o s => cache_ok s /\ of_kind name o) s.
Proof using rely_cache.
  intros Hs. unfold generateDiagram. destruct (toolMap name) as [tool|] eqn:Hn; [|by split]. apply toolMap_name in Hn as <-.
  assert (forall s, cache_ok s -> wp Rely
    (try_catch (output <- run_tool tool input ;;
         modify (fun t s => s <| diagramCache := map_set (diagramCache s) (cache_key tool input) (mkCached (Made output) t (hashTranscript (transcript input))) |>) ;;;
         Ret (Made output)) (fun m => Ret (NotMade m))) (fun o s => cache_ok s /\ of_kind (mcp_name tool) o) s) as Hmake.
  { intros s1 Hs1. apply wp_try, wp_bind. eapply wp_mono, run_tool_type, Hs1. intros [out|m] s2 [H1 H2]; [|done].
    apply wp_bind, wp_modify. intros t. split; [|by apply H2]. apply cache_ok_set; [done|by apply H2]. }
  cbv zeta. apply wp_bind. intros t. apply wp_bind. intros _. cbn [wp].
  destruct (map_get _ _) as [e|] eqn:He; [|by apply Hmake]. destruct (_ <? _); [|by apply Hmake].
  split; [done|]. apply map_get_elem in He. unfold cache_ok in Hs. rewrite Forall_forall in Hs.
  destruct (Hs _ He) as (tool' & o & Hr & Ht & Hk). cbn [fst snd] in *. cbn [of_kind wp]. rewrite Hr, Ht. symmetry. exact (key_tool _ _ _ _ Hk).
Qed.

Lemma make_diagrams_wp roomId transcript summary withContext types (X : list jsstr) diagrams s :
  cache_ok s -> types ⊆ X -> map_keys diagrams ⊆ X ->
  wp Rely (make_diagrams roomId transcript summary withContext types diagrams)
    (fun o s => cache_ok s /\ exists d, o = Return d /\ map_keys d ⊆ X) s.
Proof using rely_cache.
  revert diagrams s. induction types as [|type types IH]; intros diagrams s Hs Ht Hd; cbn [make_diagrams]; [by split; eauto|].
  apply wp_bind. intros _. cbn [wp]. apply wp_bind. eapply wp_mono, generateDiagram_wp, Hs. intros [r|m] s1 [Hs1 Hr]; [|done].
  apply IH; [done|set_solver|]. destruct r as [o|]; [|done]. destruct (markdown o); [done|].
  intros k Hk. apply map_keys_get in Hk as [v Hv]. apply map_get_set_Some in Hv as [[-> _]|[_ Hv]]; [set_solver|].
  apply Hd, map_keys_get. eauto.
Qed.

Lemma valid_types_known response : valid_types response ⊆ diagram_types.*1.
Proof.
  unfold valid_types. destruct (_ ≫= _) as [[]|]; try apply list_subseteq_nil. intros t Ht.
  apply list_elem_of_omap in Ht as (v & _ & Hv). destruct v; try done. case_decide; [|done]. by injection Hv as <-.
Qed.

(** An answer: the diagrams are of the types that are suggested, each once *)
Definition answer_ok (a : FromContext) : Prop :=
  match a with
  | NothingSaid | NoDiagram _ => True
  | FromContextMade diagrams types _ => types <> [] /\ types ⊆ diagram_types.*1 /\ map_keys diagrams ⊆ types
  | FromContextFailed _ => False
  end.

Lemma suggested_types_wp transcript withContext s :
  cache_ok s -> withContext ⊆ diagram_types.*1 ->
  wp Rely (match withContext with [] => analyzeDiagramTypes transcript | _ => Ret withContext end)
    (fun o s => cache_ok s /\ exists types, o = Return types /\ types ⊆ diagram_types.*1) s.
Proof using rely_cache.
  intros Hs Hw. destruct withContext as [|x l]; [|by split; eauto]. apply wp_try, wp_bind, wp_await.
  intros [response|m] s1 Hr; (split; [by eauto|]); eexists; (split; [reflexivity|]); [apply valid_types_known|apply list_subseteq_nil].
Qed.

Lemma answered a s : cache_ok s -> answer_ok a -> cache_ok s /\ exists a', Return (E := jsstr) a = Return a' /\ answer_ok a'.
Proof. eauto. Qed.

Lemma generateFromContext_wp roomId s :
  cache_ok s -> wp Rely (generateFromContext roomId) (fun o s => cache_ok s /\ exists a, o = Return a /\ answer_ok a) s.
Proof using rely_cache.
  intros Hs. apply wp_try, wp_bind. intros _. cbn [wp]. destruct (trim _); [by apply answered|]. cbv zeta.
  apply wp_bind. eapply wp_mono, suggested_types_wp; [|done|].
  - intros ? s1 (Hs1 & types & -> & Ht). destruct types as [|x types]; [by apply answered|].
    apply wp_bind. eapply wp_mono, (make_diagrams_wp _ _ _ _ _ (x :: types)); [|done|done|apply list_subseteq_nil].
    intros ? s2 (Hs2 & d & -> & Hd). apply answered; [done|]. by split_and!.
  - intros t Ht. by apply list_elem_of_In, filter_In in Ht as [Ht%list_elem_of_In _].
Qed.
End Others.
End Service.

(* ------------------------------------------------------------------ *)
(** ** Properties *)

(** C23: a diagram that is answered is of the kind that was asked for, whether it was
    made or found in the cache, however other requests change the cache meanwhile, and
    the function never throws: keys of different tools never coincide. *)
Theorem diagrams_are_of_the_requested_kind number_text typeError syntaxError Rely name input s s' o :
  (forall s s', Rely s s' -> cache_ok s -> cache_ok s') -> cache_ok s ->
  exec Rely s (generateDiagram number_text typeError syntaxError name input) s' o ->
  cache_ok s' /\ of_kind name o.
Proof. intros Hr Hs. exact (wp_sound _ _ _ _ _ _ (generateDiagram_wp _ _ _ _ Hr name input s Hs)). Qed.

(** A meeting, and a model that knows one flowchart *)
Definition some_meeting : McpState :=
  mkMcp [] [] [] (RagClient.initial <| statementBuffers := [(js "r1", [mkStatement (js "주문하면 결제한다") (js "김") 0 0 None None])] |>) McpClient.initial.

Definition some_chart : jsstr := jq "{`nodes`: [{`id`: `a`, `type`: `start`, `label`: `주문`}], `edges`: []}".

Definition some_model (R : Type) (n : nat) (e : McpEff R) : outcome jsstr R :=
  match e in McpEff R return outcome jsstr R with
  | AskLlm _ maxTokens => Return (if maxTokens =? 200 then jq "[`flowchart`, `gantt`]" else some_chart)
  | CallTool _ _ _ => Throw (js "no server")
  end.

Definition some_run {A} (s : McpState) (p : mcp A) : McpState * outcome jsstr A := run_with (fun _ => 0) some_model (fun _ s => s) 0 s p.
Definition no_numbers (_ : Q) : jsstr := [].

Lemma cache_ok_nil s : diagramCache s = [] -> cache_ok s.
Proof. unfold cache_ok. by intros ->. Qed.

Lemma diagrams_are_of_the_requested_kind_witness :
  let r := some_run some_meeting (generateDiagram no_numbers [] [] (js "flowchart") (of_room (js "주문") None)) in
  cache_ok r.1 /\ of_kind (js "flowchart") r.2 /\ length (diagramCache r.1) = 1%nat.
Proof.
  cbv zeta. rewrite (and_assoc (cache_ok _)). split; [|vm_compute; reflexivity].
  apply (diagrams_are_of_the_requested_kind no_numbers [] [] eq (js "flowchart") (of_room (js "주문") None) some_meeting);
    [by intros ? ? ->|by apply cache_ok_nil|]. by apply run_with_exec.
Defined.

(** a request for diagrams of what was said in a room is always answered, and the
    diagrams are of the types that the answer suggests, which are among the four. *)
Theorem context_diagrams_are_suggested number_text typeError syntaxError Rely roomId s s' o :
  (forall s s', Rely s s' -> cache_ok s -> cache_ok s') -> cache_ok s ->
  exec Rely s (generateFromContext number_text typeError syntaxError roomId) s' o ->
  cache_ok s' /\ exists a, o = Return a /\ answer_ok a.
Proof. intros Hr Hs. exact (wp_sound _ _ _ _ _ _ (generateFromContext_wp _ _ _ _ Hr roomId s Hs)). Qed.

Lemma context_diagrams_are_suggested_witness :
  let r := some_run some_meeting (generateFromContext no_numbers [] [] (js "r1")) in
  (cache_ok r.1 /\ exists a, r.2 = Return a /\ answer_ok a) /\
  exists chart, r.2 = Return (FromContextMade [(js "flowchart", chart)] [js "flowchart"] (js "김: 주문하면 결제한다")).
Proof.
  cbv zeta. split; [|eexists; vm_compute; reflexivity].
  apply (context_diagrams_are_suggested no_numbers [] [] eq (js "r1") some_meeting);
    [by intros ? ? ->|by apply cache_ok_nil|]. by apply run_with_exec.
Defined.

(** for five minutes a diagram is answered for every conversation of the same
    length with the same first hundred characters, in whatever room it is and whatever
    comes after. *)
Theorem diagrams_are_shared number_text typeError syntaxError name tool input input' e clock answer others n s :
  toolMap name = Some tool -> map_get (diagramCache s) (cache_key tool input) = Some e -> clock n - timestamp e < CACHE_TTL ->
  take 100 (transcript input') = take 100 (transcript input) -> length (transcript input') = length (transcript input) ->
  run_with clock answer others n s (generateDiagram number_text typeError syntaxError name input') = (s, Return (result e)).
Proof.
  intros Hn He Ht H1 H2. unfold generateDiagram. rewrite Hn. cbn [bind now get run_with]. cbv zeta.
  assert (cache_key tool input' = cache_key tool input) as -> by (unfold cache_key, hashTranscript; by rewrite H1, H2).
  rewrite He. by apply Z.ltb_lt in Ht as ->.
Qed.

(** Two conversations of 105 characters that differ in the last five *)
Definition talk (ending : string) : jsstr := repeat 44032 100 ++ js ending.

Lemma diagrams_are_shared_witness :
  let r := some_run some_meeting (generateDiagram no_numbers [] [] (js "flowchart") (of_room (talk "users") (Some (js "r1")))) in
  exists o, r.2 = Return (Made o) /\
  run_with (fun _ => 299999) some_model (fun _ s => s) 0 r.1 (generateDiagram no_numbers [] [] (js "flowchart") (of_room (talk "books") (Some (js "r2")))) =
  (r.1, Return (Made o)).
Proof.
  cbv zeta. eexists. split; [vm_compute; reflexivity|].
  apply (diagrams_are_shared no_numbers [] [] (js "flowchart") (Diagrams DiagramTools.flowchart) (of_room (talk "users") (Some (js "r1")))
    (of_room (talk "books") (Some (js "r2"))) (mkCached (Made _) 0 (hashTranscript (talk "users")))); vm_compute; reflexivity.
Defined.
