(* ===== verification/RecordingApi.v ===== *)
(** * Endpoints of the recordings

    [src/recording/recording.controller.ts]: the checks of the requests, the calls of
    [Recording] and the answers; an exception of the service becomes a status with a
    message.  A call that waits for the egress service is split where it waits. *)

From Stdlib Require Import ZArith QArith Lia.
From stdpp Require Import base strings option list.
From S2P Require Import Prelude JsString JsMap Json Intent Recording.

#[local] Open Scope Z_scope.

(** A status and a message *)
Record HttpException := mkException { status_code : Z; exception_message : jsstr }.

Definition bad_request (m : string) : HttpException := mkException 400 (js m).

(** [catch (error) { throw new HttpException(label + error.message, 500) }] *)
Definition failed {A} (label : string) (o : outcome jsstr A) : outcome HttpException A :=
  match o with Return a => Return a | Throw m => Throw (mkException 500 (js label ++ m)) end.

(** A room that is named, without the space around its name *)
Definition named {A} (roomId : jsstr) (f : jsstr -> outcome HttpException A) : outcome HttpException A :=
  match trim roomId with [] => Throw (bad_request "roomId is required") | room => f room end.

(** The same for a request that changes a state *)
Definition named_change {S A} (s : S) (roomId : jsstr) (f : jsstr -> S * outcome HttpException A) : S * outcome HttpException A :=
  match trim roomId with [] => (s, Throw (bad_request "roomId is required")) | room => f room end.

(* ------------------------------------------------------------------ *)
(** ** Recordings of rooms *)

(** [startRecording] before and after the egress service *)
Definition post_start (c : Config) (active : ActiveRecordings) (roomId : jsstr) (now : Z) : outcome HttpException Output :=
  named roomId (fun room => failed "녹화 시작 실패: " (begin_start c active room now)).

Definition post_start_done (active : ActiveRecordings) (roomId : jsstr) (now : Z) (answer : outcome jsstr jsstr)
  : ActiveRecordings * outcome HttpException (jsstr * RecordingStatus) :=
  let '(active', r) := finish_start active (trim roomId) now answer in (active', failed "녹화 시작 실패: " r).

Definition post_stop (c : Config) (active : ActiveRecordings) (roomId : jsstr) : outcome HttpException Recording :=
  named roomId (fun room => failed "녹화 중지 실패: " (begin_stop c active room)).

Definition stop_message (r : RecordingResult) : jsstr := js "녹화가 완료되었습니다. (" ++ js_of_Z (r_duration r) ++ js "초)".

Definition post_stop_done (active : ActiveRecordings) (roomId : jsstr) (recording : Recording) (now : Z) (answer : outcome jsstr (list jsstr))
  : ActiveRecordings * outcome HttpException (RecordingResult * jsstr) :=
  let '(active', r) := finish_stop active (trim roomId) recording now answer in
  (active', failed "녹화 중지 실패: " (match r with Return x => Return (x, stop_message x) | Throw m => Throw m end)).

Record StatusAnswer := mkStatus { is_recording : bool; status_room : jsstr; status_of : RecordingStatus; info : option RecordingInfo; status_message : jsstr }.

Definition get_status (active : ActiveRecordings) (roomId : jsstr) (now : Z) : outcome HttpException StatusAnswer :=
  named roomId (fun room => Return
    match getRecordingStatus active room now with
    | None => mkStatus false room COMPLETED None (js "현재 녹화 중이 아닙니다.")
    | Some i => mkStatus true room (i_status i) (Some i) (js "녹화 중 (" ++ js_of_Z (i_duration i) ++ js "초 경과)")
    end).

(* ------------------------------------------------------------------ *)
(** ** Files *)

Section Files.
Context {S : Type} `{!ObjectStore S} (c : Config) (number_text : Q -> jsstr) (type_error : jsstr).

(** A file: its contents, when they are there, and its size *)
Record UploadedFile := mkFile { file_buffer : option jsstr; file_size : Z }.

(** [parseInt] of the text of the form; [Some None] is [NaN] *)
Definition read_start_time (recordingStartTimeStr : option jsstr) : option (option Z) :=
  match recordingStartTimeStr with Some ((_ :: _) as t) => Some (parse_int t) | _ => None end.

Definition post_upload (s : S) (roomId : jsstr) (file : option UploadedFile) (recordingStartTimeStr : option jsstr) (time : Z) (now : jsstr)
  : S * outcome HttpException UploadResult :=
  named_change s roomId (fun room =>
    match file with
    | None => (s, Throw (mkException 400 (jq "file is required. Ensure Content-Type is multipart/form-data and field name is `file`")))
    | Some f =>
      match file_buffer f with
      | None | Some [] => (s, Throw (mkException 500 (js "File buffer is empty. Server configuration error.")))
      | Some buffer =>
        let '(s', r) := uploadClientRecording c number_text s room buffer (file_size f) (read_start_time recordingStartTimeStr) time now in
        (s', failed "녹화 업로드 실패: " r)
      end
    end).

(** Success, number of chapters and message; [chapters] is [None] when it is no list *)
Definition patch_chapters (s : S) (roomId fileName : jsstr) (chapters : option (list VideoChapter)) (now : jsstr)
  : S * outcome HttpException (bool * nat * jsstr) :=
  named_change s roomId (fun room =>
    match fileName, chapters with
    | [], _ => (s, Throw (bad_request "fileName is required"))
    | _, None => (s, Throw (bad_request "chapters array is required"))
    | _, Some l =>
      match updateRecordingChapters c number_text type_error s room fileName l now with
      | Return (s', (success, message)) => (s', Return (success, length l, message))
      | Throw m => (s, failed "챕터 업데이트 실패: " (Throw m))
      end
    end).

(** The chapters, and [chapters.length] for a list or a text *)
Definition get_chapters (s : S) (roomId fileName : jsstr) : outcome HttpException (json * option nat) :=
  named roomId (fun room =>
    match fileName with
    | [] => Throw (bad_request "fileName is required")
    | _ => let chapters := getRecordingChapters c s room fileName in
           Return (chapters, match chapters with JArr l => Some (length l) | JStr t => Some (length t) | _ => None end)
    end).

Definition get_metadata (s : S) (roomId fileName : jsstr) : outcome HttpException (option json) :=
  named roomId (fun room =>
    match fileName with
    | [] => Throw (bad_request "fileName is required")
    | _ => let m := getRecordingMetadata c s room fileName in Return (if json_truthy (Some m) then Some m else None)
    end).

Definition post_fetch_chapters (s : S) (roomId fileName : jsstr) (answer : outcome jsstr json) (now : jsstr)
  : S * outcome HttpException (bool * list VideoChapter * nat * option json) :=
  named_change s roomId (fun room =>
    match fileName with
    | [] => (s, Throw (bad_request "fileName is required"))
    | _ =>
      let '(s', (success, chapters, message)) := fetchAndSaveChaptersFromRAG c number_text type_error s room fileName answer now in
      (s', Return (success, chapters, length chapters, message))
    end).
End Files.

(* ------------------------------------------------------------------ *)
(** ** Properties *)

(** when a recording of a room was started its status is reported with the egress
    and the whole seconds since the start, under every spelling of the name with space
    around it; a second start is refused; and when it was stopped the room is reported
    as not recorded, even if the egress service failed to stop it. *)
Theorem recording_is_reported c active roomId spelling t0 now id active' r :
  trim roomId <> [] -> trim spelling = trim roomId -> post_start_done active roomId t0 (Return id) = (active', r) ->
  r = Return (id, RECORDING) /\
  (exists m, get_status active' spelling now =
     Return (mkStatus true (trim roomId) RECORDING (Some (mkInfo id (trim roomId) RECORDING t0 ((now - t0) / 1000))) m)) /\
  (exists e, post_start c active' spelling now = Throw e) /\
  forall answer, exists m, get_status (post_stop_done active' spelling (mkRecording id t0) now answer).1 roomId now =
    Return (mkStatus false (trim roomId) COMPLETED None m).
Proof.
  intros Hr Hs [= <- <-]. unfold get_status, post_start, post_stop_done, named. rewrite Hs. destruct (trim roomId) as [|x room] eqn:E; [done|].
  assert (map_get (map_set active (x :: room) (mkRecording id t0)) (x :: room) = Some (mkRecording id t0)) as Hg by apply map_get_set_eq.
  split_and!; [done| | |].
  - unfold getRecordingStatus. rewrite Hg. by eexists.
  - unfold begin_start. destruct (egressClient c); [|by eexists]. unfold map_has. rewrite Hg. by eexists.
  - intros answer. unfold finish_stop, getRecordingStatus. cbn [fst]. rewrite map_get_delete_eq. by eexists.
Qed.

Lemma recording_is_reported_witness :
  let '(active, r) := post_start_done [] (js "room") 0 (Return (js "EG_1")) in
  r = Return (js "EG_1", RECORDING) /\
  (exists m, get_status active (js " room ") 2500 =
     Return (mkStatus true (js "room") RECORDING (Some (mkInfo (js "EG_1") (js "room") RECORDING 0 2)) m)) /\
  (exists e, post_start sample_config active (js " room ") 2500 = Throw e) /\
  forall answer, exists m, get_status (post_stop_done active (js " room ") (mkRecording (js "EG_1") 0) 2500 answer).1 (js "room") 2500 =
    Return (mkStatus false (js "room") COMPLETED None m).
Proof.
  destruct (post_start_done [] (js "room") 0 (Return (js "EG_1"))) as [active r] eqn:E.
  exact (recording_is_reported sample_config [] (js "room") (js " room ") 0 2500 (js "EG_1") active r ltac:(vm_compute; discriminate) ltac:(vm_compute; reflexivity) E).
Defined.
