(* ===== verification/LiveKit.v ===== *)
(** * Rooms and access to them

    [src/livekit/livekit.service.ts], [src/livekit/livekit.controller.ts] and the
    guards of [src/auth/]: rooms of the media server with their metadata, tokens for
    participants, the start and end of the bot of a room, and the endpoints.

    Functions are programs of [Async]; the media server, the access service, the voice
    bot and the retrieval client are effects.  A function that throws an exception with
    an HTTP status returns it as [Fails]; the state holds the rooms of the bot and the
    buffers of the retrieval client, which some endpoints read and write.

    Random numbers and the check of a token by the library are arguments. *)

From Stdlib Require Import ZArith QArith Lia.
From stdpp Require Import base strings option sets list.
From S2P Require Import Prelude JsString JsMap Json Records Dates Async Pool Proactive Room Memory RagClient.

#[local] Open Scope Z_scope.
#[local] Open Scope prog_scope.

(* ------------------------------------------------------------------ *)
(** ** State and effects *)

Record LiveState := mkLive { bot_rooms : Rooms; cooldowns : Proactive.Service; rag : RagState }.

#[export] Instance LiveState_eta : Eta _ := fun s => mkLive (bot_rooms s) (cooldowns s) (rag s).

(** A room of the media server *)
Record RoomInfo := mkRoomInfo { room_name : jsstr; metadata : option jsstr; room_max : Z; creationTime : Z }.

Record RoomOptions := mkOptions { opt_name : jsstr; opt_metadata : jsstr; emptyTimeout : Z; opt_max : Z; agents : list jsstr }.

(** A token: who may join which room; [hidden] is given for bots *)
Record Grant := mkGrant { identity : jsstr; grant_room : jsstr; roomJoin : bool; canPublish : bool; canSubscribe : bool; canPublishData : bool; hidden : option bool }.

(** What runs in the background *)
Inductive Task := EnsureDispatch (roomId : jsstr) | StartBotFor (roomId : jsstr).

Inductive LiveEff : Type -> Type :=
| ListRooms : LiveEff (list RoomInfo)
| CreateRoom (o : RoomOptions) : LiveEff RoomInfo
| DeleteRoom (name : jsstr) : LiveEff unit
| ListDispatch (roomId : jsstr) : LiveEff (list jsstr)
| CreateDispatch (roomId agent : jsstr) : LiveEff unit
| ListParticipants (roomId : jsstr) : LiveEff (list jsstr)
| RemoveParticipant (roomId identity : jsstr) : LiveEff unit
| ToJwt (g : Grant) : LiveEff jsstr
| FetchAccess (url token : jsstr) : LiveEff bool
| AccessBody (url : jsstr) : LiveEff json
| StopBot (roomId : jsstr) : LiveEff unit
| StartBot (roomId token : jsstr) : LiveEff unit
| EnterStandby (roomId : jsstr) : LiveEff unit
| StartMeeting (roomId : jsstr) (payload : json) : LiveEff ApiResult
| EndMeeting (roomId : jsstr) : LiveEff ApiResult
| RequestReport (roomId : jsstr) : LiveEff (bool * option json * option json)
| GetIssues (roomId : jsstr) (refresh : bool) : LiveEff ApiResult
| Background (task : Task) : LiveEff unit.

Abbreviation live := (@Async.prog LiveState LiveEff).

(** An answer, or an exception with its status *)
Inductive Response (A : Type) := Ok (a : A) | Fails (status : Z) (message : jsstr).
Arguments Ok {A} a.
Arguments Fails {A} status message.

(* ------------------------------------------------------------------ *)
(** ** Access *)

Record HttpRequest := mkHttp { authorization : option jsstr; query_token : option jsstr; body_roomId : option jsstr }.

Inductive Verified := Valid (sub nickName : jsstr) | Expired | Invalid.

Definition extractToken (r : HttpRequest) : option jsstr :=
  match authorization r with
  | Some ((_ :: _) as h) => if starts_with h (js "Bearer ") then Some (drop 7 h) else match query_token r with Some ((_ :: _) as t) => Some t | _ => None end
  | _ => match query_token r with Some ((_ :: _) as t) => Some t | _ => None end
  end.

Record LiveConfig := mkLiveConfig { livekitUrl : jsstr; agentName : jsstr; jwtSecret : option jsstr; restApiUrl : option jsstr }.

Definition secret (cfg : LiveConfig) : jsstr := match jwtSecret cfg with Some ((_ :: _) as x) => x | _ => js "default-secret-change-in-production" end.

Definition access_url (cfg : LiveConfig) (roomId : jsstr) : jsstr :=
  match restApiUrl cfg with Some ((_ :: _) as u) => u | _ => js "http://localhost:3002" end ++ js "/restapi/rooms/" ++ roomId ++ js "/access".

(** [data.hasAccess === true], which throws for [null] *)
Definition has_access (data : json) : bool := match prop data (js "hasAccess") with Some (JBool true) => true | _ => false end.

Section Access.
(** [jwt.verify] at a time *)
Context (verify : Z -> jsstr -> jsstr -> Verified) (cfg : LiveConfig).

Definition unauthorized (v : Verified) : jsstr := match v with Expired => js "토큰이 만료되었습니다" | _ => js "유효하지 않은 토큰입니다" end.

Definition checkRoomAccess (roomId token : jsstr) : live bool :=
  try_catch
    (ok <- await (FetchAccess (access_url cfg roomId) token) ;;
     if negb ok then Ret false
     else data <- await (AccessBody (access_url cfg roomId)) ;; Ret (has_access data))
    (fun _ => Ret false).

(** [JwtAuthGuard.canActivate]: the user of the request *)
Definition jwt_canActivate (r : HttpRequest) : live (Response (jsstr * jsstr)) :=
  match extractToken r with
  | None | Some [] => Ret (Fails 401 (js "인증 토큰이 필요합니다"))
  | Some token =>
    t <- now ;;
    match verify t token (secret cfg) with
    | Valid sub nickName => Ret (Ok (sub, nickName))
    | v => Ret (Fails 401 (unauthorized v))
    end
  end.

(** [RoomAccessGuard.canActivate] *)
Definition room_canActivate (r : HttpRequest) : live (Response (jsstr * jsstr)) :=
  user <- jwt_canActivate r ;;
  match user, extractToken r with
  | Ok u, Some token =>
    match body_roomId r with
    | None | Some [] => Ret (Fails 401 (js "roomId가 필요합니다"))
    | Some roomId =>
      hasAccess <- checkRoomAccess roomId token ;;
      if negb hasAccess then Ret (Fails 403 (js "이 방에 대한 접근 권한이 없습니다")) else Ret (Ok u)
    end
  | _, _ => Ret user
  end.

(* ------------------------------------------------------------------ *)
(** ** Rooms *)

Definition ensureAgentDispatch (roomId : jsstr) : live unit :=
  match agentName cfg with
  | [] => Ret tt
  | agent =>
    try_catch
      (dispatches <- await (ListDispatch roomId) ;;
       if existsb (fun a => bool_decide (a = agent)) dispatches then Ret tt else await (CreateDispatch roomId agent))
      (fun _ => Ret tt)
  end.

Definition buildRoomAgentDispatch : list jsstr := match agentName cfg with [] => [] | agent => [agent] end.

(** [random] is [Math.random().toString(36).slice(2, 8)] *)
Definition generateRoomId (now : Z) (random : jsstr) : jsstr := js "room-" ++ js_of_Z now ++ js "-" ++ random.

Definition or_json (v : option json) (d : json) : json := match v with Some x => if json_truthy (Some x) then x else d | None => d end.

(** Topic and creator *)
Definition parseRoomMetadata (metadata : option jsstr) : json * json :=
  match metadata with
  | None | Some [] => (JStr [], JStr [])
  | Some m =>
    match Json.parse m with
    | None | Some JNull => (JStr [], JStr [])
    | Some parsed => (or_json (prop parsed (js "topic")) (or_json (prop parsed (js "title")) (JStr [])), or_json (prop parsed (js "createdBy")) (JStr []))
    end
  end.

Definition room_metadata (topic : option jsstr) (createdBy : jsstr) : jsstr :=
  stringify (JObj (opt_field "topic" (JStr <$> topic) ++ [(js "createdBy", JStr createdBy)])).

Definition generateTokenForUser (roomId userName : jsstr) (isBot : bool) : live jsstr :=
  await (ToJwt (mkGrant userName roomId true true true true (if isBot then Some false else None))).

(** [s.replace(text, by)]: the first occurrence *)
Definition replace_first (text by_ s : jsstr) : jsstr :=
  match index_of s text with Some i => take i s ++ by_ ++ drop (i + length text) s | None => s end.

Definition wsUrl : jsstr := replace_first (js "https://") (js "wss://") (replace_first (js "http://") (js "ws://") (livekitUrl cfg)).

Record CreatedRoom := mkCreated { created_id : jsstr; roomUrl : jsstr; created_topic : option jsstr; created_max : Z; created_user : jsstr; created_token : jsstr; created_url : jsstr }.

Definition createRoom (userName : jsstr) (roomTopic : option jsstr) (maxParticipants : option Z) (random : jsstr) : live CreatedRoom :=
  try_catch
    (t <- now ;;
     room <- await (CreateRoom (mkOptions (generateRoomId t random) (room_metadata roomTopic userName) 300 (default 20 maxParticipants) buildRoomAgentDispatch)) ;;
     await (Background (EnsureDispatch (room_name room))) ;;;
     token <- generateTokenForUser (room_name room) userName false ;;
     Ret (mkCreated (room_name room) (wsUrl ++ js "/" ++ room_name room) roomTopic (room_max room) userName token wsUrl))
    (fun m => Raise (js "Failed to create room: " ++ m)).

(** Token and address *)
Definition joinRoom (roomId userName : jsstr) (roomTopic : option jsstr) (isBot : bool) : live (Response (jsstr * jsstr)) :=
  match roomId with
  | [] => Ret (Fails 400 (js "roomId is required"))
  | _ =>
    try_catch
      (allRooms <- await ListRooms ;;
       (if existsb (fun r => bool_decide (room_name r = roomId)) allRooms then Ret tt
        else
          let topic := match roomTopic with Some ((_ :: _) as t) => t | _ => roomId end in
          await (CreateRoom (mkOptions roomId (room_metadata (Some topic) userName) 300 20 buildRoomAgentDispatch)) ;;; Ret tt) ;;;
       ensureAgentDispatch roomId ;;;
       token <- generateTokenForUser roomId userName isBot ;;
       Ret (Ok (token, wsUrl)))
      (fun m => Ret (Fails 500 (js "Failed to join room: " ++ m)))
  end.

Record RoomEntry := mkEntry { entry_id : jsstr; roomTopic : json; maxParticipants : Z; createdBy : json; createdAt : jsstr }.

Definition format_room (room : RoomInfo) : RoomEntry :=
  let meta := parseRoomMetadata (metadata room) in
  mkEntry (room_name room) (or_json (Some meta.1) (JStr (room_name room))) (room_max room) meta.2 (toISOString (creationTime room * 1000)).

Definition listRooms : live (list RoomEntry) :=
  try_catch (rooms <- await ListRooms ;; Ret (List.map format_room rooms)) (fun m => Raise (js "Failed to list rooms: " ++ m)).

Definition find_room (roomId : jsstr) (rooms : list RoomInfo) : option RoomInfo := find_first (fun r => bool_decide (room_name r = roomId)) rooms.

Definition getRoom (roomId : jsstr) : live RoomEntry :=
  try_catch
    (rooms <- await ListRooms ;;
     match find_room roomId rooms with Some r => Ret (format_room r) | None => Raise (js "Room not found") end)
    (fun m => Raise (js "Failed to get room: " ++ m)).

Definition deleteRoom (roomId : jsstr) : live jsstr :=
  try_catch
    (rooms <- await ListRooms ;;
     match find_room roomId rooms with
     | Some r => await (DeleteRoom (room_name r)) ;;; Ret (room_name r)
     | None => Raise (js "Room not found")
     end)
    (fun m => Raise (js "Failed to delete room: " ++ m)).

(* ------------------------------------------------------------------ *)
(** ** The bot of a room *)

Definition is_bot (identity : jsstr) : bool := starts_with identity (js "ai-bot").

Definition hasBotParticipant (roomId : jsstr) : live bool :=
  try_catch (l <- await (ListParticipants roomId) ;; Ret (existsb is_bot l)) (fun _ => Ret false).

Definition listBotIdentities (roomId : jsstr) : live (list jsstr) :=
  try_catch (l <- await (ListParticipants roomId) ;; Ret (List.filter is_bot l)) (fun _ => Ret []).

Fixpoint remove_each (roomId : jsstr) (l : list jsstr) : live unit :=
  match l with
  | [] => Ret tt
  | identity :: l' => try_catch (await (RemoveParticipant roomId identity)) (fun _ => Ret tt) ;;; remove_each roomId l'
  end.

Definition removeBots (roomId : jsstr) : live unit := bots <- listBotIdentities roomId ;; remove_each roomId bots.

(** [voiceBotService.isActive] *)
Definition isBotActive (s : LiveState) (roomId : jsstr) : bool := map_has (bot_rooms s) roomId.

(** [random] is [Math.floor(Math.random() * 1000)] *)
Definition startBotForRoom (roomId : jsstr) (random : Z) : live unit :=
  s <- get ;;
  (if isBotActive s roomId then await (StopBot roomId) else Ret tt) ;;;
  removeBots roomId ;;;
  botToken <- generateTokenForUser roomId (js "ai-bot-" ++ js_of_Z random) true ;;
  await (StartBot roomId botToken).

Definition stopBotForRoom (roomId : jsstr) : live unit := await (StopBot roomId).

(** What runs in the background, with its exceptions caught *)
Definition background (task : Task) (random : Z) : live unit :=
  match task with
  | EnsureDispatch roomId => ensureAgentDispatch roomId
  | StartBotFor roomId => try_catch (startBotForRoom roomId random) (fun _ => Ret tt)
  end.

(** Lists and the channel are empty when they are missing *)
Definition embed_payload (topic : jsstr) (files : json) (expectedAttendees referencedFiles : option json) (channelId : option jsstr) : json :=
  JObj [(js "roomTopic", JStr topic); (js "files", files); (js "referencedFiles", or_json referencedFiles (JArr []));
        (js "expectedAttendees", or_json expectedAttendees (JArr [])); (js "channelId", JStr (default [] channelId))].

Definition embedFiles (roomId : jsstr) (payload : json) : live ApiResult := await (StartMeeting roomId payload).

Definition endMeeting (roomId : jsstr) : live ApiResult :=
  s <- get ;;
  (if isBotActive s roomId then await (EnterStandby roomId) else Ret tt) ;;;
  await (EndMeeting roomId).

Definition requestReport (roomId : jsstr) : live (bool * option json * option json) := await (RequestReport roomId).

(* ------------------------------------------------------------------ *)
(** ** Endpoints *)

(** [POST room/join] and [POST token] *)
Definition post_join (r : HttpRequest) (userName : jsstr) (roomTopic : option jsstr) : live (Response (jsstr * jsstr)) :=
  user <- room_canActivate r ;;
  match user with
  | Fails status m => Ret (Fails status m)
  | Ok _ => joinRoom (default [] (body_roomId r)) userName roomTopic false
  end.

Definition post_create (userName : jsstr) (roomTopic : option jsstr) (maxParticipants : option Z) (random : jsstr) : live CreatedRoom :=
  result <- createRoom userName roomTopic maxParticipants random ;;
  await (Background (StartBotFor (created_id result))) ;;;
  Ret result.

(** An endpoint whose exceptions become a status with a message *)
Definition answered {A} (p : live A) (label : string) : live (Response A) :=
  try_catch (a <- p ;; Ret (Ok a)) (fun m => Ret (Fails 500 (js label ++ m))).

Definition startVoiceBot (roomId : jsstr) (random : Z) : live (Response jsstr) :=
  let room := trim roomId in
  answered (startBotForRoom room random ;;; Ret room) "AI 봇 시작 실패: ".

Definition stopVoiceBot (roomId : jsstr) : live unit := stopBotForRoom (trim roomId).

Definition getVoiceBotStatus (s : LiveState) (roomId : jsstr) : jsstr * bool := (trim roomId, isBotActive s (trim roomId)).

Definition post_screen_context (roomId : jsstr) (capture : ScreenCapture) : live (Response jsstr) :=
  t <- now ;; s <- get ;;
  let '(rooms, (success, message)) := addScreenContext (bot_rooms s) (trim roomId) capture t in
  modify (fun _ s => s <| bot_rooms := rooms |>) ;;;
  Ret (if success : bool then Ok message else Fails 404 message).

Definition post_clear_screen_context (roomId : jsstr) : live (Response jsstr) :=
  s <- get ;;
  let '(rooms, cds, (success, message)) := clearScreenContext (bot_rooms s) (cooldowns s) (trim roomId) in
  modify (fun _ s => s <| bot_rooms := rooms |> <| cooldowns := cds |>) ;;;
  Ret (if success : bool then Ok message else Fails 404 message).

Definition get_screen_context_status (s : LiveState) (roomId : jsstr) : jsstr * (bool * nat * nat) :=
  (trim roomId, getScreenContextStatus (bot_rooms s) (trim roomId)).

Definition post_embed_files (roomId topic : jsstr) (files : json) (expectedAttendees referencedFiles : option json) (channelId : option jsstr)
  : live (Response (bool * json)) :=
  answered
    (result <- embedFiles roomId (embed_payload topic files expectedAttendees referencedFiles channelId) ;;
     Ret (api_success result, or_json (api_message result) (JStr (js "임베딩 요청 완료")))) "파일 임베딩 실패: ".

(** [injected] is the number of utterances *)
Definition injectMockConversation (roomId : jsstr) (utterances : list (jsstr * jsstr)) : live (Response nat) :=
  match roomId, utterances with
  | _ :: _, _ :: _ =>
    modify (fun t s => s <| rag := injectMockStatements t roomId utterances (rag s) |>) ;;; Ret (Ok (length utterances))
  | _, _ => Ret (Fails 400 (js "roomId와 utterances 배열이 필요합니다."))
  end.

Definition injectPreviousMeeting (roomId meetingTitle summary : jsstr) (keyDecisions actionItems : list jsstr) (date : jsstr) : live (Response jsstr) :=
  match roomId, meetingTitle, summary with
  | _ :: _, _ :: _, _ :: _ =>
    t <- now ;; s <- get ;;
    let date := match date with [] => hd [] (split_char 84 (toISOString t)) | d => d end in
    let '(rooms, success) := setPreviousMeetingContext (bot_rooms s) roomId (mkMeeting meetingTitle summary keyDecisions actionItems date) in
    modify (fun _ s => s <| bot_rooms := rooms |>) ;;;
    Ret (if success : bool then Ok (js "이전 회의 " ++ dq ++ meetingTitle ++ dq ++ js " 컨텍스트가 설정되었습니다.")
         else Fails 404 (js "방을 찾을 수 없습니다: " ++ roomId ++ js ". 먼저 방에 봇이 입장해야 합니다."))
  | _, _, _ => Ret (Fails 400 (js "roomId, meetingTitle, summary가 필요합니다."))
  end.

Definition clearMockBuffer (roomId : jsstr) (s : LiveState) : LiveState := s <| rag := RagClient.clearBuffer roomId (rag s) |>.

Definition get_issues (roomId : jsstr) (refresh : option jsstr) : live (Response (option json)) :=
  match trim roomId with
  | [] => Ret (Fails 400 (js "roomId가 필요합니다."))
  | room =>
    try_catch
      (result <- await (GetIssues room (bool_decide (refresh = Some (js "true")))) ;;
       Ret (if api_success result then Ok (api_data result)
            else Fails 502 (match api_message result with Some (JStr ((_ :: _) as m)) => m | _ => js "논점 조회 실패" end)))
      (fun m => Ret (Fails 500 (js "논점 조회 실패: " ++ m)))
  end.

(** Status, room and the message of the retrieval server *)
Definition post_end_meeting (roomId : option jsstr) : live (bool * jsstr * option json) :=
  match trim (default [] roomId) with
  | [] => Ret (false, [], None)
  | room => try_catch (result <- endMeeting room ;; Ret (api_success result, room, api_message result)) (fun _ => Ret (false, room, None))
  end.

Definition post_report (roomId : jsstr) : live (bool * jsstr * option json * option json) :=
  match trim roomId with
  | [] => Ret (false, [], Some (JStr (js "roomId가 필요합니다.")), None)
  | room =>
    try_catch (result <- requestReport room ;; Ret (result.1.1, room, result.1.2, result.2))
      (fun m => Ret (false, room, Some (JStr m), None))
  end.
End Access.

(* ------------------------------------------------------------------ *)
(** ** Who gets a token *)

(** What a request has learned from an answer: the access service confirmed the access
    at an address, or the media server created a room *)
Inductive Fact := Confirmed (url : jsstr) | Created (room : jsstr).

Definition learns {R} (e : LiveEff R) : outcome jsstr R -> list Fact :=
  match e in LiveEff R return outcome jsstr R -> list Fact with
  | AccessBody u => fun o => match o with Return d => if has_access d then [Confirmed u] else [] | Throw _ => [] end
  | CreateRoom _ => fun o => match o with Return r => [Created (room_name r)] | Throw _ => [] end
  | _ => fun _ => []
  end.

Definition issues {R} (e : LiveEff R) : option Grant := match e with ToJwt g => Some g | _ => None end.

Section Gate.
(** Which tokens may be asked for, with what is known *)
Context (allowed : list Fact -> Grant -> Prop).

(** Every token that a program asks for is allowed by the facts learned before in the
    same run, whatever the services answer and the others do; [Q] holds at the end *)
Fixpoint gate {A} (known : list Fact) (p : live A) (Q : list Fact -> outcome jsstr A -> Prop) : Prop :=
  match p with
  | Ret a => Q known (Return a)
  | Raise m => Q known (Throw m)
  | Get k => forall t s, gate known (k t s) Q
  | Put _ p => gate known p Q
  | Await e k => (forall g, issues e = Some g -> allowed known g) /\ forall r, gate (learns e r ++ known) (k r) Q
  end.

Lemma gate_mono {A} known (p : live A) (Q Q' : list Fact -> outcome jsstr A -> Prop) : (forall k o, Q k o -> Q' k o) -> gate known p Q -> gate known p Q'.
Proof. intros HQ. revert known. induction p as [a|m|k IH|s p IH|R e k IH]; intros known; cbn; eauto. intros [H1 H2]. eauto. Qed.

Lemma gate_bind {A B} known (p : live A) (f : A -> live B) Q :
  gate known p (fun k o => match o with Return a => gate k (f a) Q | Throw m => Q k (Throw m) end) -> gate known (bind p f) Q.
Proof. revert known. induction p as [a|m|k IH|s p IH|R e k IH]; intros known; cbn; eauto. intros [H1 H2]. eauto. Qed.

Lemma gate_try {A} known (p : live A) (h : jsstr -> live A) Q :
  gate known p (fun k o => match o with Return a => Q k (Return a) | Throw m => gate k (h m) Q end) -> gate known (try_catch p h) Q.
Proof. revert known. induction p as [a|m|k IH|s p IH|R e k IH]; intros known; cbn; eauto. intros [H1 H2]. eauto. Qed.

Lemma gate_token known g (Q : list Fact -> outcome jsstr jsstr -> Prop) : allowed known g -> (forall r, Q known r) -> gate known (await (ToJwt g)) Q.
Proof. intros H1 H2. split; [by intros g' [= <-]|]. by intros [a|m]; apply H2. Qed.

Lemma gate_await {R} known (e : LiveEff R) Q : issues e = None -> (forall r, Q (learns e r ++ known) r) -> gate known (await e) Q.
Proof. intros H1 H2. split; [by rewrite H1|]. intros [a|m]; apply H2. Qed.

(** A call that neither issues a token nor teaches anything *)
Lemma gate_plain {R} known (e : LiveEff R) Q : issues e = None -> (forall r, learns e r = []) -> (forall r, Q known r) -> gate known (await e) Q.
Proof. intros H1 H2 H3. apply gate_await; [done|]. intros r. rewrite H2. apply H3. Qed.
End Gate.

Ltac gate_step :=
  match goal with
  | |- gate _ _ (bind _ _) _ => apply gate_bind
  | |- gate _ _ (try_catch _ _) _ => apply gate_try
  | |- gate _ _ (await (ToJwt _)) _ => apply gate_token
  | |- gate _ _ (await _) _ => apply gate_plain; [reflexivity|reflexivity|]
  | |- gate _ _ get _ => intros ? ?
  | |- gate _ _ now _ => intros ? ?
  | |- gate _ _ (modify _) _ => intros ? ?
  | |- gate _ _ (if ?b then _ else _) _ => destruct b
  | |- gate _ _ (match ?x with _ => _ end) _ => destruct x
  | |- gate _ _ (let '_ := ?x in _) _ => destruct x
  | |- forall r : outcome _ _, _ => intros [?|?]
  | |- gate _ _ (Ret _) _ => cbn [gate]
  | |- gate _ _ (Raise _) _ => cbn [gate]
  | |- gate _ _ (Put _ _) _ => cbn [gate]
  | |- True => exact I
  end.

Lemma jwt_gate allowed verify cfg r :
  gate allowed [] (jwt_canActivate verify cfg r) (fun k o => k = [] /\ forall u, o = Return (Ok u) -> is_Some (extractToken r)).
Proof.
  unfold jwt_canActivate. destruct (extractToken r) as [[|c token]|]; try done. cbn [bind now gate]. intros t _.
  destruct (verify t (c :: token) (secret cfg)); cbn [gate]; split; try done; by eexists.
Qed.

Lemma checkRoomAccess_gate allowed cfg roomId token :
  gate allowed [] (checkRoomAccess cfg roomId token) (fun k o => o = Return true -> Confirmed (access_url cfg roomId) ∈ k).
Proof.
  unfold checkRoomAccess. generalize (access_url cfg roomId). intros url. apply gate_try, gate_bind, gate_plain; [done..|]. intros [b|m]; [|done]. destruct b; [|done].
  apply gate_bind, gate_await; [done|]. intros [d|m]; [|done]. cbn. destruct (has_access d); cbn; [|congruence]. intros _. set_solver.
Qed.

Lemma ensureAgentDispatch_gate allowed cfg roomId known : gate allowed known (ensureAgentDispatch cfg roomId) (fun k _ => k = known).
Proof. unfold ensureAgentDispatch. repeat gate_step; reflexivity. Qed.

Lemma joinRoom_gate (allowed : list Fact -> Grant -> Prop) cfg roomId userName topic isBot known :
  (forall k g, known ⊆ k -> grant_room g = roomId -> identity g = userName -> allowed k g) ->
  gate allowed known (joinRoom cfg roomId userName topic isBot) (fun _ _ => True).
Proof.
  intros Ha. unfold joinRoom. destruct roomId as [|c r]; [done|]. set (roomId := c :: r) in *. apply gate_try, gate_bind, gate_plain; [done..|]. intros [rooms|m]; [|done].
  apply gate_bind. apply (gate_mono _ _ _ (fun k _ => known ⊆ k)).
  - intros k [u|m] Hk; [|done]. apply gate_bind. eapply gate_mono, ensureAgentDispatch_gate. intros k' [u'|m] ->; [|done].
    apply gate_bind, gate_token; [by apply Ha|]. by intros [|].
  - destruct (existsb _ rooms); [exact (fun x H => H)|]. cbv zeta. apply gate_bind, gate_await; [done|]. intros [i|m]; cbn; set_solver.
Qed.

Lemma remove_each_gate allowed roomId l known : gate allowed known (remove_each roomId l) (fun k _ => k = known).
Proof.
  revert known. induction l as [|i l IH]; intros known; [done|]. cbn [remove_each]. apply gate_bind, gate_try, gate_plain; [done..|].
  intros [u|m]; apply IH.
Qed.

Lemma startBotForRoom_gate (allowed : list Fact -> Grant -> Prop) roomId random known :
  (forall k g, grant_room g = roomId -> is_bot (identity g) = true -> allowed k g) ->
  gate allowed known (startBotForRoom roomId random) (fun _ _ => True).
Proof.
  intros Ha. unfold startBotForRoom, removeBots, listBotIdentities, generateTokenForUser. apply gate_bind. intros t s. apply gate_bind.
  apply (gate_mono _ _ _ (fun k _ => k = known)); [|repeat gate_step; reflexivity].
  intros k [u|m] ->; [|done]. apply gate_bind, gate_bind, gate_try, gate_bind, gate_plain; [done..|]. intros [l|m]; cbn [gate].
  all: eapply gate_mono, remove_each_gate; intros k [u'|m'] ->; [|done]; apply gate_bind, gate_token; [by apply Ha|]; intros [tk|m'']; [|done]; by apply gate_plain.
Qed.

(** The endpoints that give no token *)
Inductive Silent (verify : Z -> jsstr -> jsstr -> Verified) (cfg : LiveConfig) : forall A, live A -> Prop :=
| silent_stop roomId : Silent verify cfg _ (stopVoiceBot roomId)
| silent_context roomId capture : Silent verify cfg _ (post_screen_context roomId capture)
| silent_clear roomId : Silent verify cfg _ (post_clear_screen_context roomId)
| silent_files roomId topic files attendees referenced channel : Silent verify cfg _ (post_embed_files roomId topic files attendees referenced channel)
| silent_conversation roomId utterances : Silent verify cfg _ (injectMockConversation roomId utterances)
| silent_meeting roomId title summary decisions items date : Silent verify cfg _ (injectPreviousMeeting roomId title summary decisions items date)
| silent_issues roomId refresh : Silent verify cfg _ (get_issues roomId refresh)
| silent_room roomId : Silent verify cfg _ (getRoom roomId)
| silent_delete roomId : Silent verify cfg _ (deleteRoom roomId)
| silent_end roomId : Silent verify cfg _ (post_end_meeting roomId)
| silent_report roomId : Silent verify cfg _ (post_report roomId)
| silent_rooms : Silent verify cfg _ listRooms.

Lemma silent_gate allowed verify cfg A (p : live A) : Silent verify cfg A p -> gate allowed [] p (fun _ _ => True).
Proof.
  intros []; unfold stopVoiceBot, stopBotForRoom, post_screen_context, post_clear_screen_context, post_embed_files, answered, embedFiles, injectMockConversation,
    injectPreviousMeeting, get_issues, getRoom, deleteRoom, post_end_meeting, endMeeting, post_report, requestReport, listRooms; repeat gate_step.
Qed.

(* ------------------------------------------------------------------ *)
(** ** Traces *)

(** What a program asks for in an execution, as far as [log] is interested *)
Fixpoint trace {A L} (log : forall R, LiveEff R -> option L) (clock : nat -> Z) (answer : forall R, nat -> LiveEff R -> outcome jsstr R)
  (others : nat -> LiveState -> LiveState) (n : nat) (s : LiveState) (p : live A) : list L :=
  match p with
  | Ret _ | Raise _ => []
  | Get k => trace log clock answer others n s (k (clock n) s)
  | Put s' p => trace log clock answer others n s' p
  | Await e k =>
    let rest := trace log clock answer others (S n) (others n s) (k (answer _ n e)) in
    match log _ e with Some l => l :: rest | None => rest end
  end.

(** Participants that are removed, and bots that are started *)
Definition bot_log (R : Type) (e : LiveEff R) : option (jsstr + jsstr) :=
  match e with RemoveParticipant _ i => Some (inl i) | StartBot _ token => Some (inr token) | _ => None end.

Lemma trace_remove_each {B} clock answer others n s roomId l (p : live B) :
  exists n' s', trace bot_log clock answer others n s (remove_each roomId l ;;; p) = (inl <$> l) ++ trace bot_log clock answer others n' s' p /\
    n' = (n + length l)%nat.
Proof.
  revert n s. induction l as [|i l IH]; intros n s; [by exists n, s|]. destruct (IH (S n) (others n s)) as (n' & s' & E & En). exists n', s'.
  split; [|cbn; lia]. cbn. rewrite <- E. by destruct (answer _ n (RemoveParticipant roomId i)).
Qed.

(* ------------------------------------------------------------------ *)
(** ** Properties *)



Definition some_live_config : LiveConfig := mkLiveConfig (js "https://live") (js "aura-bot") (Some (js "key")) None.

(** A library that accepts one token, of user [u1], and a server that grants access *)
Definition some_verify (t : Z) (token key : jsstr) : Verified := if decide (token = js "good") then Valid (js "u1") (js "kim") else Invalid.

Definition some_services (R : Type) (n : nat) (e : LiveEff R) : outcome jsstr R :=
  match e in LiveEff R return outcome jsstr R with
  | FetchAccess _ _ => Return true
  | AccessBody _ => Return (JObj [(js "hasAccess", JBool true)])
  | ListRooms => Return []
  | CreateRoom o => Return (mkRoomInfo (opt_name o) (Some (opt_metadata o)) (opt_max o) 0)
  | ListDispatch _ => Return []
  | ListParticipants _ => Return (js <$> ["ai-bot-7"; "kim"; "ai-botanist"])
  | ToJwt g => Return (js "jwt:" ++ identity g)
  | RemoveParticipant _ _ => Throw (js "gone")
  | _ => Throw (js "unused")
  end.

Definition some_live : LiveState := mkLive [] (clearCooldowns []) RagClient.initial.


(** The name of the token is not the one of the verified user *)
Example join_ex :
  (run_with (fun _ => 0) some_services (fun _ s => s) 0 some_live
    (post_join some_verify some_live_config (mkHttp (Some (js "Bearer good")) None (Some (js "r1"))) (js "ai-bot-1") None)).2 =
  Return (Ok (js "jwt:ai-bot-1", js "wss://live")).
Proof. vm_compute. reflexivity. Qed.

(** the topic and the creator that a room is created with are those that are listed
    for it; a room with an empty topic is listed under its name. *)
Theorem metadata_roundtrip name topic user max t :
  Forall unit16 topic -> Forall unit16 user ->
  let e := format_room (mkRoomInfo name (Some (room_metadata (Some topic) user)) max t) in
  roomTopic e = JStr (match topic with [] => name | _ => topic end) /\ createdBy e = JStr user.
Proof.
  intros Ht Hu. cbv zeta. unfold format_room, parseRoomMetadata, room_metadata. cbn [metadata room_name].
  assert (printable (JObj (opt_field "topic" (JStr <$> Some topic) ++ [(js "createdBy", JStr user)]))) as Hp.
  { apply printable_obj. split; [apply (bool_decide_unpack _); vm_compute; exact I|]. repeat constructor; cbn; try done; literal_units. }
  pose proof (print_starts [] [] (JObj (opt_field "topic" (JStr <$> Some topic) ++ [(js "createdBy", JStr user)]))) as (c & tl & E & _). fold (stringify (JObj (opt_field "topic" (JStr <$> Some topic) ++ [(js "createdBy", JStr user)]))) in E.
  rewrite E, <- E, (parse_stringify _ Hp). cbn. split; [by destruct topic|by destruct user].
Qed.

Lemma metadata_roundtrip_witness :
  let e := format_room (mkRoomInfo (js "room-1") (Some (room_metadata (Some (js "주간 회의")) (js "김"))) 20 0) in
  roomTopic e = JStr (js "주간 회의") /\ createdBy e = JStr (js "김").
Proof. apply (metadata_roundtrip (js "room-1") (js "주간 회의") (js "김") 20 0); literal_units. Defined.

(** before a bot is started in a room without one, every participant whose name is that
    of a bot is removed once, whether the removals succeed or not; then one bot starts. *)
Theorem bots_are_replaced clock (answer : forall R, nat -> LiveEff R -> outcome jsstr R) others n s roomId random ids token :
  isBotActive s roomId = false -> answer _ n (ListParticipants roomId) = Return ids -> (forall k g, answer _ k (ToJwt g) = Return token) ->
  trace bot_log clock answer others n s (startBotForRoom roomId random) = (inl <$> List.filter is_bot ids) ++ [inr token].
Proof.
  intros Hs Hl Ht. unfold startBotForRoom, removeBots, listBotIdentities. cbn [bind get trace]. rewrite Hs. cbn [bind await try_catch trace bot_log].
  rewrite Hl. cbn [bind try_catch].
  match goal with |- context [bind (remove_each roomId ?l) (fun _ => ?p)] => destruct (trace_remove_each clock answer others (S n) (others n s) roomId l p) as (n' & s' & -> & _) end. f_equal.
  unfold generateTokenForUser, await. cbn [bind trace bot_log]. rewrite Ht. cbn [bind trace bot_log].
  by destruct (answer _ _ (StartBot roomId token)).
Qed.

(** The services above, with one token for all *)
Definition one_token (R : Type) (n : nat) (e : LiveEff R) : outcome jsstr R :=
  match e in LiveEff R return outcome jsstr R with ToJwt g => Return (js "jwt") | e => some_services _ n e end.

Lemma bots_are_replaced_witness :
  trace bot_log (fun _ => 0) one_token (fun _ s => s) 0 some_live (startBotForRoom (js "r1") 5) = [inl (js "ai-bot-7"); inl (js "ai-botanist"); inr (js "jwt")].
Proof.
  rewrite (bots_are_replaced (fun _ => 0) one_token (fun _ s => s) 0 some_live (js "r1") 5 (js <$> ["ai-bot-7"; "kim"; "ai-botanist"]) (js "jwt")); [|reflexivity..].
  vm_compute. reflexivity.
Defined.

(** A call that waits for the start of a bot *)
Definition starts_bot (p : live unit) : bool := match p with Await (StartBot _ _) _ => true | _ => false end.

(** nothing keeps two starts of a bot in the same room apart: two requests that overlap
    both remove the bots that are there and then both start one. *)
Theorem overlapping_starts_make_two_bots :
  let answers R e := some_services R 0 e in
  let removal := [Resume 2 0 answers; Resume 2 1 answers] in
  (starts_bot <$> (foldl pool_step (some_live, []) ([Call 0 (startBotForRoom (js "r1") 1); Call 1 (startBotForRoom (js "r1") 2)] ++ removal ++ removal ++ removal ++ removal)).2) = [true; true].
Proof. vm_compute. reflexivity. Qed.
