(* ===== verification/Vision.v ===== *)
(** * Analysis of images

    [src/vision/vision.service.ts]: an image of a shared screen is sent to the language
    model with a question, or for an assessment of the code that it shows.

    Requests are programs of [Async] with the waits of the service; [Pool] runs those
    that overlap.  Positions are rationals; the text of numbers is an argument. *)

From Stdlib Require Import ZArith QArith Lia.
From stdpp Require Import base strings option list.
From S2P Require Import Prelude JsString JsMap Json Records Regex IntentTables Async Pool Search DiagramTools Llm.

#[local] Open Scope Z_scope.

(* ------------------------------------------------------------------ *)
(** ** Data *)

Inductive AnalysisType := code | document | chart | image | general.

#[export] Instance AnalysisType_eq : EqDecision AnalysisType.
Proof. solve_decision. Defined.

(** The fields of metrics and suggestions are what the model wrote, or [undefined] *)
Record VisionAnalysisResult := mkAnalysis {
  a_text : json;
  a_confidence : Q;
  analysisType : AnalysisType;
  isoQualityMetrics : option (list (option json * option json * option json));
  aiSuggestions : option (list (option json * option json * option json));
  a_sources : option json
}.

Record VisionContext := mkVisionContext { cursorPosition : option (Q * Q); highlightedText : option jsstr; screenWidth : Q; screenHeight : Q }.

Definition VISION_MIN_INTERVAL : Z := 2000.
Definition VISION_MAX_RETRIES : nat := 3.

Record VisionState := mkVisionState { vision_last : Z; vision_busy : bool }.

#[export] Instance VisionState_eta : Eta _ := fun s => mkVisionState (vision_last s) (vision_busy s).

Definition vision_initial : VisionState := mkVisionState 0 false.

Inductive VisionEff : Type -> Type :=
| VisionSleep (ms : Z) : VisionEff unit
| AskVision (payload : json) : VisionEff ModelAnswer.

Abbreviation vision := (@Async.prog VisionState VisionEff).

#[local] Open Scope prog_scope.

Section Vision.
(** The text of a number, with two digits after the point, and of a type error *)
Context (number_text toFixed2 : Q -> jsstr) (typeError : jsstr).

(* ------------------------------------------------------------------ *)
(** ** Positions *)

Inductive Rel := Low | Middle | High.

(** [v / size] compared with 0.33 and 0.66; division by zero gives an infinity or [NaN] *)
Definition relative (v size : Q) : Rel :=
  if Qeq_bool size 0 then if negb (Qle_bool 0 v) then Low else High
  else
    let r := (v / size)%Q in
    if negb (Qle_bool (33 # 100) r) then Low else if negb (Qle_bool (66 # 100) r) then Middle else High.

Definition getCursorRegionDescription (x y width height : Q) : jsstr :=
  match relative y height, relative x width with
  | Middle, Middle => js "화면 정중앙"
  | v, h =>
    js "화면 " ++ js (match v with Low => "상단" | Middle => "중앙" | High => "하단" end) ++ js " " ++
    js (match h with Low => "왼쪽" | Middle => "중앙" | High => "오른쪽" end)
  end.

Definition FOCUS_KEYWORDS : list jsstr := js <$> ["이거"; "이게"; "이 부분"; "여기"; "저거"; "저기"; "이쪽"; "저쪽"].

Definition position_text (p : Q * Q) : jsstr := js "(" ++ number_text p.1 ++ js ", " ++ number_text p.2 ++ js ")".

Definition cursor_region (context : option VisionContext) : jsstr :=
  match context with
  | Some c => match cursorPosition c with Some p => getCursorRegionDescription p.1 p.2 (screenWidth c) (screenHeight c) | None => [] end
  | None => []
  end.

Definition cursor_info (context : option VisionContext) : jsstr :=
  match context ≫= cursorPosition with
  | Some p => js "[커서 위치: " ++ cursor_region context ++ js " " ++ position_text p ++ js "]"
  | None => []
  end.

Definition highlighted (context : option VisionContext) : option jsstr :=
  match context ≫= highlightedText with Some ((_ :: _) as t) => Some t | _ => None end.

Definition selected_text (t : jsstr) : jsstr := js "[선택된 텍스트: " ++ dq ++ t ++ dq ++ js "]".

Definition focusMode (context : option VisionContext) (userQuestion : jsstr) : bool :=
  existsb (includes userQuestion) FOCUS_KEYWORDS && match context ≫= cursorPosition with Some _ => true | None => false end.

(* ------------------------------------------------------------------ *)
(** ** Prompts *)

Definition focus_prompt (cursorRegion cursorInfo : jsstr) : jsstr :=
  lines [
    js "당신은 화면을 보고 있는 동료 '아우라'예요.";
    [];
    js "## 🎯 중요: " ++ dq ++ cursorRegion ++ dq ++ js " 영역만 분석하세요!";
    js "사용자가 커서로 특정 부분을 가리키고 있어요.";
    cursorInfo;
    [];
    js "## 절대 규칙";
    js "1. **" ++ cursorRegion ++ js "에 있는 요소만** 설명하세요";
    js "2. 화면 다른 영역(특히 중앙 영상 내용)은 무시하세요";
    js "3. 커서 근처의 텍스트, 버튼, UI 요소를 우선 확인하세요";
    [];
    js "## 응답 규칙";
    js "- 커서가 가리키는 요소만 **1-2문장**으로 설명";
    jq "- `~요`, `~예요` 말투";
    js "- 다른 부분은 절대 언급하지 마세요"].

Definition general_prompt (cursorInfo highlightInfo : jsstr) : jsstr :=
  lines [
    js "당신은 화면을 보고 있는 동료 '아우라'예요.";
    [];
    cursorInfo ++ js " " ++ highlightInfo;
    [];
    js "## 분석 순서 (내부적으로 수행, 출력은 최종 답변만)";
    js "1. 화면의 텍스트 먼저 읽기 (제목, 자막, UI 라벨, 버튼 등)";
    js "2. 텍스트로 맥락 파악 (무슨 앱/사이트/영상인지)";
    js "3. 시각적 요소 파악 (이미지, 그래프, 코드 등)";
    js "4. 종합해서 사용자 질문에 답변";
    [];
    js "## 응답 규칙";
    js "- **2-3문장**으로 핵심만 (내부 분석 과정은 출력 X)";
    jq "- `~요`, `~예요` 말투로 친근하게";
    js "- 화면에 보이는 텍스트를 활용해서 정확하게 설명";
    [];
    js "## 응답 예시";
    jq "- `유튜브 영상이네요. '하얀 아뜰리에' 채널에서 박물관 굿즈 만드는 영상이에요. 봉황 문양 파우치를 보여주고 있네요.`";
    jq "- `VS Code에서 TypeScript 코드예요. 웹소켓 연결하는 부분이고, 32번 줄에서 에러 처리하고 있어요.`"].

Definition buildVisionSystemPrompt (context : option VisionContext) (userQuestion : jsstr) : jsstr :=
  if focusMode context userQuestion then focus_prompt (cursor_region context) (cursor_info context)
  else general_prompt (cursor_info context) (match highlighted context with Some t => selected_text t | None => [] end).

Definition quality_prompt : jsstr :=
  lines [
    js "You are a code quality expert. Respond ONLY with JSON.";
    [];
    js "FORMAT (respond with ONLY this, nothing else):";
    fence ++ js "json";
    js "{";
    jq "  `summary`: `Korean advice ~요/~예요 (max 50 chars)`,";
    jq "  `isoMetrics`: [";
    jq "    {`name`: `Maintainability`, `score`: 85, `description`: `Korean max 30 chars`},";
    jq "    {`name`: `Security`, `score`: 60, `description`: `Korean max 30 chars`}";
    js "  ],";
    jq "  `suggestions`: [";
    jq "    {`category`: `security`, `severity`: `high`, `suggestion`: `Korean max 60 chars`}";
    js "  ],";
    jq "  `sources`: [`ISO/IEC 25010:2011`]";
    js "}";
    fence;
    [];
    js "ABSOLUTE RULES:";
    js "1. Start with " ++ fence ++ js "json";
    js "2. End with " ++ fence;
    js "3. NO explanatory text before or after";
    js "4. Max 2-3 metrics, 2-3 suggestions";
    js "5. Korean language only for text fields"].

Definition quality_question : jsstr :=
  js "Analyze the code and respond with ONLY the JSON format specified in the system prompt. Do not add any explanations.".

(** The image without the head of its address *)
Definition image_data (imageBase64 : jsstr) : jsstr := replace "^data:image\/\w+;base64," [] imageBase64.

Definition question_text (userQuestion : jsstr) (context : option VisionContext) : jsstr :=
  let q := match highlighted context with Some t => selected_text t ++ nl ++ nl ++ userQuestion | None => userQuestion end in
  match context ≫= cursorPosition with Some p => js "[커서 위치: " ++ position_text p ++ js "]" ++ nl ++ nl ++ q | None => q end.

Definition buildVisionUserContent (imageBase64 userQuestion : jsstr) (context : option VisionContext) : json :=
  JArr [JObj [(js "type", JStr (js "image"));
              (js "source", JObj [(js "type", JStr (js "base64")); (js "media_type", JStr (js "image/jpeg")); (js "data", JStr (image_data imageBase64))])];
        JObj [(js "type", JStr (js "text")); (js "text", JStr (question_text userQuestion context))]].

Definition vision_payload (max_tokens : Z) (temperature : option Q) (system : jsstr) (content : json) : json :=
  JObj ([(js "anthropic_version", JStr (js "bedrock-2023-05-31")); (js "max_tokens", JNum (inject_Z max_tokens))] ++
        opt_field "temperature" (JNum <$> temperature) ++
        [(js "system", JStr system); (js "messages", JArr [JObj [(js "role", JStr (js "user")); (js "content", content)]])]).

(* ------------------------------------------------------------------ *)
(** ** Answers *)

Definition inferAnalysisType (question response : jsstr) : AnalysisType :=
  let q := existsb (fun k => includes (to_lower question) (js k)) in
  let r := existsb (fun k => includes (to_lower response) (js k)) in
  if q ["코드"; "함수"; "변수"] || r ["함수"; "코드"; "import"; "class"; "function"] then code
  else if q ["그래프"; "차트"; "통계"] || r ["그래프"; "차트"; "증가"; "감소"; "추이"] then chart
  else if q ["문서"; "계약"; "보고서"] || r ["문단"; "조항"; "내용"] then document
  else if q ["이미지"; "사진"; "그림"; "디자인"] then image
  else general.

Definition default_source : json := JArr [JStr (js "ISO/IEC 25010:2011")].

Definition unreadable : VisionAnalysisResult :=
  mkAnalysis (JStr (js "코드 분석을 완료했어요. 상세보기를 눌러주세요!")) (75 # 100) code (Some []) (Some []) (Some default_source).

(** A block of code in the answer *)
Definition fence_pattern : regex :=
  let tick := RClass (Z.eqb 96) in
  seqs [tick; tick; tick; compile (rx "(?:json)?\s*([\s\S]*?)\s*"); tick; tick; tick].

(** From the first opening to the last closing brace *)
Definition braces (s : jsstr) : option jsstr :=
  match index_of s (js "{"), index_of (reverse s) (js "}") with
  | Some i, Some j => Some (trim (drop i (take (length s - j) s)))
  | _, _ => None
  end.

Definition quality_json (responseText : jsstr) : option json :=
  let jsonText := match Regex.exec fence_pattern responseText with Some g => default [] (g 1%nat) | None => responseText end in
  data ← braces jsonText ≫= Json.parse;
  if json_truthy (prop data (js "summary")) then Some data else None.

(** [v?.map((m) => ({ ... })) || []] *)
Definition mapped (v : option json) (k1 k2 k3 : string) : outcome jsstr (list (option json * option json * option json)) :=
  match v with
  | None | Some JNull => Return []
  | Some (JArr l) => each (fun m => match m with JNull => Throw typeError | _ => Return (prop m (js k1), prop m (js k2), prop m (js k3)) end) l
  | Some _ => Throw typeError
  end.

Definition quality_result (responseText : jsstr) : outcome jsstr VisionAnalysisResult :=
  match quality_json responseText with
  | None => Return unreadable
  | Some data =>
    metrics <-- mapped (prop data (js "isoMetrics")) "name" "score" "description" ;;
    suggestions <-- mapped (prop data (js "suggestions")) "category" "severity" "suggestion" ;;
    let sources := prop data (js "sources") in
    Return (mkAnalysis (default JNull (prop data (js "summary"))) (9 # 10) code (Some metrics) (Some suggestions)
              (Some (if json_truthy sources then default JNull sources else default_source)))
  end%aura.

(** [textBlock?.text || d] *)
Definition text_or (content : list Block) (d : jsstr) : jsstr := match text_block content with [] => d | t => t end.

Definition ask_vision (payload : json) : vision ModelAnswer := try_catch (await (AskVision payload)) (fun m => Ret (Failure [] m)).

(** A request, again when the model is busy *)
Fixpoint vision_call (retries : nat) (payload : json) (read : list Block -> outcome jsstr VisionAnalysisResult) : vision VisionAnalysisResult :=
  r <- ask_vision payload ;;
  match r with
  | Blocks content => match read content with Return a => Ret a | Throw m => Raise m end
  | Failure name m =>
    if throttled name m then
      match retries with
      | S n => await (VisionSleep (2 ^ (Z.of_nat (VISION_MAX_RETRIES - retries) + 1) * 2000)) ;;; vision_call n payload read
      | O => Raise m
      end
    else Raise m
  end.

Definition callVisionAPIForQuality (imageBase64 : jsstr) (context : option VisionContext) : vision VisionAnalysisResult :=
  vision_call VISION_MAX_RETRIES
    (vision_payload 1000 (Some (3 # 10)%Q) quality_prompt (buildVisionUserContent imageBase64 quality_question context))
    (fun content => quality_result (text_or content (js "{}"))).

Definition callVisionAPI (imageBase64 userQuestion : jsstr) (context : option VisionContext) : vision VisionAnalysisResult :=
  vision_call VISION_MAX_RETRIES
    (vision_payload 500 None (buildVisionSystemPrompt context userQuestion) (buildVisionUserContent imageBase64 userQuestion context))
    (fun content =>
       let t := text_or content (js "화면을 분석할 수 없습니다.") in
       Return (mkAnalysis (JStr t) (9 # 10) (inferAnalysisType userQuestion t) None None None)).

(* ------------------------------------------------------------------ *)
(** ** Requests *)

(** The loop that waits for other requests, for a number of rounds *)
Fixpoint vision_turn (rounds : nat) : vision unit :=
  s <- get ;;
  if vision_busy s then
    match rounds with S n => await (VisionSleep 100) ;;; vision_turn n | O => Raise (js "still waiting") end
  else Ret tt.

Definition exclusively {A} (rounds : nat) (p : vision A) : vision A :=
  vision_turn rounds ;;;
  t <- now ;; s <- get ;;
  (if t - vision_last s <? VISION_MIN_INTERVAL then await (VisionSleep (VISION_MIN_INTERVAL - (t - vision_last s))) else Ret tt) ;;;
  modify (fun t s => s <| vision_busy := true |> <| vision_last := t |>) ;;;
  finally p (modify (fun _ s => s <| vision_busy := false |>)).

Definition analyzeScreenForQuality (rounds : nat) (imageBase64 : jsstr) (context : option VisionContext) : vision VisionAnalysisResult :=
  exclusively rounds (callVisionAPIForQuality imageBase64 context).

Definition analyzeScreenShare (rounds : nat) (imageBase64 userQuestion : jsstr) (context : option VisionContext) : vision VisionAnalysisResult :=
  exclusively rounds (callVisionAPI imageBase64 userQuestion context).

(** Megabytes of the bytes that a text in base 64 stands for *)
Definition size_in_MB (base64Data : jsstr) : Q := (inject_Z (Z.of_nat (length base64Data) * 3) / 4 / 1048576)%Q.

Definition validateAndCompressImage (imageBase64 : option jsstr) : outcome jsstr jsstr :=
  match imageBase64 with
  | None => Throw (js "이미지 처리 중 오류: " ++ typeError)
  | Some i =>
    let base64Data := image_data i in
    if negb (Qle_bool (size_in_MB base64Data) 5)
    then Throw (js "이미지가 너무 큽니다 (" ++ toFixed2 (size_in_MB base64Data) ++ js "MB). 최대 5MB까지 지원됩니다.")
    else Return base64Data
  end.

(** The endpoint [POST voice-bot/:roomId/analyze-screen]: status and message of a failure;
    the exception for an image that is refused is thrown inside the [try] *)
Definition post_analyze_screen (rounds : nat) (imageBase64 : option jsstr) (context : option VisionContext)
  : vision (outcome (Z * jsstr) VisionAnalysisResult) :=
  try_catch
    (match validateAndCompressImage imageBase64 with
     | Throw m => Raise (match m with [] => js "이미지 검증 실패" | _ => m end)
     | Return _ => r <- analyzeScreenForQuality rounds (default [] imageBase64) context ;; Ret (Return r)
     end)
    (fun m => Ret (Throw (500, js "화면 분석 실패: " ++ m))).
End Vision.

Example quality_ex :
  quality_result [] (js "결과:" ++ nl ++ fence ++ jq "json {`summary`: `좋아요`, `isoMetrics`: [{`name`: `Security`, `score`: 60}]}" ++ nl ++ fence) =
  Return (mkAnalysis (JStr (js "좋아요")) (9 # 10) code (Some [(Some (JStr (js "Security")), Some (JNum 60), None)]) (Some []) (Some default_source)).
Proof. vm_compute. reflexivity. Qed.

Example region_ex : getCursorRegionDescription 100 900 1920 1080 = js "화면 하단 왼쪽" /\ getCursorRegionDescription 960 540 1920 1080 = js "화면 정중앙".
Proof. vm_compute. done. Qed.

(* ------------------------------------------------------------------ *)
(** ** The mark of a request *)

Lemma vision_turn_quiet rounds s : quiet vision_busy (vision_turn rounds) s.
Proof.
  revert s. induction rounds as [|n IH]; intros s; cbn [vision_turn]; (apply quiet_bind; [done|]); intros s1 s2; destruct (vision_busy s1); try done.
  apply quiet_bind; [apply quiet_await|]. intros _ s3. apply IH.
Qed.

Lemma exclusively_tame {A} rounds (p : vision A) s : tame vision_busy (vision_busy s) (exclusively rounds p) s.
Proof.
  unfold exclusively. apply tame_quiet_bind; [done|apply vision_turn_quiet|]. intros _ s1. intros t t'. cbn [bind].
  apply tame_quiet_bind; [done|destruct (_ <? _); [apply quiet_await|done]|]. intros _ s2. intros t2. cbn. by apply finally_tame.
Qed.

(** A call of the service *)
Definition is_analysis (number_text : Q -> jsstr) (typeError : jsstr) (p : vision VisionAnalysisResult) : Prop :=
  (exists n i c, p = analyzeScreenForQuality number_text typeError n i c) \/ (exists n i q c, p = analyzeScreenShare number_text n i q c).

(* ------------------------------------------------------------------ *)
(** ** Properties *)

(** however analyses of images overlap, fail and wait, the mark that one is made is
    reset: while it is set some call that will reset it is on its way, and when all calls
    are done it is not set. *)
Theorem vision_is_released number_text typeError events :
  Forall (fun e => match e with Call _ p => is_analysis number_text typeError p | Resume _ _ _ => True end) events ->
  let '(s, calls) := foldl pool_step (vision_initial, []) events in
  (vision_busy s = true -> exists p, p ∈ calls /\ owner vision_busy p) /\
  (Forall (fun p => is_done p = true) calls -> vision_busy s = false).
Proof.
  intros He. assert (owned vision_busy (foldl pool_step (vision_initial, []) events)) as H.
  { apply flag_has_owner; [done|]. eapply Forall_impl; [exact He|]. intros [t p|t i answer]; [|done].
    intros [(n & i & c & ->)|(n & i & q & c & ->)] s; apply exclusively_tame. }
  destruct (foldl _ _ events) as [s calls]. destruct H as [H _]. split; [exact H|]. intros Hd. apply not_true_iff_false. intros Hs.
  destruct (H Hs) as (p & Hp & Ho). rewrite Forall_forall in Hd. specialize (Hd p Hp). by destruct p.
Qed.

Definition vision_answers (R : Type) (e : VisionEff R) : outcome jsstr R :=
  match e in VisionEff R return outcome jsstr R with VisionSleep _ => Return tt | AskVision _ => Throw (js "down") end.

(** Two analyses; the model fails for both *)
Definition some_analyses : list (@PoolEvent VisionState VisionEff VisionAnalysisResult) :=
  [Call 5000 (analyzeScreenShare (fun _ => []) 9 [] [] None); Call 5010 (analyzeScreenForQuality (fun _ => []) [] 9 [] None);
   Resume 6000 0 vision_answers; Resume 6010 1 vision_answers; Resume 7100 1 vision_answers; Resume 7200 1 vision_answers].

Lemma vision_is_released_witness :
  let '(s, calls) := foldl pool_step (vision_initial, []) some_analyses in
  Forall (fun p => is_done p = true) calls /\ vision_busy s = false.
Proof.
  pose proof (vision_is_released (fun _ => []) [] some_analyses) as H.
  assert (let '(_, calls) := foldl pool_step (vision_initial, []) some_analyses in Forall (fun p => is_done p = true) calls) as Hd
    by (vm_compute; repeat constructor).
  destruct (foldl _ _ _) as [s calls]. split; [exact Hd|]. apply H; [|exact Hd]. unfold some_analyses, is_analysis.
  constructor; [right; by repeat eexists|]. constructor; [left; by repeat eexists|]. repeat (constructor; [exact I|]). constructor.
Defined.

(** an image that is accepted stands for at most five megabytes, and is refused only
    when it stands for more or is missing. *)
Theorem image_size_is_bounded toFixed2 typeError i :
  match validateAndCompressImage toFixed2 typeError (Some i) with
  | Return d => d = image_data i /\ (Z.of_nat (length d) * 3 <= 4 * 5 * 1048576)
  | Throw _ => 4 * 5 * 1048576 < Z.of_nat (length (image_data i)) * 3
  end.
Proof.
  unfold validateAndCompressImage. cbv zeta. generalize (image_data i). intros d.
  assert (Qle_bool (size_in_MB d) 5 = true <-> Z.of_nat (length d) * 3 <= 4 * 5 * 1048576) as Hb.
  { rewrite Qle_bool_iff. unfold size_in_MB, Qle, Qdiv, Qmult, Qinv. cbn [Qnum Qden inject_Z]. cbn. lia. }
  destruct (Qle_bool (size_in_MB d) 5); cbn [negb]; [split; [done|by apply Hb]|].
  destruct (Z.le_gt_cases (Z.of_nat (length d) * 3) (4 * 5 * 1048576)) as [H|H]; [by apply Hb in H|lia].
Qed.

(** an image that is refused is answered as an error of the server, with status 500,
    and never with the status 400 that it was thrown with. *)
Theorem refused_images_are_server_errors number_text toFixed2 typeError rounds image context m clock answer others n s :
  validateAndCompressImage toFixed2 typeError image = Throw m -> m <> [] ->
  run_with clock answer others n s (post_analyze_screen number_text toFixed2 typeError rounds image context) =
  (s, Return (Throw (500, js "화면 분석 실패: " ++ m))).
Proof. intros Hm Hne. unfold post_analyze_screen. rewrite Hm. by destruct m. Qed.

Lemma refused_images_are_server_errors_witness :
  run_with (fun _ => 0) (fun R _ e => vision_answers R e) (fun _ s => s) 0 vision_initial
    (post_analyze_screen (fun _ => []) (fun _ => []) (js "no text") 1 None None) =
  (vision_initial, Return (Throw (500, js "화면 분석 실패: " ++ (js "이미지 처리 중 오류: " ++ js "no text")))).
Proof. apply refused_images_are_server_errors; [reflexivity|vm_compute; discriminate]. Defined.
