(* ===== verification/Tts.v ===== *)
(** * Speech synthesis

    [src/tts/tts.service.ts]: the text of an answer is freed of markup and emoji,
    escaped and wrapped into SSML, which is sent to the speech service.

    The patterns with the flag [m] anchor at lines, those with the flag [u] match
    code points; [$1] in a replacement is the first group. *)

From Stdlib Require Import ZArith Lia.
From stdpp Require Import base strings option list.
From S2P Require Import Prelude JsString Regex IntentTables Intent Async Search.

#[local] Open Scope Z_scope.

(* ------------------------------------------------------------------ *)
(** ** Replacement *)

Definition at_line_start (st : mstate) : bool := match before st with [] => true | c :: _ => is_line_end c end.
Definition at_line_end (st : mstate) : bool := match after st with [] => true | c :: _ => is_line_end c end.

(** A match of [r] that begins where [start] and ends where [stop] allows *)
Definition match_at (start stop : mstate -> bool) (r : regex) (st : mstate) : option mstate :=
  if start st then Regex.run r st (fun st' => if stop st' then Some st' else None) else None.

Fixpoint search_at (start stop : mstate -> bool) (r : regex) (pre rest : jsstr) : option (mstate * mstate) :=
  let st := mkState pre rest [] in
  match match_at start stop r st with
  | Some st' => Some (st, st')
  | None => match rest with c :: rest' => search_at start stop r (c :: pre) rest' | [] => None end
  end.

(** Every match of a pattern that matches no empty text is replaced by [repl] of it *)
Fixpoint replace_each (fuel : nat) (start stop : mstate -> bool) (r : regex) (repl : mstate -> jsstr) (pre rest : jsstr) : jsstr :=
  match fuel with
  | O => rest
  | S f =>
    match search_at start stop r pre rest with
    | None => rest
    | Some (st, st') => take (length rest - length (after st)) rest ++ repl st' ++ replace_each f start stop r repl (before st') (after st')
    end
  end.

Definition anywhere (_ : mstate) : bool := true.
Definition group1 (st : mstate) : jsstr := match find_first (fun e => Nat.eqb e.1 1) (captures st) with Some e => e.2 | None => [] end.

Definition replace_group (pattern : string) (s : jsstr) : jsstr :=
  replace_each (S (length s)) anywhere anywhere (compile (rx pattern)) group1 [] s.

(** [/^pattern/gm] and [/^pattern$/gm] *)
Definition remove_at_lines (pattern : string) (s : jsstr) : jsstr :=
  replace_each (S (length s)) at_line_start anywhere (compile (rx pattern)) (fun _ => []) [] s.
Definition remove_lines (pattern : string) (s : jsstr) : jsstr :=
  replace_each (S (length s)) at_line_start at_line_end (compile (rx pattern)) (fun _ => []) [] s.

(* ------------------------------------------------------------------ *)
(** ** Text for speech *)

(** The value of a code point *)
Definition code_value (c : jsstr) : Z :=
  match c with
  | [h; l] => 65536 + (h - 55296) * 1024 + (l - 56320)
  | [u] => u
  | _ => 0
  end.

(** [.replace(/[\u{lo}-\u{hi}]/gu, '')] *)
Definition remove_range (lo hi : Z) (s : jsstr) : jsstr :=
  concat (List.filter (fun c => negb ((lo <=? code_value c) && (code_value c <=? hi))) (code_points s)).

(** Inline code: back quotes around the text *)
Definition code_pattern : regex := RSeq (RClass (Z.eqb 96)) (RSeq (RGroup 1 (RSeq (RClass (fun c => negb (96 =? c))) (RStar true (RClass (fun c => negb (96 =? c)))))) (RClass (Z.eqb 96))).

Definition stripMarkdown (text : jsstr) : jsstr :=
  let s := replace_group "\*{1,3}([^*]+)\*{1,3}" text in
  let s := replace_group "~~([^~]+)~~" s in
  let s := replace_each (S (length s)) anywhere anywhere code_pattern group1 [] s in
  let s := remove_at_lines "#{1,6}\s+" s in
  let s := remove_at_lines "[\-\*]\s+" s in
  let s := remove_at_lines "\d+\.\s+" s in
  let s := replace_group "\[([^\]]+)\]\([^)]+\)" s in
  let s := replace "!\[[^\]]*\]\([^)]+\)" [] s in
  let s := remove_at_lines ">\s+" s in
  let s := remove_lines "[\-\*]{3,}" s in
  let s := remove_range 127744 129535 s in
  let s := remove_range 9728 9983 s in
  let s := remove_range 9984 10175 s in
  let s := remove_range 65024 65039 s in
  let s := remove_range 126976 127023 s in
  let s := remove_range 127136 127231 s in
  let s := replace "[❌✅✓✗⭕️⚠️❗️❓]" [] s in
  trim (replace "\s{2,}" (js " ") s).

Definition normalizeSpeech (text : jsstr) : jsstr := stripMarkdown text.

Definition escapeSsml (text : jsstr) : jsstr := replace ">" (js "&gt;") (replace "<" (js "&lt;") (replace "&" (js "&amp;") text)).

Definition voiceName : jsstr := js "ko-KR-SunHiNeural".

Definition ssml_open : jsstr := jq "<speak version=`1.0` xml:lang=`ko-KR`><voice name=`" ++ voiceName ++ jq "`>".
Definition ssml_close : jsstr := js "</voice></speak>".

Definition buildSsml (text : jsstr) : jsstr := ssml_open ++ escapeSsml (normalizeSpeech text) ++ ssml_close.

(* ------------------------------------------------------------------ *)
(** ** Requests *)

Record TtsConfig := mkTts { azureKey : jsstr; azureRegion : option jsstr }.

(** An answer of the service: the audio, or its status with a text *)
Inductive TtsAnswer := Audio (bytes : list Z) | TtsStatus (code : Z) (text : jsstr).

Inductive TtsEff : Type -> Type :=
| FetchSpeech (url format body : jsstr) : TtsEff TtsAnswer.

Abbreviation tts := (@Async.prog unit TtsEff).

#[local] Open Scope prog_scope.

Definition tts_url (cfg : TtsConfig) : jsstr :=
  js "https://" ++ match azureRegion cfg with Some ((_ :: _) as r) => r | _ => js "koreacentral" end ++ js ".tts.speech.microsoft.com/cognitiveservices/v1".

Definition synthesizeWithAzure (cfg : TtsConfig) (text outputFormat : jsstr) : tts (list Z) :=
  match azureKey cfg with
  | [] => Raise (js "AZURE_SPEECH_KEY is not set")
  | _ =>
    response <- await (FetchSpeech (tts_url cfg) outputFormat (buildSsml text)) ;;
    match response with
    | Audio bytes => Ret bytes
    | TtsStatus code errorText => Raise (js "Azure TTS failed: " ++ js_of_Z code ++ js " " ++ errorText)
    end
  end.

Definition synthesizePcm (cfg : TtsConfig) (text : jsstr) : tts (list Z) := synthesizeWithAzure cfg text (js "raw-16khz-16bit-mono-pcm").
Definition synthesizeToBuffer (cfg : TtsConfig) (text : jsstr) : tts (list Z) := synthesizePcm cfg text.
Definition synthesize (cfg : TtsConfig) (text : jsstr) : tts (list Z) := synthesizeWithAzure cfg text (js "audio-24khz-48kbitrate-mono-mp3").

Example strip_ex :
  stripMarkdown (js "## 결과: **좋음** 🎉  [링크](http://x) " ++ nl ++ js "- 첫째 ✅" ++ nl ++ js "2. 둘째 ~~취소~~" ++ nl ++ js "---")
  = js "결과: 좋음 링크 첫째 둘째 취소".
Proof. vm_compute. reflexivity. Qed.

(** Every pattern is read *)
Example patterns_compile :
  forallb (fun p => compiles (rx p))
    ["\*{1,3}([^*]+)\*{1,3}"; "~~([^~]+)~~"; "#{1,6}\s+"; "[\-\*]\s+"; "\d+\.\s+"; "\[([^\]]+)\]\([^)]+\)"; "!\[[^\]]*\]\([^)]+\)"; ">\s+"; "[\-\*]{3,}";
     "[❌✅✓✗⭕️⚠️❗️❓]"; "\s{2,}"; "&"; "<"; ">"] = true.
Proof. vm_compute. reflexivity. Qed.

(* ------------------------------------------------------------------ *)
(** ** Escaping *)

(** A pattern of one character *)
Definition single (r : regex) (p : Z -> bool) : Prop :=
  forall X st (k : mstate -> option X),
    Regex.run r st k = match after st with c :: rest => if p c then k (mkState (c :: before st) rest (captures st)) else None | [] => None end.

Lemma search_single r p pre rest :
  single r p -> search r pre rest =
  match rest with
  | [] => None
  | c :: rest' => if p c then Some (mkState pre rest [], mkState (c :: pre) rest' []) else search r (c :: pre) rest'
  end.
Proof. intros H. destruct rest as [|c rest]; cbn [search]; rewrite H; cbn [after before captures]; [done|]. by destruct (p c). Qed.

(** What comes before the first match is kept *)
Lemma replace_single_skip r p repl c pre rest f :
  single r p -> p c = false -> replace_from f r repl pre (c :: rest) = match f with O => c :: rest | S _ => c :: replace_from f r repl (c :: pre) rest end.
Proof.
  intros H Hc. destruct f as [|f]; [done|]. cbn [replace_from]. rewrite (search_single _ _ _ _ H), Hc.
  destruct (search r (c :: pre) rest) as [[st st']|] eqn:E; [|done].
  assert (length (after st) <= length rest)%nat as Hl.
  { clear - E. revert pre c E. induction rest as [|d rest IH]; intros pre c; cbn [search].
    - destruct (Regex.run _ _ _); [|done]. by intros [= <- <-].
    - destruct (Regex.run _ _ _); [intros [= <- <-]; done|]. intros E. apply IH in E. cbn. lia. }
  replace (length (c :: rest) - length (after st))%nat with (S (length rest - length (after st))) by (cbn [length]; lia).
  cbn [take]. destruct (_ <? _)%nat; [done|]. by destruct (after st).
Qed.

Lemma replace_single r p repl s : single r p -> replace_all r repl s = s ≫= fun c => if p c then repl else [c].
Proof.
  intros H. unfold replace_all. assert (forall f pre, (length s < f)%nat -> replace_from f r repl pre s = s ≫= fun c => if p c then repl else [c]) as Hf; [|apply Hf; lia].
  induction s as [|c s IH]; intros f pre Hl; cbn [length mbind list_bind] in *.
  - destruct f; [lia|]. cbn [replace_from]. by rewrite (search_single _ _ _ _ H).
  - destruct f as [|f]; [lia|]. destruct (p c) eqn:Hc.
    + cbn [replace_from]. rewrite (search_single _ _ _ _ H), Hc. cbn [after before length]. rewrite Nat.sub_diag. cbn [take].
      destruct (Nat.ltb_spec (length s) (S (length s))); [|lia]. cbn [app]. f_equal. apply IH. lia.
    + rewrite (replace_single_skip _ _ _ _ _ _ _ H Hc). cbn [app]. f_equal. apply IH. lia.
Qed.

(** The entity of a character *)
Definition entity (c : Z) : jsstr := if c =? 38 then js "&amp;" else if c =? 60 then js "&lt;" else if c =? 62 then js "&gt;" else [c].

Lemma single_literal (pattern : string) c :
  compile (rx pattern) = RSeq (RClass (lit_class false c)) REps -> single (compile (rx pattern)) (fun d => lit_class false c d).
Proof. intros -> X st k. cbn. destruct (after st) as [|d rest]; [done|]. by destruct (lit_class false c d). Qed.

Lemma replace_char_literal pattern c repl s :
  compile (rx pattern) = RSeq (RClass (lit_class false c)) REps -> replace pattern repl s = s ≫= fun d => if d =? c then repl else [d].
Proof. intros H. unfold replace. rewrite (replace_single _ _ _ _ (single_literal _ _ H)). done. Qed.

Lemma escapeSsml_entities text : escapeSsml text = text ≫= entity.
Proof.
  unfold escapeSsml. rewrite (replace_char_literal "&" 38), (replace_char_literal "<" 60), (replace_char_literal ">" 62) by reflexivity.
  induction text as [|c text IH]; [done|]. cbn [mbind list_bind]. rewrite !bind_app, IH. f_equal. unfold entity.
  destruct (Z.eqb_spec c 38); [reflexivity|]. cbn. destruct (Z.eqb_spec c 60); [reflexivity|]. cbn. destruct (Z.eqb_spec c 62); [reflexivity|]. done.
Qed.

(** What an XML reader makes of a text with these entities *)
Fixpoint unescape (s : jsstr) : jsstr :=
  match s with
  | 38 :: 97 :: 109 :: 112 :: 59 :: s' => 38 :: unescape s'
  | 38 :: 108 :: 116 :: 59 :: s' => 60 :: unescape s'
  | 38 :: 103 :: 116 :: 59 :: s' => 62 :: unescape s'
  | c :: s' => c :: unescape s'
  | [] => []
  end.

Lemma unescape_plain c s : c <> 38 -> unescape (c :: s) = c :: unescape s.
Proof. intros H. destruct c as [|p|p]; try done. do 6 (destruct p as [p|p|]; try done). Qed.

Lemma unescape_entity c s : unescape (entity c ++ s) = c :: unescape s.
Proof.
  unfold entity. destruct (Z.eqb_spec c 38) as [->|]; [reflexivity|]. destruct (Z.eqb_spec c 60) as [->|]; [reflexivity|].
  destruct (Z.eqb_spec c 62) as [->|]; [reflexivity|]. by apply unescape_plain.
Qed.

Lemma unescape_entities text : unescape (text ≫= entity) = text.
Proof. induction text as [|c text IH]; [done|]. cbn [mbind list_bind]. by rewrite unescape_entity, IH. Qed.

Lemma entity_no_markup c : Forall (fun d => d <> 60 /\ d <> 62) (entity c).
Proof.
  unfold entity. destruct (Z.eqb_spec c 38); [by apply (bool_decide_unpack _)|]. destruct (Z.eqb_spec c 60); [by apply (bool_decide_unpack _)|].
  destruct (Z.eqb_spec c 62); [by apply (bool_decide_unpack _)|]. by repeat constructor.
Qed.

(* ------------------------------------------------------------------ *)
(** ** Properties *)

(** C39: an answer cannot change the markup of the speech it is part of: between the
    fixed tags there is no angle bracket, and a reader of the markup gets exactly the
    text that was to be spoken. *)
Theorem speech_is_escaped text :
  exists body, buildSsml text = ssml_open ++ body ++ ssml_close /\
    Forall (fun c => c <> 60 /\ c <> 62) body /\ unescape body = stripMarkdown text.
Proof.
  exists (escapeSsml (normalizeSpeech text)). unfold buildSsml. rewrite escapeSsml_entities. split_and!; [done| |apply unescape_entities].
  apply Forall_bind, Forall_true. intros c. apply entity_no_markup.
Qed.

(** links are replaced before images: of an image the mark and its description are
    spoken, although images are to be left out. *)
Theorem images_are_spoken : stripMarkdown (js "보세요 ![그림 설명](http://x/y.png)") = js "보세요 !그림 설명".
Proof. vm_compute. reflexivity. Qed.
