(* ===== verification/Maps.v ===== *)
(** * Routes and maps

    [src/llm/map.service.ts]: the route from the place of the office to a result of a
    search, the image of a map with both places, and the endpoint that gives the image
    to clients ([src/livekit/livekit.controller.ts]).

    Answers of the map service are an argument, a function of the address that is
    fetched; sine, cosine, arc tangent, square root and the text of numbers are
    arguments too. *)

From Stdlib Require Import ZArith QArith Lia Lqa.
From stdpp Require Import base strings option sets list.
From S2P Require Import Prelude JsString Utf8 JsMap Json JsNumber Search.

#[local] Open Scope Z_scope.
#[local] Open Scope aura_scope.

(* ------------------------------------------------------------------ *)
(** ** Addresses *)

(** Code points of a text, a replacement character for a surrogate without partner *)
Fixpoint usv (s : jsstr) : list Z :=
  match s with
  | [] => []
  | c :: s' =>
    if (55296 <=? c) && (c <=? 56319) then
      match s' with
      | d :: s'' => if (56320 <=? d) && (d <=? 57343) then (65536 + (c - 55296) * 1024 + (d - 56320)) :: usv s'' else replacement :: usv s'
      | [] => [replacement]
      end
    else if (56320 <=? c) && (c <=? 57343) then replacement :: usv s'
    else c :: usv s'
  end.

(** Bytes that a query shows as they are *)
Definition form_safe (b : Z) : bool :=
  ((48 <=? b) && (b <=? 57)) || ((65 <=? b) && (b <=? 90)) || ((97 <=? b) && (b <=? 122)) || existsb (Z.eqb b) [42; 45; 46; 95].

Definition form_byte (b : Z) : jsstr := if b =? 32 then [43] else if form_safe b then [b] else percent b.

Definition form_encode (s : jsstr) : jsstr := (usv s ≫= encode) ≫= form_byte.

(** [url.toString()] after the parameters have been appended in order *)
Definition with_params (base : string) (params : list (string * jsstr)) : jsstr :=
  js base ++ js "?" ++ join (js "&") ((fun p => form_encode (js p.1) ++ js "=" ++ form_encode p.2) <$> params).

Example with_params_ex : with_params "https://a/b" [("w", js "1,2 가"); ("x", js "|")] = js "https://a/b?w=1%2C2+%EA%B0%80&x=%7C".
Proof. vm_compute. reflexivity. Qed.

(* ------------------------------------------------------------------ *)
(** ** Geometry *)

Record Point := mkPoint { lng : jsstr; lat : jsstr }.

Record Bounds := mkBounds { minLng : number; maxLng : number; minLat : number; maxLat : number }.

Definition finite (n : number) : bool := match n with Finite _ => true | _ => false end.

Definition extend (b : Bounds) (p : Point) : Bounds :=
  let lng := string_to_number (lng p) in
  let lat := string_to_number (lat p) in
  if negb (finite lng) || negb (finite lat) then b
  else mkBounds (nmin (minLng b) lng) (nmax (maxLng b) lng) (nmin (minLat b) lat) (nmax (maxLat b) lat).

Definition computeBounds (points : list Point) : Bounds :=
  foldl extend (mkBounds (Infinite false) (Infinite true) (Infinite false) (Infinite true)) points.

Definition center (lo hi : number) : number := ndiv (nadd lo hi) (Finite 2).

Definition pickStaticMapLevel (distanceMeters : number) : Z :=
  if ngt distanceMeters (of_Z 15000) then 11
  else if ngt distanceMeters (of_Z 8000) then 12
  else if ngt distanceMeters (of_Z 4000) then 13
  else if ngt distanceMeters (of_Z 2000) then 14
  else 15.

Definition nround (n : number) : number := match n with Finite q => of_Z (math_round q) | _ => n end.

(** Sine and cosine: of an infinity [NaN] *)
Definition math_trig (f : Q -> Q) (x : number) : number := match x with Finite q => Finite (f q) | _ => NotANumber end.

Section Service.
Context (number_text : Q -> jsstr) (sin cos sqrt : Q -> Q) (atan2 : Q -> Q -> Q) (pi : Q).

Definition math_atan2 (y x : number) : number :=
  let signed (negative : bool) (q : Q) := Finite (if negative then - q else q)%Q in
  match y, x with
  | NotANumber, _ | _, NotANumber => NotANumber
  | Finite p, Finite q => Finite (atan2 p q)
  | Infinite n, Infinite false => signed n (pi / 4)%Q
  | Infinite n, Infinite true => signed n (3 * pi / 4)%Q
  | Infinite n, Finite _ => signed n (pi / 2)%Q
  | Finite _, Infinite false => Finite 0
  | Finite p, Infinite true => signed (Qlt_bool p 0) pi
  end.

Definition computeDistanceMeters (origin destination : Point) : number :=
  let R := of_Z 6371000 in
  let radians n := ndiv (nmul n (Finite pi)) (of_Z 180) in
  let square n := nmul n n in
  let lat1 := radians (string_to_number (lat origin)) in
  let lat2 := radians (string_to_number (lat destination)) in
  let deltaLat := radians (nsub (string_to_number (lat destination)) (string_to_number (lat origin))) in
  let deltaLng := radians (nsub (string_to_number (lng destination)) (string_to_number (lng origin))) in
  let half n := ndiv n (of_Z 2) in
  let a := nadd (square (math_trig sin (half deltaLat)))
                (nmul (nmul (math_trig cos lat1) (math_trig cos lat2)) (square (math_trig sin (half deltaLng)))) in
  nmul (nmul R (of_Z 2)) (math_atan2 (math_sqrt sqrt a) (math_sqrt sqrt (nsub (of_Z 1) a))).

(** [String(n)] *)
Definition num_text (n : number) : jsstr :=
  match n with
  | Finite q => number_text q
  | Infinite false => js "Infinity"
  | Infinite true => js "-Infinity"
  | NotANumber => js "NaN"
  end.

(* ------------------------------------------------------------------ *)
(** ** Routes *)

(** What is configured; a variable that is not set is the empty text *)
Record MapConfig := mkMapConfig { map_origin : jsstr; naverMapKeyId : jsstr; naverMapKey : jsstr }.

Definition has_keys (cfg : MapConfig) : bool := negb (bool_decide (naverMapKeyId cfg = [])) && negb (bool_decide (naverMapKey cfg = [])).

Record RouteInfo := mkRoute {
  r_origin : Point;
  r_destination : Point;
  destination_name : jsstr;
  distance : number;
  durationMs : number;
  directionUrl : jsstr;
  path : option (list Point)
}.

Definition or_text (s d : jsstr) : jsstr := match s with [] => d | _ => s end.

(** The two coordinates of [NAVER_MAP_ORIGIN] *)
Definition origin_point (cfg : MapConfig) : option Point :=
  match trim <$> split_char 44 (map_origin cfg) with
  | ((_ :: _) as x) :: ((_ :: _) as y) :: _ => Some (mkPoint x y)
  | _ => None
  end.

Definition present (v : option jsstr) : option jsstr := match v with Some [] => None | _ => v end.

(** Coordinates of the search engine are multiples of ten millionths of a degree *)
Definition degrees (coordinate : jsstr) : number := ndiv (string_to_number coordinate) (of_Z 10000000).

Definition destination_point (result : SearchResult) : option Point :=
  match present (mapx result), present (mapy result) with
  | Some x, Some y => Some (mkPoint (num_text (degrees x)) (num_text (degrees y)))
  | _, _ => None
  end.

Definition direction_url (origin destination : Point) (name : jsstr) : outcome jsstr jsstr :=
  start <-- encodeURIComponent (js "출발지") ;;
  goal <-- encodeURIComponent (or_text name (js "목적지")) ;;
  Return (js "https://map.naver.com/v5/directions/" ++ lng origin ++ js "," ++ lat origin ++ js "," ++ start ++ js "/"
          ++ lng destination ++ js "," ++ lat destination ++ js "," ++ goal ++ js "/-/transit").

Definition buildDirectionUrlFromCoords (originLat originLng destLat destLng name : jsstr) : outcome jsstr jsstr :=
  direction_url (mkPoint originLng originLat) (mkPoint destLng destLat) name.

(** [v?.key] and [v?.[0]] *)
Definition chain (v : option json) (key : string) : option json := match v with Some v => prop v (js key) | None => None end.

(** [v[i]] for a value that is not [null] *)
Definition element (v : json) (i : nat) : option json :=
  match v with
  | JArr l => l !! i
  | JStr s => (fun c => JStr [c]) <$> s !! i
  | JObj _ => prop v (js_of_Z (Z.of_nat i))
  | _ => None
  end.

(** [p => ({ lng: String(p[0]), lat: String(p[1]) })] *)
Definition path_point (p : json) : outcome jsstr Point :=
  match p with
  | JNull => Throw (js "Cannot read properties of null (reading '0')")
  | _ => Return (mkPoint (to_text number_text (element p 0)) (to_text number_text (element p 1)))
  end.

Fixpoint path_points (l : list json) : outcome jsstr (list Point) :=
  match l with
  | [] => Return []
  | p :: l' => x <-- path_point p ;; xs <-- path_points l' ;; Return (x :: xs)
  end.

(** [Number(v || 0)] *)
Definition number_or_zero (v : option json) : number := to_number number_text (if json_truthy v then v else Some (JNum 0)).

Definition directions_url (origin destination : Point) : jsstr :=
  with_params "https://maps.apigw.ntruss.com/map-direction/v1/driving"
    [("start", lng origin ++ js "," ++ lat origin); ("goal", lng destination ++ js "," ++ lat destination); ("option", js "trafast")].

(** What the [try] block returns for the body of an answer; [None] falls through *)
Definition driving_route (origin destination : Point) (title url : jsstr) (body : json) : outcome jsstr (option RouteInfo) :=
  let first := match chain (chain (Some body) "route") "trafast" with Some v => element v 0 | None => None end in
  let summary := chain first "summary" in
  if json_truthy summary then
    points <-- match chain first "path" with Some (JArr l) => (ps <-- path_points l ;; Return (Some ps)) | _ => Return None end ;;
    Return (Some (mkRoute origin destination title (number_or_zero (chain summary "distance")) (number_or_zero (chain summary "duration")) url points))
  else Return None.

(** The estimate from the distance as the crow flies, at thirty kilometres an hour *)
Definition estimated_route (origin destination : Point) (title url : jsstr) : RouteInfo :=
  let estimatedDistance := nround (nmul (computeDistanceMeters origin destination) (Finite (13 # 10))) in
  let estimatedDuration := nround (nmul (nmul (ndiv estimatedDistance (of_Z 30)) (Finite (36 # 10))) (of_Z 1000)) in
  mkRoute origin destination title estimatedDistance estimatedDuration url None.

(** [fetch]: the body of a good answer, [None] for another status; the body that is no
    JSON and the failure of the connection are exceptions *)
Definition getRouteInfo (cfg : MapConfig) (fetch : jsstr -> outcome jsstr (option json)) (result : SearchResult) : outcome jsstr (option RouteInfo) :=
  match map_origin cfg with
  | [] => Return None
  | _ =>
    match origin_point cfg with
    | None => Return None
    | Some origin =>
      match destination_point result with
      | None => Return None
      | Some destination =>
        url <-- buildDirectionUrlFromCoords (lat origin) (lng origin) (lat destination) (lng destination) (or_text (title result) (js "목적지")) ;;
        let driving :=
          if has_keys cfg then
            match (answer <-- fetch (directions_url origin destination) ;;
                   match answer with Some body => driving_route origin destination (title result) url body | None => Return None end) with
            | Return r => r
            | Throw _ => None
            end
          else None in
        Return (Some (match driving with Some r => r | None => estimated_route origin destination (title result) url end))
      end
    end
  end.

Definition is_nan (n : number) : bool := match n with NotANumber => true | _ => false end.

Definition buildNaverDirectionUrl (cfg : MapConfig) (mapx mapy title : jsstr) : outcome jsstr (option jsstr) :=
  match map_origin cfg, mapx, mapy with
  | _ :: _, _ :: _, _ :: _ =>
    match origin_point cfg with
    | None => Return None
    | Some origin =>
      if is_nan (string_to_number mapx) || is_nan (string_to_number mapy) then Return None
      else url <-- direction_url origin (mkPoint (num_text (degrees mapx)) (num_text (degrees mapy))) title ;; Return (Some url)
    end
  | _, _, _ => Return None
  end.

(* ------------------------------------------------------------------ *)
(** ** Images *)

Record MapParams := mkMapParams {
  p_origin : Point;
  p_destination : Point;
  width : number;
  height : number;
  p_path : option (list Point);
  distanceMeters : option number
}.

Definition raw_path (p : MapParams) : list Point :=
  match p_path p with
  | Some ((_ :: _ :: _) as l) => l
  | _ => [p_origin p; p_destination p]
  end.

Definition pos (p : Point) : jsstr := js "pos:" ++ lng p ++ js " " ++ lat p.

Definition map_url (p : MapParams) : jsstr :=
  let bounds := computeBounds (raw_path p) in
  let d := match distanceMeters p with Some d => d | None => computeDistanceMeters (p_origin p) (p_destination p) end in
  with_params "https://maps.apigw.ntruss.com/map-static/v2/raster"
    ([("w", num_text (width p)); ("h", num_text (height p)); ("format", js "png"); ("scale", js "2");
      ("center", num_text (center (minLng bounds) (maxLng bounds)) ++ js "," ++ num_text (center (minLat bounds) (maxLat bounds)));
      ("level", js_of_Z (pickStaticMapLevel d)); ("maptype", js "basic");
      ("markers", js "type:d|size:mid|color:0x1d4ed8|" ++ pos (p_origin p) ++ js "|label:출발");
      ("markers", js "type:d|size:mid|color:0xf97316|" ++ pos (p_destination p) ++ js "|label:도착")]
     ++ (if (1 <? length (raw_path p))%nat then [("path", js "weight:5|color:0x2563eb|" ++ join (js "|") (pos <$> raw_path p))] else [])).

(** [download]: the bytes of a good answer, [None] for another status *)
Definition getStaticMapImage (cfg : MapConfig) (download : jsstr -> outcome jsstr (option jsstr)) (p : MapParams) : outcome jsstr (option jsstr) :=
  if has_keys cfg then download (map_url p) else Return None.

(** [Number(v) || d] *)
Definition size_or (v : option jsstr) (d : Z) : number :=
  match v with
  | None => of_Z d
  | Some s => match string_to_number s with
              | Finite q => if Qeq_bool q 0 then of_Z d else Finite q
              | NotANumber => of_Z d
              | n => n
              end
  end.

(** The endpoint: the image, or a status with a message; exceptions of the service
    pass through with status 500 of the framework *)
Definition getStaticMap (cfg : MapConfig) (download : jsstr -> outcome jsstr (option jsstr)) (originLng originLat destLng destLat width height : option jsstr) : outcome (Z * jsstr) jsstr :=
  match present originLng, present originLat, present destLng, present destLat with
  | Some x, Some y, Some x', Some y' =>
    match getStaticMapImage cfg download (mkMapParams (mkPoint x y) (mkPoint x' y') (size_or width 1120) (size_or height 196) None None) with
    | Return (Some image) => Return image
    | Return None => Throw (502, js "Static Map 생성 실패")
    | Throw _ => Throw (500, js "Internal server error")
    end
  | _, _, _, _ => Throw (400, js "origin/destination 좌표가 필요합니다.")
  end.
End Service.

(* ------------------------------------------------------------------ *)
(** ** Reading a query *)

(** The bytes that a part of a query stands for *)
Fixpoint unquote (s : jsstr) : list Z :=
  match s with
  | [] => []
  | c :: s' =>
    if c =? 43 then 32 :: unquote s'
    else if c =? 37 then
      match s' with
      | a :: b :: s'' => match hex_value a, hex_value b with Some x, Some y => (16 * x + y) :: unquote s'' | _, _ => 37 :: unquote s' end
      | _ => 37 :: unquote s'
      end
    else c :: unquote s'
  end.

Definition form_decode (s : jsstr) : jsstr := toString (unquote s).

Fixpoint before (c : Z) (s : jsstr) : jsstr * jsstr :=
  match s with
  | [] => ([], [])
  | d :: s' => if d =? c then ([], s') else let '(a, b) := before c s' in (d :: a, b)
  end.

Definition read_query (query : jsstr) : list (jsstr * jsstr) :=
  (fun part => let '(k, v) := before 61 part in (form_decode k, form_decode v)) <$> split_char 38 query.

(** Texts that stand for characters: code units, surrogates in pairs *)
Definition well_formed (s : jsstr) : Prop := Forall (fun c => 0 <= c < 65536) s /\ code_point_list s <> None.

Lemma hex_digit n : 0 <= n < 16 -> hex_value (hex n) = Some n.
Proof.
  intros H. unfold hex. destruct (Z.ltb_spec n 10); unfold hex_value, is_dec.
  - destruct ((48 <=? 48 + n) && (48 + n <=? 57)) eqn:E; [f_equal|]; lia.
  - destruct ((48 <=? 55 + n) && (55 + n <=? 57)) eqn:E1; [lia|]. destruct ((97 <=? 55 + n) && (55 + n <=? 102)) eqn:E2; [lia|].
    destruct ((65 <=? 55 + n) && (55 + n <=? 70)) eqn:E3; [f_equal|]; lia.
Qed.

#[local] Ltac Zify.zify_post_hook ::= Z.to_euclidean_division_equations.

Lemma unquote_byte b s : 0 <= b < 256 -> unquote (form_byte b ++ s) = b :: unquote s.
Proof.
  intros H. unfold form_byte. destruct (Z.eqb_spec b 32) as [->|]; [done|]. destruct (form_safe b) eqn:E.
  - cbn [app unquote]. destruct (Z.eqb_spec b 43) as [->|]; [done|]. destruct (Z.eqb_spec b 37) as [->|]; done.
  - cbn [app unquote percent]. change (37 =? 43) with false. change (37 =? 37) with true. cbv iota. rewrite !hex_digit by lia. f_equal. lia.
Qed.

Lemma unquote_bytes l : Forall (fun b => 0 <= b < 256) l -> unquote (l ≫= form_byte) = l.
Proof. intros H. induction H as [|b l Hb _ IH]; [done|]. cbn [mbind list_bind]. rewrite unquote_byte by done. by f_equal. Qed.

(** Characters of a quoted part *)
Lemma form_byte_plain b : 0 <= b < 256 -> Forall (fun c => c <> 38 /\ c <> 61) (form_byte b).
Proof.
  intros H. unfold form_byte, form_safe, percent, hex. destruct (Z.eqb_spec b 32); [repeat constructor; lia|].
  destruct (_ || existsb _ _) eqn:E.
  - constructor; [|constructor]. split; intros ->; vm_compute in E; discriminate.
  - repeat match goal with |- context [if ?x then _ else _] => destruct x eqn:? end; repeat constructor; lia.
Qed.

Lemma usv_code_points s cs : code_point_list s = Some cs -> usv s = cs.
Proof.
  revert cs. induction s as [s IH] using (induction_ltof1 _ length). intros cs H. destruct s as [|c s]; [by injection H|].
  cbn [code_point_list usv] in *. destruct ((55296 <=? c) && (c <=? 56319)).
  - destruct s as [|d s]; [done|]. destruct ((56320 <=? d) && (d <=? 57343)); [|done]. apply fmap_Some in H as (cs' & H & ->).
    f_equal. apply IH; [unfold ltof; cbn; lia|done].
  - destruct ((56320 <=? c) && (c <=? 57343)); [done|]. apply fmap_Some in H as (cs' & H & ->). f_equal. apply IH; [unfold ltof; cbn; lia|done].
Qed.

Lemma usv_scalar s : Forall (fun c => 0 <= c < 65536) s -> Forall scalar (usv s).
Proof.
  induction s as [s IH] using (induction_ltof1 _ length). intros H. destruct s as [|c s]; [constructor|]. apply Forall_cons_1 in H as [Hc H]. cbn [usv].
  assert (Forall scalar (usv s)) as Hs by (apply IH; [unfold ltof; cbn; lia|done]).
  assert (scalar replacement) as Hr by (unfold scalar, replacement; lia).
  destruct ((55296 <=? c) && (c <=? 56319)) eqn:E.
  - destruct s as [|d s]; [by constructor|]. apply Forall_cons_1 in H as [Hd H]. destruct ((56320 <=? d) && (d <=? 57343)) eqn:E2; [|by constructor].
    constructor; [unfold scalar; lia|]. apply IH; [unfold ltof; cbn; lia|done].
  - destruct ((56320 <=? c) && (c <=? 57343)) eqn:E2; [by constructor|]. constructor; [unfold scalar; lia|done].
Qed.

Lemma code_points_text s cs : Forall (fun c => 0 <= c < 65536) s -> code_point_list s = Some cs -> cs ≫= utf16_of_cp = s.
Proof.
  revert cs. induction s as [s IH] using (induction_ltof1 _ length). intros cs Hs H. destruct s as [|c s]; [by injection H as <-|].
  apply Forall_cons_1 in Hs as [Hc Hs]. cbn [code_point_list] in H. destruct ((55296 <=? c) && (c <=? 56319)) eqn:E.
  - destruct s as [|d s]; [done|]. apply Forall_cons_1 in Hs as [Hd Hs]. destruct ((56320 <=? d) && (d <=? 57343)) eqn:E2; [|done]. apply fmap_Some in H as (cs' & H & ->).
    cbn [mbind list_bind]. unfold mbind in IH. rewrite (IH s) by (unfold ltof; cbn; lia || done). unfold utf16_of_cp.
    destruct (Z.ltb_spec (65536 + (c - 55296) * 1024 + (d - 56320)) 65536); [lia|]. cbn [app]. f_equal; [lia|]. f_equal. lia.
  - destruct ((56320 <=? c) && (c <=? 57343)) eqn:E2; [done|]. apply fmap_Some in H as (cs' & H & ->).
    cbn [mbind list_bind]. unfold mbind in IH. rewrite (IH s) by (unfold ltof; cbn; lia || done). unfold utf16_of_cp. by destruct (Z.ltb_spec c 65536); [|lia].
Qed.

Lemma form_decode_encode s : well_formed s -> form_decode (form_encode s) = s.
Proof.
  intros [Hs Hc]. destruct (code_point_list s) as [cs|] eqn:E; [|done]. unfold form_decode, form_encode.
  pose proof (usv_scalar _ Hs) as Hu. rewrite unquote_bytes.
  - rewrite toString_encode by done. rewrite (usv_code_points _ _ E). by apply code_points_text.
  - apply Forall_bind. eapply Forall_impl; [exact Hu|]. apply encode_bytes.
Qed.

Lemma form_encode_plain s : Forall (fun c => 0 <= c < 65536) s -> Forall (fun c => c <> 38 /\ c <> 61) (form_encode s).
Proof.
  intros H. unfold form_encode. apply Forall_bind. eapply Forall_impl; [|apply form_byte_plain]. apply Forall_bind.
  eapply Forall_impl; [exact (usv_scalar _ H)|]. apply encode_bytes.
Qed.

Lemma before_app c a b : Forall (fun d => d <> c) a -> before c (a ++ c :: b) = (a, b).
Proof.
  intros H. induction H as [|d a Hd _ IH]; cbn [app before]; [by rewrite Z.eqb_refl|]. destruct (Z.eqb_spec d c); [done|]. by rewrite IH.
Qed.

Lemma split_plain c w s : Forall (fun d => d <> c) w -> split_char c (w ++ c :: s) = w :: split_char c s.
Proof.
  intros H. unfold split_char. induction H as [|d w Hd _ IH]; cbn [app split_on]; [by rewrite Z.eqb_refl|].
  destruct (Z.eqb_spec c d) as [->|]; [done|]. by rewrite IH.
Qed.

Lemma split_last c w : Forall (fun d => d <> c) w -> split_char c w = [w].
Proof.
  intros H. unfold split_char. induction H as [|d w Hd _ IH]; cbn [split_on]; [done|]. destruct (Z.eqb_spec c d) as [->|]; [done|]. by rewrite IH.
Qed.

Lemma split_char_join c l : l <> [] -> Forall (Forall (fun d => d <> c)) l -> split_char c (join [c] l) = l.
Proof.
  intros Hl H. induction H as [|w l Hw H IH]; [done|]. destruct l as [|w' l]; [by apply split_last|].
  change (join [c] (w :: w' :: l)) with (w ++ [c] ++ join [c] (w' :: l)). cbn [app]. rewrite split_plain by done. f_equal. by apply IH.
Qed.

(** ** Bounds *)

(** The order of numbers without [NaN] *)
Definition nle (x y : number) : Prop := nlt y x = false /\ is_nan x = false /\ is_nan y = false.

Lemma nle_refl x : is_nan x = false -> nle x x.
Proof.
  intros H. unfold nle. split; [|done]. destruct x as [q|[]|]; cbn; [|done..]. apply Qlt_bool_false. apply Qle_refl.
Qed.

Lemma nle_trans x y z : nle x y -> nle y z -> nle x z.
Proof.
  unfold nle. destruct x as [p|[]|], y as [q|[]|], z as [r|[]|]; cbn; try (intuition congruence).
  rewrite !Qlt_bool_false. intros (H1 & _) (H2 & _). split; [|done]. by eapply Qle_trans.
Qed.

Lemma nmin_spec x y : is_nan x = false -> is_nan y = false -> nle (nmin x y) x /\ nle (nmin x y) y /\ (nmin x y = x \/ nmin x y = y).
Proof.
  intros Hx Hy. assert (nmin x y = if nlt x y then x else y) as -> by (destruct x, y; done). destruct (nlt x y) eqn:E.
  - split; [by apply nle_refl|]. split; [|by left]. split; [|done]. destruct x as [p|[]|], y as [q|[]|]; cbn in *; try done.
    apply Qlt_bool_iff in E. apply Qlt_bool_false. by apply Qlt_le_weak.
  - split; [done|]. split; [by apply nle_refl|by right].
Qed.

Lemma nmax_spec x y : is_nan x = false -> is_nan y = false -> nle x (nmax x y) /\ nle y (nmax x y) /\ (nmax x y = x \/ nmax x y = y).
Proof.
  intros Hx Hy. assert (nmax x y = if nlt x y then y else x) as -> by (destruct x, y; done). destruct (nlt x y) eqn:E.
  - split; [|split; [by apply nle_refl|by right]]. split; [|done]. destruct x as [p|[]|], y as [q|[]|]; cbn in *; try done.
    apply Qlt_bool_iff in E. apply Qlt_bool_false. by apply Qlt_le_weak.
  - split; [by apply nle_refl|]. split; [done|by left].
Qed.

(** A point with coordinates *)
Definition usable (p : Point) : bool := finite (string_to_number (lng p)) && finite (string_to_number (lat p)).

Definition within (b : Bounds) (p : Point) : Prop :=
  nle (minLng b) (string_to_number (lng p)) /\ nle (string_to_number (lng p)) (maxLng b) /\
  nle (minLat b) (string_to_number (lat p)) /\ nle (string_to_number (lat p)) (maxLat b).

Definition proper (b : Bounds) : Prop :=
  is_nan (minLng b) = false /\ is_nan (maxLng b) = false /\ is_nan (minLat b) = false /\ is_nan (maxLat b) = false.

(** A bound that is a coordinate of a point *)
Definition attained (coordinate : Point -> number) (points : list Point) (bound : number) : Prop :=
  exists p, p ∈ points /\ usable p = true /\ bound = coordinate p.

Lemma finite_not_nan n : finite n = true -> is_nan n = false.
Proof. by destruct n. Qed.

Lemma extend_unusable b p : usable p = false -> extend b p = b.
Proof. unfold usable, extend. by destruct (finite _), (finite _). Qed.

Lemma extend_usable b p : usable p = true ->
  extend b p = mkBounds (nmin (minLng b) (string_to_number (lng p))) (nmax (maxLng b) (string_to_number (lng p)))
                        (nmin (minLat b) (string_to_number (lat p))) (nmax (maxLat b) (string_to_number (lat p))).
Proof. unfold usable, extend. by destruct (finite _), (finite _). Qed.

Lemma usable_coords p : usable p = true -> exists x y, string_to_number (lng p) = Finite x /\ string_to_number (lat p) = Finite y.
Proof. unfold usable. destruct (string_to_number (lng p)) as [x| |]; [|done..]. destruct (string_to_number (lat p)) as [y| |]; [eauto|done..]. Qed.

Lemma usable_proper p : usable p = true -> is_nan (string_to_number (lng p)) = false /\ is_nan (string_to_number (lat p)) = false.
Proof. unfold usable. intros H. apply andb_prop in H as [H1 H2]. split; by apply finite_not_nan. Qed.

Lemma nmin_proper x y : is_nan x = false -> is_nan y = false -> is_nan (nmin x y) = false.
Proof. intros Hx Hy. by destruct (nmin_spec x y Hx Hy) as (_ & _ & [->| ->]). Qed.

Lemma nmax_proper x y : is_nan x = false -> is_nan y = false -> is_nan (nmax x y) = false.
Proof. intros Hx Hy. by destruct (nmax_spec x y Hx Hy) as (_ & _ & [->| ->]). Qed.

Lemma extend_proper b p : proper b -> proper (extend b p).
Proof.
  intros (H1 & H2 & H3 & H4). destruct (usable p) eqn:E; [|by rewrite extend_unusable]. rewrite extend_usable by done.
  destruct (usable_proper _ E) as [Hx Hy]. unfold proper. cbn [minLng maxLng minLat maxLat]. split_and!; auto using nmin_proper, nmax_proper.
Qed.

Lemma extend_within b p q : proper b -> within b q -> within (extend b p) q.
Proof.
  intros (H1 & H2 & H3 & H4) Hq. destruct (usable p) eqn:E; [|by rewrite extend_unusable]. rewrite extend_usable by done.
  destruct (usable_proper _ E) as [Hx Hy], Hq as (Q1 & Q2 & Q3 & Q4). unfold within. cbn [minLng maxLng minLat maxLat]. split_and!.
  - eapply nle_trans; [|exact Q1]. by apply nmin_spec.
  - eapply nle_trans; [exact Q2|]. by apply nmax_spec.
  - eapply nle_trans; [|exact Q3]. by apply nmin_spec.
  - eapply nle_trans; [exact Q4|]. by apply nmax_spec.
Qed.

Lemma extend_point b p : proper b -> usable p = true -> within (extend b p) p.
Proof.
  intros (H1 & H2 & H3 & H4) E. rewrite extend_usable by done. destruct (usable_proper _ E) as [Hx Hy]. unfold within. cbn [minLng maxLng minLat maxLat].
  split_and!; by apply nmin_spec || by apply nmax_spec.
Qed.

Lemma foldl_extend points b : proper b ->
  proper (foldl extend b points) /\ (forall q, within b q -> within (foldl extend b points) q) /\
  (forall p, p ∈ points -> usable p = true -> within (foldl extend b points) p).
Proof.
  revert b. induction points as [|p points IH]; intros b Hb; [split_and!; [done..|]; intros p Hp; by apply elem_of_nil in Hp|].
  cbn [foldl]. destruct (IH (extend b p) (extend_proper _ _ Hb)) as (H1 & H2 & H3). split_and!; [done|intros q Hq; by apply H2, extend_within|].
  intros q Hq Hu. apply elem_of_cons in Hq as [->|Hq]; [|by apply H3]. by apply H2, extend_point.
Qed.

Lemma foldl_unusable points b : (forall p, p ∈ points -> usable p = false) -> foldl extend b points = b.
Proof.
  intros H. induction points as [|p points IH]; [done|]. cbn [foldl]. rewrite extend_unusable by (apply H; set_solver). apply IH. set_solver.
Qed.

Lemma attained_more f points q v : attained f points v -> attained f (points ++ [q]) v.
Proof. intros (p & Hp & H). exists p. split; [set_solver|done]. Qed.

Lemma attained_last f points q : usable q = true -> attained f (points ++ [q]) (f q).
Proof. intros H. exists q. split; [set_solver|done]. Qed.

Lemma attained_choice f points q v w : usable q = true -> attained f points v -> w = v \/ w = f q -> attained f (points ++ [q]) w.
Proof. intros Hq Hv [->| ->]; [by apply attained_more|by apply attained_last]. Qed.

Lemma usable_dec points : (forall p : Point, p ∈ points -> usable p = false) \/ Exists (fun p => usable p = true) points.
Proof.
  destruct (decide (Exists (fun p => usable p = true) points)) as [H|H]; [by right|left]. intros p Hp. apply not_true_is_false. intros E. apply H, Exists_exists. by exists p.
Qed.

Lemma bounds_attained points : Exists (fun p => usable p = true) points ->
  let b := computeBounds points in let x p := string_to_number (lng p) in let y p := string_to_number (lat p) in
  attained x points (minLng b) /\ attained x points (maxLng b) /\ attained y points (minLat b) /\ attained y points (maxLat b).
Proof.
  cbv zeta. induction points as [|p points IH] using rev_ind; intros H; [by inversion H|].
  unfold computeBounds in *. rewrite foldl_snoc. set (b0 := mkBounds _ _ _ _) in *.
  assert (proper (foldl extend b0 points)) as (B1 & B2 & B3 & B4) by (by apply foldl_extend).
  destruct (usable p) eqn:E.
  - rewrite extend_usable by done. cbn [minLng maxLng minLat maxLat]. destruct (usable_proper _ E) as [Hx Hy]. destruct (usable_dec points) as [Hn|Hu].
    + rewrite (foldl_unusable _ _ Hn). unfold usable in E. cbn [b0 minLng maxLng minLat maxLat].
      destruct (string_to_number (lng p)) as [q| |] eqn:E1; [|done..]. destruct (string_to_number (lat p)) as [r| |] eqn:E2; [|done..]. cbn [nmin nmax nlt negb].
      assert (usable p = true) as Hp by (unfold usable; by rewrite E1, E2). rewrite <- E1, <- E2.
      split_and!; by apply (attained_last (fun p => string_to_number (lng p))) || by apply (attained_last (fun p => string_to_number (lat p))).
    + destruct (IH Hu) as (I1 & I2 & I3 & I4). split_and!.
      * eapply (attained_choice _ _ p); [done|exact I1|by apply nmin_spec].
      * eapply (attained_choice _ _ p); [done|exact I2|by apply nmax_spec].
      * eapply (attained_choice _ _ p); [done|exact I3|by apply nmin_spec].
      * eapply (attained_choice _ _ p); [done|exact I4|by apply nmax_spec].
  - rewrite extend_unusable by done. apply Exists_app in H as [H|H].
    + destruct (IH H) as (I1 & I2 & I3 & I4). split_and!; by apply attained_more.
    + inversion H as [? ? H'|? ? H']; subst; [congruence|by inversion H'].
Qed.

Lemma center_between lo hi : (lo <= hi)%Q -> exists q, center (Finite lo) (Finite hi) = Finite q /\ (lo <= q <= hi)%Q.
Proof.
  intros H. cbn. eexists. split; [reflexivity|]. split.
  - apply Qle_shift_div_l; [reflexivity|lra].
  - apply Qle_shift_div_r; [reflexivity|lra].
Qed.

Lemma center_nle lo hi : nle (Finite lo) (Finite hi) -> nle (Finite lo) (center (Finite lo) (Finite hi)) /\ nle (center (Finite lo) (Finite hi)) (Finite hi).
Proof.
  intros [L _]. cbn [nlt] in L. apply Qlt_bool_false in L. destruct (center_between _ _ L) as (q & -> & Hq1 & Hq2).
  split; (split; [by apply Qlt_bool_false|done]).
Qed.

(* ------------------------------------------------------------------ *)
(** ** Properties *)

Section Properties.
Context (number_text : Q -> jsstr) (sin cos sqrt : Q -> Q) (atan2 : Q -> Q -> Q) (pi : Q).

(** the part of a map that is asked for is the smallest with the points of the path:
    when one of them has coordinates, the bounds are coordinates of points of the
    path, every point that has coordinates lies between them, and so does the center
    of the map; points without coordinates are left out. *)
Theorem map_shows_path points : Exists (fun p => usable p = true) points ->
  let b := computeBounds points in
  Forall (fun p => usable p = true -> within b p) points /\
  attained (fun p => string_to_number (lng p)) points (minLng b) /\ attained (fun p => string_to_number (lng p)) points (maxLng b) /\
  attained (fun p => string_to_number (lat p)) points (minLat b) /\ attained (fun p => string_to_number (lat p)) points (maxLat b) /\
  nle (minLng b) (center (minLng b) (maxLng b)) /\ nle (center (minLng b) (maxLng b)) (maxLng b) /\
  nle (minLat b) (center (minLat b) (maxLat b)) /\ nle (center (minLat b) (maxLat b)) (maxLat b).
Proof.
  intros H. cbv zeta. assert (proper (mkBounds (Infinite false) (Infinite true) (Infinite false) (Infinite true))) as H0 by done.
  destruct (foldl_extend points _ H0) as (_ & _ & Hw). destruct (bounds_attained points H) as (A1 & A2 & A3 & A4).
  split; [apply Forall_forall; intros p Hp; by apply Hw|]. split; [exact A1|]. split; [exact A2|]. split; [exact A3|]. split; [exact A4|].
  destruct A1 as (p1 & P1 & U1 & E1), A2 as (p2 & P2 & U2 & E2), A3 as (p3 & P3 & U3 & E3), A4 as (p4 & P4 & U4 & E4).
  destruct (Hw _ P1 U1) as (_ & L & _ & _). destruct (Hw _ P3 U3) as (_ & _ & _ & L'). fold (computeBounds points) in L, L'.
  destruct (usable_coords _ U1) as (x1 & _ & X1 & _), (usable_coords _ U2) as (x2 & _ & X2 & _), (usable_coords _ U3) as (_ & y3 & _ & Y3), (usable_coords _ U4) as (_ & y4 & _ & Y4).
  rewrite E1, E2, E3, E4 in *. rewrite X1, X2, Y3, Y4 in *. destruct (center_nle _ _ L) as [C1 C2], (center_nle _ _ L') as [C3 C4]. done.
Qed.

Definition some_path : list Point := [mkPoint (js "127.1") (js "37.4"); mkPoint (js "?") (js "37.9"); mkPoint (js "126.9") (js "37.5")].

Lemma map_shows_path_witness :
  let b := computeBounds some_path in
  within b (mkPoint (js "127.1") (js "37.4")) /\ nle (minLng b) (center (minLng b) (maxLng b)) /\ nlt (minLng b) (Finite 127) = true.
Proof.
  destruct (map_shows_path some_path) as (Hw & _ & _ & _ & _ & Hc & _); [apply Exists_cons_hd; vm_compute; reflexivity|].
  split; [|split; [exact Hc|vm_compute; reflexivity]]. apply Forall_cons_1 in Hw as [Hw _]. apply Hw. vm_compute. reflexivity.
Defined.

(** the addresses of the service carry their parameters: a reader of the query of an
    address gets the names and the values that were given, whatever characters the
    coordinates of a client hold. *)
Theorem parameters_are_read base params : params <> [] ->
  Forall (fun p : string * jsstr => well_formed (js p.1) /\ well_formed p.2) params ->
  exists query, with_params base params = js base ++ js "?" ++ query /\ read_query query = (fun p => (js p.1, p.2)) <$> params.
Proof.
  intros Hn H. eexists. split; [reflexivity|]. unfold read_query. rewrite split_char_join.
  - rewrite <- list_fmap_compose. clear Hn. induction H as [|p params [[H1 H1'] H2] _ IH]; [done|]. cbn [fmap list_fmap]. f_equal; [|exact IH].
    unfold compose. change (js "=") with [61]. cbn [app]. rewrite before_app.
    + by rewrite !form_decode_encode.
    + eapply Forall_impl; [by apply form_encode_plain|]. by intros c [].
  - by destruct params.
  - apply Forall_fmap. eapply Forall_impl; [exact H|]. intros p [[H1 _] [H2 _]]. unfold compose. change (js "=") with [61].
    apply Forall_app. split; [|apply Forall_cons; split; [done|]]; (eapply Forall_impl; [by apply form_encode_plain|]); by intros c [].
Qed.

Lemma parameters_are_read_witness :
  exists query, with_params "https://m/r" [("pos", js "1&w=2 ?")] = js "https://m/r" ++ js "?" ++ query /\ read_query query = [(js "pos", js "1&w=2 ?")].
Proof.
  apply (parameters_are_read "https://m/r" [("pos", js "1&w=2 ?")]); [done|].
  constructor; [|constructor]. split; (split; [apply (bool_decide_unpack _); vm_compute; exact I|vm_compute; discriminate]).
Defined.

(** the nearer the destination, the larger the scale: of two distances the greater
    has the smaller level or the same. *)
Theorem level_decreases d d' : nle d d' -> pickStaticMapLevel d' <= pickStaticMapLevel d.
Proof.
  intros H. unfold pickStaticMapLevel, ngt.
  assert (forall k, nlt k d = true -> nlt k d' = true) as Hm.
  { destruct H as (H & Hd & Hd'). intros k Hk. destruct k as [k|[]|], d as [d|[]|], d' as [d'|[]|]; cbn in *; try done.
    apply Qlt_bool_iff in Hk. apply Qlt_bool_false in H. apply Qlt_bool_iff. by eapply Qlt_le_trans. }
  repeat match goal with |- context [nlt ?k d] => destruct (nlt k d) eqn:?; [erewrite (Hm k) by done|] end; repeat case_match; lia.
Qed.

Lemma level_decreases_witness : pickStaticMapLevel (of_Z 9000) <= pickStaticMapLevel (of_Z 3000).
Proof. apply level_decreases. vm_compute. done. Defined.

(** a duration that is estimated is two minutes for a kilometre *)
Lemma estimated_speed origin destination title url :
  let r := estimated_route sin cos sqrt atan2 pi origin destination title url in
  match distance r with
  | Finite d => exists metres, d = inject_Z metres /\ durationMs r = of_Z (120 * metres)
  | n => durationMs r = n
  end.
Proof.
  cbv zeta. unfold estimated_route. cbn [distance durationMs]. destruct (nmul _ _) as [q|[]|]; cbn [nround]; [|done..]. eexists. split; [reflexivity|].
  unfold of_Z. cbn [ndiv nmul nround]. change (Qeq_bool (inject_Z 30) 0) with false. cbv iota. cbn [nmul nround]. f_equal. unfold of_Z. do 2 f_equal.
  unfold math_round, math_floor. cbn. lia.
Qed.

Lemma encoded name : code_point_list name <> None -> exists e, encodeURIComponent name = Return e.
Proof. unfold encodeURIComponent. destruct (code_point_list name); [eauto|done]. Qed.

Lemma direction_url_defined origin destination name : code_point_list name <> None -> exists url, direction_url origin destination (or_text name (js "목적지")) = Return url.
Proof.
  intros H. unfold direction_url. destruct (encoded (js "출발지")) as [s ->]; [vm_compute; discriminate|]. cbn [outcome_bind].
  assert (code_point_list (or_text (or_text name (js "목적지")) (js "목적지")) <> None) as H'; [|by destruct (encoded _ H') as [g ->]; eexists].
  destruct name as [|c name]; [vm_compute; discriminate|exact H].
Qed.

Lemma driving_route_spec origin destination name url body r :
  driving_route number_text origin destination name url body = Return (Some r) ->
  r_origin r = origin /\ r_destination r = destination /\ destination_name r = name /\ directionUrl r = url.
Proof.
  unfold driving_route. cbv zeta. destruct (json_truthy _); [|done].
  match goal with |- outcome_bind ?x _ = _ -> _ => destruct x as [ps|m] end; [|done]. intros H. injection H as H. by subst r.
Qed.

(** a route is given whatever the service of the maps answers: when the places are
    known and the name of the destination is a text of characters, the call returns a
    route between the places with an address for it; without a good answer the
    duration is the one for thirty kilometres an hour over the estimated distance. *)
Theorem routes_are_given cfg fetch result origin destination :
  origin_point cfg = Some origin -> destination_point number_text result = Some destination -> code_point_list (title result) <> None ->
  exists r, getRouteInfo number_text sin cos sqrt atan2 pi cfg fetch result = Return (Some r) /\
    r_origin r = origin /\ r_destination r = destination /\ destination_name r = title result /\
    direction_url origin destination (or_text (title result) (js "목적지")) = Return (directionUrl r) /\
    (has_keys cfg = false \/ match fetch (directions_url origin destination) with Return (Some _) => False | _ => True end ->
     path r = None /\
     match distance r with Finite d => exists metres, d = inject_Z metres /\ durationMs r = of_Z (120 * metres) | n => durationMs r = n end).
Proof.
  intros Ho Hd Ht. unfold getRouteInfo. destruct (map_origin cfg) as [|c o] eqn:Eo.
  { exfalso. unfold origin_point in Ho. rewrite Eo in Ho. vm_compute in Ho. discriminate. }
  rewrite Ho, Hd. unfold buildDirectionUrlFromCoords. destruct origin as [ox oy], destination as [dx dy]. cbn [lng lat].
  destruct (direction_url (mkPoint ox oy) (mkPoint dx dy) (or_text (title result) (js "목적지"))) as [url|m] eqn:Eu.
  - cbn [outcome_bind]. eexists. split; [reflexivity|].
    destruct (has_keys cfg); [destruct (fetch (directions_url _ _)) as [[body|]|]|]; cbn [outcome_bind].
    2-4: split_and!; [reflexivity..|]; intros _; split; [reflexivity|apply estimated_speed].
    destruct (driving_route _ _ _ _ _ body) as [[r|]|] eqn:E; [apply driving_route_spec in E as (E1 & E2 & E3 & E4)|..];
      (split_and!; [done || by rewrite E4..|intros [?|[]]; discriminate]).
  - exfalso. destruct (direction_url_defined (mkPoint ox oy) (mkPoint dx dy) _ Ht) as [url E]. congruence.
Qed.
End Properties.

(** A client without keys, and a place *)
Definition some_map_config : MapConfig := mkMapConfig (js " 127.1 , 37.4 ") [] [].
Definition some_place : SearchResult :=
  mkResult (js "카페") [] [] None None (Some (js "1271000000")) (Some (js "374000000")) None None None.

Lemma routes_are_given_witness :
  exists r, getRouteInfo (fun _ => js "1") (fun _ => 0%Q) (fun _ => 1%Q) (fun x => x) (fun _ _ => 2%Q) 3%Q some_map_config (fun _ => Throw []) some_place = Return (Some r) /\
    directionUrl r = js "https://map.naver.com/v5/directions/127.1,37.4,%EC%B6%9C%EB%B0%9C%EC%A7%80/1,1,%EC%B9%B4%ED%8E%98/-/transit" /\
    durationMs r = of_Z 3975504000.
Proof.
  destruct (routes_are_given (fun _ => js "1") (fun _ => 0%Q) (fun _ => 1%Q) (fun x => x) (fun _ _ => 2%Q) 3%Q some_map_config (fun _ => Throw []) some_place
              (mkPoint (js "127.1") (js "37.4")) (mkPoint (js "1") (js "1"))) as (r & Hr & _ & _ & _ & Hu & Hd).
  - vm_compute. reflexivity.
  - vm_compute. reflexivity.
  - vm_compute. discriminate.
  - exists r. split; [exact Hr|]. split.
    + apply (f_equal (fun o => match o with Return u => u | Throw _ => [] end)) in Hu. rewrite <- Hu. vm_compute. reflexivity.
    + apply (f_equal (fun o => match o with Return (Some r) => durationMs r | _ => NotANumber end)) in Hr. rewrite <- Hr. vm_compute. reflexivity.
Defined.

(** a map is not made for a path without coordinates: of such points the center is not
    a number, and the address asks for it. *)
Theorem no_center_without_coordinates points : (forall p, p ∈ points -> usable p = false) ->
  center (minLng (computeBounds points)) (maxLng (computeBounds points)) = NotANumber.
Proof. intros H. unfold computeBounds. by rewrite foldl_unusable. Qed.

Lemma no_center_without_coordinates_witness : center (minLng (computeBounds [mkPoint (js "x") (js "1")])) (maxLng (computeBounds [mkPoint (js "x") (js "1")])) = NotANumber.
Proof.
  apply no_center_without_coordinates. intros p Hp. apply list_elem_of_singleton in Hp. subst p. vm_compute. reflexivity.
Defined.
