(* ===== verification/Upload.v ===== *)
(** * Files of the chat

    [src/upload/upload.service.ts]: files are stored in a bucket under a key made of
    the room, the time and the name; addresses for download are signed by a library,
    which is an argument.

    The library that reads forms gives the bytes of a name as characters; the service
    recovers names in Korean. *)

From Stdlib Require Import ZArith Lia.
From stdpp Require Import base strings option sets list.
From S2P Require Import Prelude JsString JsMap Json Regex IntentTables Intent Search Utf8 Tts Recording Maps.

#[local] Open Scope Z_scope.
#[local] Open Scope aura_scope.

(* ------------------------------------------------------------------ *)
(** ** Names *)

Definition hangul : regex := compile (rx "[가-힣]").

(** [Buffer.from(name, 'latin1')]: the low byte of every unit *)
Definition latin1 (name : jsstr) : list Z := (fun c => c mod 256) <$> name.

Definition decodeFileName (name : jsstr) : jsstr :=
  match name with
  | [] => name
  | _ => let decoded := toString (latin1 name) in if test hangul decoded then decoded else name
  end.

Definition safeFileName (name : jsstr) : jsstr := replace "[^a-zA-Z0-9._-]" (js "_") name.

Definition attachment_key (roomId fileName : jsstr) : jsstr := js "rooms/" ++ roomId ++ js "/attachments/" ++ fileName.

(** The name of the object in the folder of the room *)
Definition object_name (timestamp : Z) (name : jsstr) : jsstr := js_of_Z timestamp ++ js "-" ++ safeFileName name.

(* ------------------------------------------------------------------ *)
(** ** Storage *)

Record UploadConfig := mkUploadConfig { up_bucket : jsstr; up_region : jsstr; s3_ready : bool }.

Record ChatFile := mkChatFile { originalname : jsstr; chat_size : Z; contents : jsstr; mimetype : option jsstr }.

Record Uploaded := mkUploaded { fileUrl : jsstr; downloadUrl : jsstr; up_fileName : jsstr; up_fileSize : Z; contentType : jsstr }.

Section Storage.
Context {S : Type} `{!ObjectStore S} (cfg : UploadConfig).
(** [getSignedUrl] for a key with a disposition *)
Context (sign : jsstr -> option jsstr -> outcome jsstr jsstr).

Definition disposition (name : jsstr) : outcome jsstr jsstr :=
  encoded <-- encodeURIComponent name ;; Return (js "attachment; filename=" ++ dq ++ encoded ++ dq).

Definition s3_address (key : jsstr) : jsstr := js "https://" ++ up_bucket cfg ++ js ".s3." ++ up_region cfg ++ js ".amazonaws.com/" ++ key.

Definition or_octets (t : option jsstr) : jsstr := match t with Some ((_ :: _) as m) => m | _ => js "application/octet-stream" end.

(** The store after the call, and its result *)
Definition uploadChatFile (s : S) (roomId : jsstr) (file : ChatFile) (uploaderName : option jsstr) (now : Z) : S * outcome jsstr Uploaded :=
  if negb (s3_ready cfg) then (s, Throw (js "S3 not configured"))
  else
    let name := decodeFileName (originalname file) in
    let key := attachment_key roomId (object_name now name) in
    let fails m := Throw (js "Upload failed: " ++ m) in
    match encodeURIComponent name, match uploaderName with Some ((_ :: _) as u) => encodeURIComponent u | _ => Return (js "unknown") end with
    | Throw m, _ | _, Throw m => (s, fails m)
    | Return _, Return _ =>
      match put s key (contents file) with
      | Throw m => (s, fails m)
      | Return s' =>
        (s', match (d <-- disposition name ;; sign key (Some d)) with
             | Return url => Return (mkUploaded (s3_address key) url name (chat_size file) (or_octets (mimetype file)))
             | Throw m => fails m
             end)
      end
    end.

Definition getDownloadUrl (roomId fileName : jsstr) (originalName : option jsstr) : outcome jsstr jsstr :=
  if negb (s3_ready cfg) then Throw (js "S3 not configured")
  else match originalName with
       | Some ((_ :: _) as n) => d <-- disposition n ;; sign (attachment_key roomId fileName) (Some d)
       | _ => sign (attachment_key roomId fileName) None
       end.

(** The endpoints: an exception becomes status 500, its message a default when it is empty *)
Definition post_chat_file (s : S) (roomId : jsstr) (file : option ChatFile) (uploaderName : option jsstr) (now : Z) : S * outcome (Z * jsstr) Uploaded :=
  match file with
  | None => (s, Throw (400, js "No file provided"))
  | Some f =>
    let '(s', r) := uploadChatFile s roomId f uploaderName now in
    (s', match r with Return u => Return u | Throw m => Throw (500, match m with [] => js "Upload failed" | _ => m end) end)
  end.

Definition get_download (roomId fileName : jsstr) (originalName : option jsstr) : outcome (Z * jsstr) jsstr :=
  match getDownloadUrl roomId fileName originalName with
  | Return u => Return u
  | Throw m => Throw (500, match m with [] => js "Failed to generate download URL" | _ => m end)
  end.
End Storage.

(* ------------------------------------------------------------------ *)
(** ** Lemmas *)

Lemma test_single r p s : single r p -> test r s = existsb p s.
Proof.
  intros H. unfold test. generalize (@nil Z). induction s as [|c s IH]; intros pre; rewrite (search_single _ _ _ _ H); [done|]. cbn [existsb].
  destruct (p c); [done|]. apply IH.
Qed.

Lemma single_class r f : r = RSeq (RClass f) REps -> single r f.
Proof. intros -> X st k. cbn. by destruct (after st). Qed.

Definition is_hangul (c : Z) : bool := (44032 <=? c) && (c <=? 55203).

Lemma hangul_single : single hangul is_hangul.
Proof. apply single_class. vm_compute. reflexivity. Qed.

(** The characters that names of objects keep *)
Definition is_safe (c : Z) : bool :=
  ((97 <=? c) && (c <=? 122)) || ((65 <=? c) && (c <=? 90)) || ((48 <=? c) && (c <=? 57)) || (c =? 46) || (c =? 95) || (c =? 45).

Lemma safeFileName_map name : safeFileName name = (fun c => if is_safe c then c else 95) <$> name.
Proof.
  unfold safeFileName, replace. rewrite (replace_single _ (fun c => negb (is_safe c))).
  - induction name as [|c name IH]; [done|]. cbn [mbind list_bind fmap list_fmap]. rewrite IH. by destruct (is_safe c).
  - apply single_class. vm_compute. reflexivity.
Qed.

Lemma safeFileName_safe name : Forall (fun c => is_safe c = true) (safeFileName name).
Proof. rewrite safeFileName_map. induction name as [|c name IH]; constructor; [|exact IH]. by destruct (is_safe c) eqn:?. Qed.

Lemma latin1_bytes l : Forall (fun b => 0 <= b < 256) l -> latin1 l = l.
Proof. intros H. induction H as [|b l Hb _ IH]; [done|]. cbn. rewrite Z.mod_small by done. by f_equal. Qed.

(* ------------------------------------------------------------------ *)
(** ** Properties *)

(** C15: a name with a Korean syllable, of which the form reader gives the bytes, is
    recovered. *)
Theorem names_are_recovered cps :
  Forall scalar cps -> Exists (fun c => 44032 <= c <= 55203) cps -> decodeFileName (cps ≫= encode) = cps ≫= utf16_of_cp.
Proof.
  intros Hs Hk. unfold decodeFileName.
  assert (latin1 (cps ≫= encode) = cps ≫= encode) as Hl.
  { apply latin1_bytes, Forall_bind. eapply Forall_impl; [exact Hs|]. apply encode_bytes. }
  destruct (cps ≫= encode) as [|b bs] eqn:E.
  - exfalso. destruct Hk as [c cps H|c cps Hk]; cbn [mbind list_bind] in E; apply app_eq_nil in E as [E _]; unfold encode in E;
      repeat case_match; done.
  - rewrite Hl, <- E, (toString_encode _ Hs). cbv zeta. rewrite (test_single _ _ _ hangul_single).
    assert (existsb is_hangul (cps ≫= utf16_of_cp) = true) as ->; [|done]. apply existsb_exists. apply Exists_exists in Hk as (c & Hc & Hin). exists c.
    split; [|unfold is_hangul; lia]. apply list_elem_of_In, list_elem_of_bind. exists c. split; [|done]. unfold utf16_of_cp. destruct (Z.ltb_spec c 65536); [|lia]. set_solver.
Qed.

Lemma names_are_recovered_witness : decodeFileName ([48372; 44256; 46; 112; 100; 102] ≫= encode) = js "보고.pdf".
Proof.
  apply (names_are_recovered [48372; 44256; 46; 112; 100; 102]).
  - unfold scalar. repeat (apply Forall_cons_2; [lia|]). constructor.
  - constructor. lia.
Defined.

Lemma upload_stored {S} `{!ObjectStore S} cfg sign (s s' : S) roomId file uploader now u :
  uploadChatFile cfg sign s roomId file uploader now = (s', Return u) ->
  let key := attachment_key roomId (object_name now (up_fileName u)) in
  s3_ready cfg = true /\ fileUrl u = s3_address cfg key /\ get s' key = Return (contents file).
Proof.
  unfold uploadChatFile. destruct (s3_ready cfg) eqn:Hc; [|done]. cbn [negb]. cbv zeta. set (name := decodeFileName (originalname file)).
  destruct (encodeURIComponent name) as [en|]; [|done]. destruct (match uploader with Some ((_ :: _) as x) => _ | _ => _ end); [|done].
  destruct (put s _ (contents file)) as [s1|] eqn:Hp; [|done]. destruct (outcome_bind _ _) as [url|] eqn:Hs; [|done]. intros H. injection H as Es Eu. subst s' u. cbn [up_fileName fileUrl].
  split; [reflexivity|]. split; [reflexivity|]. exact (get_put _ _ _ _ Hp).
Qed.

(** an uploaded file is stored under a key that consists of the room, the time and
    letters, digits, dots, underscores and dashes, and the address for its download is
    that of the object with its contents. *)
Theorem uploads_are_stored {S} `{!ObjectStore S} cfg sign (s s' : S) roomId file uploader now u :
  uploadChatFile cfg sign s roomId file uploader now = (s', Return u) ->
  let object := object_name now (up_fileName u) in
  up_fileName u = decodeFileName (originalname file) /\
  fileUrl u = s3_address cfg (attachment_key roomId object) /\
  get s' (attachment_key roomId object) = Return (contents file) /\
  (forall key, key <> attachment_key roomId object -> get s' key = get s key) /\
  Forall (fun c => is_safe c = true) (safeFileName (up_fileName u)) /\
  (up_fileName u <> [] -> getDownloadUrl cfg sign roomId object (Some (up_fileName u)) = Return (downloadUrl u)).
Proof.
  unfold uploadChatFile. destruct (s3_ready cfg) eqn:Hc; [|done]. cbn [negb]. cbv zeta. set (name := decodeFileName (originalname file)).
  destruct (encodeURIComponent name) as [en|]; [|done]. destruct (match uploader with Some ((_ :: _) as x) => _ | _ => _ end); [|done].
  destruct (put s _ (contents file)) as [s1|] eqn:Hp; [|done]. destruct (outcome_bind _ _) as [url|] eqn:Hs; [|done]. intros H. injection H as Es Eu. subst s' u. cbn [up_fileName fileUrl downloadUrl].
  split; [reflexivity|]. split; [reflexivity|]. split; [exact (get_put _ _ _ _ Hp)|]. split; [intros key Hk; exact (get_put_other _ _ _ _ _ Hp Hk)|]. split.
  - apply safeFileName_safe.
  - intros Hn. unfold getDownloadUrl. rewrite Hc. cbn [negb]. destruct name; [done|exact Hs].
Qed.

(** A bucket that is empty, and a signer *)
Definition some_bucket : UploadConfig := mkUploadConfig (js "b") (js "r") true.
Definition some_sign (key : jsstr) (d : option jsstr) : outcome jsstr jsstr := Return (key ++ js "?signed").
Definition some_file : ChatFile := mkChatFile (js "a b.txt") 3 (js "abc") None.

Lemma uploads_are_stored_witness :
  exists s u, uploadChatFile some_bucket some_sign ([] : jsmap jsstr jsstr) (js "r1") some_file None 7 = (s, Return u) /\
    get s (js "rooms/r1/attachments/7-a_b.txt") = Return (js "abc") /\ downloadUrl u = js "rooms/r1/attachments/7-a_b.txt?signed".
Proof.
  destruct (uploadChatFile some_bucket some_sign ([] : jsmap jsstr jsstr) (js "r1") some_file None 7) as [s [u|m]] eqn:E.
  - destruct (uploads_are_stored some_bucket some_sign [] s (js "r1") some_file None 7 u E) as (Hn & _ & Hg & _ & _ & Hd). exists s, u. split; [done|].
    assert (up_fileName u = js "a b.txt") as Hu by (rewrite Hn; vm_compute; reflexivity). rewrite Hu in Hg, Hd. split; [exact Hg|].
    specialize (Hd ltac:(vm_compute; discriminate)). apply (f_equal (fun o => match o with Return x => x | Throw _ => [] end)) in Hd. rewrite <- Hd. vm_compute. reflexivity.
  - exfalso. apply (f_equal snd) in E. vm_compute in E. discriminate.
Defined.

(** names that differ only in characters that are replaced, uploaded to a room in the
    same millisecond, have the same key, so that the second file takes the place of the
    first. *)
Theorem names_collide now roomId name name' :
  Forall2 (fun c d => c = d \/ (is_safe c = false /\ is_safe d = false)) name name' ->
  attachment_key roomId (object_name now name) = attachment_key roomId (object_name now name').
Proof.
  intros H. unfold object_name. assert (safeFileName name = safeFileName name') as ->; [|done]. rewrite !safeFileName_map.
  induction H as [|c d name name' Hc _ IH]; [done|]. cbn [fmap list_fmap]. rewrite IH. f_equal. destruct Hc as [->|[E1 E2]]; [done|]. by rewrite E1, E2.
Qed.

Lemma names_collide_witness : attachment_key (js "r1") (object_name 0 (js "가.pdf")) = attachment_key (js "r1") (object_name 0 (js "나.pdf")).
Proof.
  apply names_collide. change (js "가.pdf") with [44032; 46; 112; 100; 102]. change (js "나.pdf") with [45208; 46; 112; 100; 102].
  constructor; [by right|]. repeat (constructor; [by left|]). constructor.
Defined.

(* ------------------------------------------------------------------ *)
(** ** The viewer of files *)

(** [decodeURIComponent]: units as they are, and escaped bytes *)
Inductive UriItem := Unit (c : Z) | Escaped (b : Z).

Fixpoint uri_items (s : jsstr) : option (list UriItem) :=
  match s with
  | [] => Some []
  | c :: s' =>
    if c =? 37 then
      match s' with
      | a :: b :: s'' =>
        match hex_value a, hex_value b with
        | Some x, Some y => cons (Escaped (16 * x + y)) <$> uri_items s''
        | _, _ => None
        end
      | _ => None
      end
    else cons (Unit c) <$> uri_items s'
  end.

(** The characters of a run of escaped bytes, which must be the bytes of characters *)
Definition escaped_text (run : list Z) : option jsstr :=
  let cps := decode None run in
  if bool_decide (cps ≫= encode = run) then Some (cps ≫= utf16_of_cp) else None.

Fixpoint uri_text (items : list UriItem) (run : list Z) : option jsstr :=
  match items with
  | [] => escaped_text run
  | Escaped b :: items' => uri_text items' (run ++ [b])
  | Unit c :: items' => t ← escaped_text run; r ← uri_text items' []; Some (t ++ c :: r)
  end.

Definition decodeURIComponent (s : jsstr) : outcome jsstr jsstr :=
  match uri_items s ≫= (fun items => uri_text items []) with Some t => Return t | None => Throw (js "URI malformed") end.

Example decodeURIComponent_ex :
  decodeURIComponent (js "a%20%EA%B0%80%F0%9F%98%80") = Return (js "a 가😀") /\ decodeURIComponent (js "%E0%80%80") = Throw (js "URI malformed") /\
  decodeURIComponent (js "%EA%B0x") = Throw (js "URI malformed") /\ decodeURIComponent (js "100%") = Throw (js "URI malformed").
Proof. vm_compute. done. Qed.

Section Viewer.
Context (cfg : UploadConfig) (sign : jsstr -> option jsstr -> outcome jsstr jsstr).
(** [new URL(fileUrl).pathname] *)
Context (pathname : jsstr -> outcome jsstr jsstr).

Definition getViewerUrl (fileUrl : jsstr) : outcome jsstr jsstr :=
  if negb (s3_ready cfg) then Throw (js "S3 not configured")
  else path <-- pathname fileUrl ;; key <-- decodeURIComponent (drop 1 path) ;; sign key None.

Definition post_viewer_url (fileUrl : option jsstr) : outcome (Z * jsstr) jsstr :=
  match fileUrl with
  | None | Some [] => Throw (400, js "fileUrl is required")
  | Some f =>
    match getViewerUrl f with
    | Return u => Return u
    | Throw m => Throw (500, match m with [] => js "Failed to generate viewer URL" | _ => m end)
    end
  end.
End Viewer.

Lemma uri_items_percent b s : 0 <= b < 256 -> uri_items (percent b ++ s) = cons (Escaped b) <$> uri_items s.
Proof.
  intros H. unfold percent. cbn [app uri_items]. change (37 =? 37) with true. cbv iota.
  rewrite hex_digit by (split; [apply Z.div_pos|apply Z.div_lt_upper_bound]; lia). rewrite hex_digit by (apply Z.mod_pos_bound; lia).
  replace (16 * (b / 16) + b mod 16) with b by (apply Z.div_mod; lia). done.
Qed.

Lemma uri_items_bytes l s : Forall (fun b => 0 <= b < 256) l -> uri_items ((l ≫= percent) ++ s) = app (Escaped <$> l) <$> uri_items s.
Proof.
  intros H. induction H as [|b l Hb _ IH]; [cbn; by destruct (uri_items s)|]. rewrite bind_cons, fmap_cons, <- app_assoc, uri_items_percent by done. rewrite IH. by destruct (uri_items s).
Qed.

(** A character as it is read *)
Definition item_of (c : Z) : list UriItem := if (c <? 128) && unreserved c then [Unit c] else Escaped <$> encode c.

Lemma uri_items_encoded cs : Forall scalar cs ->
  uri_items (cs ≫= fun c => if (c <? 128) && unreserved c then [c] else encode c ≫= percent) = Some (cs ≫= item_of).
Proof.
  intros H. induction H as [|c cs Hc _ IH]; [done|]. rewrite !bind_cons. unfold item_of at 1. destruct ((c <? 128) && unreserved c) eqn:E.
  - cbn [app uri_items]. destruct (Z.eqb_spec c 37) as [->|]; [done|]. by rewrite IH.
  - rewrite uri_items_bytes by by apply encode_bytes. by rewrite IH.
Qed.

Lemma decode_bytes cps : Forall scalar cps -> decode None (cps ≫= encode) = cps.
Proof. intros H. induction H as [|c cps Hc _ IH]; [done|]. rewrite bind_cons, decode_encode by done. by f_equal. Qed.

Lemma escaped_text_encode cps : Forall scalar cps -> escaped_text (cps ≫= encode) = Some (cps ≫= utf16_of_cp).
Proof. intros H. unfold escaped_text. rewrite decode_bytes by done. by rewrite bool_decide_true. Qed.

Lemma uri_text_bytes l items run : uri_text ((Escaped <$> l) ++ items) run = uri_text items (run ++ l).
Proof. revert run. induction l as [|b l IH]; intros run; cbn [fmap list_fmap app uri_text]; [by rewrite app_nil_r|]. rewrite IH. by rewrite <- app_assoc. Qed.

Lemma uri_text_encoded cs cps : Forall scalar cs -> Forall scalar cps -> uri_text (cs ≫= item_of) (cps ≫= encode) = Some ((cps ++ cs) ≫= utf16_of_cp).
Proof.
  intros H. revert cps. induction H as [|c cs Hc _ IH]; intros cps Hp; [rewrite app_nil_r; by apply escaped_text_encode|]. rewrite bind_cons. unfold item_of at 1.
  destruct ((c <? 128) && unreserved c) eqn:E.
  - cbn [app uri_text]. rewrite escaped_text_encode by done. cbn [mbind option_bind]. pose proof (IH [] (Forall_nil_2 _)) as H0. change ([] ≫= encode) with (@nil Z) in H0. rewrite H0.
    cbn [mbind option_bind app]. f_equal. rewrite bind_app. f_equal. rewrite bind_cons. unfold utf16_of_cp at 2. destruct (Z.ltb_spec c 65536); [done|]. destruct (Z.ltb_spec c 128); [lia|done].
  - rewrite uri_text_bytes. assert ((cps ≫= encode) ++ encode c = (cps ++ [c]) ≫= encode) as E2 by (rewrite bind_app; f_equal; cbn; by rewrite app_nil_r).
    rewrite E2, IH by (apply Forall_app; split; [done|by apply Forall_singleton]). by rewrite <- app_assoc.
Qed.

(** a text of characters is what its encoding for an address is decoded to. *)
Theorem uri_roundtrip s : well_formed s -> exists e, encodeURIComponent s = Return e /\ decodeURIComponent e = Return s.
Proof.
  intros [Hs Hc]. unfold encodeURIComponent. destruct (code_point_list s) as [cs|] eqn:E; [|done]. eexists. split; [reflexivity|].
  assert (Forall scalar cs) as Hcs by (rewrite <- (usv_code_points _ _ E); by apply usv_scalar).
  unfold decodeURIComponent. rewrite uri_items_encoded by done. cbn [mbind option_bind].
  pose proof (uri_text_encoded cs [] Hcs (Forall_nil_2 _)) as H. cbn [app] in H. change ([] ≫= encode) with (@nil Z) in H. rewrite H. by rewrite (code_points_text _ _ Hs E).
Qed.

Lemma uri_roundtrip_witness : exists e, encodeURIComponent (js "a/가 😀%") = Return e /\ decodeURIComponent e = Return (js "a/가 😀%").
Proof. apply uri_roundtrip. split; [apply (bool_decide_unpack _); vm_compute; exact I|vm_compute; discriminate]. Defined.

Lemma decode_plain s : Forall (fun c => c <> 37) s -> decodeURIComponent s = Return s.
Proof.
  intros H. unfold decodeURIComponent. assert (uri_items s = Some (Unit <$> s)) as ->.
  { induction H as [|c s Hc _ IH]; [done|]. cbn [uri_items]. rewrite (proj2 (Z.eqb_neq c 37) Hc). by rewrite IH. }
  cbn [mbind option_bind]. assert (uri_text (Unit <$> s) [] = Some s) as ->; [|done]. clear H. induction s as [|c s IH]; [done|].
  rewrite fmap_cons. cbn [uri_text]. rewrite IH. done.
Qed.

(** Characters of a path that a parser of addresses keeps, and of the name of a host *)
Definition path_char (c : Z) : bool := is_safe c || (c =? 47).
Definition host_char (c : Z) : bool := ((97 <=? c) && (c <=? 122)) || ((48 <=? c) && (c <=? 57)) || (c =? 46) || (c =? 45).

(** A segment that stands for itself *)
Definition proper_segment (segment : jsstr) : Prop := segment <> js "." /\ segment <> js "..".

(** What the parser of addresses does with an address of such a host and path *)
Definition parses_plain_urls (pathname : jsstr -> outcome jsstr jsstr) : Prop :=
  forall host path, Forall (fun c => host_char c = true) host -> Forall (fun c => path_char c = true) path -> Forall proper_segment (split_char 47 path) ->
    pathname (js "https://" ++ host ++ js "/" ++ path) = Return (js "/" ++ path).

Lemma js_of_Z_safe n : Forall (fun c => is_safe c = true) (js_of_Z n).
Proof.
  assert (forall p, Forall (fun c => is_safe c = true) (pos_units p)) as Hp.
  { intros p. eapply Forall_impl; [apply units_dec|]. intros c Hc. unfold is_safe. unfold is_dec in Hc. lia. }
  destruct n as [|p|p]; [change (js_of_Z 0) with [48]; by apply Forall_singleton|rewrite js_of_Z_pos; apply Hp|rewrite js_of_Z_neg; by apply Forall_cons_2; [|apply Hp]].
Qed.

Lemma object_name_safe now name : Forall (fun c => is_safe c = true) (object_name now name).
Proof.
  unfold object_name. apply Forall_app. split; [apply js_of_Z_safe|]. change (js "-") with [45]. apply Forall_cons_2; [done|apply safeFileName_safe].
Qed.

Lemma object_name_proper now name : proper_segment (object_name now name).
Proof.
  assert (45 ∈ object_name now name) as H by (unfold object_name; change (js "-") with [45]; set_solver).
  split; intros E; rewrite E in H; vm_compute in H; set_solver.
Qed.

Lemma safe_no_slash s : Forall (fun c => is_safe c = true) s -> Forall (fun c => c <> 47) s.
Proof. intros H. eapply Forall_impl; [exact H|]. intros c Hc ->. vm_compute in Hc. discriminate. Qed.

Lemma key_segments roomId object :
  Forall (fun c => is_safe c = true) roomId -> Forall (fun c => is_safe c = true) object ->
  split_char 47 (attachment_key roomId object) = [js "rooms"; roomId; js "attachments"; object].
Proof.
  intros Hr Ho. unfold attachment_key. change (js "rooms/") with (js "rooms" ++ [47]). change (js "/attachments/") with ([47] ++ js "attachments" ++ [47]).
  rewrite <- !app_assoc. cbn [app].
  rewrite (split_plain 47 (js "rooms")) by (apply (bool_decide_unpack _); vm_compute; exact I). rewrite split_plain by by apply safe_no_slash.
  rewrite (split_plain 47 (js "attachments")) by (apply (bool_decide_unpack _); vm_compute; exact I). by rewrite split_last by by apply safe_no_slash.
Qed.

Lemma safe_path s : Forall (fun c => is_safe c = true) s -> Forall (fun c => path_char c = true) s.
Proof. intros H. eapply Forall_impl; [exact H|]. intros c Hc. unfold path_char. by rewrite Hc. Qed.

Lemma key_path roomId object :
  Forall (fun c => is_safe c = true) roomId -> Forall (fun c => is_safe c = true) object -> Forall (fun c => path_char c = true) (attachment_key roomId object).
Proof.
  intros Hr Ho. unfold attachment_key. repeat (apply Forall_app; split); try by apply safe_path.
  all: apply (bool_decide_unpack _); vm_compute; exact I.
Qed.

(** the viewer of a file that was uploaded to a room shows this file: from the address
    that the upload gave, the viewer signs the key under which it was stored.  The
    parser of addresses is assumed to keep plain paths as they are. *)
Theorem viewer_shows_upload {S} `{!ObjectStore S} cfg sign pathname (s s' : S) roomId file uploader now u :
  parses_plain_urls pathname -> Forall (fun c => host_char c = true) (up_bucket cfg ++ js ".s3." ++ up_region cfg ++ js ".amazonaws.com") ->
  Forall (fun c => is_safe c = true) roomId -> proper_segment roomId ->
  uploadChatFile cfg sign s roomId file uploader now = (s', Return u) ->
  exists key, getViewerUrl cfg sign pathname (fileUrl u) = sign key None /\ get s' key = Return (contents file).
Proof.
  intros Hp Hh Hr Hseg Hu. destruct (upload_stored cfg sign s s' roomId file uploader now u Hu) as (Hready & Hurl & Hget).
  set (key := attachment_key roomId (object_name now (up_fileName u))) in *. exists key. split; [|exact Hget].
  pose proof (object_name_safe now (up_fileName u)) as Ho. unfold getViewerUrl. rewrite Hready, Hurl. cbn [negb].
  assert (s3_address cfg key = js "https://" ++ (up_bucket cfg ++ js ".s3." ++ up_region cfg ++ js ".amazonaws.com") ++ js "/" ++ key) as ->.
  { unfold s3_address. change (js ".amazonaws.com/") with (js ".amazonaws.com" ++ js "/"). by rewrite <- !app_assoc. }
  rewrite Hp; [|done|by apply key_path|].
  - cbn [outcome_bind]. change (drop 1 (js "/" ++ key)) with key. rewrite decode_plain; [done|].
    eapply Forall_impl; [by apply key_path|]. intros c Hc ->. vm_compute in Hc. discriminate.
  - unfold key. rewrite key_segments by done. repeat apply Forall_cons_2; [by split; vm_compute|done|by split; vm_compute|apply object_name_proper|constructor].
Qed.

(** A parser that is enough for plain addresses *)
Fixpoint from_slash (s : jsstr) : jsstr := match s with [] => [] | c :: s' => if c =? 47 then s else from_slash s' end.

Definition some_pathname (address : jsstr) : outcome jsstr jsstr := Return (from_slash (drop 8 address)).

Lemma some_pathname_plain : parses_plain_urls some_pathname.
Proof.
  intros host path Hh _ _. unfold some_pathname. f_equal. change (js "https://" ++ host ++ js "/" ++ path) with (js "https://" ++ (host ++ 47 :: path)).
  change (drop 8 (js "https://" ++ (host ++ 47 :: path))) with (host ++ 47 :: path). induction Hh as [|c host Hc _ IH]; [done|].
  cbn [app from_slash]. destruct (Z.eqb_spec c 47) as [->|]; [vm_compute in Hc; discriminate|exact IH].
Qed.

Lemma viewer_shows_upload_witness :
  exists s u key, uploadChatFile some_bucket some_sign ([] : jsmap jsstr jsstr) (js "r1") some_file None 7 = (s, Return u) /\
    getViewerUrl some_bucket some_sign some_pathname (fileUrl u) = some_sign key None /\ get s key = Return (js "abc").
Proof.
  destruct (uploadChatFile some_bucket some_sign ([] : jsmap jsstr jsstr) (js "r1") some_file None 7) as [s [u|m]] eqn:E.
  - destruct (viewer_shows_upload some_bucket some_sign some_pathname [] s (js "r1") some_file None 7 u) as (key & Hv & Hg).
    + apply some_pathname_plain.
    + apply (bool_decide_unpack _). vm_compute. exact I.
    + apply (bool_decide_unpack _). vm_compute. exact I.
    + split; vm_compute; discriminate.
    + exact E.
    + exists s, u, key. done.
  - exfalso. apply (f_equal snd) in E. vm_compute in E. discriminate.
Defined.

(** the viewer signs whatever key the address of a request names: the host, the room and
    the caller are not looked at. *)
Theorem viewer_signs_any_key cfg sign pathname address key :
  s3_ready cfg = true -> pathname address = Return (js "/" ++ key) -> Forall (fun c => c <> 37) key ->
  getViewerUrl cfg sign pathname address = sign key None.
Proof. intros Hr Hp Hk. unfold getViewerUrl. rewrite Hr, Hp. cbn [negb outcome_bind]. change (drop 1 (js "/" ++ key)) with key. by rewrite decode_plain. Qed.

Lemma viewer_signs_any_key_witness :
  getViewerUrl some_bucket some_sign some_pathname (js "https://evil.example/rooms/other/recordings/1.mp4") = some_sign (js "rooms/other/recordings/1.mp4") None.
Proof. apply viewer_signs_any_key; [reflexivity|vm_compute; reflexivity|apply (bool_decide_unpack _); vm_compute; exact I]. Defined.
