(* ===== verification/Translate.v ===== *)
(** * Translation

    [src/translate/translate.service.ts] and [src/translate/translate.controller.ts]:
    translation of a text, and of several at once, whose answers arrive in any order.

    The service of the cloud is an argument, its answers for a command.  The languages
    of a request that is accepted are of the declared type; the language it asks for
    is checked when the request arrives. *)

From Stdlib Require Import ZArith Lia.
From stdpp Require Import base strings option sets list.
From S2P Require Import Prelude JsString.

#[local] Open Scope aura_scope.

(* ------------------------------------------------------------------ *)
(** ** One text *)

Inductive SupportedLanguage := ko | zh | ja | en.

Inductive SourceLanguage := auto | from (l : SupportedLanguage).

#[export] Instance SupportedLanguage_eq_dec : EqDecision SupportedLanguage.
Proof. solve_decision. Defined.

Definition langCodeMap (l : SupportedLanguage) : jsstr := js match l with ko => "ko" | zh => "zh" | ja => "ja" | en => "en" end.

Record TranslateRequest := mkRequest { text : jsstr; sourceLang : option SourceLanguage; targetLang : SupportedLanguage }.

Record TranslateResponse := mkResponse { translatedText : jsstr; response_source : jsstr; response_target : SupportedLanguage }.

Record TranslateTextCommand := mkCommand { Text : jsstr; SourceLanguageCode : jsstr; TargetLanguageCode : jsstr }.

(** What the service answers; both fields are optional *)
Record Answer := mkAnswer { TranslatedText : option jsstr; AnsweredSource : option jsstr }.

Definition source_code (l : SourceLanguage) : jsstr := match l with auto => js "auto" | from l => langCodeMap l end.

Definition or_auto (l : option SourceLanguage) : SourceLanguage := match l with Some l => l | None => auto end.

Definition or_default (v : option jsstr) (d : jsstr) : jsstr := match v with Some ((_ :: _) as s) => s | _ => d end.

(** The first part of [translate]: a response at once, or what to ask *)
Definition begin_translate (request : TranslateRequest) : TranslateResponse + TranslateTextCommand :=
  match trim (text request) with
  | [] => inl (mkResponse [] (match or_auto (sourceLang request) with auto => js "unknown" | from l => langCodeMap l end) (targetLang request))
  | _ => inr (mkCommand (text request) (source_code (or_auto (sourceLang request))) (langCodeMap (targetLang request)))
  end.

(** The second part: the error of the service is passed on *)
Definition end_translate (request : TranslateRequest) (answer : outcome jsstr Answer) : outcome jsstr TranslateResponse :=
  match answer with
  | Return a => Return (mkResponse (or_default (TranslatedText a) (text request)) (or_default (AnsweredSource a) (js "unknown")) (targetLang request))
  | Throw m => Throw m
  end.

Definition translate (send : TranslateTextCommand -> outcome jsstr Answer) (request : TranslateRequest) : outcome jsstr TranslateResponse :=
  match begin_translate request with
  | inl response => Return response
  | inr command => end_translate request (send command)
  end.

(* ------------------------------------------------------------------ *)
(** ** Several texts *)

(** The promises of a batch, and what [Promise.all] has become *)
Record Batch := mkBatch {
  requests : list TranslateRequest;
  promises : list (option (outcome jsstr TranslateResponse));
  settled : option (outcome jsstr (list TranslateResponse))
}.

(** The values of promises that are all fulfilled *)
Fixpoint fulfilled (l : list (option (outcome jsstr TranslateResponse))) : option (list TranslateResponse) :=
  match l with
  | [] => Some []
  | Some (Return r) :: l' => cons r <$> fulfilled l'
  | _ => None
  end.

(** [Promise.all] after a promise is settled: the first rejection, or all values *)
Definition settle_all (before : option (outcome jsstr (list TranslateResponse))) (ps : list (option (outcome jsstr TranslateResponse)))
    (o : outcome jsstr TranslateResponse) : option (outcome jsstr (list TranslateResponse)) :=
  match before with
  | Some r => Some r
  | None => match o with Throw m => Some (Throw m) | Return _ => Return <$> fulfilled ps end
  end.

Definition translateBatch (texts : list jsstr) (source : option SourceLanguage) (target : SupportedLanguage) : Batch :=
  let reqs := (fun t => mkRequest t (Some (or_auto source)) target) <$> texts in
  let ps := (fun r => match begin_translate r with inl response => Some (Return response) | inr _ => None end) <$> reqs in
  mkBatch reqs ps (Return <$> fulfilled ps).

(** The service answers the request of a text *)
Definition answered (b : Batch) (i : nat) (answer : outcome jsstr Answer) : Batch :=
  match requests b !! i, promises b !! i with
  | Some request, Some None =>
    let o := end_translate request answer in
    let ps := <[i := Some o]> (promises b) in
    mkBatch (requests b) ps (settle_all (settled b) ps o)
  | _, _ => b
  end.

(** Answers of the service in the order in which they arrive *)
Definition answers (send : TranslateTextCommand -> outcome jsstr Answer) (b : Batch) (order : list nat) : Batch :=
  foldl (fun b i => match requests b !! i with
                    | Some r => match begin_translate r with inr command => answered b i (send command) | inl _ => b end
                    | None => b
                    end) b order.

(* ------------------------------------------------------------------ *)
(** ** Endpoints *)

Definition validLangs : list SupportedLanguage := [ko; zh; ja; en].

Definition parse_lang (s : jsstr) : option SupportedLanguage := find_first (fun l => bool_decide (langCodeMap l = s)) validLangs.

Definition bad_lang : jsstr := js "targetLang must be one of: " ++ join (js ", ") (langCodeMap <$> validLangs).

Definition present_text (v : option jsstr) : option jsstr := match v with Some [] => None | _ => v end.

Definition check_target (target : option jsstr) : outcome (Z * jsstr) SupportedLanguage :=
  match present_text target with
  | None => Throw (400%Z, js "targetLang is required")
  | Some l => match parse_lang l with Some l => Return l | None => Throw (400%Z, bad_lang) end
  end.

(** The request that [POST /api/translate] passes on *)
Definition post_translate (text : option jsstr) (source : option SourceLanguage) (target : option jsstr) : outcome (Z * jsstr) TranslateRequest :=
  match present_text text with
  | None => Throw (400%Z, js "text is required")
  | Some t => l <-- check_target target ;; Return (mkRequest t source l)
  end.

(** The batch that [POST /api/translate/batch] starts *)
Definition post_translate_batch (texts : option (list jsstr)) (source : option SourceLanguage) (target : option jsstr) : outcome (Z * jsstr) Batch :=
  match texts with
  | None | Some [] => Throw (400%Z, js "texts array is required")
  | Some ts =>
    l <-- check_target target ;;
    if (50 <? length ts)%nat then Throw (400%Z, js "Maximum 50 texts allowed per request")
    else Return (translateBatch ts source l)
  end.

(* ------------------------------------------------------------------ *)
(** ** Invariant of a batch *)

Lemma fulfilled_Some l rs : fulfilled l = Some rs <-> l = (fun r => Some (Return r)) <$> rs.
Proof.
  revert rs. induction l as [|[[r|m]|] l IH]; intros rs; cbn [fulfilled].
  - split; [intros H; injection H as <-; done|]. by destruct rs.
  - rewrite fmap_Some. split.
    + intros (rs' & H & ->). apply IH in H. by rewrite H.
    + destruct rs as [|r' rs]; [done|]. cbn [fmap list_fmap]. intros H. injection H as H1 H2. subst r'. exists rs. split; [by apply IH|done].
  - split; [done|]. by destruct rs.
  - split; [done|]. by destruct rs.
Qed.

Lemma fulfilled_complete l : (forall p, p ∈ l -> exists r, p = Some (Return r)) -> is_Some (fulfilled l).
Proof.
  induction l as [|p l IH]; intros H; [by eexists|]. destruct (H p) as [r ->]; [set_solver|]. cbn [fulfilled]. destruct IH as [rs ->]; [set_solver|]. by eexists.
Qed.

Section Batches.
Context (send : TranslateTextCommand -> outcome jsstr Answer) (reqs : list TranslateRequest).

(** Promises hold the translations of their texts, and the result is made of them *)
Record Inv (b : Batch) : Prop := {
  inv_requests : requests b = reqs;
  inv_promises : Forall2 (fun r p => match p with Some o => o = translate send r | None => exists c, begin_translate r = inr c end) reqs (promises b);
  inv_settled : match settled b with
                | None => fulfilled (promises b) = None /\ Forall (fun p => match p with Some (Throw _) => False | _ => True end) (promises b)
                | Some (Return rs) => fulfilled (promises b) = Some rs
                | Some (Throw m) => Some (Throw m) ∈ promises b
                end
}.

Lemma fulfilled_has_no_gap l i rs : fulfilled l = Some rs -> l !! i <> Some None.
Proof.
  intros H. apply fulfilled_Some in H as ->. rewrite list_lookup_fmap. by destruct (rs !! i).
Qed.

Lemma answered_inv b i r c : Inv b -> reqs !! i = Some r -> begin_translate r = inr c -> Inv (answered b i (send c)).
Proof.
  intros [Hr Hp Hs] Hi Hc. unfold answered. rewrite Hr, Hi. destruct (promises b !! i) as [[o|]|] eqn:E; [by split| |by split].
  assert (end_translate r (send c) = translate send r) as -> by (unfold translate; by rewrite Hc).
  split; cbn [requests promises settled].
  - done.
  - rewrite <- (list_insert_id reqs i r) by done. by apply Forall2_insert.
  - unfold settle_all. destruct (settled b) as [[rs|m]|].
    + by apply fulfilled_has_no_gap with (i := i) in Hs.
    + apply list_elem_of_lookup in Hs as [j Hj]. apply list_elem_of_lookup. exists j. rewrite list_lookup_insert_ne; [done|]. intros ->. congruence.
    + destruct (translate send r) as [x|m].
      * destruct (fulfilled (<[i:=Some (Return x)]> (promises b))) eqn:F; [done|]. cbn [fmap option_fmap option_map]. split; [done|]. apply Forall_insert; [by apply Hs|done].
      * apply list_elem_of_lookup. exists i. apply list_lookup_insert_eq. by eapply lookup_lt_Some.
Qed.

Lemma answers_inv order b : Inv b -> Inv (answers send b order).
Proof.
  revert b. induction order as [|i order IH]; intros b Hb; [done|]. cbn [answers foldl]. apply IH.
  destruct (requests b !! i) as [r|] eqn:E; [|done]. destruct (begin_translate r) as [|c] eqn:Ec; [done|]. rewrite (inv_requests _ Hb) in E. by eapply answered_inv.
Qed.

(** Once settled, a batch stays as it is *)
Lemma answers_settled order b o : settled b = Some o -> settled (answers send b order) = Some o.
Proof.
  revert b. induction order as [|i order IH]; intros b Hb; [done|]. cbn [answers foldl]. apply IH. destruct (requests b !! i) as [r|] eqn:E; [|done].
  destruct (begin_translate r); [done|]. unfold answered. rewrite E. destruct (promises b !! i) as [[]|]; [done| |done]. cbn [settled]. unfold settle_all. by rewrite Hb.
Qed.

Lemma answered_keeps b i j a p : promises b !! j = Some (Some p) -> promises (answered b i a) !! j = Some (Some p).
Proof.
  intros H. unfold answered. destruct (requests b !! i); [|done]. destruct (promises b !! i) as [[]|] eqn:E; [done| |done]. cbn [promises].
  rewrite list_lookup_insert_ne; [done|]. intros ->. congruence.
Qed.

Lemma answers_keeps order b j p : promises b !! j = Some (Some p) -> promises (answers send b order) !! j = Some (Some p).
Proof.
  revert b. induction order as [|i order IH]; intros b Hb; [done|]. cbn [answers foldl]. apply IH. destruct (requests b !! i) as [r|]; [|done].
  destruct (begin_translate r); [done|]. by apply answered_keeps.
Qed.

Lemma answers_arrive order b i r c : Inv b -> reqs !! i = Some r -> begin_translate r = inr c -> i ∈ order ->
  exists o, promises (answers send b order) !! i = Some (Some o).
Proof.
  revert b. induction order as [|j order IH]; intros b Hb Hi Hc Ho; [set_solver|]. cbn [answers foldl].
  apply elem_of_cons in Ho as [<-|Ho].
  - rewrite (inv_requests _ Hb), Hi, Hc.
    destruct (Forall2_lookup_l _ _ _ _ _ (inv_promises _ Hb) Hi) as (p & Hp & _).
    assert (exists o, promises (answered b i (send c)) !! i = Some (Some o)) as [o Hq].
    { unfold answered. rewrite (inv_requests _ Hb), Hi, Hp. destruct p as [o|]; [by exists o|]. cbn [promises]. rewrite list_lookup_insert_eq; [by eexists|]. by eapply lookup_lt_Some. }
    exists o. by apply answers_keeps.
  - apply IH; [|done..]. destruct (requests b !! j) as [r'|] eqn:E; [|done]. destruct (begin_translate r') as [|c'] eqn:Ec; [done|].
    rewrite (inv_requests _ Hb) in E. by eapply answered_inv.
Qed.
End Batches.

Definition batch_requests (texts : list jsstr) (source : option SourceLanguage) (target : SupportedLanguage) : list TranslateRequest :=
  (fun t => mkRequest t (Some (or_auto source)) target) <$> texts.

Lemma batch_start_inv send texts source target : Inv send (batch_requests texts source target) (translateBatch texts source target).
Proof.
  unfold translateBatch. fold (batch_requests texts source target). set (reqs := batch_requests texts source target). split; cbn [requests promises settled].
  - done.
  - apply Forall2_fmap_r, Forall_Forall2_diag, Forall_true. intros r. unfold compose. destruct (begin_translate r) as [x|c] eqn:E; [unfold translate; by rewrite E|by exists c].
  - destruct (fulfilled _) eqn:E; cbn [fmap option_fmap option_map]; [done|]. split; [done|]. apply Forall_fmap, Forall_true. intros r. unfold compose. by destruct (begin_translate r).
Qed.

(* ------------------------------------------------------------------ *)
(** ** Properties *)

(** C38: a batch of texts gives the translations of its texts in their order, whatever the
    order in which the service answers: a result that it has is either the list of what
    each text alone is translated to or the error of one of them, it is kept when
    further answers arrive, and there is a result when all texts that are not blank have
    been answered. *)
Theorem batches_are_translated send texts source target order :
  let b := answers send (translateBatch texts source target) order in
  let alone := translate send <$> batch_requests texts source target in
  (forall o, settled b = Some o ->
     match o with Return rs => Return <$> rs = alone | Throw m => Throw m ∈ alone end /\
     forall more, settled (answers send b more) = Some o) /\
  ((forall i r c, batch_requests texts source target !! i = Some r -> begin_translate r = inr c -> i ∈ order) -> is_Some (settled b)).
Proof.
  cbv zeta. set (reqs := batch_requests texts source target). set (b0 := translateBatch texts source target).
  assert (Inv send reqs (answers send b0 order)) as Hb by apply answers_inv, batch_start_inv. split.
  - intros o Ho. split; [|intros more; by apply answers_settled]. pose proof (inv_settled _ _ _ Hb) as Hs. rewrite Ho in Hs. pose proof (inv_promises _ _ _ Hb) as Hp. destruct o as [rs|m].
    + apply fulfilled_Some in Hs. rewrite Hs in Hp. apply Forall2_fmap_r in Hp. clear -Hp. induction Hp as [|r x reqs rs H _ IH]; [done|]. cbn [fmap list_fmap]. by rewrite IH, <- H.
    + apply list_elem_of_lookup in Hs as [i Hi]. destruct (Forall2_lookup_r _ _ _ _ _ Hp Hi) as (r & Hr & E). rewrite E. apply list_elem_of_fmap. exists r. split; [done|]. by eapply list_elem_of_lookup_2.
  - intros Hall. pose proof (inv_settled _ _ _ Hb) as Hs. destruct (settled (answers send b0 order)); [done|]. destruct Hs as [Hf Hn]. exfalso.
    destruct (fulfilled_complete (promises (answers send b0 order))) as [rs E]; [|congruence]. intros p Hp. rewrite Forall_forall in Hn. specialize (Hn p Hp).
    apply list_elem_of_lookup in Hp as [i Hi]. destruct (Forall2_lookup_r _ _ _ _ _ (inv_promises _ _ _ Hb) Hi) as (r & Hr & E). destruct p as [[x|m]|]; [by eexists|done|].
    destruct E as [c Hc]. destruct (answers_arrive send reqs order b0 i r c) as [o Ho]; [by apply batch_start_inv|done|done|by eapply Hall|]. fold b0 in Hi. congruence.
Qed.

(** Two texts and a blank one; the second is answered first *)
Lemma batches_are_translated_witness :
  let send c := Return (mkAnswer (Some (js "<" ++ Text c ++ js ">")) (Some (js "ko"))) in
  let b := answers send (translateBatch [js "가"; js " "; js "나"] None en) [2; 0]%nat in
  exists rs, settled b = Some (Return rs) /\ translatedText <$> rs = [js "<가>"; []; js "<나>"] /\ settled (answers send b [1; 2]%nat) = Some (Return rs).
Proof.
  cbv zeta. set (send := fun c : TranslateTextCommand => _).
  destruct (batches_are_translated send [js "가"; js " "; js "나"] None en [2; 0]%nat) as [H1 H2].
  destruct H2 as [o Ho].
  - intros [|[|[|i]]] r c Hr Hc; [set_solver|exfalso|set_solver|done]. injection Hr as <-. vm_compute in Hc. discriminate.
  - destruct (H1 o Ho) as [_ Hm]. pose proof Ho as Ho'. vm_compute in Ho'. injection Ho' as <-. eexists. split; [exact Ho|]. split; [vm_compute; reflexivity|apply Hm].
Defined.

Lemma check_target_spec target :
  match check_target target with
  | Return l => target = Some (langCodeMap l)
  | Throw (status, _) => status = 400%Z /\ forall l, target <> Some (langCodeMap l)
  end.
Proof.
  unfold check_target, present_text. destruct target as [[|c t]|]; [split; [done|]; intros []; vm_compute; discriminate| |done].
  unfold parse_lang. destruct (find_first _ validLangs) as [l|] eqn:E.
  - apply find_first_Some in E as [_ E]. apply bool_decide_eq_true in E. by rewrite E.
  - split; [done|]. intros l H. injection H as H. apply find_first_None in E. rewrite Forall_forall in E. specialize (E l).
    rewrite <- H in E. rewrite bool_decide_true in E by done. by discriminate E; destruct l; set_solver.
Qed.

(** requests are passed on only when they are complete: the text is not empty and is
    passed as it is, and the language is the supported one with the given code; all
    others are refused with status 400. *)
Theorem only_supported_languages given source target :
  match post_translate given source target with
  | Return r => given = Some (text r) /\ text r <> [] /\ target = Some (langCodeMap (targetLang r)) /\ sourceLang r = source
  | Throw (status, _) => status = 400%Z /\ (given = None \/ given = Some [] \/ forall l, target <> Some (langCodeMap l))
  end.
Proof.
  unfold post_translate, present_text. pose proof (check_target_spec target) as Ht. destruct given as [[|c t]|]; [by auto| |by auto].
  destruct (check_target target) as [l|[status m]]; cbn [outcome_bind]; [done|]. destruct Ht as [-> Ht]. auto.
Qed.

(** at most fifty texts are translated at once *)
Theorem batches_are_bounded texts source target b :
  post_translate_batch (Some texts) source target = Return b ->
  (1 <= length texts <= 50)%nat /\ exists l, target = Some (langCodeMap l) /\ b = translateBatch texts source l.
Proof.
  unfold post_translate_batch. pose proof (check_target_spec target) as Ht. destruct texts as [|t texts]; [done|].
  destruct (check_target target) as [l|]; cbn [outcome_bind]; [|done]. destruct (Nat.ltb_spec 50 (length (t :: texts))); [done|].
  intros H'. injection H' as <-. split; [cbn [length] in *; lia|]. by exists l.
Qed.

Lemma batches_are_bounded_witness :
  exists b, post_translate_batch (Some [js "a"]) None (Some (js "ja")) = Return b /\ (1 <= length [js "a"] <= 50)%nat /\ length (requests b) = 1%nat.
Proof.
  destruct (post_translate_batch (Some [js "a"]) None (Some (js "ja"))) as [b|] eqn:E; [|vm_compute in E; discriminate].
  exists b. split; [done|]. destruct (batches_are_bounded _ _ _ _ E) as [Hl (l & _ & ->)]. split; [exact Hl|reflexivity].
Defined.
