(* ===== verification/Lifecycle.v ===== *)
(** * The life of bots

    [src/livekit/voice-bot.service.ts]: the start of a bot, the intervals that watch its
    room, its end, and the map of active rooms that they share.

    Every start makes an object of the room, which is named by a number; handlers of its
    events and intervals refer to the room by its identifier, and find the context of
    whichever bot is active there.  The machine runs the synchronous pieces between the
    waits in any order.  What the ticks of the intervals send is modelled in [Stats] and
    [Boards]; here they look for the room, end when there is none, and the one for
    forgotten calls changes the context. *)

From Stdlib Require Import ZArith Lia.
From stdpp Require Import base strings option sets list relations.
From S2P Require Import Prelude JsString JsMap Records Json Room Async Bot Handlers.

#[local] Open Scope Z_scope.

(* ------------------------------------------------------------------ *)
(** ** State *)

(** The intervals of a room *)
Inductive Kind := ArmedTimeout | SilentParticipants | TopicSummary | SpeakingStats.

#[export] Instance Kind_eq_dec : EqDecision Kind.
Proof. solve_decision. Defined.

(** The object of the bot that started it belongs to an interval: the library ends those
    it has registered when this object is disconnected *)
Record Interval := mkInterval { i_kind : Kind; i_room : jsstr; i_bot : nat }.

#[export] Instance Interval_eq_dec : EqDecision Interval.
Proof. solve_decision. Defined.

(** Where a start waits: for the connection, for the publication of the track of the bot,
    or for the end of the first of the tracks that were there when it joined *)
Inductive Phase := Connecting | Publishing (topic : option jsstr) | Reading (tracks : list jsstr).

Record Site := mkSite {
  bots : list jsstr;                                 (** rooms of the objects, by number *)
  starts : jsmap nat Phase;
  activeRooms : jsmap jsstr (nat * RoomContext);
  intervals : list Interval;
  stops : list (jsstr * nat)
}.

#[export] Instance Site_eta : Eta Site := fun s => mkSite (bots s) (starts s) (activeRooms s) (intervals s) (stops s).

Definition nothing : Site := mkSite [] [] [] [] [].

(* ------------------------------------------------------------------ *)
(** ** Start *)

(** The topic in the metadata of a room; metadata that is no object with a text is ignored *)
Definition metadata_topic (metadata : jsstr) : option jsstr :=
  match metadata with
  | [] => None
  | _ => match Json.parse metadata with
         | Some v => match prop v (js "topic") with Some (JStr t) => Some t | _ => None end
         | None => None
         end
  end.

Definition startBot (s : Site) (roomId : jsstr) : Site :=
  if map_has (activeRooms s) roomId then s
  else s <| starts := map_set (starts s) (length (bots s)) Connecting |> <| bots := bots s ++ [roomId] |>.

(** [room.connect] has resolved *)
Definition connected (s : Site) (bot : nat) (metadata : jsstr) : Site :=
  match map_get (starts s) bot with
  | Some Connecting => s <| starts := map_set (starts s) bot (Publishing (metadata_topic metadata)) |>
  | _ => s
  end.

(** [room.connect] or [publishTrack] has failed *)
Definition start_failed (s : Site) (bot : nat) : Site :=
  match map_get (starts s) bot with
  | Some (Reading _) | None => s
  | Some _ => s <| starts := map_delete (starts s) bot |>
  end.

Definition room_intervals (roomId : jsstr) (bot : nat) : list Interval :=
  (fun k => mkInterval k roomId bot) <$> [ArmedTimeout; SilentParticipants; TopicSummary; SpeakingStats].

(** A start goes on with the tracks it still has to read *)
Definition read_tracks (s : Site) (bot : nat) (tracks : list jsstr) : Site :=
  s <| starts := match tracks with [] => map_delete (starts s) bot | _ => map_set (starts s) bot (Reading tracks) end |>.

(** Participants of the room with the numbers of their audio tracks that are there *)
Definition existing_tracks (participants : list (jsstr * nat)) : list jsstr :=
  participants ≫= fun p => if starts_with p.1 (js "ai-bot") then [] else replicate p.2 p.1.

(** The track of the bot has been published *)
Definition published (s : Site) (bot : nat) (participants : list (jsstr * nat)) (now : Z) : Site :=
  match map_get (starts s) bot, bots s !! bot with
  | Some (Publishing topic), Some roomId =>
    let context := (initial_context topic now) <| statsUpdateInterval := true |> in
    let s := s <| activeRooms := map_set (activeRooms s) roomId (bot, context) |>
               <| intervals := intervals s ++ room_intervals roomId bot |> in
    read_tracks s bot (existing_tracks participants)
  | _, _ => s
  end.

(** The first of the tracks has ended, and [handleAudioTrack] returns *)
Definition track_ended (s : Site) (bot : nat) : Site :=
  match map_get (starts s) bot with
  | Some (Reading (_ :: tracks)) => read_tracks s bot tracks
  | _ => s
  end.

(* ------------------------------------------------------------------ *)
(** ** Intervals *)

Definition remove_interval (i : Interval) (l : list Interval) : list Interval := filter (fun j => j <> i) l.

Definition tick (s : Site) (i : Interval) (now : Z) : Site :=
  if bool_decide (i ∈ intervals s) then
    match map_get (activeRooms s) (i_room i) with
    | None => s <| intervals := remove_interval i (intervals s) |>
    | Some (bot, c) =>
      match i_kind i with
      | ArmedTimeout => s <| activeRooms := map_set (activeRooms s) (i_room i) (bot, armed_timeout_tick c now) |>
      | _ => s
      end
    end
  else s.

(** The context of a room that is put to rest *)
Definition resting (c : RoomContext) : RoomContext :=
  let p := proactiveAnalysis c in
  c <| standbyMode := true |> <| statsUpdateInterval := false |>
    <| proactiveAnalysis := mkProactive (pa_enabled p) (lastAnalysisTime p) (lastScreenTextHash p) (lastConversationHash p) false |>
    <| botState := SLEEP |>.

Definition standby (s : Site) (roomId : jsstr) : Site :=
  match map_get (activeRooms s) roomId with
  | Some (bot, c) =>
    if standbyMode c then s
    else let s := s <| activeRooms := map_set (activeRooms s) roomId (bot, resting c) |> in
         if statsUpdateInterval c then s <| intervals := remove_interval (mkInterval SpeakingStats roomId bot) (intervals s) |> else s
  | None => s
  end.

(* ------------------------------------------------------------------ *)
(** ** End *)

Definition cleanupRoom (s : Site) (roomId : jsstr) : Site := s <| activeRooms := map_delete (activeRooms s) roomId |>.

(** The object of a bot is disconnected: its handlers in the order of registration *)
Definition disconnected (s : Site) (bot : nat) : Site :=
  match bots s !! bot with
  | None => s
  | Some roomId =>
    let s := cleanupRoom s roomId in
    s <| intervals := filter (fun i => ~ (i_bot i = bot /\ (i_kind i = SilentParticipants \/ i_kind i = TopicSummary))) (intervals s) |>
  end.

(** [stopBot] up to its wait for the library *)
Definition stopBot (s : Site) (roomId : jsstr) : Site :=
  match map_get (activeRooms s) roomId with
  | Some (bot, _) => s <| stops := stops s ++ [(roomId, bot)] |>
  | None => s
  end.

(** [context.room.disconnect()] has resolved *)
Definition stop_finished (s : Site) (k : nat) : Site :=
  match stops s !! k with
  | Some (roomId, _) => s <| stops := delete k (stops s) |> <| activeRooms := map_delete (activeRooms s) roomId |>
  | None => s
  end.

(** [context.room.disconnect()] has failed *)
Definition stop_failed (s : Site) (k : nat) : Site := s <| stops := delete k (stops s) |>.

Definition isActive (s : Site) (roomId : jsstr) : bool := map_has (activeRooms s) roomId.

(* ------------------------------------------------------------------ *)
(** ** Steps *)

Inductive step (s : Site) : Site -> Prop :=
| step_start roomId : step s (startBot s roomId)
| step_connected bot metadata : step s (connected s bot metadata)
| step_start_failed bot : step s (start_failed s bot)
| step_published bot participants now : step s (published s bot participants now)
| step_track_ended bot : step s (track_ended s bot)
| step_tick i now : step s (tick s i now)
| step_standby roomId : step s (standby s roomId)
| step_disconnected bot : step s (disconnected s bot)
| step_stop roomId : step s (stopBot s roomId)
| step_stop_finished k : step s (stop_finished s k)
| step_stop_failed k : step s (stop_failed s k)
(** other handlers of a room: none but those above puts it to rest *)
| step_handler roomId bot c c' :
    map_get (activeRooms s) roomId = Some (bot, c) -> standbyMode c' = standbyMode c ->
    step s (s <| activeRooms := map_set (activeRooms s) roomId (bot, c') |>).

Definition reachable : Site -> Prop := rtc step nothing.

(* ------------------------------------------------------------------ *)
(** ** Invariant *)

(** An active room belongs to a bot that was started for it, and all of its intervals
    run; the one that reports speaking times ends when the room is put to rest *)
Definition watched (s : Site) (roomId : jsstr) (entry : nat * RoomContext) : Prop :=
  bots s !! entry.1 = Some roomId /\
  forall k, (k = SpeakingStats /\ standbyMode entry.2 = true) \/ mkInterval k roomId entry.1 ∈ intervals s.

Definition all_watched (s : Site) : Prop := forall roomId entry, map_get (activeRooms s) roomId = Some entry -> watched s roomId entry.

(** States that keep the rooms, and lose none of the intervals of active ones *)
Lemma watched_mono s s' roomId entry :
  (forall b r, bots s !! b = Some r -> bots s' !! b = Some r) ->
  (forall i, i_room i = roomId -> i_bot i = entry.1 -> i ∈ intervals s -> i ∈ intervals s') ->
  watched s roomId entry -> watched s' roomId entry.
Proof. intros Hb Hi [H1 H2]. split; [by apply Hb|]. intros k. destruct (H2 k) as [H|H]; [by left|right]. by apply Hi. Qed.

Lemma watched_entry s roomId bot c c' : standbyMode c' = standbyMode c -> watched s roomId (bot, c) -> watched s roomId (bot, c').
Proof. intros E [H1 H2]. split; [done|]. cbn [fst snd] in *. by rewrite E. Qed.

Lemma room_intervals_all roomId bot k : mkInterval k roomId bot ∈ room_intervals roomId bot.
Proof. unfold room_intervals. apply list_elem_of_fmap. exists k. split; [done|]. destruct k; set_solver. Qed.

Lemma armed_timeout_standby c now : standbyMode (armed_timeout_tick c now) = standbyMode c.
Proof. unfold armed_timeout_tick. by case_match. Qed.

Lemma elem_of_remove i j l : i ∈ remove_interval j l <-> i <> j /\ i ∈ l.
Proof. unfold remove_interval. by rewrite list_elem_of_filter. Qed.

Lemma read_tracks_watched s bot tracks : all_watched s -> all_watched (read_tracks s bot tracks).
Proof. intros H. by destruct tracks. Qed.

Lemma startBot_watched s roomId : all_watched s -> all_watched (startBot s roomId).
Proof.
  intros H. unfold startBot. destruct (map_has (activeRooms s) roomId); [done|]. intros r e Hr. apply (watched_mono s); [|done|by apply H].
  intros b r' Hb. cbn. by apply lookup_app_l_Some.
Qed.

Lemma published_watched s bot participants now : all_watched s -> all_watched (published s bot participants now).
Proof.
  intros H. unfold published. destruct (map_get (starts s) bot) as [[]|]; [done| |done|done]. destruct (bots s !! bot) as [roomId|] eqn:E; [|done].
  cbv zeta. apply read_tracks_watched. intros r e Hr. cbn in Hr. rewrite map_get_set in Hr. case_decide as D.
  - injection Hr as <-. subst r. split; [done|]. intros k. right. cbn. apply elem_of_app. right. apply room_intervals_all.
  - apply (watched_mono s); [done|intros i _ _ Hi; cbn; set_solver|by apply H].
Qed.

Lemma set_entry_watched s roomId bot c c' :
  all_watched s -> map_get (activeRooms s) roomId = Some (bot, c) -> standbyMode c' = standbyMode c ->
  all_watched (s <| activeRooms := map_set (activeRooms s) roomId (bot, c') |>).
Proof.
  intros H Hc E r e Hr. cbn in Hr. rewrite map_get_set in Hr. case_decide as D; [|by apply H]. injection Hr as <-. subst r.
  by apply (watched_entry _ _ _ c), H.
Qed.

Lemma tick_watched s i now : all_watched s -> all_watched (tick s i now).
Proof.
  intros H. unfold tick. case_bool_decide; [|done]. destruct (map_get (activeRooms s) (i_room i)) as [[bot c]|] eqn:E.
  - destruct (i_kind i); [|done..]. apply (set_entry_watched _ _ _ c); [done|done|apply armed_timeout_standby].
  - intros r e Hr. apply (watched_mono s); [done| |by apply H]. intros j Hj _ Hi. cbn. apply elem_of_remove. split; [|done]. intros ->. cbn in Hr. congruence.
Qed.

Lemma standby_watched s roomId : all_watched s -> all_watched (standby s roomId).
Proof.
  intros H. unfold standby. destruct (map_get (activeRooms s) roomId) as [[bot c]|] eqn:E; [|done]. destruct (standbyMode c) eqn:Es; [done|].
  assert (watched s roomId (bot, c)) as [Hb Hk] by by apply H. cbn [fst snd] in Hb, Hk.
  destruct (statsUpdateInterval c) eqn:Eu; intros r e Hr; cbn in Hr; rewrite map_get_set in Hr; case_decide as D.
  - injection Hr as <-. subst r. split; [done|]. intros k. destruct (decide (k = SpeakingStats)) as [->|Hn]; [by left|right].
    cbn. apply elem_of_remove. split; [congruence|]. destruct (Hk k) as [[? _]|?]; done.
  - assert (watched s r e) as He by by apply H. apply (watched_mono s); [done| |done]. intros i Hi _ Hin. cbn. apply elem_of_remove. split; [|done]. intros ->. by apply D.
  - injection Hr as <-. subst r. split; [done|]. intros k. destruct (Hk k) as [[-> _]|Hi]; [by left|by right].
  - by apply (H r e).
Qed.

Lemma delete_watched s roomId : all_watched s -> all_watched (s <| activeRooms := map_delete (activeRooms s) roomId |>).
Proof. intros H r e Hr. cbn in Hr. apply map_get_delete_Some in Hr as [_ Hr]. by apply (H r e). Qed.

Lemma disconnected_watched s bot : all_watched s -> all_watched (disconnected s bot).
Proof.
  intros H. unfold disconnected. destruct (bots s !! bot) as [roomId|] eqn:E; [|done]. intros r e Hr. cbn in Hr. apply map_get_delete_Some in Hr as [Hn Hr].
  pose proof (H r e Hr) as He. apply (watched_mono s); [done| |done]. intros i _ Hb Hi. cbn. apply list_elem_of_filter. split; [|done].
  intros [Hb' _]. destruct He as [He _]. congruence.
Qed.

Lemma step_watched s s' : step s s' -> all_watched s -> all_watched s'.
Proof.
  intros Hs H. destruct Hs.
  - by apply startBot_watched.
  - unfold connected. by destruct (map_get (starts s) bot) as [[]|].
  - unfold start_failed. by destruct (map_get (starts s) bot) as [[]|].
  - by apply published_watched.
  - unfold track_ended. destruct (map_get (starts s) bot) as [[| |[|t ts]]|]; try done.
  - by apply tick_watched.
  - by apply standby_watched.
  - by apply disconnected_watched.
  - unfold stopBot. by destruct (map_get (activeRooms s) roomId) as [[]|].
  - unfold stop_finished. destruct (stops s !! k) as [[roomId bot]|]; [|done]. intros r e Hr. exact (delete_watched s roomId H r e Hr).
  - done.
  - by apply (set_entry_watched _ _ _ c).
Qed.

Lemma reachable_watched s : reachable s -> all_watched s.
Proof.
  intros H. unfold reachable in H. assert (all_watched nothing) as H0 by done. revert H0. induction H as [|s1 s2 s3 Hs _ IH]; [done|]. intros H0. apply IH. by eapply step_watched.
Qed.

(* ------------------------------------------------------------------ *)
(** ** Properties *)

(** C25: whatever happens on the event loop, starts and ends that overlap included, every
    active room is watched: its bot was started for it, the intervals for forgotten
    calls, silent participants and topics run, and that for speaking times runs until
    the room is put to rest; and a call that is forgotten for more than thirty seconds
    is given up at the next tick of the interval of this bot. *)
Theorem active_rooms_are_watched s roomId bot c :
  reachable s -> map_get (activeRooms s) roomId = Some (bot, c) ->
  bots s !! bot = Some roomId /\
  (forall k, k <> SpeakingStats \/ standbyMode c = false -> mkInterval k roomId bot ∈ intervals s) /\
  (forall now, botState c = ARMED -> lastInteractionTime c + ARMED_TIMEOUT_MS < now ->
     exists c', map_get (activeRooms (tick s (mkInterval ArmedTimeout roomId bot) now)) roomId = Some (bot, c') /\ botState c' = SLEEP /\ activeUserId c' = None).
Proof.
  intros Hs Hc. destruct (reachable_watched s Hs roomId (bot, c) Hc) as [Hb Hk]. cbn [fst snd] in Hb, Hk. split; [done|]. split.
  - intros k Hn. destruct (Hk k) as [[-> E]|Hi]; [|done]. destruct Hn; congruence.
  - intros now Ha Ht. unfold tick. rewrite bool_decide_true; [|destruct (Hk ArmedTimeout) as [[]|]; done]. cbn [i_room i_kind]. rewrite Hc.
    eexists. cbn. rewrite map_get_set_eq. split; [reflexivity|]. unfold armed_timeout_tick. rewrite bool_decide_true by done.
    destruct (Z.ltb_spec ARMED_TIMEOUT_MS (now - lastInteractionTime c)); [done|lia].
Qed.

(** A bot that has been started in a room *)
Definition one_bot (roomId : jsstr) : Site := published (connected (startBot nothing roomId) 0 []) 0 [] 0.

Lemma one_bot_reachable roomId : reachable (one_bot roomId).
Proof.
  unfold reachable, one_bot. eapply rtc_l; [apply step_start|]. eapply rtc_l; [apply step_connected|]. eapply rtc_l; [apply step_published|]. apply rtc_refl.
Qed.

Definition armed_context : RoomContext := (initial_context None 0) <| statsUpdateInterval := true |> <| botState := ARMED |>.

Definition armed_site : Site :=
  let s := one_bot (js "r") in s <| activeRooms := map_set (activeRooms s) (js "r") (0%nat, armed_context) |>.

Lemma active_rooms_are_watched_witness :
  mkInterval TopicSummary (js "r") 0 ∈ intervals armed_site /\
  exists c', map_get (activeRooms (tick armed_site (mkInterval ArmedTimeout (js "r") 0) 30001)) (js "r") = Some (0%nat, c') /\ botState c' = SLEEP.
Proof.
  destruct (active_rooms_are_watched armed_site (js "r") 0 armed_context) as (_ & H1 & H2).
  - eapply rtc_r; [apply (one_bot_reachable (js "r"))|]. eapply (step_handler _ _ _ ((initial_context None 0) <| statsUpdateInterval := true |>)); reflexivity.
  - reflexivity.
  - split; [apply H1; by left|]. destruct (H2 30001) as (c' & Hc & Hb & _); [reflexivity|vm_compute; reflexivity|]. eauto.
Defined.

(** Ticks of some intervals, all at one time *)
Definition ticks (s : Site) (l : list Interval) (now : Z) : Site := foldl (fun s i => tick s i now) s l.

Lemma ticks_inactive s l now roomId : map_get (activeRooms s) roomId = None ->
  map_get (activeRooms (ticks s l now)) roomId = None /\
  forall i, i_room i = roomId -> i ∈ intervals (ticks s l now) -> i ∈ intervals s /\ i ∉ l.
Proof.
  revert s. induction l as [|j l IH]; intros s H; [split; [done|]; intros i _ Hi; split; [done|apply not_elem_of_nil]|]. cbn [ticks foldl].
  assert (map_get (activeRooms (tick s j now)) roomId = None) as H'.
  { unfold tick. case_bool_decide; [|done]. destruct (map_get (activeRooms s) (i_room j)) as [[bot c]|] eqn:E; [|done]. destruct (i_kind j); [|done..].
    cbn. rewrite map_get_set_ne; [done|]. congruence. }
  destruct (IH _ H') as [H1 H2]. split; [exact H1|]. intros i Hr Hi. destruct (H2 i Hr Hi) as [H3 H4].
  assert (i ∈ intervals s /\ i <> j) as [H5 H6]; [|split; [done|]; set_solver].
  unfold tick in H3. case_bool_decide as D.
  - destruct (map_get (activeRooms s) (i_room j)) as [[bot c]|] eqn:E.
    + split; [by destruct (i_kind j)|]. intros ->. congruence.
    + cbn in H3. apply elem_of_remove in H3. tauto.
  - split; [done|]. by intros ->.
Qed.

(** intervals end with their room: when a room has no bot any more, a tick of each of
    its intervals leaves none of them. *)
Theorem intervals_end s l now roomId :
  map_get (activeRooms s) roomId = None -> (forall i, i ∈ intervals s -> i_room i = roomId -> i ∈ l) ->
  Forall (fun i => i_room i <> roomId) (intervals (ticks s l now)).
Proof.
  intros H Hl. apply Forall_forall. intros i Hi Hr. destruct (ticks_inactive s l now roomId H) as [_ Ht]. destruct (Ht i Hr Hi) as [H1 H2]. by apply H2, Hl.
Qed.

Lemma intervals_end_witness :
  let s := disconnected (one_bot (js "r")) 0 in
  length (intervals s) = 2%nat /\ Forall (fun i => i_room i <> js "r") (intervals (ticks s (intervals s) 7)).
Proof. cbv zeta. split; [reflexivity|]. apply intervals_end; [reflexivity|]. done. Defined.

(** The number of reports of speaking times that a room gets in each period *)
Definition reporters (s : Site) (roomId : jsstr) : nat :=
  length (filter (fun i => i_kind i = SpeakingStats /\ i_room i = roomId) (intervals s)).

Lemma active_ticks s l now roomId entry : map_get (activeRooms s) roomId = Some entry ->
  is_Some (map_get (activeRooms (ticks s l now)) roomId) /\ (reporters s roomId <= reporters (ticks s l now) roomId)%nat.
Proof.
  revert s entry. induction l as [|j l IH]; intros s entry H; [by eauto|]. cbn [ticks foldl].
  assert (is_Some (map_get (activeRooms (tick s j now)) roomId) /\ (reporters s roomId <= reporters (tick s j now) roomId)%nat) as [[e' H'] Hr].
  { unfold tick. case_bool_decide; [|by eauto]. destruct (map_get (activeRooms s) (i_room j)) as [[bot c]|] eqn:E.
    - destruct (i_kind j); [|by eauto..]. split; [|done]. cbn. rewrite map_get_set. case_decide; eauto.
    - split; [by eauto|]. unfold reporters. cbn. unfold remove_interval. apply Nat.eq_le_incl. f_equal. clear -E H.
      induction (intervals s) as [|i l IH]; [done|]. rewrite !filter_cons. destruct (decide (i <> j)) as [D|D].
      + rewrite filter_cons. destruct (decide _); [by f_equal|done].
      + apply dec_stable in D. subst i. rewrite decide_False; [done|]. intros [_ Hr]. rewrite Hr in E. congruence. }
  destruct (IH _ _ H') as [H1 H2]. split; [exact H1|]. unfold ticks in *. lia.
Qed.

Lemma one_bot_left roomId :
  disconnected (one_bot roomId) 0 = mkSite [roomId] [] [] [mkInterval ArmedTimeout roomId 0; mkInterval SpeakingStats roomId 0] [].
Proof.
  assert (one_bot roomId = mkSite [roomId] [] [(roomId, (0%nat, (initial_context None 0) <| statsUpdateInterval := true |>))] (room_intervals roomId 0) []) as -> by reflexivity.
  unfold disconnected, cleanupRoom, map_delete. cbn [bots lookup list_lookup activeRooms set_field]. rewrite filter_cons, decide_False by (intros H; by apply H). reflexivity.
Qed.

(** a bot that is started again before the intervals of the earlier one have noticed its
    end takes them over: the room gets its reports of speaking times twice, for as long
    as it stays active. *)
Theorem restart_doubles_reports roomId now l :
  let again := published (connected (startBot (disconnected (one_bot roomId) 0) roomId) 1 []) 1 [] now in
  (2 <= reporters (ticks again l now) roomId)%nat.
Proof.
  cbv zeta. set (again := published _ _ _ _).
  assert (intervals again = [mkInterval ArmedTimeout roomId 0; mkInterval SpeakingStats roomId 0] ++ room_intervals roomId 1 /\
          is_Some (map_get (activeRooms again) roomId)) as [Hi [e He]].
  { subst again. rewrite one_bot_left. split; [reflexivity|]. exists (1%nat, (initial_context None now) <| statsUpdateInterval := true |>).
    exact (map_get_set_eq [] roomId (1%nat, (initial_context None now) <| statsUpdateInterval := true |>)). }
  destruct (active_ticks again l now roomId e He) as [_ H]. enough (reporters again roomId = 2%nat) by lia. unfold reporters. rewrite Hi. cbn [room_intervals fmap list_fmap app].
  rewrite !filter_cons. cbn [i_kind i_room filter list_filter]. repeat case_decide; try reflexivity; exfalso; tauto || intuition congruence.
Qed.

Lemma read_tracks_other s b tracks bot : b <> bot -> map_get (starts (read_tracks s b tracks)) bot = map_get (starts s) bot.
Proof. intros H. destruct tracks; [exact (map_get_delete_ne _ _ _ H)|exact (map_get_set_ne _ _ _ _ H)]. Qed.

(** tracks that are there when a bot joins are read one after another: while the first
    has not ended nothing else changes what the start waits for, so that the participants
    after it are not heard and the start does not return. *)
Theorem tracks_are_read_in_turn s s' bot first others :
  map_get (starts s) bot = Some (Reading (first :: others)) -> (bot < length (bots s))%nat -> step s s' ->
  map_get (starts s') bot = Some (Reading (first :: others)) \/ s' = track_ended s bot.
Proof.
  intros H Hb Hs.
  destruct Hs as [roomId|b metadata|b|b participants now|b|i now|roomId|b|roomId|k|k|roomId b c c' _ _].
  - left. unfold startBot. destruct (map_has _ _); [done|]. cbn. rewrite map_get_set_ne; [done|lia].
  - left. unfold connected. destruct (map_get (starts s) b) as [[]|] eqn:E; [|done..]. cbn. rewrite map_get_set_ne; [done|congruence].
  - left. unfold start_failed. destruct (map_get (starts s) b) as [[]|] eqn:E; [| |done..]; cbn; rewrite map_get_delete_ne; congruence.
  - left. unfold published. destruct (map_get (starts s) b) as [[]|] eqn:E; [done| |done..]. destruct (bots s !! b); [|done]. cbv zeta. rewrite read_tracks_other by congruence. done.
  - destruct (decide (b = bot)) as [->|Hn]; [by right|left]. unfold track_ended. destruct (map_get (starts s) b) as [[| |[|t ts]]|]; try done. by rewrite read_tracks_other.
  - left. unfold tick. case_bool_decide; [|done]. destruct (map_get (activeRooms s) (i_room i)) as [[]|]; [|done]. by destruct (i_kind i).
  - left. unfold standby. destruct (map_get (activeRooms s) roomId) as [[b c]|]; [|done]. destruct (standbyMode c); [done|]. by destruct (statsUpdateInterval c).
  - left. unfold disconnected. by destruct (bots s !! b).
  - left. unfold stopBot. by destruct (map_get (activeRooms s) roomId) as [[]|].
  - left. unfold stop_finished. by destruct (stops s !! k) as [[]|].
  - by left.
  - by left.
Qed.

(** A bot in a room with two participants, one with an audio track and one with two *)
Definition joined_bot : Site := published (connected (startBot nothing (js "r")) 0 (jq "{`topic`:`t`}")) 0 [(js "ai-bot-1", 1%nat); (js "kim", 1%nat); (js "lee", 2%nat)] 0.

Lemma tracks_are_read_in_turn_witness :
  map_get (starts (tick joined_bot (mkInterval SpeakingStats (js "r") 0) 5)) 0%nat = Some (Reading [js "kim"; js "lee"; js "lee"]) /\
  map_get (starts (track_ended joined_bot 0)) 0%nat = Some (Reading [js "lee"; js "lee"]) /\
  (roomTopic ∘ snd <$> map_get (activeRooms joined_bot) (js "r")) = Some (Some (js "t")).
Proof.
  split; [|split; vm_compute; reflexivity].
  destruct (tracks_are_read_in_turn joined_bot (tick joined_bot (mkInterval SpeakingStats (js "r") 0) 5) 0 (js "kim") [js "lee"; js "lee"]) as [H|H];
    [vm_compute; reflexivity|vm_compute; lia|apply step_tick|exact H|]. exfalso. apply (f_equal starts) in H. vm_compute in H. discriminate.
Defined.

(** the end of a connection removes the room from the active ones whichever bot is
    active there: of two bots of a room the one whose connection ends takes the room
    from the other, which stays in the meeting and is no longer found. *)
Theorem disconnect_drops_other_bot s old new roomId c :
  bots s !! old = Some roomId -> map_get (activeRooms s) roomId = Some (new, c) -> old <> new -> isActive (disconnected s old) roomId = false.
Proof. intros H _ _. unfold disconnected, isActive, map_has. rewrite H. cbn. by rewrite map_get_delete_eq. Qed.

Definition two_bots : Site :=
  let s := startBot (startBot nothing (js "r")) (js "r") in
  published (published (connected (connected s 0 []) 1 []) 0 [] 0) 1 [] 0.

Lemma disconnect_drops_other_bot_witness :
  isActive two_bots (js "r") = true /\ isActive (disconnected two_bots 0) (js "r") = false /\
  mkInterval SilentParticipants (js "r") 1 ∈ intervals (disconnected two_bots 0).
Proof.
  split; [vm_compute; reflexivity|]. split.
  - apply (disconnect_drops_other_bot two_bots 0 1 (js "r") ((initial_context None 0) <| statsUpdateInterval := true |>)); [vm_compute; reflexivity..|lia].
  - apply (bool_decide_unpack _). vm_compute. exact I.
Defined.

(* ------------------------------------------------------------------ *)
(** ** Removal of a room *)

Inductive Removal := StopsBot | DeletesRoom | RequestsCleanup (url : jsstr).

Definition cleanup_url (backend : option jsstr) : jsstr :=
  (match backend with Some ((_ :: _) as b) => b | _ => js "http://backend:3002" end) ++ js "/restapi/internal/room-cleanup".

(** [stopBotWithCleanup]: what is asked for, from the result of stopping the bot.  The
    failures of the deletion and of the request to the database are caught. *)
Definition stopBotWithCleanup (backend : option jsstr) (stopped : outcome jsstr unit) : list Removal * outcome jsstr unit :=
  match stopped with
  | Throw m => ([StopsBot], Throw m)
  | Return _ => ([StopsBot; DeletesRoom; RequestsCleanup (cleanup_url backend)], Return tt)
  end.
