(* ===== verification/Endpoints.v ===== *)
(** * Endpoints that read

    The endpoints of [src/livekit/livekit.controller.ts], [src/mcp/mcp.controller.ts] and
    [src/recording/recording.controller.ts] that show the state of other services or
    pass a file on: the buffers of the retrieval client, the previous meeting, the active
    rooms, transcripts and contexts of diagrams, the list of recordings, and the trials of
    speech recognition and synthesis.

    [Response] is that of [LiveKit]: the answer, or the status and message of an
    [HttpException]. *)

From Stdlib Require Import ZArith QArith Lia.
From stdpp Require Import base strings option sets list.
From S2P Require Import Prelude JsString JsMap Json Records Dates Async Room Memory Diagram Bot Handlers RagClient Recording Stt Tts Proactive LiveKit.

#[local] Open Scope Z_scope.

(* ------------------------------------------------------------------ *)
(** ** Rooms *)

Record BufferAnswer := mkBuffer { buffer_room : jsstr; statements : list (jsstr * jsstr * Z); buffer_count : nat; formattedTranscript : jsstr }.

Definition getMockBufferContent (s : LiveState) (roomId : jsstr) : BufferAnswer :=
  let content := getBufferContent (LiveKit.rag s) roomId in
  mkBuffer roomId content (length content) (getFormattedTranscript (LiveKit.rag s) roomId).

(** The context of the previous meeting with its briefing *)
Definition getMockPreviousMeetingContext (s : LiveState) (roomId : jsstr) : option (MeetingContext * jsstr) :=
  (fun m => (m, formatPreviousMeetingBriefing (bot_rooms s) roomId)) <$> getPreviousMeetingContext (bot_rooms s) roomId.

Definition getActiveRoomIds (rooms : Rooms) : list jsstr := map_keys rooms.

Definition getActiveRooms (s : LiveState) : nat * list jsstr :=
  let rooms := getActiveRoomIds (bot_rooms s) in (length rooms, rooms).

Definition health (now : Z) : jsstr * jsstr := (js "ok", toISOString now).

(** [GET /mcp/transcript/:roomId] *)
Definition getTranscript (r : RagState) (roomId : jsstr) (now : Z) : jsstr * jsstr := (getFormattedTranscript r roomId, toISOString now).

(** [GET /mcp/diagram-contexts/:roomId]; [None] when the room is not found *)
Definition get_diagram_contexts (rooms : Rooms) (roomId : jsstr) (now : Z) : option (list (DiagramType * Summary) * jsstr) :=
  (fun summary => (summary, toISOString now)) <$> getDiagramContextsSummary rooms roomId.

(** [POST voice-bot/:roomId/vision-capture] *)
Definition receiveVisionCapture (validateImage : jsstr -> option jsstr) (requestId : Z) (image : jsstr) (random : Q) : program (Response jsstr) :=
  try_catch (bind (handleVisionCaptureResponse validateImage requestId image random) (fun _ => Ret (Ok (js "Vision 캡처 처리 시작"))))
    (fun m => Ret (Fails 500 (js "Vision 캡처 처리 실패: " ++ m))).

(* ------------------------------------------------------------------ *)
(** ** Trials of speech *)

Definition transcribeFromBuffer (s : SttService) (a : SttAnswers) (answer : jsstr -> outcome jsstr json) : outcome jsstr jsstr :=
  (r <-- rawTranscribeFromBuffer s a ;; Return (postProcess answer r))%aura.

(** Name, size and transcript of the file *)
Definition testStt (s : SttService) (a : SttAnswers) (answer : jsstr -> outcome jsstr json) (file : option (jsstr * Z)) : Response (jsstr * Z * jsstr) :=
  match file with
  | None => Fails 400 (js "오디오 파일이 필요합니다")
  | Some (name, size) =>
    match transcribeFromBuffer s a answer with
    | Return t => Ok (name, size, t)
    | Throw m => Fails 500 (js "STT 실패: " ++ m)
    end
  end.

Definition testTts (cfg : TtsConfig) (text : option jsstr) : tts (Response (list Z)) :=
  let text := match text with Some ((_ :: _) as t) => t | _ => js "안녕하세요, TTS 테스트입니다." end in
  try_catch (bind (synthesize cfg text) (fun audio => Ret (Ok audio))) (fun m => Ret (Fails 500 (js "TTS 실패: " ++ m))).

(* ------------------------------------------------------------------ *)
(** ** Recordings *)

Record EgressInfo := mkEgress { egressId : jsstr; egress_status : Z; e_startedAt : option Z; endedAt : option Z; fileResults : list json }.

(** [egressClient]: [None] when it is not configured, otherwise what [listEgress]
    answers *)
Definition getEgressInfo (egressClient : option (outcome jsstr (list EgressInfo))) : option EgressInfo :=
  match egressClient with
  | Some (Return (e :: _)) => Some e
  | _ => None
  end.

Definition listRoomEgresses (egressClient : option (outcome jsstr (list EgressInfo))) : list EgressInfo :=
  match egressClient with
  | Some (Return l) => l
  | _ => []
  end.

(** Room, recordings and their number *)
Definition listRecordings (egressClient : option (outcome jsstr (list EgressInfo))) (roomId : jsstr) : Response (jsstr * list EgressInfo * nat) :=
  match trim roomId with
  | [] => Fails 400 (js "roomId is required")
  | room => let l := listRoomEgresses egressClient in Ok (room, l, length l)
  end.

(* ------------------------------------------------------------------ *)
(** ** Properties *)

(** What a call of [LiveKit] leaves when it does not wait *)
Fixpoint run_now {State Eff A} (p : @prog State Eff A) (t : Z) (s : State) : option (State * A) :=
  match p with
  | Ret a => Some (s, a)
  | Get k => run_now (k t s) t s
  | Put s' k => run_now k t s'
  | _ => None
  end.

(** a conversation that is injected into a room is what its buffer shows after the one
    that was there: every utterance with its speaker, in the order given and with the
    time of the injection; it appears in the transcript that the tools get, and after
    the buffer was cleared nothing is shown. *)
Theorem injected_conversations_are_shown s t roomId utterances s' n :
  run_now (injectMockConversation roomId utterances) t s = Some (s', Ok n) ->
  let before := getMockBufferContent s roomId in
  let after := getMockBufferContent s' roomId in
  statements after = statements before ++ ((fun u => (u.1, u.2, t)) <$> utterances) /\
  buffer_count after = (buffer_count before + n)%nat /\
  (getTranscript (LiveKit.rag s') roomId t).1 = join nl ((fun x => x.1.1 ++ js ": " ++ x.1.2) <$> statements after) /\
  (forall room, room <> roomId -> statements (getMockBufferContent s' room) = statements (getMockBufferContent s room)) /\
  statements (getMockBufferContent (clearMockBuffer roomId s') roomId) = [].
Proof.
  destruct roomId as [|c roomId]; [done|]. destruct utterances as [|u utterances]; [done|]. cbn [injectMockConversation].
  set (room := c :: roomId). set (us := u :: utterances). intros H. cbn [run_now modify bind] in H. injection H as <- <-.
  cbv zeta. unfold getMockBufferContent, getTranscript, getBufferContent, getFormattedTranscript, injectMockStatements, clearMockBuffer, clearBuffer. cbn [LiveKit.rag statements buffer_count fst set_field statementBuffers].
  rewrite map_get_set_eq, map_get_delete_eq. cbn [default from_option id]. split; [rewrite fmap_app; f_equal; by rewrite <- list_fmap_compose|].
  split; [by rewrite fmap_app, length_app, !length_fmap|]. split; [by rewrite <- list_fmap_compose|]. split; [|done].
  intros other Ho. by rewrite map_get_set_ne.
Qed.

(** A server on which nothing has happened *)
Definition quiet_live : LiveState := mkLive [] (Proactive.clearCooldowns []) RagClient.initial.

Lemma injected_conversations_are_shown_witness :
  exists s', run_now (injectMockConversation (js "r") [(js "김", js "안녕"); (js "이", js "네")]) 5 quiet_live = Some (s', Ok 2%nat) /\
    formattedTranscript (getMockBufferContent s' (js "r")) = js "김: 안녕" ++ nl ++ js "이: 네" /\ statements (getMockBufferContent s' (js "r")) = [(js "김", js "안녕", 5); (js "이", js "네", 5)].
Proof.
  destruct (run_now (injectMockConversation (js "r") [(js "김", js "안녕"); (js "이", js "네")]) 5 quiet_live) as [[s' [n|]]|] eqn:E.
  - destruct (injected_conversations_are_shown _ _ _ _ _ _ E) as (H1 & H2 & H3 & _). exists s'. cbv zeta in *.
    assert (n = 2%nat) as -> by (apply (f_equal (fun o => match o with Some (_, Ok n) => n | _ => O end)) in E; vm_compute in E; congruence).
    split; [done|]. change (formattedTranscript (getMockBufferContent s' (js "r"))) with (getTranscript (LiveKit.rag s') (js "r") 5).1. rewrite H3, H1.
    split; vm_compute; reflexivity.
  - apply (f_equal (fun o => match o with Some (_, Ok _) => true | _ => false end)) in E. vm_compute in E. discriminate.
  - vm_compute in E. discriminate.
Defined.

(** a failure of the egress service is not reported: the list of the recordings of a
    room is then the same as that of a room without recordings. *)
Theorem failed_lists_look_empty m roomId : listRecordings (Some (Throw m)) roomId = listRecordings (Some (Return [])) roomId.
Proof. reflexivity. Qed.
